(* ===== verification/_CoqProject ===== *)
-Q . S2P
Prelude.v
RustStd.v
Effects.v
Domain.v
External.v
BridgeOps.v
Fixtures.v
AuditStore.v
Nonce.v
Identity.v
Pki.v
Signing.v
SigningSpec.v
Vault.v
Refresh.v
Grpc.v
Consumer.v
ConsumerSpec.v
ConsumerProps.v
Concurrency.v
Reconnect.v
Supervision.v
Liveness.v
AuditTrail.v
Execution.v
PostgresBridge.v
EndToEnd.v
Providers.v
Sha256.v
RpcProvider.v
Stack.v
SolanaClient.v
Startup.v
F32.v
AgentMemory.v
MemoryLocks.v
Conformance.v
