(* ===== verification/Prelude.v ===== *)
(** * GridTokenX Chain Bridge: verification library

    The chain bridge is the only GridTokenX service that reaches Solana.  Other
    services ask it, over gRPC (mTLS) or NATS JetStream, to have a transaction
    checked against a policy, simulated, signed by a key that stays in HashiCorp
    Vault, and submitted; it keeps a hash-chained audit trail of every decision.
    This library models the Rust workspace under [src/crates] and proves what makes
    it correct.

    ** The parts of the program and the files that model them

    - Core domain (chain-bridge-core: error.rs, audit.rs, ports.rs): [Domain].
      Error and audit types with the source's constructors, [entry_hash] field by
      field, the audit port as the class [AuditPort] with its laws.
    - Audit stores (chain-bridge-persistence: postgres_audit.rs): [AuditStore].
      [InMemory] is [InMemoryAuditStore]; [Postgres] is [PostgresAuditStore], one
      call per SQL statement over a table whose ids are fresh; a statement may fail
      before or after it took effect.  [PostgresBridge] puts
      it under the whole bridge, its statements interleaved with everything else.
    - Nonce store (nonce_store.rs, core nonce.rs): [Nonce], the port and its
      PostgreSQL adapter.
    - Who is calling (middleware.rs, harness.rs, api/service.rs:290-324) and the
      NATS envelope check (nats_consumer/auth.rs): [Identity].  [Pki] adds the
      certificate-issuing and envelope-signing libraries, as classes with laws, and
      the unit tests of auth.rs and middleware.rs; [EndToEnd] follows a signed
      message from its publisher and a gRPC request from its TLS connection through
      all the layers.
    - The signing pipeline (api/service.rs:105-463): [Signing] has
      [sign_and_submit] cut at its numbered steps, the confirmation poll and the
      generation mint; [SigningSpec] the specification and the theorems.
    - The gRPC surface (api/service.rs:467-900): [Grpc], all eleven handlers, and
      [serve], the service as one function.
    - The NATS consumer (nats_consumer/consumer.rs, dedup.rs, mod.rs): [BridgeOps]
      has the dedup store and [claim_or_replay], [Consumer] the four handlers, the
      dispatch and the cleanup task, [ConsumerSpec] and [ConsumerProps] the
      specification of one delivery, [Concurrency] that of many, [Reconnect] that of
      several connections, [Liveness] how the process ends and when a submit
      succeeds, [AuditTrail] what the entries they append say, [Execution] their
      executions over an audit store.
    - Background tasks (main.rs, consumer.rs:78-242): [Refresh], the blockhash
      refresh; [Supervision], the reconnecting supervisor, the consumer's [start]
      with its two joined pull consumers and their resilience loops, and the
      dead-letter monitor.
    - The Vault client (vault.rs, and its copy vault_signer.rs): [Vault].
    - The Solana providers: [Providers] has the simnet provider of api/provider.rs
      over LiteSVM, [RpcProvider] its [RealSolanaProvider], request by request;
      [SolanaClient] the copies in chain-bridge-persistence (solana_client.rs,
      litesvm_sim.rs), the simnet one down to the guards of its lock, and the ports.
      [Stack] runs the signing pipeline over the RPC provider and the Vault client.
    - Process start-up (main.rs): [Startup].
    - The agent memory (agent_memory.rs): [AgentMemory], over binary32 floats and
      a stable sort in [F32]; [MemoryLocks] has the coordinator's methods down to
      the guards of its three locks.
    - The scratch program (scratch/calc_disc.rs): [Sha256], with an executable
      SHA-256 that is also an instance of the audit trail's hashing.
    - The unit tests of error.rs, audit.rs, postgres_audit.rs, vault.rs,
      vault_signer.rs and agent_memory.rs: [Conformance], each test a boolean
      definition over the model and a theorem that it passes.

    This file holds results, tactics and generic lemmas; [RustStd] the integers,
    bytes and strings of the standard library; [Effects] the command trees;
    [External] the third-party code the bridge calls, as classes of operations and,
    separately, of the laws the theorems use; [Fixtures] concrete instances of
    those classes for the examples.

    ** How code is modelled

    An [async fn] is a command tree ([Effects.prog]): a finite tree whose nodes are
    the calls that leave the function (an RPC, a Vault request, one access to a
    shared map, a publish, an ack, a clock reading) and whose branches are all the
    answers such a call can get.  [BridgeOps.bop] lists the calls.  A panic is a
    leaf of its own: it ends the tree, and in the release build, which aborts on a
    panic, the process ([aexec]).  The same definition is read in four ways: [runs], the traces
    it can produce when the environment answers anything; [exec], the same over a
    state that determines some answers ([bridge_sem]: the blockhash cache, the
    idempotency cache and the dedup store); [pexec], any interleaving of many trees
    over that shared state, one call at a time, which is how the runtime may
    schedule deliveries, gRPC requests and background tasks; and [run], which
    computes.
    Theorems about [runs], [exec] and [pexec] therefore hold for every behaviour of
    Solana, Vault, NATS, the database and the clock.  [always] and [obeys] (a
    monitor that steps on every call) are the proof rules.

    Integers are [Z] with the width written out ([as_u64], [u64_add], ...; the
    release profile wraps); a [DashMap] or [HashMap] is a [gmap]; an [anyhow]
    error is [AnyError], a typed stage or text.  Log lines are left out except
    where their arguments can panic ([log_signers]); metrics keep the name and the
    success flag.

    ** What the theorems show

    - At most once: all deliveries that share an idempotency key, however they, gRPC
      requests and the background tasks interleave, get at most one submission accepted within the
      120 s window ([at_most_once_per_key]); a mint that is on record is not submitted
      again ([recorded_mint_final]).  Without a key deliveries can race
      ([unkeyed_submit_races]), and a reconnect forgets the records
      ([reconnect_resubmits]).
    - Authorisation: what reaches the Vault or the chain was decoded from the
      request, accepted by the policy engine for the caller and signed only under
      [platform_admin] ([sign_and_submit_authorised], [send_after_sign],
      [simulation_gate]), down to the HTTP requests ([wire_send_vault_signed]); a
      submit or a mint has an effect only behind its gates
      ([submit_gated], [mint_gated]); RPC roles ([rpc_rbac]); where identities come
      from ([mtls_request_accountable], [signed_envelope_roundtrip],
      [enforced_policy_sound]), and when they do not
      come from the certificate ([mtls_silent_cert_passthrough]).
    - Messages: acknowledged once, replied to at most once, retried a bounded number
      of times, replayed from the record, left in a definite final state, blocked
      by a cancel ([message_lifecycle], [submit_retries_bounded],
      [done_record_replayed], [submit_final_state], [cancel_blocks_submit],
      [recorded_correlation_blocks], [status_read_only]).
    - Audit: the entries of a run are determined by its result
      ([audit_trail_complete]); an entry is attributed to the task that wrote it and
      reports no submission the node did not accept ([audit_entries_true]); an accepted submission is in the store once its
      delivery has returned ([accepted_submission_audited]); executions are tamper
      evident over every store that keeps the port's promise
      ([executions_tamper_evident]); the PostgreSQL store refines the in-memory one
      when undisturbed, also where it reports a failure ([postgres_refines_in_memory]);
      under the whole bridge its
      table stays a tree of linked entries ([postgres_trail_tree]) with a row for
      every accepted submission ([accepted_submission_row]).  What the digest and the
      two-statement append do not give is stated as well ([AuditStore]).
    - Liveness and bounds: how the process ends, with every message acknowledged or
      by the panic of a task with a poisonous transaction, and what an abort leaves
      behind ([process_stops], [sign_and_submit_panics_iff]); a submit that nothing stands in the way of succeeds
      ([favourable_submit_succeeds]), from the publisher's signature to the reply
      ([publisher_submit_succeeds]); the pipeline takes its blockhash from the cache
      ([cached_blockhash_hot_path]); a handler waits for less time than its message is
      leased ([leases_cover_waits]); when the consumer gives up
      ([consumer_gives_up_iff]) and what a reconnect leaves behind ([Supervision]); a nonce is leased again only after a release
      ([nonce_leases_exclusive]).
    - Start-up: plaintext and the development key only together and only when asked
      for ([startup_fails_closed]), one service behind both surfaces
      ([startup_wiring]).
    - The providers: the relocated simnet provider is the service's, and its lock
      cannot deadlock ([SolanaClient]); on the simnet the simulation gate is inert
      ([Providers]); the seeded accounts carry the discriminators of their types
      ([Sha256]).
    - The agent memory: what a query ([query_spec]) and a consolidation do; its
      locks cannot deadlock ([memory_locks_live]) and interleaved consolidations
      lose no message ([consolidation_atomic]).

    ** Fuel and bounds

    Handlers need no fuel: their trees are finite because the source's loops are
    ([resolve_confirmation] polls 24 times, a submit retries three times).  The
    tasks that loop for ever ([refresh_task], [supervise], [consumer_loop],
    [dlq_loop], [cleanup_task]) take their number of rounds as an argument and the
    theorems hold for every number.  The at-most-once theorems ask that the clock
    readings lie in one 120 s window, the life of a claim, and that times do not
    reach the end of [u64].

    ** What is not modelled

    Generated protobuf code and build scripts; the byte streams of harness.rs
    ([poll_read], [poll_write], [poll_flush], [poll_shutdown] forward to the TLS
    stream) and the [poll_ready] methods; accessors that only return a field; the
    integration tests kept in files of their own (api/tests.rs,
    nats_consumer/tests.rs and the crates' tests directories).  Third-party code
    (the Solana SDK and RPC client, LiteSVM, rustls, rcgen, async-nats, sqlx, serde)
    and the [gridtokenx-blockchain-core] crate (roles, policy engine, envelope bytes
    and signer, mint instructions), which are not in the repository, are class
    parameters; the laws asked of them are classes of their own with concrete
    instances.

    ** Plan

    Next: the integration tests as conformance theorems, and where each blockhash
    that is signed came from when the refresh task and the pipeline interleave. *)

From stdpp Require Export base tactics list gmap strings pretty.
From Stdlib Require Export ZArith Lia.

(** ** Results

    Rust's [Result<A, E>].  The bridge threads its failures through [?], so the
    type comes with the bind notation of that operator. *)

Inductive result (A E : Type) : Type :=
| Ok (a : A)
| Err (e : E).

Arguments Ok {A E} a.
Arguments Err {A E} e.

Declare Scope bridge_scope.
Delimit Scope bridge_scope with bridge.
Open Scope bridge_scope.

Definition result_bind {A B E : Type} (m : result A E) (f : A -> result B E) : result B E :=
  match m with
  | Ok a => f a
  | Err e => Err e
  end.

Definition map_err {A E F : Type} (f : E -> F) (m : result A E) : result A F :=
  match m with
  | Ok a => Ok a
  | Err e => Err (f e)
  end.

Definition is_ok {A E : Type} (m : result A E) : bool :=
  match m with
  | Ok _ => true
  | Err _ => false
  end.

Definition is_err {A E : Type} (m : result A E) : bool := negb (is_ok m).

Definition ok_or {A E : Type} (m : option A) (e : E) : result A E :=
  match m with
  | Some a => Ok a
  | None => Err e
  end.

(** [unwrap_or]: the [Option] method the handlers use for their defaults. *)
Definition unwrap_or {A : Type} (m : option A) (d : A) : A :=
  match m with
  | Some a => a
  | None => d
  end.

Notation "x '<-?' m ';' k" := (result_bind m (fun x => k))
  (at level 100, m at next level, right associativity) : bridge_scope.

#[export] Instance result_eq_dec {A E : Type} `{EqDecision A, EqDecision E} :
  EqDecision (result A E).
Proof. solve_decision. Defined.

(** [collect::<Result<Vec<_>, _>>]: the first error wins. *)
Fixpoint collect {A B E : Type} (f : A -> result B E) (l : list A) : result (list B) E :=
  match l with
  | [] => Ok []
  | x :: l => y <-? f x; ys <-? collect f l; Ok (y :: ys)
  end.

(** ** Tactics *)

(** Case analysis on the scrutinee of a [match] or [if] of the goal or of a
    hypothesis, keeping the equation. *)
Ltac split_match :=
  match goal with
  | |- context [match ?x with _ => _ end] => destruct x eqn:?
  | H : context [match ?x with _ => _ end] |- _ => destruct x eqn:?
  end.

Ltac splits := repeat match goal with |- _ /\ _ => split end.

(** Opens existentials, conjunctions and equations of the context. *)
Ltac crush_hyps :=
  repeat match goal with
  | H : exists _, _ |- _ => destruct H
  | H : _ /\ _ |- _ => destruct H
  end; simplify_eq/=.

Create HintDb bridge discriminated.

(** ** Generic lemmas *)

Lemma collect_Ok {A B E : Type} (f : A -> result B E) (l : list A) (ys : list B) :
  collect f l = Ok ys <-> Forall2 (fun x y => f x = Ok y) l ys.
Proof.
  revert ys. induction l as [|x l IH]; intros ys; cbn.
  - split; [intros [= <-]; constructor | inversion 1; done].
  - split.
    + destruct (f x) as [y|e] eqn:Hx; cbn; [|done].
      destruct (collect f l) as [zs|e] eqn:Hl; cbn; [|done].
      intros [= <-]. constructor; [done|]. by apply IH.
    + inversion 1 as [|? y ? zs Hx Hl]; subst. rewrite Hx; cbn.
      apply IH in Hl. by rewrite Hl.
Qed.

Lemma collect_Err {A B E : Type} (f : A -> result B E) (l : list A) (e : E) :
  collect f l = Err e -> exists x, x ∈ l /\ f x = Err e.
Proof.
  induction l as [|x l IH]; cbn; [done|]. destruct (f x) as [y|e'] eqn:Hx; cbn.
  - destruct (collect f l) as [ys|e'] eqn:Hl; cbn; [done|]. intros [= ->].
    destruct (IH eq_refl) as (z & ? & ?). exists z. split; [by right|done].
  - intros [= ->]. exists x. split; [by left|done].
Qed.

Lemma map_err_Ok {A E F : Type} (f : E -> F) (m : result A E) (a : A) : map_err f m = Ok a <-> m = Ok a.
Proof. destruct m; cbn; naive_solver. Qed.

Lemma map_err_Err {A E F : Type} (f : E -> F) (m : result A E) (e : F) :
  map_err f m = Err e <-> exists x, m = Err x /\ e = f x.
Proof. destruct m; cbn; naive_solver. Qed.

(** An element of a concatenation that is not in its second part leaves that
    part as a suffix. *)
Lemma app_cons_suffix {A : Type} (l k t1 t2 : list A) (e : A) :
  l ++ k = t1 ++ e :: t2 -> e ∉ k -> exists u, t2 = u ++ k.
Proof.
  intros Heq He. apply app_eq_inv in Heq as [(u & -> & Hu)|(u & -> & ->)].
  - destruct u as [|a u]; cbn in Hu; simplify_eq; [|by exists u].
    destruct He. by left.
  - destruct He. apply elem_of_app. right. by left.
Qed.

(** Two different elements of a list, in the order in which they occur. *)
Lemma two_elements {A : Type} (a b : A) (l : list A) :
  a ∈ l -> b ∈ l -> a <> b ->
  exists x y t1 t2 t3, l = t1 ++ x :: t2 ++ y :: t3 /\ (x = a /\ y = b \/ x = b /\ y = a).
Proof.
  intros (t1 & t2 & ->)%list_elem_of_split [Hb|[?|Hb]%elem_of_cons]%elem_of_app Hne; [|done|].
  - apply list_elem_of_split in Hb as (u1 & u2 & ->). exists b, a, u1, u2, t2. rewrite <- app_assoc. auto.
  - apply list_elem_of_split in Hb as (u1 & u2 & ->). exists a, b, t1, u1, u2. auto.
Qed.

Lemma Forall_app_r {A : Type} (P : A -> Prop) (l k : list A) :
  Forall P l -> Forall P k -> Forall P (l ++ k).
Proof. intros. by apply Forall_app. Qed.

#[export] Hint Resolve Forall_app_r : bridge.
#[export] Hint Constructors Forall : bridge.
