(* ===== verification/RustStd.v ===== *)
(** * The parts of Rust's standard library the bridge uses

    Machine integers as [Z] with the wrap-around written out, bytes, [String]
    and [Vec] operations.  Out-of-range indexing is an [option] here and becomes
    a panic where the code indexes. *)

From S2P Require Import Prelude.
From Stdlib Require Export Ascii.
From Stdlib Require Export Strings.Byte.
From Stdlib Require String.
Import String.StringSyntax.

Local Open Scope Z_scope.

(** ** Machine integers *)

Definition u64_mod : Z := 2 ^ 64.
Definition i64_min : Z := - 2 ^ 63.

(** [x as u64] for an [i64]: two's complement. *)
Definition as_u64 (x : Z) : Z := x mod u64_mod.

(** [x as i64] for a [u64]. *)
Definition as_i64 (x : Z) : Z := (x + 2 ^ 63) mod u64_mod - 2 ^ 63.

(** [x as u32] of a [u64]. *)
Definition as_u32 (x : Z) : Z := x mod 2 ^ 32.

(** [a + b] on [u64] as the release profile compiles it (no overflow checks). *)
Definition u64_add (a b : Z) : Z := (a + b) mod u64_mod.

(** [u64::saturating_sub]. *)
Definition saturating_sub (a b : Z) : Z := Z.max 0 (a - b).

Definition is_u64 (x : Z) : Prop := 0 <= x < u64_mod.

#[export] Instance is_u64_dec (x : Z) : Decision (is_u64 x).
Proof. unfold is_u64. apply _. Defined.

(** ** Bytes *)

Abbreviation bytes := (list byte).

#[export] Instance byte_eq_decision : EqDecision byte := Byte.byte_eq_dec.

Definition byte_of_Z (z : Z) : byte :=
  match Byte.of_N (Z.to_N (z mod 256)) with
  | Some b => b
  | None => x00
  end.

Definition byte_to_Z (b : byte) : Z := Z.of_N (Byte.to_N b).

(** Little-endian bytes, least significant first: [n] of them. *)
Fixpoint le_bytes (n : nat) (z : Z) : bytes :=
  match n with
  | O => []
  | S n => byte_of_Z z :: le_bytes n (z / 256)
  end.

(** [u64::to_le_bytes]. *)
Definition to_le_bytes (z : Z) : bytes := le_bytes 8 z.

Fixpoint of_le_bytes (l : bytes) : Z :=
  match l with
  | [] => 0
  | b :: l => byte_to_Z b + 256 * of_le_bytes l
  end.

(** [str::as_bytes]. *)
Definition as_bytes (s : string) : bytes := String.list_byte_of_string s.

(** ** Strings *)

Definition ascii_lower (c : ascii) : ascii :=
  let n := nat_of_ascii c in
  if (65 <=? n)%nat && (n <=? 90)%nat then ascii_of_nat (n + 32) else c.

(** [str::to_lowercase], on the ASCII letters.  The code only compares the
    result with ["true"], and no other character lowercases to one of its
    letters. *)
Fixpoint to_lowercase (s : string) : string :=
  match s with
  | EmptyString => EmptyString
  | String c s => String (ascii_lower c) (to_lowercase s)
  end.

Definition str_is_empty (s : string) : bool :=
  match s with
  | EmptyString => true
  | _ => false
  end.

(** [hay.contains(needle)]. *)
Fixpoint str_contains (needle hay : string) : bool :=
  String.prefix needle hay ||
  match hay with
  | EmptyString => false
  | String _ hay => str_contains needle hay
  end.

(** [s.starts_with(p)]. *)
Definition starts_with (p s : string) : bool := String.prefix p s.

(** [s.split(c).collect::<Vec<_>>()]: never empty. *)
Fixpoint split_on (c : ascii) (s : string) : list string :=
  match s with
  | EmptyString => [EmptyString]
  | String d s =>
      if ascii_dec c d then EmptyString :: split_on c s
      else match split_on c s with
           | [] => [String d EmptyString]
           | w :: ws => String d w :: ws
           end
  end.

Definition hex_digit (n : Z) : ascii :=
  ascii_of_nat (Z.to_nat (if n <? 10 then 48 + n else 87 + n)).

(** [format!("{:02x}", b)]. *)
Definition hex_byte (b : byte) : string :=
  String (hex_digit (byte_to_Z b / 16)) (String (hex_digit (byte_to_Z b mod 16)) EmptyString).

Fixpoint hex_string (l : bytes) : string :=
  match l with
  | [] => EmptyString
  | b :: l => (hex_byte b +:+ hex_string l)%string
  end.

(** [str::chars] on the UTF-8 bytes of a string: the scalar values. *)
Fixpoint utf8_chars (l : list Z) : list Z :=
  let cont z := Z.land z 63 in
  match l with
  | [] => []
  | a :: l1 =>
      if a <? 128 then a :: utf8_chars l1
      else match l1 with
           | [] => []
           | b :: l2 =>
               if a <? 224 then Z.land a 31 * 64 + cont b :: utf8_chars l2
               else match l2 with
                    | [] => []
                    | c :: l3 =>
                        if a <? 240 then (Z.land a 15 * 64 + cont b) * 64 + cont c :: utf8_chars l3
                        else match l3 with
                             | [] => []
                             | d :: l4 =>
                                 ((Z.land a 7 * 64 + cont b) * 64 + cont c) * 64 + cont d :: utf8_chars l4
                             end
                    end
           end
  end.

Definition chars (s : string) : list Z := utf8_chars (byte_to_Z <$> as_bytes s).

(** A boolean environment flag, as [std::env::var(name).map(|v|
    v.to_lowercase() == "true").unwrap_or(false)] reads it. *)
Definition env_flag (getenv : string -> option string) (name : string) : bool :=
  match getenv name with
  | Some v => String.eqb (to_lowercase v) "true"
  | None => false
  end.

(** ** Vectors *)

(** [Vec::resize]: truncates or pads with [d]. *)
Definition vec_resize {A : Type} (n : nat) (d : A) (l : list A) : list A :=
  take n l ++ replicate (n - length l) d.

(** ** Lemmas *)

Lemma byte_to_Z_range (b : byte) : 0 <= byte_to_Z b < 256.
Proof. destruct b; cbv; split; congruence. Qed.

Lemma byte_to_of_Z (z : Z) : byte_to_Z (byte_of_Z z) = z mod 256.
Proof.
  unfold byte_of_Z, byte_to_Z.
  pose proof (Z.mod_pos_bound z 256 ltac:(lia)) as Hz.
  destruct (Byte.of_N _) as [b|] eqn:Hb.
  - apply Byte.to_of_N in Hb. rewrite Hb. lia.
  - apply Byte.of_N_None_iff in Hb. lia.
Qed.

Lemma byte_of_to_Z (b : byte) : byte_of_Z (byte_to_Z b) = b.
Proof. by destruct b. Qed.

Lemma byte_to_Z_inj (a b : byte) : byte_to_Z a = byte_to_Z b -> a = b.
Proof. intros H. by rewrite <- (byte_of_to_Z a), H, byte_of_to_Z. Qed.

Lemma length_le_bytes (n : nat) (z : Z) : length (le_bytes n z) = n.
Proof. revert z. induction n; intros z; cbn; auto. Qed.

Lemma length_to_le_bytes (z : Z) : length (to_le_bytes z) = 8%nat.
Proof. apply length_le_bytes. Qed.

Lemma of_le_bytes_le_bytes (n : nat) (z : Z) :
  of_le_bytes (le_bytes n z) = z mod 256 ^ Z.of_nat n.
Proof.
  revert z. induction n as [|n IH]; intros z.
  - cbn. by rewrite Z.mod_1_r.
  - cbn [le_bytes of_le_bytes]. rewrite IH, byte_to_of_Z, Nat2Z.inj_succ, Z.pow_succ_r by lia.
    by rewrite Z.rem_mul_r by lia.
Qed.

Lemma to_le_bytes_inj (x y : Z) :
  is_u64 x -> is_u64 y -> to_le_bytes x = to_le_bytes y -> x = y.
Proof.
  unfold is_u64, u64_mod. intros Hx Hy H.
  apply (f_equal of_le_bytes) in H. unfold to_le_bytes in H.
  rewrite !of_le_bytes_le_bytes in H. change (256 ^ Z.of_nat 8) with (2 ^ 64) in H.
  by rewrite !Z.mod_small in H by done.
Qed.

Lemma as_bytes_inj (s t : string) : as_bytes s = as_bytes t -> s = t.
Proof.
  intros H. rewrite <- (String.string_of_list_byte_of_string s), <- (String.string_of_list_byte_of_string t).
  by f_equal.
Qed.

Lemma string_app_cons (c : ascii) (s t : string) :
  (String c s +:+ t = String c (s +:+ t))%string.
Proof. done. Qed.

Lemma string_app_nil (t : string) : ("" +:+ t = t)%string.
Proof. done. Qed.

Lemma string_app_assoc (s t u : string) : ((s +:+ t) +:+ u = s +:+ (t +:+ u))%string.
Proof.
  induction s as [|c s IH]; [done|]. by rewrite !string_app_cons, IH.
Qed.

Lemma as_bytes_app (s t : string) : as_bytes (s +:+ t) = as_bytes s ++ as_bytes t.
Proof.
  unfold as_bytes, String.list_byte_of_string.
  induction s as [|c s IH]; [done|].
  rewrite string_app_cons. cbn. f_equal. exact IH.
Qed.

Lemma hex_byte_inj (a b : byte) : hex_byte a = hex_byte b -> a = b.
Proof.
  unfold hex_byte. intros [= H1 H2]. apply byte_to_Z_inj.
  assert (Hd : forall m n, 0 <= m < 16 -> 0 <= n < 16 -> hex_digit m = hex_digit n -> m = n).
  { intros m n Hm Hn H. unfold hex_digit in H.
    apply (f_equal nat_of_ascii) in H. rewrite !nat_ascii_embedding in H.
    - destruct (m <? 10) eqn:E1, (n <? 10) eqn:E2; lia.
    - destruct (n <? 10) eqn:E2; lia.
    - destruct (m <? 10) eqn:E2; lia. }
  pose proof (byte_to_Z_range a). pose proof (byte_to_Z_range b).
  pose proof (Z.mod_pos_bound (byte_to_Z a) 16 ltac:(lia)).
  pose proof (Z.mod_pos_bound (byte_to_Z b) 16 ltac:(lia)).
  apply Hd in H1; [|split; [apply Z.div_pos | apply Z.div_lt_upper_bound]; lia..].
  apply Hd in H2; [|lia..].
  rewrite (Z.div_mod (byte_to_Z a) 16), (Z.div_mod (byte_to_Z b) 16) by lia. by rewrite H1, H2.
Qed.

Lemma hex_string_length (l : bytes) : String.length (hex_string l) = (2 * length l)%nat.
Proof.
  induction l as [|b l IH]; [done|]. cbn [hex_string].
  unfold hex_byte. rewrite !string_app_cons, string_app_nil. cbn. rewrite IH. lia.
Qed.

Lemma hex_string_inj (l k : bytes) : hex_string l = hex_string k -> l = k.
Proof.
  revert k. induction l as [|a l IH]; intros [|b k]; cbn [hex_string];
    unfold hex_byte; rewrite ?string_app_cons, ?string_app_nil; try done.
  intros [= H1 H2 H3]. f_equal; [|by apply IH].
  apply hex_byte_inj. unfold hex_byte. congruence.
Qed.

Lemma split_on_app (c : ascii) (s t : string) :
  exists w, last (split_on c (s +:+ String c t)) = last (split_on c t)
            /\ length (split_on c (s +:+ String c t)) = (w + length (split_on c t))%nat
            /\ (0 < w)%nat.
Proof.
  induction s as [|d s IH]; rewrite ?string_app_cons, ?string_app_nil; cbn.
  - destruct (ascii_dec c c) as [_|?]; [|done]. exists 1%nat. splits; [|done|lia].
    destruct t as [|e t]; cbn; [done|]. destruct (ascii_dec c e); cbn; [done|].
    by destruct (split_on c t).
  - destruct IH as (w & Hl & Hn & Hw).
    destruct (split_on c (s +:+ String c t)) as [|u us] eqn:E.
    + cbn in Hn. destruct (split_on c t); cbn in *; lia.
    + destruct (ascii_dec c d).
      * exists (S w). cbn in *. splits; [done|lia|lia].
      * assert (us <> []).
        { intros ->. cbn in Hn. destruct t as [|e t]; cbn in Hn; [lia|].
          destruct (ascii_dec c e); cbn in Hn; [lia|]. destruct (split_on c t); cbn in Hn; lia. }
        exists w. splits; [|done|done]. destruct us; [done|]. done.
Qed.

Lemma split_on_none (c : ascii) (s : string) :
  Forall (fun d => d <> c) (String.list_ascii_of_string s) -> split_on c s = [s].
Proof.
  induction s as [|d s IH]; cbn; [done|]. intros [Hd Hs]%Forall_cons.
  destruct (ascii_dec c d) as [->|_]; [done|]. by rewrite IH.
Qed.

Lemma prefix_app (p s : string) : String.prefix p (p +:+ s) = true.
Proof.
  induction p as [|c p IH]; [by destruct s|].
  rewrite string_app_cons. cbn. by destruct (ascii_dec c c).
Qed.

Lemma string_app_inj_l (p s t : string) : (p +:+ s = p +:+ t)%string -> s = t.
Proof.
  induction p as [|c p IH]; [done|]. rewrite !string_app_cons. intros [= H]. by apply IH.
Qed.

Lemma length_vec_resize {A : Type} (n : nat) (d : A) (l : list A) :
  length (vec_resize n d l) = n.
Proof. unfold vec_resize. rewrite length_app, length_take, length_replicate. lia. Qed.

Lemma vec_resize_lookup {A : Type} (n i : nat) (d : A) (l : list A) (x : A) :
  l !! i = Some x -> (i < n)%nat -> vec_resize n d l !! i = Some x.
Proof.
  intros Hi Hn. unfold vec_resize. rewrite lookup_app_l.
  - by rewrite lookup_take_lt.
  - rewrite length_take. apply lookup_lt_Some in Hi. lia.
Qed.
