(* ===== verification/Effects.v ===== *)
(** * Command trees: the effects of the bridge

    An [async fn] of the bridge is modelled by a command tree: a finite tree
    whose nodes are the calls that leave the function (an RPC, a Vault request,
    an access to a shared map, an ack, ...), each with a continuation for every
    answer it can get.  One definition of a handler has three readings:

    - [runs]: the traces it can produce when the environment may answer
      anything; [wp], [always] and [obeys] (a run-time monitor) are the proof
      rules for it;
    - [run]: the deterministic execution against a concrete environment, which
      computes;
    - [pexec]: interleavings of many handlers over a shared state, one call at a
      time, as [for_each_concurrent] schedules them.

    [Panic] is a Rust panic.  In a debug build it unwinds and ends its own task;
    the release profile of Cargo.toml sets [panic = 'abort'], under which it ends
    the process and every other task with it.  [pexec] lets the other threads go
    on; [aexec] is the same with the process stopped by the first panic.  Every
    execution of the second kind is one of the first ([aexec_pexec]), so what holds
    of all [pexec] holds of both builds. *)

From S2P Require Import Prelude.

Inductive prog {Op : Type} (Ans : Op -> Type) (A : Type) : Type :=
| Ret (a : A)
| Panic
| Vis (o : Op) (k : Ans o -> prog Ans A).

Arguments Ret {Op Ans A} a.
Arguments Panic {Op Ans A}.
Arguments Vis {Op Ans A} o k.

Inductive outcome (A : Type) : Type :=
| Done (a : A)
| Aborted.

Arguments Done {A} a.
Arguments Aborted {A}.

Inductive event {Op : Type} (Ans : Op -> Type) : Type :=
| Ev (o : Op) (x : Ans o).

Arguments Ev {Op Ans} o x.

Definition ev_op {Op : Type} {Ans : Op -> Type} (e : event Ans) : Op :=
  match e with Ev o _ => o end.

Fixpoint bind {Op : Type} {Ans : Op -> Type} {A B : Type}
    (p : prog Ans A) (f : A -> prog Ans B) : prog Ans B :=
  match p with
  | Ret a => f a
  | Panic => Panic
  | Vis o k => Vis o (fun x => bind (k x) f)
  end.

Definition call {Op : Type} {Ans : Op -> Type} (o : Op) : prog Ans (Ans o) :=
  Vis o Ret.

Notation "x '<~' m ';;' k" := (bind m (fun x => k))
  (at level 100, m at next level, right associativity) : bridge_scope.
Notation "'do!' m ';;' k" := (bind m (fun _ => k))
  (at level 100, m at next level, right associativity) : bridge_scope.

(** [v[i]] of the source: a panic out of range. *)
Definition index {Op : Type} {Ans : Op -> Type} {A : Type} (l : list A) (i : nat) : prog Ans A :=
  match l !! i with
  | Some x => Ret x
  | None => Panic
  end.

(** [for x in l { f(x) }]. *)
Fixpoint for_each {Op : Type} {Ans : Op -> Type} {A : Type} (l : list A) (f : A -> prog Ans unit)
  : prog Ans unit :=
  match l with
  | [] => Ret tt
  | x :: l => bind (f x) (fun _ => for_each l f)
  end.

Section semantics.
Context {Op : Type} {Ans : Op -> Type}.

(** Complete traces, the environment answering anything. *)
Fixpoint runs {A : Type} (p : prog Ans A) (tr : list (event Ans)) (r : outcome A) : Prop :=
  match p with
  | Ret a => tr = [] /\ r = Done a
  | Panic => tr = [] /\ r = Aborted
  | Vis o k => exists x tr', tr = Ev o x :: tr' /\ runs (k x) tr' r
  end.

Fixpoint wp {A : Type} (p : prog Ans A) (Q : list (event Ans) -> outcome A -> Prop) : Prop :=
  match p with
  | Ret a => Q [] (Done a)
  | Panic => Q [] Aborted
  | Vis o k => forall x, wp (k x) (fun tr r => Q (Ev o x :: tr) r)
  end.

(** Every event of every trace satisfies [P], and the result satisfies [F]. *)
Fixpoint always {A : Type} (P : event Ans -> Prop) (p : prog Ans A) (F : outcome A -> Prop) : Prop :=
  match p with
  | Ret a => F (Done a)
  | Panic => F Aborted
  | Vis o k => forall x, P (Ev o x) /\ always P (k x) F
  end.

(** A deterministic monitor [d]: [None] is a violation. *)
Fixpoint obeys {M A : Type} (d : M -> event Ans -> option M) (m : M) (p : prog Ans A)
    (F : M -> outcome A -> Prop) : Prop :=
  match p with
  | Ret a => F m (Done a)
  | Panic => F m Aborted
  | Vis o k => forall x, match d m (Ev o x) with
                         | Some m' => obeys d m' (k x) F
                         | None => False
                         end
  end.

Fixpoint monitor {M : Type} (d : M -> event Ans -> option M) (m : M) (tr : list (event Ans)) : option M :=
  match tr with
  | [] => Some m
  | e :: tr => match d m e with
               | Some m' => monitor d m' tr
               | None => None
               end
  end.

(** The result under an assumption on the answers: [H] restricts the
    environment. *)
Fixpoint under {A : Type} (H : event Ans -> Prop) (p : prog Ans A) (F : outcome A -> Prop) : Prop :=
  match p with
  | Ret a => F (Done a)
  | Panic => F Aborted
  | Vis o k => forall x, H (Ev o x) -> under H (k x) F
  end.

(** Deterministic execution against an environment. *)
Fixpoint run {S A : Type} (h : forall o, S -> Ans o * S) (p : prog Ans A) (s : S)
  : list (event Ans) * outcome A * S :=
  match p with
  | Ret a => ([], Done a, s)
  | Panic => ([], Aborted, s)
  | Vis o k => let '(x, s') := h o s in
               let '(tr, r, s'') := run h (k x) s' in
               (Ev o x :: tr, r, s'')
  end.

(** Execution of one program over a shared state, uninterrupted. *)
Fixpoint exec {S A : Type} (sem : S -> forall o, Ans o -> S -> Prop) (p : prog Ans A)
    (s : S) (tr : list (event Ans)) (r : outcome A) (s' : S) : Prop :=
  match p with
  | Ret a => tr = [] /\ r = Done a /\ s' = s
  | Panic => tr = [] /\ r = Aborted /\ s' = s
  | Vis o k => exists x s1 tr', sem s o x s1 /\ tr = Ev o x :: tr' /\ exec sem (k x) s1 tr' r s'
  end.

(** The state changes of a trace alone. *)
Fixpoint trace_sem {S : Type} (sem : S -> forall o, Ans o -> S -> Prop) (s : S)
    (tr : list (event Ans)) (s' : S) : Prop :=
  match tr with
  | [] => s' = s
  | Ev o x :: tr => exists s1, sem s o x s1 /\ trace_sem sem s1 tr s'
  end.

(** Two programs with the same traces. *)
Definition prog_equiv {A : Type} : Equiv (prog Ans A) :=
  fun p q => forall tr r, runs p tr r <-> runs q tr r.
#[local] Existing Instance prog_equiv.

(** Number of events of a trace that a boolean test accepts. *)
Fixpoint count_ev (f : event Ans -> bool) (tr : list (event Ans)) : nat :=
  match tr with
  | [] => 0
  | e :: tr => (if f e then 1 else 0) + count_ev f tr
  end.

(** ** Interleavings

    [sem s o x s']: the call [o] may be answered [x] in shared state [s], which
    becomes [s'].  The threads of a pool run one call at a time, in any order. *)

Section interleaving.
Context {S A : Type} (sem : S -> forall o, Ans o -> S -> Prop).

Inductive pexec : S * list (prog Ans A) -> list (nat * event Ans) -> S * list (prog Ans A) -> Prop :=
| pexec_nil c : pexec c [] c
| pexec_step s ps i o k x s' tr c :
    ps !! i = Some (Vis o k) ->
    sem s o x s' ->
    pexec (s', <[i := k x]> ps) tr c ->
    pexec (s, ps) ((i, Ev o x) :: tr) c.

(** Some thread has panicked. *)
Definition aborted (ps : list (prog Ans A)) : bool :=
  existsb (fun p => match p with Panic => true | _ => false end) ps.

(** A process that aborts on a panic: no thread moves once one has panicked. *)
Inductive aexec : S * list (prog Ans A) -> list (nat * event Ans) -> S * list (prog Ans A) -> Prop :=
| aexec_nil c : aexec c [] c
| aexec_step s ps i o k x s' tr c :
    aborted ps = false ->
    ps !! i = Some (Vis o k) ->
    sem s o x s' ->
    aexec (s', <[i := k x]> ps) tr c ->
    aexec (s, ps) ((i, Ev o x) :: tr) c.

(** The events thread [i] performed. *)
Definition thread_trace (i : nat) (tr : list (nat * event Ans)) : list (event Ans) :=
  snd <$> filter (fun l => fst l = i) tr.

(** [p] can perform [tr] and become [q]. *)
Fixpoint reaches (p : prog Ans A) (tr : list (event Ans)) (q : prog Ans A) : Prop :=
  (tr = [] /\ q = p) \/
  match p with
  | Vis o k => exists x tr', tr = Ev o x :: tr' /\ reaches (k x) tr' q
  | _ => False
  end.

End interleaving.
End semantics.

(** A scheduler for [pexec]: a list of thread numbers, each making one step. *)
Fixpoint schedule {Op : Type} {Ans : Op -> Type} {S A : Type} (h : forall o, S -> Ans o * S)
    (sched : list nat) (s : S) (ps : list (prog Ans A)) : list (nat * event Ans) * S * list (prog Ans A) :=
  match sched with
  | [] => ([], s, ps)
  | i :: sched =>
      match ps !! i with
      | Some (Vis o k) =>
          let '(x, s') := h o s in
          let '(tr, s'', ps') := schedule h sched s' (<[i := k x]> ps) in
          ((i, Ev o x) :: tr, s'', ps')
      | _ => schedule h sched s ps
      end
  end.

(** The same for [aexec]. *)
Fixpoint aschedule {Op : Type} {Ans : Op -> Type} {S A : Type} (h : forall o, S -> Ans o * S)
    (sched : list nat) (s : S) (ps : list (prog Ans A)) : list (nat * event Ans) * S * list (prog Ans A) :=
  match sched with
  | [] => ([], s, ps)
  | i :: sched =>
      match aborted ps, ps !! i with
      | false, Some (Vis o k) =>
          let '(x, s') := h o s in
          let '(tr, s'', ps') := aschedule h sched s' (<[i := k x]> ps) in
          ((i, Ev o x) :: tr, s'', ps')
      | _, _ => aschedule h sched s ps
      end
  end.

(** ** Rules *)

Section rules.
Context {Op : Type} {Ans : Op -> Type}.
Implicit Types (tr : list (event Ans)).

Lemma wp_runs {A : Type} (p : prog Ans A) Q :
  wp p Q <-> forall tr r, runs p tr r -> Q tr r.
Proof.
  revert Q. induction p as [a| |o k IH]; intros Q; cbn.
  - split; [by intros ? ? ? [-> ->] | by intros H; apply H].
  - split; [by intros ? ? ? [-> ->] | by intros H; apply H].
  - split.
    + intros H tr r (x & tr' & -> & Hr). by apply (proj1 (IH x _) (H x)).
    + intros H x. apply IH. intros tr r Hr. apply H. eauto.
Qed.

Lemma wp_mono {A : Type} (p : prog Ans A) (Q R : _ -> _ -> Prop) :
  wp p Q -> (forall tr r, Q tr r -> R tr r) -> wp p R.
Proof. rewrite !wp_runs. naive_solver. Qed.

Lemma wp_bind {A B : Type} (p : prog Ans A) (f : A -> prog Ans B) Q :
  wp (bind p f) Q <->
  wp p (fun tr r => match r with
                    | Done a => wp (f a) (fun tr' r' => Q (tr ++ tr') r')
                    | Aborted => Q tr Aborted
                    end).
Proof.
  revert Q. induction p as [a| |o k IH]; intros Q; cbn; [done|done|].
  split; intros H x.
  - exact (proj1 (IH x (fun tr r => Q (Ev o x :: tr) r)) (H x)).
  - exact (proj2 (IH x (fun tr r => Q (Ev o x :: tr) r)) (H x)).
Qed.

Lemma runs_bind {A B : Type} (p : prog Ans A) (f : A -> prog Ans B) tr r :
  runs (bind p f) tr r <->
  (exists a t1 t2, tr = t1 ++ t2 /\ runs p t1 (Done a) /\ runs (f a) t2 r)
  \/ (runs p tr Aborted /\ r = Aborted).
Proof.
  revert tr r. induction p as [a| |o k IH]; intros tr r; cbn.
  - split.
    + intros H. left. exists a, [], tr. naive_solver.
    + naive_solver.
  - naive_solver.
  - split.
    + intros (x & tr' & -> & [(a & t1 & t2 & -> & H1 & H2)|[H ->]]%IH).
      * left. exists a, (Ev o x :: t1), t2. naive_solver.
      * right. naive_solver.
    + intros [(a & t1 & t2 & -> & (x & t & -> & H1) & H2)|[(x & t & -> & H) ->]].
      * exists x, (t ++ t2). split; [done|]. apply IH. left. eauto 6.
      * exists x, t. split; [done|]. apply IH. by right.
Qed.

Lemma always_runs {A : Type} (P : event Ans -> Prop) (p : prog Ans A) F tr r :
  always P p F -> runs p tr r -> Forall P tr /\ F r.
Proof.
  revert tr. induction p as [a| |o k IH]; intros tr; cbn.
  - by intros H [-> ->].
  - by intros H [-> ->].
  - intros H (x & t & -> & Hr). destruct (H x) as [Hx Hk].
    destruct (IH x t Hk Hr). split; [by constructor|done].
Qed.

Lemma always_mono {A : Type} (P P' : event Ans -> Prop) (p : prog Ans A) (F F' : _ -> Prop) :
  always P p F -> (forall e, P e -> P' e) -> (forall r, F r -> F' r) -> always P' p F'.
Proof. induction p; cbn; intros; try naive_solver. Qed.

Lemma always_bind {A B : Type} (P : event Ans -> Prop) (p : prog Ans A) (f : A -> prog Ans B) G F :
  always P p G ->
  (forall a, G (Done a) -> always P (f a) F) ->
  (G Aborted -> F Aborted) ->
  always P (bind p f) F.
Proof. induction p; cbn; intros; try naive_solver. Qed.

Lemma under_runs {A : Type} (H : event Ans -> Prop) (p : prog Ans A) F tr r :
  under H p F -> runs p tr r -> Forall H tr -> F r.
Proof.
  revert tr. induction p as [a| |o k IH]; intros tr; cbn.
  - by intros HF [-> ->].
  - by intros HF [-> ->].
  - intros HF (x & t & -> & Hr) [Hx Ht]%Forall_cons. eauto.
Qed.

Lemma under_mono {A : Type} (H : event Ans -> Prop) (p : prog Ans A) (F F' : _ -> Prop) :
  under H p F -> (forall r, F r -> F' r) -> under H p F'.
Proof. induction p; cbn; intros; naive_solver. Qed.

Lemma under_bind {A B : Type} (H : event Ans -> Prop) (p : prog Ans A) (f : A -> prog Ans B) G F :
  under H p G ->
  (forall a, G (Done a) -> under H (f a) F) ->
  (G Aborted -> F Aborted) ->
  under H (bind p f) F.
Proof. induction p; cbn; intros; naive_solver. Qed.

Lemma obeys_mono {M A : Type} d (m : M) (p : prog Ans A) (F F' : _ -> _ -> Prop) :
  obeys d m p F -> (forall m r, F m r -> F' m r) -> obeys d m p F'.
Proof.
  revert m. induction p as [a| |o k IH]; intros m; cbn; [auto|auto|].
  intros H HF x. specialize (H x). destruct (d m (Ev o x)); [|done]. by apply IH.
Qed.

Lemma obeys_bind {M A B : Type} d (m : M) (p : prog Ans A) (f : A -> prog Ans B) G F :
  obeys d m p G ->
  (forall m' a, G m' (Done a) -> obeys d m' (f a) F) ->
  (forall m', G m' Aborted -> F m' Aborted) ->
  obeys d m (bind p f) F.
Proof.
  revert m. induction p as [a| |o k IH]; intros m; cbn; [auto|auto|].
  intros H Hf HA x. specialize (H x). destruct (d m (Ev o x)); [|done]. by apply IH.
Qed.

Lemma obeys_runs {M A : Type} d (m : M) (p : prog Ans A) F tr r :
  obeys d m p F -> runs p tr r -> exists m', monitor d m tr = Some m' /\ F m' r.
Proof.
  revert m tr. induction p as [a| |o k IH]; intros m tr; cbn.
  - intros H [-> ->]. eauto.
  - intros H [-> ->]. eauto.
  - intros H (x & t & -> & Hr). specialize (H x). cbn.
    destruct (d m (Ev o x)); [|done]. by apply (IH x).
Qed.

(** A monitor simulated by another. *)
Lemma obeys_sim {M1 M2 A : Type} (d1 : M1 -> event Ans -> option M1) (d2 : M2 -> event Ans -> option M2)
    (Rel : M1 -> M2 -> Prop) m1 m2 (p : prog Ans A) F1 (F2 : _ -> _ -> Prop) :
  (forall m1 m2 e m1', Rel m1 m2 -> d1 m1 e = Some m1' -> exists m2', d2 m2 e = Some m2' /\ Rel m1' m2') ->
  Rel m1 m2 -> obeys d1 m1 p F1 ->
  (forall m1 m2 r, Rel m1 m2 -> F1 m1 r -> F2 m2 r) ->
  obeys d2 m2 p F2.
Proof.
  intros Hsim HR Ho HF. revert m1 m2 HR Ho. induction p as [a| |o k IH]; intros m1 m2 HR; cbn; [eauto|eauto|].
  intros Ho x. specialize (Ho x). destruct (d1 m1 (Ev o x)) as [m1'|] eqn:E; [|done].
  destruct (Hsim _ _ _ _ HR E) as (m2' & -> & HR'). eauto.
Qed.

(** What a monitor accepts holds of every call. *)
Lemma obeys_always {M A : Type} (d : M -> event Ans -> option M) (P : event Ans -> Prop) m (p : prog Ans A) F :
  obeys d m p F -> (forall m e m', d m e = Some m' -> P e) -> always P p (fun _ => True).
Proof.
  intros Ho HP. revert m Ho. induction p as [a| |o k IH]; intros m Ho; cbn; [done|done|].
  intros x. specialize (Ho x). destruct (d m (Ev o x)) as [m'|] eqn:E; [|done]. eauto.
Qed.

(** A class of monitor states that every allowed event preserves. *)
Lemma always_obeys {M A : Type} (d : M -> event Ans -> option M) (I : M -> Prop) (P : event Ans -> Prop)
    m (p : prog Ans A) F :
  (forall m e, I m -> P e -> exists m', d m e = Some m' /\ I m') ->
  I m -> always P p F -> obeys d m p (fun m' r => I m' /\ F r).
Proof.
  intros Hd. revert m. induction p as [a| |o k IH]; intros m HI; cbn; [auto|auto|].
  intros H x. destruct (H x) as [HP Hk]. destruct (Hd m (Ev o x) HI HP) as (m' & -> & HI'). eauto.
Qed.

Lemma monitor_app {M : Type} d (m : M) (t1 t2 : list (event Ans)) :
  monitor d m (t1 ++ t2) = match monitor d m t1 with
                           | Some m' => monitor d m' t2
                           | None => None
                           end.
Proof.
  revert m. induction t1 as [|e t1 IH]; intros m; cbn; [done|].
  by destruct (d m e).
Qed.

Lemma count_ev_app (f : event Ans -> bool) (t1 t2 : list (event Ans)) :
  count_ev f (t1 ++ t2) = (count_ev f t1 + count_ev f t2)%nat.
Proof. induction t1 as [|e t1 IH]; cbn; [done|]. rewrite IH. lia. Qed.

Lemma count_ev_zero (f : event Ans -> bool) tr :
  Forall (fun e => f e = false) tr -> count_ev f tr = 0%nat.
Proof. induction 1 as [|e tr He _ IH]; cbn; [done|]. by rewrite He. Qed.

Lemma count_ev_pos (f : event Ans -> bool) tr e :
  e ∈ tr -> f e = true -> (0 < count_ev f tr)%nat.
Proof.
  induction 1 as [e tr|e e' tr _ IH]; cbn; intros He; [rewrite He; lia|].
  specialize (IH He). lia.
Qed.

Lemma exec_runs {S A : Type} sem (p : prog Ans A) (s : S) tr r s' :
  exec sem p s tr r s' -> runs p tr r.
Proof.
  revert s tr. induction p as [a| |o k IH]; intros s tr; cbn.
  - naive_solver.
  - naive_solver.
  - intros (x & s1 & tr' & _ & -> & H). eauto.
Qed.

Lemma exec_bind {S A B : Type} sem (p : prog Ans A) (f : A -> prog Ans B) (s : S) tr r s' :
  exec sem (bind p f) s tr r s' <->
  (exists a t1 t2 s1, tr = t1 ++ t2 /\ exec sem p s t1 (Done a) s1 /\ exec sem (f a) s1 t2 r s')
  \/ (exec sem p s tr Aborted s' /\ r = Aborted).
Proof.
  revert s tr. induction p as [a| |o k IH]; intros s tr; cbn.
  - split.
    + intros H. left. exists a, [], tr, s. naive_solver.
    + naive_solver.
  - naive_solver.
  - split.
    + intros (x & s1 & t & Hs & -> & [(a & t1 & t2 & s2 & -> & H1 & H2)|[H ->]]%IH).
      * left. exists a, (Ev o x :: t1), t2, s2. naive_solver.
      * right. naive_solver.
    + intros [(a & t1 & t2 & s2 & -> & (x & s1 & t & Hs & -> & H1) & H2)|[(x & s1 & t & Hs & -> & H) ->]].
      * exists x, s1, (t ++ t2). splits; [done|done|]. apply IH. left. eauto 8.
      * exists x, s1, t. splits; [done|done|]. apply IH. by right.
Qed.

(** An execution is a trace of the program with the state changes of its calls. *)
Lemma exec_iff {S A : Type} sem (p : prog Ans A) (s : S) tr r s' :
  exec sem p s tr r s' <-> runs p tr r /\ trace_sem sem s tr s'.
Proof.
  revert s tr. induction p as [a| |o k IH]; intros s tr; cbn.
  - split; [intros (-> & -> & ->); done|intros [[-> ->] ->]; done].
  - split; [intros (-> & -> & ->); done|intros [[-> ->] ->]; done].
  - split.
    + intros (x & s1 & t & Hs & -> & [Hr Ht]%IH). split; [eauto|]. cbn. eauto.
    + intros [(x & t & -> & Hr) (s1 & Hs & Ht)]. exists x, s1, t. splits; [done|done|]. by apply IH.
Qed.

Lemma trace_sem_app {S : Type} (sem : S -> forall o, Ans o -> S -> Prop) s t1 t2 s' :
  trace_sem sem s (t1 ++ t2) s' <-> exists s1, trace_sem sem s t1 s1 /\ trace_sem sem s1 t2 s'.
Proof.
  revert s. induction t1 as [|[o x] t1 IH]; intros s; cbn; [naive_solver|].
  split.
  - intros (s1 & Hs & (s2 & H1 & H2)%IH). eauto 6.
  - intros (s2 & (s1 & Hs & H1) & H2). exists s1. split; [done|]. apply IH. eauto.
Qed.

(** A property of the state that every call preserves. *)
Lemma trace_sem_inv {S : Type} (sem : S -> forall o, Ans o -> S -> Prop) (P : S -> Prop) s tr s' :
  (forall s o x s', Ev o x ∈ tr -> sem s o x s' -> P s -> P s') ->
  trace_sem sem s tr s' -> P s -> P s'.
Proof.
  revert s. induction tr as [|[o x] tr IH]; intros s Hst; cbn; [by intros ->|].
  intros (s1 & Hs & Ht) HP. eapply (IH s1); [|done|].
  - intros s2 o2 x2 s3 Hin. apply Hst. by right.
  - eapply Hst; [by left|done|done].
Qed.

(** When every call has an answer, obeying a monitor is a property of the
    complete traces. *)
Lemma runs_obeys {M A : Type} (inh : forall o, Ans o) (d : M -> event Ans -> option M) m (p : prog Ans A) F :
  (forall tr r, runs p tr r -> exists m', monitor d m tr = Some m' /\ F m' r) -> obeys d m p F.
Proof.
  revert m. induction p as [a| |o k IH]; intros m H; cbn.
  - destruct (H [] (Done a)) as (m' & [= <-] & HF); [by cbn|done].
  - destruct (H [] Aborted) as (m' & [= <-] & HF); [by cbn|done].
  - intros x.
    assert (Hrun : exists tr r, runs (k x) tr r).
    { clear -inh. induction (k x) as [a| |o' k' IH']; cbn; [by do 2 eexists|by do 2 eexists|].
      destruct (IH' (inh o')) as (tr & r & Hr). exists (Ev o' (inh o') :: tr), r. eauto. }
    destruct Hrun as (tr & r & Hr). destruct (H (Ev o x :: tr) r) as (m' & Hm & _); [cbn; eauto|].
    cbn in Hm. destruct (d m (Ev o x)) as [m1|] eqn:E; [|done].
    apply IH. intros tr2 r2 Hr2. destruct (H (Ev o x :: tr2) r2) as (m2 & Hm2 & HF); [cbn; eauto|].
    cbn in Hm2. rewrite E in Hm2. eauto.
Qed.

(** An uninterrupted execution is an interleaving in which only one thread moves. *)
Lemma exec_pexec {S A : Type} sem (p : prog Ans A) (s : S) tr a s' ps i :
  exec sem p s tr (Done a) s' -> ps !! i = Some p ->
  pexec sem (s, ps) ((fun e => (i, e)) <$> tr) (s', <[i := Ret a]> ps).
Proof.
  revert s tr ps. induction p as [b| |o k IH]; intros s tr ps; cbn.
  - intros (-> & [= <-] & ->) Hi. cbn. rewrite list_insert_id by done. constructor.
  - naive_solver.
  - intros (x & s1 & t & Hs & -> & H) Hi. cbn. econstructor; [done|done|].
    assert (<[i:=Ret a]> ps = <[i:=Ret a]> (<[i:=k x]> ps)) as ->
      by (by rewrite list_insert_insert_eq).
    apply (IH x); [done|]. apply list_lookup_insert_eq. by eapply lookup_lt_Some.
Qed.

(** The computed execution is one of the traces. *)
Lemma run_runs {S A : Type} (h : forall o, S -> Ans o * S) (p : prog Ans A) s tr r s' :
  run h p s = (tr, r, s') -> runs p tr r.
Proof.
  revert s tr r s'. induction p as [a| |o k IH]; intros s tr r s'; cbn.
  - intros [= <- <- <-]. done.
  - intros [= <- <- <-]. done.
  - destruct (h o s) as [x s1]. destruct (run h (k x) s1) as [[tr1 r1] s2] eqn:E.
    intros [= <- <- <-]. exists x, tr1. eauto.
Qed.

Lemma run_trace {S A : Type} (h : forall o, S -> Ans o * S) (p : prog Ans A) s :
  runs p (fst (fst (run h p s))) (snd (fst (run h p s))).
Proof. destruct (run h p s) as [[tr r] s'] eqn:E. by eapply run_runs. Qed.

(** The events of an execution are answers of its environment. *)
Lemma run_answers {S A : Type} (h : forall o, S -> Ans o * S) (p : prog Ans A) s :
  Forall (fun e => match e with Ev o x => exists s1, x = fst (h o s1) end) (fst (fst (run h p s))).
Proof.
  revert s. induction p as [a| |o k IH]; intros s; cbn; [constructor..|].
  destruct (h o s) as [x s1] eqn:E. specialize (IH x s1).
  destruct (run h (k x) s1) as [[tr r] s2]. cbn in *. constructor; [|done].
  exists s. by rewrite E.
Qed.

Lemma run_bind {S A B : Type} (h : forall o, S -> Ans o * S) (p : prog Ans A) (f : A -> prog Ans B) s :
  run h (bind p f) s =
  let '(tr, r, s') := run h p s in
  match r with
  | Done a => let '(tr', r', s'') := run h (f a) s' in (tr ++ tr', r', s'')
  | Aborted => (tr, Aborted, s')
  end.
Proof.
  revert s. induction p as [a| |o k IH]; intros s; cbn.
  - by destruct (run h (f a) s) as [[? ?] ?].
  - done.
  - destruct (h o s) as [x s1]. rewrite IH.
    destruct (run h (k x) s1) as [[tr1 r1] s2]. destruct r1 as [a|]; [|done].
    by destruct (run h (f a) s2) as [[? ?] ?].
Qed.

End rules.

(** Trace equivalence is a congruence, and [bind] satisfies the monad laws up to it. *)

Section equiv.
Context {Op : Type} {Ans : Op -> Type}.
#[local] Existing Instance prog_equiv.

#[export] Instance prog_equiv_equivalence {A : Type} : Equivalence (≡@{prog Ans A}).
Proof.
  split.
  - by intros p tr r.
  - intros p q H tr r. by rewrite (H tr r).
  - intros p q u H1 H2 tr r. by rewrite (H1 tr r), (H2 tr r).
Qed.

#[export] Instance bind_proper {A B : Type} :
  Proper ((≡) ==> pointwise_relation _ (≡) ==> (≡)) (@bind Op Ans A B).
Proof.
  intros p q Hpq f g Hfg tr r. rewrite !runs_bind.
  setoid_rewrite (Hpq _ _). by setoid_rewrite (Hfg _ _ _).
Qed.

Lemma bind_assoc {A B C : Type} (p : prog Ans A) (f : A -> prog Ans B) (g : B -> prog Ans C) :
  bind (bind p f) g ≡ bind p (fun a => bind (f a) g).
Proof.
  induction p as [a| |o k IH]; cbn; [done|done|].
  intros tr r; cbn. split; intros (x & t & -> & H); exists x, t; (split; [done|]); by apply IH.
Qed.

Lemma bind_ret_r {A : Type} (p : prog Ans A) : bind p Ret ≡ p.
Proof.
  induction p as [a| |o k IH]; cbn; [done|done|].
  intros tr r; cbn. split; intros (x & t & -> & H); exists x, t; (split; [done|]); by apply IH.
Qed.

End equiv.

(** ** Interleavings and monitors

    The thread-modular rule: if every thread obeys its monitor and every step a
    monitor allows preserves a global invariant, the invariant holds in every
    reachable configuration and the threads still obey their monitors. *)

Section interleaving_rules.
Context {Op : Type} {Ans : Op -> Type} {S A M : Type}.
Context (sem : S -> forall o : Op, Ans o -> S -> Prop).
Context (d : M -> event Ans -> option M) (F : M -> outcome A -> Prop).
Context (Inv : S -> list M -> Prop).
Context (inv_step : forall s ms i m o x s' m',
  Inv s ms -> ms !! i = Some m -> d m (Ev o x) = Some m' -> sem s o x s' ->
  Inv s' (<[i := m']> ms)).

Lemma pexec_inv s ps tr s' ps' ms :
  pexec sem (s, ps) tr (s', ps') ->
  Inv s ms ->
  Forall2 (fun m p => obeys d m p F) ms ps ->
  exists ms', Inv s' ms' /\ Forall2 (fun m p => obeys d m p F) ms' ps'
              /\ forall i m, ms !! i = Some m ->
                 exists m', ms' !! i = Some m' /\ monitor d m (thread_trace i tr) = Some m'.
Proof.
  intros H. remember (s, ps) as c eqn:Hc. remember (s', ps') as c' eqn:Hc'.
  revert s ps ms Hc Hc'. induction H as [c|s0 ps0 i o k x s1 tr c Hi Hsem _ IH];
    intros s ps ms Hc Hc' HI HF.
  { subst. simplify_eq. exists ms. splits; [done|done|]. intros i m Hm. by exists m. }
  simplify_eq.
  destruct (Forall2_lookup_r _ _ _ _ _ HF Hi) as (m & Hm & Hob). cbn in Hob.
  specialize (Hob x). destruct (d m (Ev o x)) as [m'|] eqn:Hd; [|done].
  destruct (IH s1 (<[i := k x]> ps) (<[i := m']> ms)) as (ms' & HI' & HF' & Hmon);
    [done|done|by eapply inv_step|by apply Forall2_insert|].
  exists ms'. splits; [done|done|]. intros j mj Hj. unfold thread_trace. rewrite filter_cons.
  cbn. case_decide as Hij.
  - subst j. assert (mj = m) as -> by congruence. cbn. rewrite Hd. apply Hmon.
    apply list_lookup_insert_eq. by eapply lookup_lt_Some.
  - apply Hmon. by rewrite list_lookup_insert_ne.
Qed.

End interleaving_rules.

Section scheduling.
Context {Op : Type} {Ans : Op -> Type} {S A : Type}.

(** Every schedule is an interleaving of the deterministic environment. *)
Lemma schedule_pexec (h : forall o : Op, S -> Ans o * S) sched s (ps : list (prog Ans A)) tr s' ps' :
  schedule h sched s ps = (tr, s', ps') ->
  pexec (fun s o x s' => h o s = (x, s')) (s, ps) tr (s', ps').
Proof.
  revert s ps tr. induction sched as [|i sched IH]; intros s ps tr; cbn.
  - intros [= <- <- <-]. constructor.
  - destruct (ps !! i) as [[a| |o k]|] eqn:Hi; [by apply IH|by apply IH| |by apply IH].
    destruct (h o s) as [x s1] eqn:Hh.
    destruct (schedule h sched s1 (<[i := k x]> ps)) as [[tr1 s2] ps2] eqn:E.
    intros [= <- <- <-]. econstructor; eauto.
Qed.

Lemma pexec_weaken (sem1 sem2 : S -> forall o : Op, Ans o -> S -> Prop) (c c' : S * list (prog Ans A)) tr :
  (forall s o x s', sem1 s o x s' -> sem2 s o x s') -> pexec sem1 c tr c' -> pexec sem2 c tr c'.
Proof. intros Hs. induction 1; econstructor; eauto. Qed.

Lemma thread_trace_app i (t1 t2 : list (nat * event Ans)) :
  thread_trace i (t1 ++ t2) = thread_trace i t1 ++ thread_trace i t2.
Proof. unfold thread_trace. by rewrite filter_app, fmap_app. Qed.

Lemma thread_trace_cons i e (tr : list (nat * event Ans)) : thread_trace i ((i, e) :: tr) = e :: thread_trace i tr.
Proof. unfold thread_trace. by rewrite filter_cons_True. Qed.

Lemma thread_trace_elem i e (tr : list (nat * event Ans)) : e ∈ thread_trace i tr <-> (i, e) ∈ tr.
Proof.
  unfold thread_trace. rewrite list_elem_of_fmap. split.
  - intros ([j e'] & -> & [Hj ?]%list_elem_of_filter). cbn in Hj. by subst j.
  - intros Hin. exists (i, e). split; [done|]. by apply list_elem_of_filter.
Qed.

Lemma pexec_split (sem : S -> forall o : Op, Ans o -> S -> Prop) (c c' : S * list (prog Ans A)) t1 t2 :
  pexec sem c (t1 ++ t2) c' -> exists c1, pexec sem c t1 c1 /\ pexec sem c1 t2 c'.
Proof.
  revert c. induction t1 as [|[i e] t1 IH]; intros c; cbn; [exists c; split; [constructor|done]|].
  inversion 1 as [|s ps j o k x s' tr c2 Hi Hs Hx]; subst. destruct (IH _ Hx) as (c1 & H1 & H2).
  exists c1. split; [by econstructor|done].
Qed.

(** Only threads of the pool make calls. *)
Lemma pexec_thread (sem : S -> forall o : Op, Ans o -> S -> Prop) s (ps : list (prog Ans A)) tr s' ps' i e :
  pexec sem (s, ps) tr (s', ps') -> (i, e) ∈ tr -> is_Some (ps !! i).
Proof.
  intros Hx. remember (s, ps) as c eqn:Hc. remember (s', ps') as c' eqn:Hc'. revert s ps Hc.
  induction Hx as [c|s0 ps0 j o k x s1 tr c Hj Hsem _ IH]; intros s ps Hc; simplify_eq; [by intros ?%elem_of_nil|].
  intros [?|Hin]%elem_of_cons; simplify_eq; [eauto|].
  destruct (IH eq_refl _ _ eq_refl Hin) as [p Hp]. apply lookup_lt_Some in Hp. rewrite length_insert in Hp.
  by apply lookup_lt_is_Some_2.
Qed.

(** A thread of a pool only performs traces of its own program. *)
Lemma pexec_reaches (sem : S -> forall o : Op, Ans o -> S -> Prop) s (ps : list (prog Ans A)) tr s' ps' i p :
  pexec sem (s, ps) tr (s', ps') -> ps !! i = Some p ->
  exists p', ps' !! i = Some p' /\ reaches p (thread_trace i tr) p'.
Proof.
  intros H. remember (s, ps) as c eqn:Hc. remember (s', ps') as c' eqn:Hc'.
  revert s ps p Hc Hc'. induction H as [c|s0 ps0 j o k x s1 tr c Hj Hsem _ IH];
    intros s ps p Hc Hc' Hi; simplify_eq.
  { exists p. split; [done|]. destruct p; by left. }
  unfold thread_trace. rewrite filter_cons. cbn. case_decide as Hij.
  - subst j. simplify_eq. destruct (IH s1 (<[i := k x]> ps) (k x)) as (p' & Hp' & Hr); [done..| |].
    { apply list_lookup_insert_eq. by eapply lookup_lt_Some. }
    exists p'. split; [done|]. right. cbn. eauto.
  - destruct (IH s1 (<[j := k x]> ps) p) as (p' & Hp' & Hr); [done..| |].
    { by rewrite list_lookup_insert_ne. }
    eauto.
Qed.

(** A partial run of a program that obeys a monitor. *)
Lemma obeys_reaches {M : Type} (d : M -> event Ans -> option M) m (p : prog Ans A) F tr q :
  obeys d m p F -> reaches p tr q -> exists m', monitor d m tr = Some m' /\ obeys d m' q F.
Proof.
  revert m tr. induction p as [a| |o k IH]; intros m tr Ho.
  - intros [[-> ->]|[]]. by exists m.
  - intros [[-> ->]|[]]. by exists m.
  - intros [[-> ->]|(x & t & -> & Hr)]; [by exists m|]. cbn in Ho |- *. specialize (Ho x).
    destruct (d m (Ev o x)) as [m1|]; [|done]. by eapply IH.
Qed.

(** A pool neither gains nor loses threads. *)
Lemma pexec_length (sem : S -> forall o : Op, Ans o -> S -> Prop) (c c' : S * list (prog Ans A)) tr :
  pexec sem c tr c' -> length (snd c') = length (snd c).
Proof. induction 1 as [|s ps i o k x s' tr c' Hi Hs Hx IH]; [done|]. cbn in *. by rewrite IH, length_insert. Qed.

Lemma pexec_reached (sem : S -> forall o : Op, Ans o -> S -> Prop) s (ps : list (prog Ans A)) tr s' ps' i q :
  pexec sem (s, ps) tr (s', ps') -> ps' !! i = Some q ->
  exists p, ps !! i = Some p /\ reaches p (thread_trace i tr) q.
Proof.
  intros Hx Hq. destruct (ps !! i) as [p|] eqn:Hp.
  - destruct (pexec_reaches _ _ _ _ _ _ _ _ Hx Hp) as (q' & ? & ?). simplify_eq. eauto.
  - apply pexec_length in Hx. cbn in Hx. apply lookup_ge_None in Hp. apply lookup_lt_Some in Hq. lia.
Qed.

(** The state only changes by the calls of the trace. *)
Lemma pexec_trace (sem : S -> forall o : Op, Ans o -> S -> Prop) (c c' : S * list (prog Ans A)) tr :
  pexec sem c tr c' -> trace_sem sem (fst c) (snd <$> tr) (fst c').
Proof. induction 1 as [|s ps i o k x s' tr c' Hi Hs Hx IH]; [done|]. exists s'. by split. Qed.

End scheduling.

(** ** Termination under every schedule

    One step of a pool.  A command tree is finite along every branch, so whatever
    the scheduler and the environment do, a pool takes finitely many steps. *)

Section steps.
Context {Op : Type} {Ans : Op -> Type} {S A : Type}.
Context (sem : S -> forall o : Op, Ans o -> S -> Prop).

Inductive pstep : S * list (prog Ans A) -> S * list (prog Ans A) -> Prop :=
| pstep_intro s ps i o k x s' :
    ps !! i = Some (Vis o k) -> sem s o x s' -> pstep (s, ps) (s', <[i := k x]> ps).

(** The step without the shared state. *)
Definition resumes (p q : prog Ans A) : Prop :=
  match p with Vis o k => exists x, q = k x | _ => False end.

Definition tree_step (ps qs : list (prog Ans A)) : Prop :=
  exists i p q, ps !! i = Some p /\ resumes p q /\ qs = <[i := q]> ps.

Lemma tree_step_acc_cons ps : Acc (flip tree_step) ps -> forall p, Acc (flip tree_step) (p :: ps).
Proof.
  induction 1 as [ps _ IHps]. intros p.
  assert (Htail : forall i p' q, ps !! i = Some p' -> resumes p' q -> Acc (flip tree_step) (p :: <[i := q]> ps)).
  { intros i p' q Hi Hr. apply IHps. by exists i, p', q. }
  induction p as [a| |o k IHp]; constructor; intros qs ([|i] & p' & q & Hi & Hr & ->); cbn in Hi;
    try (exact (Htail i p' q Hi Hr)); injection Hi as <-; [destruct Hr|destruct Hr|].
  destruct Hr as [x ->]. apply IHp. intros i p' q Hi Hr. apply IHps. by exists i, p', q.
Qed.

Lemma tree_step_acc ps : Acc (flip tree_step) ps.
Proof.
  induction ps as [|p ps IH]; [|by apply tree_step_acc_cons].
  constructor. intros qs (i & p & q & Hi & _). by rewrite lookup_nil in Hi.
Qed.

Lemma pstep_acc c : Acc (flip pstep) c.
Proof.
  destruct c as [s ps]. revert s. induction (tree_step_acc ps) as [ps _ IH]. intros s.
  constructor. intros [s' qs] Hstep. inversion Hstep as [? ? i o k x ? Hi _]; subst.
  apply IH. exists i, (Vis o k), (k x). splits; [done|by exists x|done].
Qed.

(** Nothing left to do: every thread has returned or panicked. *)
Definition halted (p : prog Ans A) : Prop :=
  match p with Vis _ _ => False | _ => True end.

#[export] Instance halted_dec (p : prog Ans A) : Decision (halted p).
Proof. destruct p; cbn; [left; done|left; done|right; tauto]. Defined.

(** A pool with an invariant under which it can always move runs to completion. *)
Lemma pexec_completes_inv (I : S * list (prog Ans A) -> Prop) :
  (forall c c', I c -> pstep c c' -> I c') ->
  (forall s ps, I (s, ps) -> Forall halted ps \/ exists c, pstep (s, ps) c) ->
  forall c, I c -> exists tr c', pexec sem c tr c' /\ Forall halted (snd c') /\ I c'.
Proof.
  intros Hpres Hprog c. induction (pstep_acc c) as [[s ps] _ IH]. intros HI.
  destruct (Hprog s ps HI) as [H|[c1 Hst]]; [by exists [], (s, ps); split; [constructor|]|].
  destruct (IH c1 Hst (Hpres _ _ HI Hst)) as (tr & c' & Hx & Hh & HI').
  inversion Hst as [? ? i o k x s1 Hi Hs]; subst. exists ((i, Ev o x) :: tr), c'. split; [|done]. by econstructor.
Qed.

Context (answered : forall s o, exists x s', sem s o x s').

(** While a thread is not halted the pool can move: no deadlock. *)
Lemma pstep_progress s ps : Forall halted ps \/ exists c, pstep (s, ps) c.
Proof.
  destruct (decide (Forall halted ps)) as [H|H]; [by left|right].
  apply not_Forall_Exists, Exists_exists in H as (p & (i & Hi)%list_elem_of_lookup & Hp); [|apply _].
  destruct p as [a| |o k]; [by destruct Hp..|].
  destruct (answered s o) as (x & s' & Hs). eexists. by econstructor.
Qed.

End steps.

Section completed.
Context {Op : Type} {Ans : Op -> Type} {S A : Type}.

Lemma aborted_elem (ps : list (prog Ans A)) : aborted ps = true <-> exists i, ps !! i = Some Panic.
Proof.
  unfold aborted. rewrite List.existsb_exists. split.
  - intros (p & Hin%list_elem_of_In & Hp). apply list_elem_of_lookup in Hin as [i Hi]. exists i. by destruct p.
  - intros [i Hi]. exists Panic. split; [|done]. by eapply list_elem_of_In, list_elem_of_lookup_2.
Qed.

Lemma aexec_pexec (sem : S -> forall o : Op, Ans o -> S -> Prop) (c c' : S * list (prog Ans A)) tr :
  aexec sem c tr c' -> pexec sem c tr c'.
Proof. induction 1; [constructor|by econstructor]. Qed.

(** An aborted process does not move. *)
Lemma aborted_still (sem : S -> forall o : Op, Ans o -> S -> Prop) s (ps : list (prog Ans A)) l c :
  aborted ps = true -> ~ aexec sem (s, ps) [l] c.
Proof. intros Hab Hx. inversion Hx; congruence. Qed.

(** A process with nothing left to do: all its threads have returned, or one has
    panicked. *)
Definition stopped (ps : list (prog Ans A)) : Prop :=
  aborted ps = true \/ Forall (fun p => exists a, p = Ret a) ps.

(** As long as it is not, it can move. *)
Lemma aexec_progress (sem : S -> forall o : Op, Ans o -> S -> Prop) s (ps : list (prog Ans A)) :
  (forall s o, exists x s', sem s o x s') ->
  stopped ps \/ exists l c, aexec sem (s, ps) [l] c.
Proof.
  intros Hans. destruct (aborted ps) eqn:Hab; [by left; left|].
  destruct (pstep_progress sem Hans s ps) as [Hh|[c Hc]].
  - left. right. eapply Forall_lookup_2. intros i p Hi. rewrite Forall_lookup in Hh. specialize (Hh i p Hi).
    destruct p as [a| |o k]; [by exists a| |done].
    assert (aborted ps = true) by (apply aborted_elem; eauto). congruence.
  - right. inversion Hc as [? ? i o k x s' Hi Hs]; subst. exists (i, Ev o x). eexists.
    econstructor; [done|done|done|constructor].
Qed.

(** A program that reached its end has performed one of its complete traces. *)
Lemma reaches_runs (p : prog Ans A) tr q :
  reaches p tr q -> halted q -> exists r, runs p tr r /\ match r with Done a => q = Ret a | Aborted => q = Panic end.
Proof.
  revert tr. induction p as [a| |o k IH]; intros tr; cbn.
  - intros [[-> ->]|[]] _. by exists (Done a).
  - intros [[-> ->]|[]] _. by exists Aborted.
  - intros [[-> ->]|(x & t & -> & Hr)] Hh; [done|].
    destruct (IH x t Hr Hh) as (r & Hrun & Hq). exists r. split; [eauto|done].
Qed.

End completed.

(** ** Handlers

    A handler implements each call of one signature by a program of another;
    [interp] runs a program over its handler. *)

Fixpoint interp {Op1 Op2 : Type} {Ans1 : Op1 -> Type} {Ans2 : Op2 -> Type} {A : Type}
    (h : forall o, prog Ans2 (Ans1 o)) (p : prog Ans1 A) : prog Ans2 A :=
  match p with
  | Ret a => Ret a
  | Panic => Panic
  | Vis o k => bind (h o) (fun x => interp h (k x))
  end.

Section handlers.
Context {Op1 Op2 : Type} {Ans1 : Op1 -> Type} {Ans2 : Op2 -> Type}.
Context (h : forall o : Op1, prog Ans2 (Ans1 o)).
#[local] Existing Instance prog_equiv.

(** The lower trace is the upper one with each call replaced by a run of its
    handler that returned that call's answer. *)
Fixpoint implements (t : list (event Ans1)) (u : list (event Ans2)) : Prop :=
  match t with
  | [] => u = []
  | Ev o x :: t => exists s u', u = s ++ u' /\ runs (h o) s (Done x) /\ implements t u'
  end.

Lemma implements_app t1 t2 u :
  implements (t1 ++ t2) u <-> exists u1 u2, u = u1 ++ u2 /\ implements t1 u1 /\ implements t2 u2.
Proof.
  revert u. induction t1 as [|[o x] t1 IH]; intros u; cbn.
  - split; [intros H; by exists [], u|intros (u1 & u2 & -> & -> & H); done].
  - split.
    + intros (s & u' & -> & Hr & (u1 & u2 & -> & H1 & H2)%IH). exists (s ++ u1), u2.
      splits; [by rewrite app_assoc|by exists s, u1|done].
    + intros (u1 & u2 & -> & (s & u' & -> & Hr & H1) & H2). exists s, (u' ++ u2).
      splits; [by rewrite app_assoc|done|]. apply IH. eauto.
Qed.

Lemma interp_bind {A B : Type} (p : prog Ans1 A) (f : A -> prog Ans1 B) :
  interp h (bind p f) ≡ bind (interp h p) (fun a => interp h (f a)).
Proof.
  induction p as [a| |o k IH]; cbn [bind interp]; [done|done|].
  rewrite bind_assoc. apply bind_proper; [done|]. exact IH.
Qed.

Lemma interp_always {A : Type} (P : event Ans2 -> Prop) (p : prog Ans1 A) :
  (forall o, always P (h o) (fun _ => True)) -> always P (interp h p) (fun _ => True).
Proof. intros Hh. induction p as [a| |o k IH]; cbn; [done|done|]. eapply always_bind; [apply Hh|auto|done]. Qed.

(** The same when the handler is only known for the calls the program makes. *)
Lemma interp_always_op {A : Type} (inh : forall o, Ans1 o) (Q : Op1 -> Prop) (P : event Ans2 -> Prop) (p : prog Ans1 A) :
  always (fun e => Q (ev_op e)) p (fun _ => True) ->
  (forall o, Q o -> always P (h o) (fun _ => True)) -> always P (interp h p) (fun _ => True).
Proof.
  intros Hp Hh. induction p as [a| |o k IH]; cbn; [done|done|].
  eapply always_bind; [apply Hh, (Hp (inh o))|intros x _; apply IH, (Hp x)|done].
Qed.

Lemma interp_obeys {M A : Type} (d : M -> event Ans2 -> option M) m (p : prog Ans1 A) :
  (forall o m, obeys d m (h o) (fun _ _ => True)) -> obeys d m (interp h p) (fun _ _ => True).
Proof.
  intros Hh. revert m. induction p as [a| |o k IH]; intros m; cbn; [done|done|].
  eapply obeys_bind; [apply Hh|auto|done].
Qed.

Context (no_panic : forall o t, ~ runs (h o) t Aborted).

(** The traces of an interpreted program are the implementations of its own. *)
Lemma interp_runs {A : Type} (p : prog Ans1 A) tr r :
  runs (interp h p) tr r <-> exists tr1, runs p tr1 r /\ implements tr1 tr.
Proof.
  revert tr. induction p as [a| |o k IH]; intros tr; cbn [interp].
  - split; [intros [-> ->]; by exists []|]. by intros (tr1 & [-> ->] & ->).
  - split; [intros [-> ->]; by exists []|]. by intros (tr1 & [-> ->] & ->).
  - rewrite runs_bind. split.
    + intros [(x & t1 & t2 & -> & Hh & (u & Hr & Hi)%IH)|[Hp _]]; [|by destruct (no_panic _ _ Hp)].
      exists (Ev o x :: u). cbn. split; [eauto|by exists t1, t2].
    + intros (tr1 & (x & u & -> & Hr) & (s & u' & -> & Hs & Hi)). left.
      exists x, s, u'. splits; [done|done|]. apply IH. eauto.
Qed.

(** A lower event belongs to the handler of one upper call, and what precedes it
    implements what preceded that call. *)
Lemma implements_split tr u1 e u2 :
  implements tr (u1 ++ e :: u2) ->
  exists t1 o x t2 v1 s1 s2,
    tr = t1 ++ Ev o x :: t2 /\ implements t1 v1 /\ runs (h o) (s1 ++ e :: s2) (Done x) /\ u1 = v1 ++ s1.
Proof.
  revert u1. induction tr as [|[o x] tr IH]; intros u1; cbn [implements]; [by destruct u1|].
  intros (s & u' & Hu & Hr & Hi). apply app_eq_app in Hu as [k [[-> Hk]|[-> Hk]]]; swap 1 2.
  - destruct k as [|e' k]; [|cbn in Hk; simplify_eq; by exists [], o, x, tr, [], u1, k].
    rewrite app_nil_r in Hr. cbn in Hk. subst u'.
    destruct (IH [] Hi) as (t1 & o' & x' & t2 & v1 & s1 & s2 & -> & Hv & Hr' & Hn).
    exists (Ev o x :: t1), o', x', t2, u1, s1, s2. symmetry in Hn. apply app_eq_nil in Hn as [-> ->].
    splits; [done|exists u1, []; by rewrite app_nil_r|done|by rewrite app_nil_r].
  - subst u'. destruct (IH k Hi) as (t1 & o' & x' & t2 & v1 & s1 & s2 & -> & Hv & Hr' & ->).
    exists (Ev o x :: t1), o', x', t2, (s ++ v1), s1, s2.
    splits; [done|by exists s, v1|done|by rewrite app_assoc].
Qed.

(** The implementation of an upper call occurs in the lower trace. *)
Lemma implements_elem tr u o x :
  implements tr u -> Ev o x ∈ tr -> exists v1 s v2, u = v1 ++ s ++ v2 /\ runs (h o) s (Done x).
Proof.
  intros Hi (t1 & t2 & ->)%list_elem_of_split.
  apply implements_app in Hi as (u1 & u2 & -> & _ & (s & u' & -> & Hr & _)). by exists u1, s, u'.
Qed.

End handlers.
