(* ===== verification/Domain.v ===== *)
(** * chain-bridge-core: errors, audit entries, ports

    The hexagonal core ([crates/chain-bridge-core/src]): the error type that
    crosses port boundaries, the audit entry and its hash, and the ports as type
    classes.  SHA-256 ([solana_sdk::hash::hashv]) and the JSON encoder are
    parameters. *)

From S2P Require Import Prelude RustStd.
From Stdlib Require String.
Import String.StringSyntax.

Local Open Scope Z_scope.

(** ** error.rs *)

Module Errors.

Inductive ChainBridgeError : Type :=
| Signer (s : string)
| ChainClient (s : string)
| PolicyRejected (s : string)
| Simulation (s : string)
| Audit (s : string)
| Nonce (s : string)
| InvalidTransaction (s : string)
| Unauthorized (s : string).

(** [ChainBridgeError::is_transient]. *)
Definition is_transient (e : ChainBridgeError) : bool :=
  match e with
  | ChainClient _ | Simulation _ | Signer _ | Nonce _ => true
  | _ => false
  end.

(** The [#[error(...)]] display strings. *)
Definition display (e : ChainBridgeError) : string :=
  match e with
  | Signer s => "signer error: " +:+ s
  | ChainClient s => "chain client error: " +:+ s
  | PolicyRejected s => "policy rejected: " +:+ s
  | Simulation s => "simulation failed: " +:+ s
  | Audit s => "audit error: " +:+ s
  | Nonce s => "nonce error: " +:+ s
  | InvalidTransaction s => "invalid transaction: " +:+ s
  | Unauthorized s => "unauthorized: " +:+ s
  end.

End Errors.

Import Errors.

(** ** audit.rs *)

(** 32-byte SHA-256 link. *)
Record AuditHash := mkAuditHash { hash_bytes : bytes }.

#[export] Instance AuditHash_eq_dec : EqDecision AuditHash.
Proof. solve_decision. Defined.

(** The array type [[u8; 32]]. *)
Definition hash_wf (h : AuditHash) : Prop := length (hash_bytes h) = 32%nat.

(** [AuditHash::to_hex]. *)
Definition to_hex (h : AuditHash) : string := hex_string (hash_bytes h).

Inductive AuditOutcome : Type :=
| Submitted (signature : string) (slot : Z)
| Rejected (stage reason : string).

#[export] Instance AuditOutcome_eq_dec : EqDecision AuditOutcome.
Proof. solve_decision. Defined.

Record AuditEntry := mkAuditEntry {
  prev_hash : option AuditHash;
  correlation_id : string;
  identity : string;
  action : string;
  audit_outcome : AuditOutcome;
  created_at_ms : Z
}.

#[export] Instance AuditEntry_eq_dec : EqDecision AuditEntry.
Proof. solve_decision. Defined.

(** [AuditEntry::new]. *)
Definition audit_entry_new (corr ident act : string) (o : AuditOutcome) (ms : Z) : AuditEntry :=
  mkAuditEntry None corr ident act o ms.

(** The external functions [entry_hash] calls: [hashv] (SHA-256 of the
    concatenation of the slices, 32 bytes) and [serde_json::to_string]. *)
Class AuditHashing := {
  hashv : list bytes -> bytes;
  outcome_to_json : AuditOutcome -> result string string;
  hashv_concat : forall l, hashv l = hashv [mjoin l];
  hashv_length : forall l, length (hashv l) = 32%nat
}.

(** [Result::unwrap_or_default] on the encoder's result. *)
Definition outcome_json `{AuditHashing} (o : AuditOutcome) : string :=
  match outcome_to_json o with
  | Ok s => s
  | Err _ => ""
  end.

(** [prev.map(|h| h.0).unwrap_or([0u8; 32])]. *)
Definition prev_bytes (prev : option AuditHash) : bytes :=
  match prev with
  | Some h => hash_bytes h
  | None => replicate 32 x00
  end.

(** The slices given to [hashv]. *)
Definition hash_input `{AuditHashing} (e : AuditEntry) (prev : option AuditHash) : list bytes :=
  [ prev_bytes prev;
    as_bytes (correlation_id e);
    as_bytes (identity e);
    as_bytes (action e);
    as_bytes (outcome_json (audit_outcome e));
    to_le_bytes (created_at_ms e) ].

(** [AuditEntry::entry_hash]. *)
Definition entry_hash `{AuditHashing} (e : AuditEntry) (prev : option AuditHash) : AuditHash :=
  mkAuditHash (hashv (hash_input e prev)).

(** ** ports.rs *)

(** [AuditPort]: an append-only trail.  [S] is the store's state. *)
Class AuditPort (S : Type) := {
  audit_append : AuditEntry -> S -> result Z ChainBridgeError * S;
  audit_latest_hash : S -> result (option AuditHash) ChainBridgeError
}.

(** What a store may promise its clients: a successful append makes the new tip
    the hash of the entry linked to the old tip, and a failed append leaves the
    tip as it was. *)
Class AuditPortLaws (S : Type) `{AuditHashing, AuditPort S} := {
  append_links : forall e s i s',
    audit_append e s = (Ok i, s') ->
    exists prev, audit_latest_hash s = Ok prev /\
                 audit_latest_hash s' = Ok (Some (entry_hash e prev));
  append_error_keeps : forall e s x s',
    audit_append e s = (Err x, s') -> audit_latest_hash s' = audit_latest_hash s
}.

(** ** Properties *)

(** A retry is attempted exactly for the four variants that front a network or
    HSM edge; policy, authorisation, decoding and audit failures are terminal. *)
Lemma is_transient_spec (e : ChainBridgeError) :
  is_transient e = false <->
  (exists s, e = PolicyRejected s \/ e = Audit s \/ e = InvalidTransaction s \/ e = Unauthorized s).
Proof. destruct e; cbn; naive_solver. Qed.

Lemma to_hex_length (h : AuditHash) : hash_wf h -> String.length (to_hex h) = 64%nat.
Proof. unfold hash_wf, to_hex. intros H. by rewrite hex_string_length, H. Qed.

Lemma to_hex_inj (h k : AuditHash) : to_hex h = to_hex k -> h = k.
Proof. destruct h, k. unfold to_hex. cbn. by intros ->%hex_string_inj. Qed.

Section hashing.
Context `{AuditHashing}.

Lemma entry_hash_wf e prev : hash_wf (entry_hash e prev).
Proof. apply hashv_length. Qed.

(** The entry's fields as one string, with no separators between them. *)
Definition field_string (e : AuditEntry) : string :=
  correlation_id e +:+ (identity e +:+ (action e +:+ outcome_json (audit_outcome e))).

Lemma hash_input_join e prev :
  mjoin (hash_input e prev) =
  prev_bytes prev ++ as_bytes (field_string e) ++ to_le_bytes (created_at_ms e).
Proof.
  unfold hash_input, field_string. rewrite !as_bytes_app.
  cbn -[as_bytes to_le_bytes replicate]. by rewrite app_nil_r, <- !app_assoc.
Qed.

(** Two entries whose separator-free field strings and timestamps agree have
    the same hash: the digest does not see the field boundaries. *)
Lemma entry_hash_ext e1 e2 prev :
  field_string e1 = field_string e2 -> created_at_ms e1 = created_at_ms e2 ->
  entry_hash e1 prev = entry_hash e2 prev.
Proof.
  intros Hf Ht. unfold entry_hash. f_equal.
  rewrite (hashv_concat (hash_input e1 prev)), (hashv_concat (hash_input e2 prev)).
  by rewrite !hash_input_join, Hf, Ht.
Qed.

(** The bytes whose SHA-256 is the digest of an entry. *)
Definition digested (e : AuditEntry) (prev : option AuditHash) : bytes := mjoin (hash_input e prev).

(** Conversely equal digests give equal inputs, unless what was digested for the
    two entries is a SHA-256 collision. *)
Lemma entry_hash_inj e1 e2 p1 p2 :
  length (prev_bytes p1) = length (prev_bytes p2) ->
  is_u64 (created_at_ms e1) -> is_u64 (created_at_ms e2) ->
  entry_hash e1 p1 = entry_hash e2 p2 ->
  (digested e1 p1 <> digested e2 p2 /\ hashv [digested e1 p1] = hashv [digested e2 p2]) \/
  (prev_bytes p1 = prev_bytes p2 /\ field_string e1 = field_string e2
   /\ created_at_ms e1 = created_at_ms e2).
Proof.
  intros H1 H3 H4 Heq. unfold entry_hash in Heq. injection Heq as Heq.
  rewrite (hashv_concat (hash_input e1 _)), (hashv_concat (hash_input e2 _)) in Heq.
  destruct (decide (digested e1 p1 = digested e2 p2)) as [Hj|Hj]; [right|by left].
  unfold digested in Hj. rewrite !hash_input_join in Hj.
  apply app_inj_1 in Hj as [Hp Hj]; [|congruence].
  apply app_inj_2 in Hj as [Hf Ht]; [|by rewrite !length_to_le_bytes].
  splits; [done|by apply as_bytes_inj|by apply to_le_bytes_inj].
Qed.

End hashing.
