(* ===== verification/External.v ===== *)
(** * The code the bridge calls but does not contain

    Solana SDK, [gridtokenx-blockchain-core], [x509-parser], [base64],
    [serde_json], [http] and [tokio-retry] are not part of the repository.  Their
    data types appear here with the fields the sources use; their functions are
    fields of type classes, so every theorem holds for any implementation, and
    the documented facts the bridge relies on are separate law classes. *)

From S2P Require Import Prelude RustStd Effects Domain.
From Stdlib Require String.
Import String.StringSyntax.

Local Open Scope Z_scope.

(** ** Solana SDK data *)

Record Pubkey := mkPubkey { pubkey_bytes : bytes }.
Record Signature := mkSignature { sig_bytes : bytes }.
Record Hash := mkHash { blockhash_bytes : bytes }.

#[export] Instance Pubkey_eq_dec : EqDecision Pubkey.
Proof. solve_decision. Defined.
#[export] Instance Signature_eq_dec : EqDecision Signature.
Proof. solve_decision. Defined.
#[export] Instance Hash_eq_dec : EqDecision Hash.
Proof. solve_decision. Defined.

(** [Hash::default()] and [Signature::default()]: all zero bytes. *)
Definition hash_default : Hash := mkHash (replicate 32 x00).
Definition signature_default : Signature := mkSignature (replicate 64 x00).

Record MessageHeader := mkHeader {
  num_required_signatures : Z;
  num_readonly_signed_accounts : Z;
  num_readonly_unsigned_accounts : Z
}.

Record CompiledInstruction := mkInstruction {
  program_id_index : Z;
  ix_accounts : list Z;
  ix_data : bytes
}.

Record Message := mkMessage {
  header : MessageHeader;
  account_keys : list Pubkey;
  recent_blockhash : Hash;
  instructions : list CompiledInstruction
}.

Record Transaction := mkTransaction {
  signatures : list Signature;
  message : Message
}.

#[export] Instance MessageHeader_eq_dec : EqDecision MessageHeader.
Proof. solve_decision. Defined.
#[export] Instance CompiledInstruction_eq_dec : EqDecision CompiledInstruction.
Proof. solve_decision. Defined.
#[export] Instance Message_eq_dec : EqDecision Message.
Proof. solve_decision. Defined.
#[export] Instance Transaction_eq_dec : EqDecision Transaction.
Proof. solve_decision. Defined.

(** [transaction.message.recent_blockhash = h]. *)
Definition with_blockhash (h : Hash) (tx : Transaction) : Transaction :=
  mkTransaction (signatures tx)
    (mkMessage (header (message tx)) (account_keys (message tx)) h (instructions (message tx))).

Definition with_signatures (l : list Signature) (tx : Transaction) : Transaction :=
  mkTransaction l (message tx).

(** [RpcSimulateTransactionResult], the fields that are read: [err] is the
    [Debug] text of the transaction error. *)
Record SimResult := mkSim {
  sim_err : option string;
  sim_units_consumed : option Z;
  sim_logs : option (list string)
}.

Record Account := mkAccount {
  lamports : Z;
  account_data : bytes;
  account_owner : Pubkey;
  account_executable : bool;
  account_rent_epoch : Z
}.
Record PrioritizationFee := mkFee { fee_slot : Z; prioritization_fee : Z }.

Record EpochInfo := mkEpoch {
  absolute_slot : Z;
  block_height : Z;
  epoch : Z;
  slots_in_epoch : Z;
  slot_index : Z;
  transaction_count : option Z
}.

(** Errors of the RPC client, Vault and bincode only reach the bridge through
    [to_string]: they are their display text. *)
Class SolanaSdk := {
  deserialize_tx : bytes -> result Transaction string;
  serialize_tx : Transaction -> result bytes string;
  message_data : Message -> bytes;
  pubkey_from_str : string -> result Pubkey string;
  signature_from_str : string -> result Signature string;
  signature_to_string : Signature -> string;
  hash_to_string : Hash -> string
}.

(** ** gridtokenx-blockchain-core *)

(** The roles the sources name. *)
Inductive ServiceRole : Type :=
| Admin | ApiGateway | IamService | TradingApi | TradingMatcher | AggregatorBridge
| SettlementService | ReportingService | MeterService | Unknown.

#[export] Instance ServiceRole_eq_dec : EqDecision ServiceRole.
Proof. solve_decision. Defined.

Record EnvelopeAuth := mkEnvelopeAuth {
  auth_scheme : string;
  auth_cert_pem : string;
  auth_signature : string
}.

Record TxSubmitMessage := mkSubmit {
  ts_correlation_id : string;
  ts_idempotency_key : string;
  ts_reply_subject : string;
  ts_serialized_tx : bytes;
  ts_key_id : string;
  ts_skip_preflight : bool;
  ts_retry_count : Z;
  ts_service_identity : string;
  ts_created_at_ms : Z;
  ts_auth : option EnvelopeAuth
}.

Record TxCancelMessage := mkCancel {
  tc_correlation_id : string;
  tc_reply_subject : string;
  tc_service_identity : string;
  tc_created_at_ms : Z;
  tc_auth : option EnvelopeAuth
}.

(** [energy_kwh] is an IEEE double, carried by its bit pattern. *)
Record MintEnergyMessage := mkMint {
  me_correlation_id : string;
  me_idempotency_key : string;
  me_reply_subject : string;
  me_recipient_wallet : string;
  me_energy_kwh : Z;
  me_meter_id : bytes;
  me_window_start_ms : Z;
  me_service_identity : string;
  me_created_at_ms : Z;
  me_auth : option EnvelopeAuth
}.

Record TxStatusMessage := mkStatus {
  tq_correlation_id : string;
  tq_reply_subject : string;
  tq_signature : string;
  tq_service_identity : string;
  tq_auth : option EnvelopeAuth
}.

Record TxResultMessage := mkTxResult {
  tr_correlation_id : string;
  tr_success : bool;
  tr_signature : option string;
  tr_error : option string;
  tr_slot : Z;
  tr_deduplicated : bool
}.

Record TxCancelResultMessage := mkCancelResult {
  cr_correlation_id : string;
  cr_success : bool;
  cr_error : option string
}.

Record MintEnergyResultMessage := mkMintResult {
  mr_correlation_id : string;
  mr_success : bool;
  mr_signature : option string;
  mr_error : option string;
  mr_slot : Z;
  mr_deduplicated : bool
}.

Record TxStatusResultMessage := mkStatusResult {
  sr_correlation_id : string;
  sr_found : bool;
  sr_confirmed : bool;
  sr_status : string;
  sr_slot : Z;
  sr_error : option string
}.

(** The four reply types a handler publishes. *)
Inductive Reply : Type :=
| ReplySubmit (m : TxResultMessage)
| ReplyCancel (m : TxCancelResultMessage)
| ReplyMint (m : MintEnergyResultMessage)
| ReplyStatus (m : TxStatusResultMessage).

(** The instruction type the builder returns, before compilation. *)
Record Instruction := mkIx { ix_program_id : Pubkey; ix_keys : list Pubkey; ix_bytes : bytes }.

Class BlockchainCore := {
  role_of : string -> ServiceRole;
  require_any : ServiceRole -> list ServiceRole -> result unit string;
  validate_transaction : string -> Transaction -> result unit string;
  canonical_submit_bytes : TxSubmitMessage -> bytes;
  canonical_cancel_bytes : TxCancelMessage -> bytes;
  canonical_mint_bytes : MintEnergyMessage -> bytes;
  canonical_status_bytes : TxStatusMessage -> bytes;
  ENVELOPE_AUTH_SCHEME_V1 : string;
  verify_p256_signature : bytes -> bytes -> bytes -> result unit string;
  energy_kwh_to_base_units : Z -> result Z string;
  build_generation_mint_instructions :
    Pubkey -> Pubkey -> Pubkey -> Z -> bytes -> Z -> result (list Instruction) string;
  set_compute_unit_limit : Z -> Instruction;
  message_new : list Instruction -> option Pubkey -> Message;
  new_unsigned : Message -> Transaction
}.

(** [ServiceRole::require_any]: the listed roles, and [Admin] always. *)
Class RbacLaws `{BlockchainCore} := {
  require_any_ok : forall r l, is_ok (require_any r l) = bool_decide (r ∈ l \/ r = Admin)
}.

(** ** x509-parser *)

Inductive GeneralName : Type :=
| URI (uri : string)
| OtherName.

Inductive ParsedExtension : Type :=
| SubjectAlternativeName (general_names : list GeneralName)
| OtherExtension.

(** [asn1_now] is the clock reading of [ASN1Time::now()] at the call. *)
Class X509 := {
  Cert : Type;
  Spki : Type;
  ASN1Time : Type;
  parse_x509_pem : bytes -> result bytes string;
  cert_from_der : bytes -> result Cert string;
  asn1_from_timestamp : Z -> option ASN1Time;
  asn1_now : ASN1Time;
  cert_is_valid_at : Cert -> ASN1Time -> bool;
  cert_public_key : Cert -> Spki;
  cert_verify_signature : Cert -> Spki -> bool;
  spki_data : Spki -> bytes;
  cert_extensions : Cert -> list ParsedExtension
}.

(** ** base64 *)

Class Base64 := {
  b64_encode : bytes -> string;
  b64_decode : string -> result bytes string
}.

(** [STANDARD] decodes what it encoded, and its alphabet has no [:]. *)
Class Base64Laws `{Base64} := {
  b64_decode_encode : forall l, b64_decode (b64_encode l) = Ok l;
  b64_no_colon : forall l, Forall (fun c => c <> ":"%char) (String.list_ascii_of_string (b64_encode l))
}.

(** ** serde_json

    A double is carried by its bit pattern. *)

Class SerdeJson := {
  Value : Type;
  value_null : Value;
  value_get : Value -> string -> option Value;
  value_is_null : Value -> bool;
  value_as_str : Value -> option string;
  value_as_u64 : Value -> option Z;
  value_as_f64 : Value -> option Z;
  value_as_array : Value -> option (list Value);
  value_to_string : Value -> string;
  parse_submit : bytes -> result TxSubmitMessage string;
  parse_cancel : bytes -> result TxCancelMessage string;
  parse_mint : bytes -> result MintEnergyMessage string;
  parse_status : bytes -> result TxStatusMessage string;
  encode_reply : Reply -> result bytes string
}.

(** [value[key]]: [Value::Null] when the key is absent or the value is no object. *)
Definition value_index `{SerdeJson} (v : Value) (k : string) : Value :=
  unwrap_or (value_get v k) value_null.

(** Values built by [json!]: an object and its members. *)
Class JsonMacro `{SerdeJson} := {
  json_obj : list (string * Value) -> Value;
  json_str : string -> Value;
  json_u64 : Z -> Value;
  json_f64 : Z -> Value
}.

(** An object of distinct keys answers [get] with the member of that key, the readers read what
    was written, and null is null and no string. *)
Class JsonMacroLaws `{JsonMacro} := {
  get_obj : forall l k, NoDup l.*1 -> value_get (json_obj l) k = list_to_map (M := gmap string Value) l !! k;
  as_u64_u64 : forall n, 0 <= n < 2 ^ 64 -> value_as_u64 (json_u64 n) = Some n;
  null_is_null : value_is_null value_null = true;
  null_as_str : value_as_str value_null = None
}.

(** ** http *)

Class HttpHeaders := {
  HeaderValue : Type;
  header_from_str : string -> option HeaderValue;
  header_to_str : HeaderValue -> option string
}.

(** A header value made from a string reads back as that string or not at all. *)
Class HttpHeadersLaws `{HttpHeaders} := {
  header_roundtrip : forall s v t, header_from_str s = Some v -> header_to_str v = Some t -> t = s
}.
