(* ===== verification/BridgeOps.v ===== *)
(** * The calls a bridge function makes

    The effect signature of the command trees: the [SolanaProvider] and
    [VaultProvider] methods, the audit port, the blockhash cache, the two shared
    maps of the NATS consumer, the JetStream operations, the clock and the
    metrics.  [bridge_state]/[bridge_sem] give the calls that touch the bridge's
    own state their meaning; everything else is answered by the environment. *)

From S2P Require Import Prelude RustStd Effects Domain External.
From Stdlib Require String.
Import String.StringSyntax.

Local Open Scope Z_scope.

(** ** dedup.rs *)

Inductive DedupState : Type :=
| InFlight
| DoneState (signature : option string) (slot : Z).

Record DedupRecord := mkDedup { expiry_ms : Z; dedup_state : DedupState }.

#[export] Instance DedupState_eq_dec : EqDecision DedupState.
Proof. solve_decision. Defined.
#[export] Instance DedupRecord_eq_dec : EqDecision DedupRecord.
Proof. solve_decision. Defined.

(** [NatsConsumer::claim_or_replay]: the decision and the new store.  The
    [DashMap] entry is locked for the whole decision, so it is atomic. *)
Definition claim_or_replay (store : gmap string DedupRecord) (dedup_key : option string)
    (corr : string) (now_ms : Z) : option TxResultMessage * gmap string DedupRecord :=
  match dedup_key with
  | None => (None, store)
  | Some key =>
      let claim := (None, <[key := mkDedup (u64_add now_ms 120000) InFlight]> store) in
      match store !! key with
      | Some rec =>
          if now_ms <? expiry_ms rec then
            (Some (match dedup_state rec with
                   | DoneState signature slot =>
                       mkTxResult corr true signature None slot true
                   | InFlight =>
                       mkTxResult corr false None
                         (Some "Submit already in flight for this idempotency_key") 0 true
                   end), store)
          else claim
      | None => claim
      end
  end.

(** [AckKind]. *)
Inductive AckKind : Type := Ack | Term.

#[export] Instance AckKind_eq_dec : EqDecision AckKind.
Proof. solve_decision. Defined.

(** ** The signature *)

Inductive bop : Type :=
(* clock: [gridtokenx_telemetry::time::now()] *)
| NowMs
| NowSecs
| SleepMs (ms : Z)
(* BlockhashCache *)
| CacheGet
| CacheUpdate (h : Hash) (height : Z)
(* SolanaProvider *)
| LatestBlockhash
| Simulate (tx : Transaction)
| SendTx (tx : Transaction)
| SigStatuses (sigs : list Signature)
| GetBalance (pk : Pubkey)
| GetAccount (pk : Pubkey)
| GetFees (pks : list Pubkey)
| GetTokenBalance (pk : Pubkey)
| GetSlot
| RequestAirdrop (pk : Pubkey) (lamports : Z)
| GetTransaction (sig : Signature)
| GetEpochInfo
(* VaultProvider *)
| VaultSign (key_name : string) (msg : bytes)
| VaultPubkey (key_name : string)
(* AuditPort *)
| AuditAppend (e : AuditEntry)
(* NatsConsumer maps *)
| IdemContains (k : string)
| IdemInsert (k : string) (expiry : Z)
| ClaimOrReplay (k : option string) (corr : string) (now_ms : Z)
| DedupInsert (k : string) (rec : DedupRecord)
| DedupRemove (k : string)
| DedupRetain (now_ms : Z)
(* JetStream and metrics *)
| Publish (subject : string) (payload : bytes)
| AckMsg (kind : AckKind)
| Metric (name : string) (success : bool).

Section signature.
Context {J : SerdeJson}.

Definition bans (o : bop) : Type :=
  match o with
  | NowMs | NowSecs => Z
  | SleepMs _ => unit
  | CacheGet => option (Hash * Z)
  | CacheUpdate _ _ => unit
  | LatestBlockhash => result (Hash * Z) string
  | Simulate _ => result SimResult string
  | SendTx _ => result Signature string
  | SigStatuses _ => result (list (option Value)) string
  | GetBalance _ => result Z string
  | GetAccount _ => result Account string
  | GetFees _ => result (list PrioritizationFee) string
  | GetTokenBalance _ => result Value string
  | GetSlot => result Z string
  | RequestAirdrop _ _ => result Signature string
  | GetTransaction _ => result Value string
  | GetEpochInfo => result EpochInfo string
  | VaultSign _ _ => result Signature string
  | VaultPubkey _ => result Pubkey string
  | AuditAppend _ => result Z string
  | IdemContains _ => bool
  | IdemInsert _ _ => unit
  | ClaimOrReplay _ _ _ => option TxResultMessage
  | DedupInsert _ _ => unit
  | DedupRemove _ => unit
  | DedupRetain _ => unit
  | Publish _ _ => result unit string
  | AckMsg _ => result unit string
  | Metric _ _ => unit
  end.

(** ** The bridge's own state *)

Record bridge_state := mkBridge {
  blockhash_cache : option (Hash * Z);
  idempotency_cache : gmap string Z;
  dedup_store : gmap string DedupRecord
}.

Definition set_idem (m : gmap string Z) (s : bridge_state) : bridge_state :=
  mkBridge (blockhash_cache s) m (dedup_store s).
Definition set_dedup (m : gmap string DedupRecord) (s : bridge_state) : bridge_state :=
  mkBridge (blockhash_cache s) (idempotency_cache s) m.

(** A fresh [NatsConsumer] and [BlockhashCache]. *)
Definition bridge_new : bridge_state := mkBridge None ∅ ∅.

(** The answer the bridge's own state determines, and the state after the
    call; [None] for the calls the environment answers. *)
Definition own_step (s : bridge_state) (o : bop) : option (bans o * bridge_state) :=
  match o with
  | CacheGet => Some (blockhash_cache s, s)
  | CacheUpdate h n => Some (tt, mkBridge (Some (h, n)) (idempotency_cache s) (dedup_store s))
  | IdemContains k => Some (bool_decide (is_Some (idempotency_cache s !! k)), s)
  | IdemInsert k e => Some (tt, set_idem (<[k := e]> (idempotency_cache s)) s)
  | ClaimOrReplay k corr now =>
      let '(r, m) := claim_or_replay (dedup_store s) k corr now in
      Some (r, set_dedup m s)
  | DedupInsert k rec => Some (tt, set_dedup (<[k := rec]> (dedup_store s)) s)
  | DedupRemove k => Some (tt, set_dedup (delete k (dedup_store s)) s)
  | DedupRetain now =>
      Some (tt, set_dedup (filter (fun x => now < expiry_ms (snd x)) (dedup_store s)) s)
  | _ => None
  end.

(** The meaning of a call over the shared state: determined by the bridge's
    state, or any answer with the state unchanged. *)
Definition bridge_sem (s : bridge_state) (o : bop) (x : bans o) (s' : bridge_state) : Prop :=
  match own_step s o with
  | Some (y, s1) => x = y /\ s' = s1
  | None => s' = s
  end.

(** An executable environment: the bridge's state beside a script that answers
    the external calls. *)
Definition with_env {E : Type} (env : forall o, E -> bans o * E) (o : bop) (s : bridge_state * E)
  : bans o * (bridge_state * E) :=
  match own_step (fst s) o with
  | Some (x, s1) => (x, (s1, snd s))
  | None => let '(x, e) := env o (snd s) in (x, (fst s, e))
  end.

(** A total environment in which nothing external answers with content: reads
    fail, the Vault signs with the default signature. *)
Definition quiet_answer (o : bop) : bans o :=
  match o with
  | NowMs | NowSecs => 0
  | SleepMs _ => tt
  | CacheGet => Some (hash_default, 0)
  | CacheUpdate _ _ => tt
  | LatestBlockhash => Err ""
  | Simulate _ => Err ""
  | SendTx _ => Err ""
  | SigStatuses _ => Err ""
  | GetBalance _ => Err ""
  | GetAccount _ => Err ""
  | GetFees _ => Err ""
  | GetTokenBalance _ => Err ""
  | GetSlot => Err ""
  | RequestAirdrop _ _ => Err ""
  | GetTransaction _ => Err ""
  | GetEpochInfo => Err ""
  | VaultSign _ _ => Ok signature_default
  | VaultPubkey _ => Err ""
  | AuditAppend _ => Err ""
  | IdemContains _ => false
  | IdemInsert _ _ => tt
  | ClaimOrReplay _ _ _ => None
  | DedupInsert _ _ => tt
  | DedupRemove _ => tt
  | DedupRetain _ => tt
  | Publish _ _ => Err ""
  | AckMsg _ => Err ""
  | Metric _ _ => tt
  end.

(** ** tokio-retry *)

(** [Retry::spawn(strategy, action)]: run the action; on an error sleep for the
    next duration of the strategy and try again, until it is exhausted. *)
Class TokioRetry := {
  retry_spawn : forall A E : Type, list Z -> prog bans (result A E) -> prog bans (result A E);
  retry_nil : forall A E act, retry_spawn A E [] act = act;
  retry_cons : forall A E d ds act,
    retry_spawn A E (d :: ds) act =
    bind act (fun r => match r with
                       | Ok a => Ret (Ok a)
                       | Err _ => bind (call (SleepMs d)) (fun _ => retry_spawn A E ds act)
                       end)
}.

End signature.

Arguments retry_spawn {J _ A E} ds act.

(** [FixedInterval::from_millis(ms).take(n)]. *)
Definition fixed_interval_take (ms : Z) (n : nat) : list Z := replicate n ms.

(** ** Rules for retried actions *)

Section retry.
Context {J : SerdeJson} {R : TokioRetry}.

Lemma retry_always {A E : Type} (P : event bans -> Prop) ds (act : prog bans (result A E)) F :
  (forall d x, P (Ev (SleepMs d) x)) -> always P act F -> always P (retry_spawn ds act) F.
Proof.
  intros HS Ha. induction ds as [|d ds IH]; [by rewrite retry_nil|].
  rewrite retry_cons. eapply always_bind; [exact Ha| |auto].
  intros [a|e] HF; cbn; auto.
Qed.

(** Each attempt starts where the last failed one left the monitor. *)
Lemma retry_obeys {M A E : Type} (d : M -> event bans -> option M) (G : nat -> M -> Prop)
    (F : M -> outcome (result A E) -> Prop) ds (act : prog bans (result A E)) m :
  (forall n m ms x, G n m -> d m (Ev (SleepMs ms) x) = Some m) ->
  (forall n m, G (S n) m -> obeys d m act (fun m' r => match r with
                                                       | Done (Err e) => G n m' /\ F m' (Done (Err e))
                                                       | _ => F m' r
                                                       end)) ->
  G (S (length ds)) m -> obeys d m (retry_spawn ds act) F.
Proof.
  intros HS Ha. revert m. induction ds as [|ms ds IH]; intros m HG.
  - rewrite retry_nil. eapply obeys_mono; [by apply (Ha 0%nat)|]. intros m' [[a|e]|]; naive_solver.
  - rewrite retry_cons. eapply obeys_bind; [by apply (Ha (S (length ds)))| |done].
    intros m' [a|e]; cbn beta iota; [done|]. intros [HG' _].
    cbn. intros x. rewrite (HS _ _ _ _ HG'). by apply IH.
Qed.

End retry.

(** ** Lemmas on the dedup decision *)

Section claim.
Implicit Types (m : gmap string DedupRecord).

Lemma claim_none m corr now : claim_or_replay m None corr now = (None, m).
Proof. done. Qed.

Lemma claim_fresh m k corr now :
  (forall rec, m !! k = Some rec -> expiry_ms rec <= now) ->
  claim_or_replay m (Some k) corr now =
  (None, <[k := mkDedup (u64_add now 120000) InFlight]> m).
Proof.
  intros H. unfold claim_or_replay. destruct (m !! k) as [rec|] eqn:E; [|done].
  specialize (H rec eq_refl). by rewrite (proj2 (Z.ltb_ge _ _) H).
Qed.

Lemma claim_live m k corr now rec :
  m !! k = Some rec -> now < expiry_ms rec ->
  exists r, claim_or_replay m (Some k) corr now = (Some r, m)
            /\ tr_correlation_id r = corr /\ tr_deduplicated r = true
            /\ match dedup_state rec with
               | DoneState sig slot => r = mkTxResult corr true sig None slot true
               | InFlight => tr_success r = false /\ tr_signature r = None
               end.
Proof.
  intros H Hn. unfold claim_or_replay. rewrite H, (proj2 (Z.ltb_lt _ _) Hn).
  eexists. split; [done|]. by destruct (dedup_state rec).
Qed.

(** Only the claimed key can change. *)
Lemma claim_other m key k corr now :
  key <> Some k -> snd (claim_or_replay m key corr now) !! k = m !! k.
Proof.
  intros Hk. unfold claim_or_replay. destruct key as [key|]; [|done].
  assert (key <> k) by congruence.
  destruct (m !! key) as [rec|]; [destruct (now <? expiry_ms rec)|]; cbn;
    rewrite ?lookup_insert_ne; done.
Qed.

(** A claim is granted only to a key with no live record. *)
Lemma claim_granted m key corr now m' :
  claim_or_replay m (Some key) corr now = (None, m') ->
  (forall rec, m !! key = Some rec -> expiry_ms rec <= now)
  /\ m' = <[key := mkDedup (u64_add now 120000) InFlight]> m.
Proof.
  unfold claim_or_replay. destruct (m !! key) as [rec|] eqn:E.
  - destruct (now <? expiry_ms rec) eqn:Hn; [done|]. intros [= <-].
    split; [|done]. intros rec' [= <-]. by apply Z.ltb_ge.
  - intros [= <-]. split; [|done]. done.
Qed.

(** A refused claim changes nothing. *)
Lemma claim_refused m key corr now r m' :
  claim_or_replay m key corr now = (Some r, m') -> m' = m.
Proof.
  unfold claim_or_replay. destruct key as [key|]; [|done].
  destruct (m !! key) as [rec|]; [|done]. destruct (now <? expiry_ms rec); [|done]. by intros [= _ <-].
Qed.

End claim.

(** ** Lemmas on the shared state *)

Section state.
Context {J : SerdeJson}.

(** No call removes a correlation id. *)
Lemma bridge_sem_idem s o x s' k :
  bridge_sem s o x s' -> is_Some (idempotency_cache s !! k) -> is_Some (idempotency_cache s' !! k).
Proof.
  destruct o; cbn; try (by intros ->); try (by intros [-> ->]).
  - intros [-> ->]. cbn. destruct (decide (k = k0)) as [->|]; [by rewrite lookup_insert_eq|].
    by rewrite lookup_insert_ne.
  - unfold bridge_sem. cbn. destruct (claim_or_replay _ _ _ _) as [r m]. by intros [-> ->].
Qed.

Lemma trace_idem s tr s' k :
  trace_sem bridge_sem s tr s' -> is_Some (idempotency_cache s !! k) -> is_Some (idempotency_cache s' !! k).
Proof.
  apply (trace_sem_inv bridge_sem (fun s => is_Some (idempotency_cache s !! k))).
  intros s1 o x s2 _. apply bridge_sem_idem.
Qed.

(** A trace that inserts a correlation id leaves it recorded. *)
Lemma trace_idem_insert s tr s' k e x :
  trace_sem bridge_sem s tr s' -> Ev (IdemInsert k e) x ∈ tr -> is_Some (idempotency_cache s' !! k).
Proof.
  intros Ht (t1 & t2 & ->)%list_elem_of_split. apply trace_sem_app in Ht as (s1 & _ & (s2 & [-> ->] & Ht)).
  eapply trace_idem; [exact Ht|]. cbn. by rewrite lookup_insert_eq.
Qed.

(** Only the dedup operations on a key, and expiry, change its record. *)
Definition touches (k : string) (o : bop) : Prop :=
  match o with
  | ClaimOrReplay (Some k') _ _ | DedupInsert k' _ | DedupRemove k' => k' = k
  | DedupRetain _ => True
  | _ => False
  end.

Lemma bridge_sem_dedup s o x s' k :
  bridge_sem s o x s' -> ~ touches k o -> dedup_store s' !! k = dedup_store s !! k.
Proof.
  destruct o; cbn; try (by intros ->); try (by intros [-> ->]).
  - unfold bridge_sem. cbn. destruct (claim_or_replay _ _ _ _) as [r m] eqn:E. intros [-> ->] Hk. cbn.
    replace m with (snd (claim_or_replay (dedup_store s) k0 corr now_ms)) by by rewrite E.
    apply claim_other. naive_solver.
  - intros [-> ->] Hk. cbn. by rewrite lookup_insert_ne.
  - intros [-> ->] Hk. cbn. by rewrite lookup_delete_ne.
Qed.

Lemma trace_dedup s tr s' k :
  trace_sem bridge_sem s tr s' -> Forall (fun e => ~ touches k (ev_op e)) tr ->
  dedup_store s' !! k = dedup_store s !! k.
Proof.
  intros Ht HF. rewrite Forall_forall in HF.
  apply (trace_sem_inv bridge_sem (fun s1 => dedup_store s1 !! k = dedup_store s !! k) s tr); [|done|done].
  intros s1 o x s2 Hin Hs <-. eapply bridge_sem_dedup; [done|]. by apply (HF _ Hin).
Qed.

(** Computed runs and schedules are executions over the shared state. *)
Lemma with_env_sem {E : Type} (env : forall o, E -> bans o * E) o s e x s' e' :
  with_env env o (s, e) = (x, (s', e')) -> bridge_sem s o x s'.
Proof.
  unfold with_env, bridge_sem. cbn. destruct (own_step s o) as [[y s1]|].
  - by intros [= <- <- <-].
  - destruct (env o e) as [y e1]. by intros [= <- <- <-].
Qed.

Lemma run_exec {E A : Type} (env : forall o, E -> bans o * E) (p : prog bans A) s e :
  let t := run (with_env env) p (s, e) in
  exec bridge_sem p s (fst (fst t)) (snd (fst t)) (fst (snd t)).
Proof.
  revert s e. induction p as [a| |o k IH]; intros s e; [by cbn|by cbn|]. cbn [run].
  destruct (with_env env o (s, e)) as [x [s1 e1]] eqn:Hw. specialize (IH x s1 e1).
  destruct (run (with_env env) (k x) (s1, e1)) as [[tr r] [s2 e2]]. cbn in IH |- *.
  exists x, s1, tr. splits; [by eapply with_env_sem|done|done].
Qed.

Lemma schedule_bridge {E A : Type} (env : forall o, E -> bans o * E) sched s e (ps : list (prog bans A)) :
  let t := schedule (with_env env) sched (s, e) ps in
  pexec bridge_sem (s, ps) (fst (fst t)) (fst (snd (fst t)), snd t).
Proof.
  revert s e ps. induction sched as [|i sched IH]; intros s e ps; [constructor|]. cbn [schedule].
  destruct (ps !! i) as [[a| |o k]|] eqn:Hi; [apply IH|apply IH| |apply IH].
  destruct (with_env env o (s, e)) as [x [s1 e1]] eqn:Hw. specialize (IH s1 e1 (<[i := k x]> ps)).
  destruct (schedule (with_env env) sched (s1, e1) (<[i := k x]> ps)) as [[tr [s2 e2]] ps2]. cbn in IH |- *.
  econstructor; [done|by eapply with_env_sem|done].
Qed.

Lemma aschedule_bridge {E A : Type} (env : forall o, E -> bans o * E) sched s e (ps : list (prog bans A)) :
  let t := aschedule (with_env env) sched (s, e) ps in
  aexec bridge_sem (s, ps) (fst (fst t)) (fst (snd (fst t)), snd t).
Proof.
  revert s e ps. induction sched as [|i sched IH]; intros s e ps; [constructor|]. cbn [aschedule].
  destruct (aborted ps) eqn:Hab; [apply IH|]. destruct (ps !! i) as [[a| |o k]|] eqn:Hi; [apply IH|apply IH| |apply IH].
  destruct (with_env env o (s, e)) as [x [s1 e1]] eqn:Hw. specialize (IH s1 e1 (<[i := k x]> ps)).
  destruct (aschedule (with_env env) sched (s1, e1) (<[i := k x]> ps)) as [[tr [s2 e2]] ps2]. cbn in IH |- *.
  econstructor; [done|done|by eapply with_env_sem|done].
Qed.

End state.
