(* ===== verification/Fixtures.v ===== *)
(** * Concrete collaborators for the examples

    Small computable instances of the classes of [External], [Domain] and
    [BridgeOps], used only to evaluate theorems on concrete inputs and to show
    that the law classes can hold.  No theorem about the bridge depends on
    them; a file that evaluates examples declares the ones it needs as local
    instances. *)

From S2P Require Import Prelude RustStd Effects Domain External BridgeOps.
From Stdlib Require String.
Import String.StringSyntax.

Local Open Scope Z_scope.

(** ** Hashing: a 32-byte prefix *)

Definition toy_hash (l : list bytes) : bytes := vec_resize 32 x00 (mjoin l).

Definition toy_hashing : AuditHashing := {|
  hashv := toy_hash;
  outcome_to_json := fun o => Ok (match o with
                                  | Submitted s _ => "S" +:+ s
                                  | Rejected a b => "R" +:+ a +:+ ":" +:+ b
                                  end);
  hashv_concat := ltac:(intros l; unfold toy_hash; cbn; by rewrite app_nil_r);
  hashv_length := fun l => length_vec_resize 32 x00 (mjoin l)
|}.

(** ** JSON values *)

Inductive json : Type :=
| JNull
| JStr (s : string)
| JNum (n : Z)
| JArr (l : list json)
| JObj (l : list (string * json)).

Fixpoint assoc_get (k : string) (l : list (string * json)) : option json :=
  match l with
  | [] => None
  | (k', v) :: l => if String.eqb k k' then Some v else assoc_get k l
  end.

Definition reply_byte (r : Reply) : byte :=
  match r with
  | ReplySubmit m => if tr_success m then (if tr_deduplicated m then x02 else x01) else x00
  | ReplyCancel m => if cr_success m then x11 else x10
  | ReplyMint m => if mr_success m then (if mr_deduplicated m then x22 else x21) else x20
  | ReplyStatus m => if sr_found m then x31 else x30
  end.

(** [serde_json] with the four envelope decoders given. *)
Definition toy_serde (ps : bytes -> result TxSubmitMessage string)
    (pc : bytes -> result TxCancelMessage string)
    (pm : bytes -> result MintEnergyMessage string)
    (pt : bytes -> result TxStatusMessage string) : SerdeJson := {|
  Value := json;
  value_null := JNull;
  value_get := fun v k => match v with JObj l => assoc_get k l | _ => None end;
  value_is_null := fun v => match v with JNull => true | _ => false end;
  value_as_str := fun v => match v with JStr s => Some s | _ => None end;
  value_as_u64 := fun v => match v with JNum n => if bool_decide (is_u64 n) then Some n else None | _ => None end;
  value_as_f64 := fun v => None;
  value_as_array := fun v => match v with JArr l => Some l | _ => None end;
  value_to_string := fun v => match v with JStr s => s | _ => "" end;
  parse_submit := ps;
  parse_cancel := pc;
  parse_mint := pm;
  parse_status := pt;
  encode_reply := fun r => Ok [reply_byte r]
|}.

Definition no_parse {A : Type} (_ : bytes) : result A string := Err "expected value".

(** ** Solana SDK: two wire forms *)

Definition admin_key : Pubkey := mkPubkey (replicate 32 x07).

(** A well-formed transaction with an empty blockhash. *)
Definition toy_tx : Transaction :=
  mkTransaction [signature_default]
    (mkMessage (mkHeader 1 0 0) [admin_key] hash_default [mkInstruction 0 [] [x2a]]).

(** A transaction with no account keys and no signature slots. *)
Definition hollow_tx : Transaction :=
  mkTransaction [] (mkMessage (mkHeader 0 0 0) [] hash_default []).

Definition toy_sdk : SolanaSdk := {|
  deserialize_tx := fun b => match b with
                             | x01 :: _ => Ok toy_tx
                             | x02 :: _ => Ok hollow_tx
                             | _ => Err "io error: unexpected end of file"
                             end;
  serialize_tx := fun tx => Ok (if bool_decide (tx = hollow_tx) then [x02] else [x01]);
  message_data := fun m => blockhash_bytes (recent_blockhash m);
  pubkey_from_str := fun s => if str_is_empty s then Err "WrongSize" else Ok (mkPubkey (as_bytes s));
  signature_from_str := fun s => if str_is_empty s then Err "WrongSize" else Ok (mkSignature (as_bytes s));
  signature_to_string := fun s => hex_string (sig_bytes s);
  hash_to_string := fun h => hex_string (blockhash_bytes h)
|}.

(** ** gridtokenx-blockchain-core *)

Definition toy_role (ident : string) : ServiceRole :=
  if starts_with "spiffe://" ident then
    if str_contains "admin" ident then Admin
    else if str_contains "trading-matcher" ident then TradingMatcher
    else if str_contains "trading" ident then TradingApi
    else if str_contains "aggregator" ident then AggregatorBridge
    else if str_contains "settlement" ident then SettlementService
    else if str_contains "gateway" ident then ApiGateway
    else Unknown
  else Unknown.

Definition toy_core : BlockchainCore := {|
  role_of := toy_role;
  require_any := fun r l => if bool_decide (r ∈ l \/ r = Admin) then Ok tt else Err "role not permitted";
  validate_transaction := fun ident tx =>
    if bool_decide (toy_role ident = Unknown) then Err "unknown service identity" else Ok tt;
  canonical_submit_bytes := fun m => as_bytes (ts_correlation_id m);
  canonical_cancel_bytes := fun m => as_bytes (tc_correlation_id m);
  canonical_mint_bytes := fun m => as_bytes (me_correlation_id m);
  canonical_status_bytes := fun m => as_bytes (tq_correlation_id m);
  ENVELOPE_AUTH_SCHEME_V1 := "x509-p256-v1";
  verify_p256_signature := fun _ canonical sig =>
    if bool_decide (canonical = sig) then Ok tt else Err "signature verification failed";
  energy_kwh_to_base_units := fun kwh => if kwh <=? 0 then Err "energy must be positive" else Ok (kwh * 1000);
  build_generation_mint_instructions := fun payer _ recipient _ m _ => Ok [mkIx payer [recipient] m];
  set_compute_unit_limit := fun _ => mkIx admin_key [] [];
  message_new := fun _ payer => mkMessage (mkHeader 1 0 0) (option_list payer) hash_default [];
  new_unsigned := fun m => mkTransaction [signature_default] m
|}.

Lemma toy_rbac : @RbacLaws toy_core.
Proof. constructor. intros r l. cbn. by case_bool_decide. Defined.

(** ** Certificates: the DER bytes are the SPIFFE URI *)

Definition toy_x509 : X509 := {|
  Cert := string;
  Spki := string;
  ASN1Time := Z;
  parse_x509_pem := fun b => match b with [] => Err "no PEM block" | _ => Ok b end;
  cert_from_der := fun b => match b with [] => Err "EOF" | _ => Ok (String.string_of_list_byte b) end;
  asn1_from_timestamp := fun t => if t <? 0 then None else Some t;
  asn1_now := 0;
  cert_is_valid_at := fun _ t => t <? 4000000000;
  cert_public_key := fun c => c;
  cert_verify_signature := fun _ ca => String.eqb ca "ca";
  spki_data := fun s => as_bytes s;
  cert_extensions := fun c => [OtherExtension; SubjectAlternativeName [OtherName; URI c]]
|}.

Definition toy_b64 : Base64 := {|
  b64_encode := fun b => String.string_of_list_byte b;
  b64_decode := fun s => Ok (as_bytes s)
|}.

(** Hexadecimal text, which satisfies the laws. *)
Definition unhex_digit (c : ascii) : Z :=
  let n := Z.of_nat (nat_of_ascii c) in if n <? 58 then n - 48 else n - 87.

Fixpoint unhex (s : string) : result bytes string :=
  match s with
  | EmptyString => Ok []
  | String a (String b s) =>
      l <-? unhex s; Ok (byte_of_Z (16 * unhex_digit a + unhex_digit b) :: l)
  | String _ EmptyString => Err "invalid length"
  end.

Definition hex_b64 : Base64 := {| b64_encode := hex_string; b64_decode := unhex |}.

Lemma unhex_byte (b : byte) (s : string) : unhex (hex_byte b +:+ s) = (l <-? unhex s; Ok (b :: l)).
Proof. destruct b; reflexivity. Qed.

Lemma hex_no_colon (b : byte) :
  Forall (fun c => c <> ":"%char) (String.list_ascii_of_string (hex_byte b)).
Proof. destruct b; repeat constructor; discriminate. Qed.

Lemma hex_b64_laws : @Base64Laws hex_b64.
Proof.
  constructor; cbn.
  - induction l as [|b l IH]; [reflexivity|]. cbn [hex_string]. rewrite unhex_byte, IH. reflexivity.
  - induction l as [|b l IH]; [constructor|]. cbn [hex_string].
    change (hex_byte b +:+ hex_string l) with
      (String (hex_digit (byte_to_Z b / 16)) (String (hex_digit (byte_to_Z b mod 16)) (hex_string l))).
    pose proof (hex_no_colon b) as [H1 [H2 _]%Forall_cons]%Forall_cons. cbn.
    constructor; [exact H1|]. constructor; [exact H2|exact IH].
Defined.

Definition toy_headers : HttpHeaders := {|
  HeaderValue := string;
  header_from_str := fun s => Some s;
  header_to_str := fun s => Some s
|}.

Lemma toy_headers_laws : @HttpHeadersLaws toy_headers.
Proof. constructor. cbn. congruence. Defined.

(** ** tokio-retry *)

Fixpoint toy_retry `{SerdeJson} {A E : Type} (ds : list Z) (act : prog bans (result A E))
  : prog bans (result A E) :=
  match ds with
  | [] => act
  | d :: ds =>
      bind act (fun r => match r with
                         | Ok a => Ret (Ok a)
                         | Err _ => bind (call (SleepMs d)) (fun _ => toy_retry ds act)
                         end)
  end.

Definition toy_tokio `{SerdeJson} : TokioRetry := {|
  retry_spawn := fun A E => toy_retry;
  retry_nil := fun A E act => eq_refl;
  retry_cons := fun A E d ds act => eq_refl
|}.

(** ** Environments *)

(** A script of external answers that never runs dry: the [quiet_answer]s with
    some calls overridden. *)
Definition fixed_env `{SerdeJson} (f : forall o, option (bans o)) (o : bop) (u : unit) : bans o * unit :=
  (match f o with Some x => x | None => quiet_answer o end, u).

Definition sig_of_byte (b : byte) : Signature := mkSignature (replicate 64 b).

(** A healthy cluster: the cache is filled, simulation passes, Vault signs and
    the node accepts; the wall clock stands at [now]. *)
Definition healthy `{SerdeJson} (now : Z) (o : bop) : option (bans o) :=
  match o with
  | NowMs => Some now
  | NowSecs => Some (now / 1000)
  | LatestBlockhash => Some (Ok (mkHash (replicate 32 x05), 9))
  | Simulate _ => Some (Ok (mkSim None None None))
  | VaultSign _ _ => Some (Ok (sig_of_byte x09))
  | SendTx _ => Some (Ok (sig_of_byte x09))
  | AuditAppend _ => Some (Ok 1)
  | Publish _ _ => Some (Ok tt)
  | AckMsg _ => Some (Ok tt)
  | _ => None
  end.
