(* ===== verification/AuditStore.v ===== *)
(** * The audit trail adapters (chain-bridge-persistence/src/postgres_audit.rs)

    [InMemory] is [InMemoryAuditStore]: its mutex makes an append atomic.
    [Postgres] is [PostgresAuditStore]: an append is two SQL statements, so it
    is a command tree over the table and other appends may run between them. *)

From S2P Require Import Prelude RustStd Effects Domain External BridgeOps Fixtures.
From Stdlib Require String.
From stdpp Require Import sorting.
Import String.StringSyntax.
Import Errors.

Local Open Scope Z_scope.

(** ** Hash chains *)

Section chain.
Context `{AuditHashing}.

(** A list of (hash, entry) pairs, oldest first, each hash being the hash of
    its entry linked to the previous hash. *)
Fixpoint linked (prev : option AuditHash) (l : list (AuditHash * AuditEntry)) : Prop :=
  match l with
  | [] => True
  | (h, e) :: l => h = entry_hash e prev /\ linked (Some h) l
  end.

End chain.

(** Hash of the newest element. *)
Definition tip (l : list (AuditHash * AuditEntry)) : option AuditHash := fst <$> last l.

(** The tip after appending [es] to a chain with tip [prev], and the byte strings
    that are hashed on the way. *)
Definition chain_tip `{AuditHashing} (prev : option AuditHash) (es : list AuditEntry) : option AuditHash :=
  foldl (fun p e => Some (entry_hash e p)) prev es.

Fixpoint hashed_inputs `{AuditHashing} (prev : option AuditHash) (es : list AuditEntry) : list bytes :=
  match es with
  | [] => []
  | e :: es => digested e prev :: hashed_inputs (Some (entry_hash e prev)) es
  end.

(** Two trails exhibit a SHA-256 collision: at some position different byte
    strings were hashed and the digests are equal. *)
Definition collision `{AuditHashing} (es1 es2 : list AuditEntry) : Prop :=
  exists i x y, hashed_inputs None es1 !! i = Some x /\ hashed_inputs None es2 !! i = Some y
    /\ x <> y /\ hashv [x] = hashv [y].

(** ** InMemoryAuditStore *)

Module InMemory.

Record store := mkStore { inner : list (Z * AuditHash * AuditEntry) }.

Definition new : store := mkStore [].

Definition len (s : store) : nat := length (inner s).

Definition is_empty (s : store) : bool := Nat.eqb (length (inner s)) 0.

Definition entries (s : store) : list AuditEntry := snd <$> inner s.

Definition latest_hash (s : store) : result (option AuditHash) ChainBridgeError :=
  Ok ((fun x => snd (fst x)) <$> last (inner s)).

Definition append `{AuditHashing} (e : AuditEntry) (s : store) : result Z ChainBridgeError * store :=
  let prev := (fun x => snd (fst x)) <$> last (inner s) in
  let h := entry_hash e prev in
  let id := Z.of_nat (length (inner s)) + 1 in
  (Ok id, mkStore (inner s ++ [(id, h, e)])).

(** The store after appending [es], oldest first. *)
Definition store_of `{AuditHashing} (es : list AuditEntry) : store :=
  foldl (fun s e => snd (append e s)) new es.

(** The chain inside a store. *)
Definition chain (s : store) : list (AuditHash * AuditEntry) :=
  (fun x => (snd (fst x), snd x)) <$> inner s.

(** Ids are 1..n in order and the hashes are linked from the start. *)
Definition wf `{AuditHashing} (s : store) : Prop :=
  (fun x => fst (fst x)) <$> inner s = Z.of_nat <$> seq 1 (length (inner s))
  /\ linked None (chain s).

End InMemory.

#[export] Instance in_memory_port `{AuditHashing} : AuditPort InMemory.store := {|
  audit_append := InMemory.append;
  audit_latest_hash := InMemory.latest_hash
|}.

(** ** PostgresAuditStore *)

Module Postgres.

(** A row of [audit_log], as the INSERT binds it. *)
Record row := mkRow {
  row_prev_hash : option bytes;
  row_entry_hash : bytes;
  row_correlation_id : string;
  row_identity : string;
  row_action : string;
  row_outcome_json : string;
  row_created_at_ms : Z
}.

(** The two statements; either can fail, and so can decoding a column. *)
Inductive db_op : Type :=
| SelectTip
| InsertRow (r : row).

Definition db_ans (o : db_op) : Type :=
  match o with
  | SelectTip => result (option (result bytes string)) string
  | InsertRow _ => result (result Z string) string
  end.

Definition hash_to_vec (h : AuditHash) : bytes := hash_bytes h.

Definition vec_to_hash (v : bytes) : result AuditHash ChainBridgeError :=
  if Nat.eqb (length v) 32 then Ok (mkAuditHash v)
  else Err (Audit ("audit hash has " +:+ pretty (length v) +:+ " bytes, expected 32")).

(** The result of the tip query. *)
Definition decode_tip (r : result (option (result bytes string)) string)
  : result (option AuditHash) ChainBridgeError :=
  match r with
  | Err e => Err (Audit ("audit tip query failed: " +:+ e))
  | Ok None => Ok None
  | Ok (Some (Err e)) => Err (Audit ("read tip hash: " +:+ e))
  | Ok (Some (Ok v)) => h <-? vec_to_hash v; Ok (Some h)
  end.

Definition latest_hash : prog db_ans (result (option AuditHash) ChainBridgeError) :=
  r <~ call SelectTip ;;
  Ret (decode_tip r).

(** The row an append inserts for entry [e] after tip [prev]. *)
Definition make_row `{AuditHashing} (e : AuditEntry) (prev : option AuditHash) (json : string) : row :=
  mkRow (hash_to_vec <$> prev) (hash_to_vec (entry_hash e prev))
        (correlation_id e) (identity e) (action e) json (as_i64 (created_at_ms e)).

Definition append `{AuditHashing} (e : AuditEntry) : prog db_ans (result Z ChainBridgeError) :=
  prev <~ latest_hash ;;
  match prev with
  | Err x => Ret (Err x)
  | Ok prev =>
      match outcome_to_json (audit_outcome e) with
      | Err x => Ret (Err (Audit ("serialize outcome: " +:+ x)))
      | Ok json =>
          r <~ call (InsertRow (make_row e prev json)) ;;
          Ret (match (r : result (result Z string) string) with
               | Err x => Err (Audit ("audit insert failed: " +:+ x))
               | Ok (Err x) => Err (Audit ("read inserted id: " +:+ x))
               | Ok (Ok id) => Ok id
               end)
      end
  end.

(** The visible rows with their serial ids, in the order in which they became
    visible; with several sessions that need not be the order of the ids. *)
Definition table := list (Z * row).

(** [ORDER BY id DESC LIMIT 1]. *)
Fixpoint newest (t : table) : option (Z * row) :=
  match t with
  | [] => None
  | x :: t => match newest t with
              | Some y => if fst y <? fst x then Some x else Some y
              | None => Some x
              end
  end.

(** Statements are atomic.  The tip query sees the visible rows; it can fail, and so
    can reading the column.  An insert is refused and changes nothing, or its row
    becomes visible under an id no other row has; also then the answer may be lost,
    or the id in it may not be readable. *)
Definition db_sem (t : table) (o : db_op) : db_ans o -> table -> Prop :=
  match o with
  | SelectTip => fun x t' =>
      t' = t /\ ((exists e, x = Err e)
                 \/ match newest t with
                    | None => x = Ok None
                    | Some (_, r) => x = Ok (Some (Ok (row_entry_hash r))) \/ exists e, x = Ok (Some (Err e))
                    end)
  | InsertRow r => fun x t' =>
      (t' = t /\ exists e, x = Err e)
      \/ exists id, ~ (id ∈ fst <$> t) /\ t' = t ++ [(id, r)]
                    /\ (x = Ok (Ok id) \/ (exists e, x = Ok (Err e)) \/ exists e, x = Err e)
  end.

(** Rows inserted one after the other get increasing ids, which is what a serial
    column gives a single session at a time. *)
Definition increasing (t : table) : Prop := StronglySorted Z.lt (fst <$> t).

Definition serial_sem (t : table) (o : db_op) (x : db_ans o) (t' : table) : Prop :=
  db_sem t o x t' /\ (increasing t -> increasing t').

(** Each row's [prev_hash] column is the [entry_hash] column of the row before. *)
Fixpoint rows_linked (prev : option bytes) (t : list row) : Prop :=
  match t with
  | [] => True
  | r :: t => row_prev_hash r = prev /\ rows_linked (Some (row_entry_hash r)) t
  end.

(** The rows that hold a chain of entries. *)
Fixpoint rows_of `{AuditHashing} (prev : option AuditHash) (l : list (AuditHash * AuditEntry)) : list row :=
  match l with
  | [] => []
  | (h, e) :: l => make_row e prev (outcome_json (audit_outcome e)) :: rows_of (Some h) l
  end.

(** The table holds the same trail as an in-memory store, in the order of its ids. *)
Definition refines `{AuditHashing} (t : table) (s : InMemory.store) : Prop :=
  increasing t /\ snd <$> t = rows_of None (InMemory.chain s).

End Postgres.

(** ** Lemmas *)

Section chain_lemmas.
Context `{AuditHashing}.

Lemma linked_snoc prev l h e :
  linked prev (l ++ [(h, e)]) <->
  linked prev l /\ h = entry_hash e (match tip l with Some t => Some t | None => prev end).
Proof.
  revert prev. induction l as [|[h' e'] l IH]; intros prev; cbn; [naive_solver|].
  rewrite IH. unfold tip. rewrite last_cons. destruct (last l) as [[??]|]; cbn; tauto.
Qed.

Lemma tip_snoc l h e : tip (l ++ [(h, e)]) = Some h.
Proof. unfold tip. by rewrite last_snoc. Qed.

Lemma linked_tip_wf l h : linked None l -> tip l = Some h -> hash_wf h.
Proof.
  destruct l as [|[h' e'] l _] using rev_ind; [done|].
  rewrite linked_snoc, tip_snoc. intros [_ ->] [= <-]. apply entry_hash_wf.
Qed.

Lemma chain_tip_snoc prev es e : chain_tip prev (es ++ [e]) = Some (entry_hash e (chain_tip prev es)).
Proof. unfold chain_tip. by rewrite foldl_app. Qed.

Lemma chain_tip_wf es : length (prev_bytes (chain_tip None es)) = 32%nat.
Proof. destruct es as [|e es _] using rev_ind; [done|]. rewrite chain_tip_snoc. apply entry_hash_wf. Qed.

Lemma hashed_inputs_snoc prev es e :
  hashed_inputs prev (es ++ [e]) = hashed_inputs prev es ++ [digested e (chain_tip prev es)].
Proof. revert prev. induction es as [|e' es IH]; intros prev; cbn; [done|]. by rewrite IH. Qed.

Lemma hashed_inputs_length prev es : length (hashed_inputs prev es) = length es.
Proof. revert prev. induction es as [|e es IH]; intros prev; cbn; [done|]. by rewrite IH. Qed.

Lemma collision_snoc es1 es2 e1 e2 : collision es1 es2 -> collision (es1 ++ [e1]) (es2 ++ [e2]).
Proof.
  intros (i & x & y & Hx & Hy & Hne & Hh). exists i, x, y. rewrite !hashed_inputs_snoc.
  splits; [by apply lookup_app_l_Some|by apply lookup_app_l_Some|done|done].
Qed.

(** Two trails of the same length with the same tip hash agree on everything that
    is hashed, unless two of the byte strings that were hashed along them collide. *)
Lemma trail_same_tip es1 es2 :
  length es1 = length es2 ->
  Forall (fun e => is_u64 (created_at_ms e)) es1 -> Forall (fun e => is_u64 (created_at_ms e)) es2 ->
  chain_tip None es1 = chain_tip None es2 ->
  collision es1 es2 \/
  Forall2 (fun e1 e2 => field_string e1 = field_string e2 /\ created_at_ms e1 = created_at_ms e2) es1 es2.
Proof.
  revert es2. induction es1 as [|e1 es1 IH] using rev_ind; intros es2.
  { destruct es2; [|done]. intros. right. constructor. }
  destruct es2 as [|e2 es2 _] using rev_ind; [rewrite length_app; cbn; lia|].
  rewrite !chain_tip_snoc, !length_app, !Forall_app, !Forall_singleton. cbn [length].
  intros Hlen [U1 V1] [U2 V2] [= Hh].
  assert (Hlen' : length es1 = length es2) by lia.
  destruct (entry_hash_inj e1 e2 (chain_tip None es1) (chain_tip None es2)) as [[Hne Hc]|(Hp & Hf & Hc)];
    [by rewrite !chain_tip_wf|exact V1|exact V2|exact (f_equal mkAuditHash Hh)| |].
  - left. exists (length es1). do 2 eexists. rewrite !hashed_inputs_snoc.
    splits; [|rewrite Hlen'|exact Hne|exact Hc]; rewrite <- (hashed_inputs_length None); by apply list_lookup_middle.
  - destruct (IH es2) as [?|HF]; [done|done|done| |by left; apply collision_snoc|].
    + destruct es1 as [|x1 es1 _] using rev_ind; destruct es2 as [|x2 es2 _] using rev_ind;
        rewrite ?length_app in Hlen'; cbn in Hlen'; [done|lia|lia|].
      rewrite !chain_tip_snoc in Hp |- *. cbn in Hp. unfold entry_hash. by rewrite Hp.
    + right. apply Forall2_app; [done|]. by repeat constructor.
Qed.

End chain_lemmas.

Section in_memory.
Import InMemory.
Context `{AuditHashing}.

Lemma latest_hash_tip s : latest_hash s = Ok (tip (chain s)).
Proof.
  unfold latest_hash, tip, chain. rewrite fmap_last. by destruct (last (inner s)).
Qed.

Lemma append_eq e s :
  append e s = (Ok (Z.of_nat (len s) + 1),
                mkStore (inner s ++ [(Z.of_nat (len s) + 1, entry_hash e (tip (chain s)), e)])).
Proof.
  unfold append, len, tip, chain. rewrite fmap_last. by destruct (last (inner s)).
Qed.

Lemma chain_append e s :
  chain (snd (append e s)) = chain s ++ [(entry_hash e (tip (chain s)), e)].
Proof. rewrite append_eq. unfold chain. cbn. by rewrite fmap_app. Qed.

(** Appending preserves the chain and hands out the next id. *)
Lemma append_wf e s : wf s -> wf (snd (append e s)).
Proof.
  intros [Hid Hl]. split.
  - rewrite append_eq. cbn. rewrite fmap_app, Hid, length_app. cbn.
    rewrite Nat.add_1_r, seq_S, fmap_app. cbn. repeat f_equal. unfold len. lia.
  - rewrite chain_append. apply linked_snoc. split; [done|]. by destruct (tip (chain s)).
Qed.

Lemma new_wf : wf new.
Proof. by split. Qed.

Lemma store_of_snoc es e : store_of (es ++ [e]) = snd (append e (store_of es)).
Proof. unfold store_of. by rewrite foldl_app. Qed.

Lemma store_of_wf es : wf (store_of es).
Proof.
  induction es as [|e es IH] using rev_ind; [apply new_wf|].
  rewrite store_of_snoc. by apply append_wf.
Qed.

Lemma store_of_entries es : entries (store_of es) = es.
Proof.
  induction es as [|e es IH] using rev_ind; [done|].
  rewrite store_of_snoc, append_eq. unfold entries in *. cbn.
  by rewrite fmap_app, IH.
Qed.

Lemma store_of_len es : len (store_of es) = length es.
Proof. rewrite <- (store_of_entries es) at 2. unfold entries, len. by rewrite length_fmap. Qed.

Lemma chain_entries s : snd <$> chain s = entries s.
Proof. unfold chain, entries. by rewrite <- list_fmap_compose. Qed.

Lemma chain_length s : length (chain s) = len s.
Proof. unfold chain, len. by rewrite length_fmap. Qed.

End in_memory.

(** The in-memory store discharges the port's promise. *)
#[export] Instance in_memory_laws `{AuditHashing} : AuditPortLaws InMemory.store.
Proof.
  split; cbn.
  - intros e s i s' Ha. pose proof (chain_append e s) as Hc. rewrite Ha in Hc. cbn in Hc.
    exists (tip (InMemory.chain s)). rewrite !latest_hash_tip, Hc. split; [done|]. by rewrite tip_snoc.
  - intros e s x s' Ha. by rewrite append_eq in Ha.
Qed.

(** ** Claims on the in-memory store *)

Section in_memory_claims.
Context `{AuditHashing}.

(** The in-memory trail is append-only and chained.  After any sequence of
    appends the stored entries are exactly those appended, in order; the ids are
    1..n; every stored hash is the hash of its entry linked to its predecessor;
    and a further append succeeds with the next id, extending the same history. *)
Theorem in_memory_append_only (es : list AuditEntry) (e : AuditEntry) :
  InMemory.wf (InMemory.store_of es)
  /\ InMemory.entries (InMemory.store_of es) = es
  /\ audit_append e (InMemory.store_of es) =
     (Ok (Z.of_nat (length es) + 1), InMemory.store_of (es ++ [e])).
Proof.
  splits; [apply store_of_wf|apply store_of_entries|].
  rewrite store_of_snoc, <- (store_of_len es).
  change (audit_append e) with (InMemory.append e). by rewrite append_eq.
Qed.

Lemma chain_tip_store es : chain_tip None es = tip (InMemory.chain (InMemory.store_of es)).
Proof.
  induction es as [|e es IH] using rev_ind; [done|].
  by rewrite chain_tip_snoc, store_of_snoc, chain_append, tip_snoc, IH.
Qed.

(** What the digest does not cover.  The fields are hashed without
    separators, so moving characters across the boundary of two adjacent fields
    gives a different entry with the same digest under every predecessor; and the
    first entry's digest cannot be told from that of an entry linked to 32 zero
    bytes. *)
Theorem entry_hash_boundary_blind (c m i act : string) (o : AuditOutcome) (ms : Z) (prev : option AuditHash) :
  entry_hash (audit_entry_new (c +:+ m) i act o ms) prev =
  entry_hash (audit_entry_new c (m +:+ i) act o ms) prev
  /\ (forall e, entry_hash e None = entry_hash e (Some (mkAuditHash (replicate 32 x00)))).
Proof.
  split; [|done]. apply entry_hash_ext; [|done]. 
  unfold field_string, audit_entry_new. cbn [correlation_id identity action audit_outcome].
  by rewrite !string_app_assoc.
Qed.

End in_memory_claims.

(** ** PostgresAuditStore *)

Section postgres.
Import Postgres.
Context `{AuditHashing}.

Lemma rows_of_snoc prev l h e :
  rows_of prev (l ++ [(h, e)]) =
  rows_of prev l ++ [make_row e (match tip l with Some t => Some t | None => prev end)
                       (outcome_json (audit_outcome e))].
Proof.
  revert prev. induction l as [|[h' e'] l IH]; intros prev; cbn; [done|].
  rewrite IH. unfold tip. rewrite last_cons. by destruct (last l) as [[??]|].
Qed.

Lemma rows_of_linked prev l :
  linked prev l -> rows_linked (hash_to_vec <$> prev) (rows_of prev l).
Proof.
  revert prev. induction l as [|[h e] l IH]; intros prev; cbn; [done|].
  intros [-> Hl]. split; [done|]. exact (IH _ Hl).
Qed.

Lemma last_rows_of l :
  linked None l -> row_entry_hash <$> last (rows_of None l) = hash_bytes <$> tip l.
Proof.
  destruct l as [|[h e] l _] using rev_ind; [done|].
  rewrite linked_snoc, rows_of_snoc, last_snoc, tip_snoc. by intros [_ ->].
Qed.

Lemma newest_last t : increasing t -> newest t = last t.
Proof.
  unfold increasing. induction t as [|[i r] t IH]; [done|]. cbn [newest]. rewrite fmap_cons. inversion 1 as [|? ? Hs HF]; subst.
  rewrite (IH Hs). rewrite last_cons. destruct (last t) as [[j q]|] eqn:El; [|done]. cbn.
  apply last_Some in El as [l ->]. rewrite fmap_app, Forall_app in HF. destruct HF as [_ HF%Forall_inv].
  cbn in HF. by rewrite (proj2 (Z.ltb_ge j i)) by lia.
Qed.

(** The tip query over a table that holds a trail. *)
Lemma decode_tip_refines t s :
  refines t s -> InMemory.wf s ->
  decode_tip (Ok (Ok ∘ row_entry_hash ∘ snd <$> newest t)) = Ok (tip (InMemory.chain s)).
Proof.
  intros [Hi Hr] [_ Hw]. rewrite (newest_last t Hi). pose proof (last_rows_of _ Hw) as Ht.
  rewrite <- Hr, fmap_last in Ht. destruct (last t) as [[i rw]|]; cbn in *.
  - destruct (tip (InMemory.chain s)) as [h|] eqn:E; [|done]. injection Ht as ->.
    apply (linked_tip_wf _ _ Hw) in E. unfold vec_to_hash. rewrite E. cbn. by destruct h.
  - by destruct (tip (InMemory.chain s)).
Qed.

Lemma latest_hash_exec t s tr r t' :
  refines t s -> InMemory.wf s -> exec serial_sem latest_hash t tr r t' ->
  t' = t /\ (r = Done (Ok (tip (InMemory.chain s))) \/ exists e, r = Done (Err e)).
Proof.
  intros Hr Hw (x & t1 & tr' & [[-> Hs] _] & -> & -> & -> & ->). split; [done|].
  rewrite <- (decode_tip_refines t s Hr Hw). destruct Hs as [[e ->]|Hs]; [right; by eexists|].
  destruct (newest t) as [[i rw]|]; [|subst x; by left].
  destruct Hs as [->|[e ->]]; [by left|right; by eexists].
Qed.

(** The row an append inserts is the one the in-memory store would add. *)
Lemma refines_append t s e js id :
  refines t s -> outcome_to_json (audit_outcome e) = Ok js ->
  increasing (t ++ [(id, make_row e (tip (InMemory.chain s)) js)]) ->
  refines (t ++ [(id, make_row e (tip (InMemory.chain s)) js)]) (snd (InMemory.append e s)).
Proof.
  intros [_ Hr] Hj Hi. split; [done|]. rewrite fmap_app, Hr, chain_append, rows_of_snoc.
  unfold outcome_json. rewrite Hj. by destruct (tip (InMemory.chain s)).
Qed.

(** C18: refinement.  Run without interference, the PostgreSQL store implements
    the in-memory one: if the table holds the trail of store [s], a successful
    append leaves it holding the trail of [s] with the entry appended (same
    hashes, same links), the rows a linked chain, and answers the new row's id.  An
    append that answers an error has left the table as it was, or has appended the
    entry all the same: then the error says that the insert failed or that the
    inserted id could not be read.  No other state of the table can result, and an
    append never panics. *)
Theorem postgres_refines_in_memory t s e tr r t' :
  refines t s -> InMemory.wf s ->
  exec serial_sem (Postgres.append e) t tr r t' ->
  match r with
  | Done (Ok id) =>
      refines t' (snd (InMemory.append e s))
      /\ rows_linked None (snd <$> t')
      /\ fst <$> last t' = Some id
  | Done (Err err) =>
      t' = t
      \/ (refines t' (snd (InMemory.append e s))
          /\ exists x, err = Audit ("audit insert failed: " +:+ x) \/ err = Audit ("read inserted id: " +:+ x))
  | Aborted => False
  end.
Proof.
  intros Hr Hw Hx. unfold Postgres.append in Hx.
  apply exec_bind in Hx as [(p & t1 & t2 & tm & -> & H1 & H2)|[H1 ->]];
    destruct (latest_hash_exec _ _ _ _ _ Hr Hw H1) as [-> Hp]; [|naive_solver].
  destruct Hp as [[= ->]|[x [= ->]]]; [|cbn in H2; naive_solver].
  destruct (outcome_to_json (audit_outcome e)) as [js|x] eqn:Hj; [|cbn in H2; naive_solver].
  cbn in H2. destruct H2 as (x & tm & tr' & [Hs Hinc] & -> & -> & -> & ->).
  destruct Hs as [(-> & x' & ->)|(id & _ & -> & Hs)]; [by left|].
  pose proof (refines_append t s e js id Hr Hj (Hinc (proj1 Hr))) as Hr'.
  destruct Hs as [->|[[x' ->]|[x' ->]]]; [|right; split; [done|by exists x'; auto]..].
  splits; [done| |by rewrite last_snoc].
  destruct Hr' as [_ ->]. apply (rows_of_linked None). by apply append_wf.
Qed.

(** An append on a healthy database succeeds. *)
Lemma postgres_append_progress t s e js id :
  refines t s -> InMemory.wf s -> outcome_to_json (audit_outcome e) = Ok js ->
  Forall (fun x => fst x < id) t ->
  exists tr t', exec serial_sem (Postgres.append e) t tr (Done (Ok id)) t'.
Proof.
  intros Hr Hw Hj Hid. do 2 eexists.
  assert (Htip : exec serial_sem latest_hash t [Ev SelectTip (Ok (Ok ∘ row_entry_hash ∘ snd <$> newest t))]
                   (Done (decode_tip (Ok (Ok ∘ row_entry_hash ∘ snd <$> newest t)))) t).
  { eexists _, t, []. splits; [|done|done]. split; [|done]. split; [done|right].
    destruct (newest t) as [[i rw]|]; [by left|done]. }
  unfold Postgres.append. apply exec_bind. left. eexists _, _, _, t. splits; [reflexivity|exact Htip|].
  rewrite (decode_tip_refines t s Hr Hw).
  rewrite Hj. cbn. exists (Ok (Ok id)). eexists _, []. splits; [split|done|done|done|done].
  - right. exists id. splits; [|done|by left]. intros ([j q] & -> & Hin)%list_elem_of_fmap.
    rewrite Forall_forall in Hid. specialize (Hid _ Hin). cbn in Hid. lia.
  - intros Hi. unfold increasing in *. rewrite fmap_app. apply StronglySorted_app_2; [|done|by repeat constructor].
    intros x y (z & -> & Hz)%list_elem_of_fmap ->%list_elem_of_singleton. rewrite Forall_forall in Hid. by apply Hid.
Qed.

(** Two appends that interleave fork the trail: from an empty table there
    is an interleaving of the statements of two appends in which both succeed and
    both rows claim to be the first, so the table is no longer a linked chain. *)
Theorem postgres_concurrent_fork e1 e2 j1 j2 :
  outcome_to_json (audit_outcome e1) = Ok j1 -> outcome_to_json (audit_outcome e2) = Ok j2 ->
  exists tr t',
    pexec db_sem ([], [Postgres.append e1; Postgres.append e2]) tr (t', [Ret (Ok 1); Ret (Ok 2)])
    /\ snd <$> t' = [make_row e1 None j1; make_row e2 None j2]
    /\ ~ rows_linked None (snd <$> t').
Proof.
  intros H1 H2. do 2 eexists. split.
  - eapply (pexec_step _ _ _ 0 SelectTip _ (Ok None)); [done|cbn; split; [done|by right]|].
    eapply (pexec_step _ _ _ 1 SelectTip _ (Ok None)); [done|cbn; split; [done|by right]|].
    cbn. rewrite H1, H2.
    eapply (pexec_step _ _ _ 0 (InsertRow _) _ (Ok (Ok 1))); [done|cbn; right; exists 1|].
    { splits; [by intros ?%elem_of_nil|done|by left]. }
    eapply (pexec_step _ _ _ 1 (InsertRow _) _ (Ok (Ok 2))); [done|cbn; right; exists 2|].
    { splits; [|done|by left]. by intros [?|?%elem_of_nil]%elem_of_cons. }
    constructor.
  - cbn. split; [done|]. naive_solver.
Qed.

End postgres.

(** ** Examples *)

Section examples.
#[local] Existing Instance toy_hashing.

Definition demo_entry (ms : Z) : AuditEntry :=
  audit_entry_new "c1" "spiffe://a" "sign_and_submit" (Submitted "sig" 0) ms.

Lemma postgres_refines_in_memory_witness :
  exists t', Postgres.refines t' (snd (InMemory.append (demo_entry 1) InMemory.new)).
Proof.
  destruct (postgres_append_progress [] InMemory.new (demo_entry 1) "Ssig" 1) as (tr & t' & Hx);
    [split; [constructor|reflexivity]|apply new_wf|reflexivity|constructor|].
  exists t'.
  refine (proj1 (postgres_refines_in_memory [] InMemory.new (demo_entry 1) tr (Done (Ok 1)) t' _ _ Hx));
    [split; [constructor|reflexivity]|apply new_wf].
Defined.

Lemma postgres_concurrent_fork_witness :
  exists tr t', pexec Postgres.db_sem ([], [Postgres.append (demo_entry 1); Postgres.append (demo_entry 2)])
                  tr (t', [Ret (Ok 1); Ret (Ok 2)])
                /\ ~ Postgres.rows_linked None (snd <$> t').
Proof.
  destruct (postgres_concurrent_fork (demo_entry 1) (demo_entry 2) "Ssig" "Ssig")
    as (tr & t' & Hp & _ & Hn); [reflexivity|reflexivity|].
  exists tr, t'. split; [exact Hp|exact Hn].
Defined.

End examples.
