(* ===== verification/Nonce.v ===== *)
(** * Durable-nonce leases (chain-bridge-persistence/src/nonce_store.rs)

    [PostgresNonceStore] hands out rows of a pre-seeded table.  Each SQL
    statement is atomic and a failed one changes nothing; several tasks may run
    statements in any order, and a row that another statement has locked is passed
    over ([SKIP LOCKED]).  The main theorem is about any mix of allocations and
    releases: a nonce is handed out again only after a release of it. *)

From S2P Require Import Prelude RustStd Effects Domain External BridgeOps Fixtures.
From Stdlib Require String.
Import String.StringSyntax.
Import Errors.

Local Open Scope Z_scope.

(** ** nonce.rs *)

Record NonceAllocation := mkNonce {
  nonce_id : Z;
  nonce_account : Pubkey;
  nonce_authority : Pubkey;
  nonce_value : Hash
}.

(** ** The table *)

Inductive lease_status : Type := FreeLease | Leased.

#[export] Instance lease_status_eq_dec : EqDecision lease_status.
Proof. solve_decision. Defined.

Record nonce_row := mkNonceRow {
  nr_id : Z;
  nr_status : lease_status;
  nr_leased_at_ms : option Z;
  nr_account : string;
  nr_authority : string;
  nr_value : string
}.

(** [SET status = 'leased', leased_at_ms = <now>] and [SET status = 'free',
    leased_at_ms = NULL]. *)
Definition lease_row (now_ms : Z) (r : nonce_row) : nonce_row :=
  mkNonceRow (nr_id r) Leased (Some now_ms) (nr_account r) (nr_authority r) (nr_value r).
Definition unlease_row (r : nonce_row) : nonce_row :=
  mkNonceRow (nr_id r) FreeLease None (nr_account r) (nr_authority r) (nr_value r).

(** The two statements; [fetch_optional] can fail, find no row, or return one,
    whose columns [try_get] may fail to read. *)
Inductive nop : Type :=
| ClaimOldestFree
| SetFree (id : Z).

Definition nans (o : nop) : Type :=
  match o with
  | ClaimOldestFree => result (option (result nonce_row string)) string
  | SetFree _ => result unit string
  end.

(** [UPDATE ... WHERE id = (SELECT ... WHERE status = 'free' ORDER BY id ASC
    FOR UPDATE SKIP LOCKED LIMIT 1) RETURNING ...] on a pool in id order, at
    [now_ms] of the database, where [locked] rows are those other statements hold. *)
Fixpoint claim_oldest (locked : Z -> bool) (now_ms : Z) (pool : list nonce_row)
  : option (nonce_row * list nonce_row) :=
  match pool with
  | [] => None
  | r :: pool =>
      if bool_decide (nr_status r = FreeLease) && negb (locked (nr_id r))
      then Some (lease_row now_ms r, lease_row now_ms r :: pool)
      else match claim_oldest locked now_ms pool with
           | Some (r', pool') => Some (r', r :: pool')
           | None => None
           end
  end.

(** [UPDATE ... SET status = 'free', leased_at_ms = NULL WHERE id = $1]. *)
Definition free_row (id : Z) (pool : list nonce_row) : list nonce_row :=
  (fun r => if nr_id r =? id then unlease_row r else r) <$> pool.

Definition nonce_sem (pool : list nonce_row) (o : nop) : nans o -> list nonce_row -> Prop :=
  match o with
  | ClaimOldestFree => fun x pool' =>
      (exists e, x = Err e /\ pool' = pool)
      \/ exists locked now_ms,
           match claim_oldest locked now_ms pool with
           | Some (r, p) => (x = Ok (Some (Ok r)) \/ exists e, x = Ok (Some (Err e))) /\ pool' = p
           | None => x = Ok None /\ pool' = pool
           end
  | SetFree id => fun x pool' =>
      (exists e, x = Err e /\ pool' = pool) \/ (x = Ok tt /\ pool' = free_row id pool)
  end.

(** ** The adapter *)

(** The trait [NoncePort]. *)
Record NoncePort {Op : Type} (Ans : Op -> Type) := mkNoncePort {
  np_allocate : string -> prog Ans (result NonceAllocation ChainBridgeError);
  np_release : Z -> prog Ans (result unit ChainBridgeError)
}.
Arguments mkNoncePort {_ _}.
Arguments np_allocate {_ _}.
Arguments np_release {_ _}.

Section store.
Context {K : SolanaSdk} (hash_from_str : string -> result Hash string).

(** The columns of a leased row, decoded. *)
Definition decode_row (r : nonce_row) : result NonceAllocation ChainBridgeError :=
  match pubkey_from_str (nr_account r) with
  | Err e => Err (Nonce ("bad nonce_account: " +:+ e))
  | Ok account =>
  match pubkey_from_str (nr_authority r) with
  | Err e => Err (Nonce ("bad nonce_authority: " +:+ e))
  | Ok authority =>
  match hash_from_str (nr_value r) with
  | Err e => Err (Nonce ("bad nonce_value: " +:+ e))
  | Ok value => Ok (mkNonce (nr_id r) account authority value)
  end end end.

Definition allocate (_key_name : string) : prog nans (result NonceAllocation ChainBridgeError) :=
  row <~ call ClaimOldestFree ;;
  Ret (match (row : result (option (result nonce_row string)) string) with
       | Err e => Err (Nonce ("nonce allocate query failed: " +:+ e))
       | Ok None => Err (Nonce "durable-nonce pool exhausted or unseeded")
       | Ok (Some (Err e)) => Err (Nonce e)
       | Ok (Some (Ok r)) => decode_row r
       end).

Definition release (id : Z) : prog nans (result unit ChainBridgeError) :=
  r <~ call (SetFree id) ;;
  Ret (match (r : result unit string) with
       | Err e => Err (Nonce ("nonce release failed: " +:+ e))
       | Ok _ => Ok tt
       end).

(** [impl NoncePort for PostgresNonceStore]. *)
Definition postgres_nonce_store : NoncePort nans := mkNoncePort allocate release.

(** A client's call of the port; a release answers with no allocation. *)
Inductive nonce_call : Type :=
| Allocate (key_name : string)
| Release (id : Z).

Definition nonce_task (port : NoncePort nans) (c : nonce_call)
  : prog nans (result (option NonceAllocation) ChainBridgeError) :=
  match c with
  | Allocate key_name =>
      r <~ np_allocate port key_name ;;
      Ret (match r with Ok a => Ok (Some a) | Err e => Err e end)
  | Release id =>
      r <~ np_release port id ;;
      Ret (match r with Ok _ => Ok None | Err e => Err e end)
  end.

(** ** Lemmas *)

(** A row that cannot be claimed: leased, or held by another statement. *)
Definition unavailable (locked : Z -> bool) (r : nonce_row) : Prop :=
  nr_status r = Leased \/ locked (nr_id r) = true.

Lemma claim_test locked r :
  if bool_decide (nr_status r = FreeLease) && negb (locked (nr_id r))
  then nr_status r = FreeLease else unavailable locked r.
Proof.
  unfold unavailable. destruct (nr_status r), (locked (nr_id r));
    [rewrite bool_decide_true by done..|rewrite bool_decide_false by done|rewrite bool_decide_false by done]; cbn; auto.
Qed.

Lemma claim_oldest_spec locked now pool r pool' :
  claim_oldest locked now pool = Some (r, pool') ->
  exists l r0 k, pool = l ++ r0 :: k /\ Forall (unavailable locked) l
    /\ nr_status r0 = FreeLease /\ r = lease_row now r0 /\ pool' = l ++ r :: k.
Proof.
  revert pool'. induction pool as [|r0 pool IH]; intros pool'; cbn; [done|].
  pose proof (claim_test locked r0) as Ht. destruct (_ && _).
  - intros [= <- <-]. exists [], r0, pool. by splits.
  - destruct (claim_oldest locked now pool) as [[r1 p1]|] eqn:E; [|done]. intros [= <- <-].
    destruct (IH p1 eq_refl) as (l & r2 & k & -> & Hl & Hf & -> & ->).
    exists (r0 :: l), r2, k. splits; [done|by constructor|done|done|done].
Qed.

Lemma claim_oldest_none locked now pool :
  claim_oldest locked now pool = None -> Forall (unavailable locked) pool.
Proof.
  induction pool as [|r pool IH]; cbn; [constructor|].
  pose proof (claim_test locked r) as Ht. destruct (_ && _); [done|].
  destruct (claim_oldest locked now pool) as [[? ?]|]; [done|]. constructor; auto.
Qed.

Lemma decode_row_id r a : decode_row r = Ok a -> nonce_id a = nr_id r.
Proof. unfold decode_row. intros H. repeat (split_match; simplify_eq/=; try done). Qed.

(** A well-formed pool: ids are distinct and exactly the leased rows have a lease
    time. *)
Definition pool_wf (pool : list nonce_row) : Prop :=
  NoDup (nr_id <$> pool)
  /\ Forall (fun r => nr_status r = Leased <-> is_Some (nr_leased_at_ms r)) pool.

Lemma free_row_ids id pool : nr_id <$> free_row id pool = nr_id <$> pool.
Proof. unfold free_row. rewrite <- list_fmap_compose. apply list_fmap_ext. intros i r _. cbn. by case_match. Qed.

(** Every statement keeps the ids in place and the pool well formed. *)
Lemma nonce_sem_wf pool o x pool' :
  nonce_sem pool o x pool' -> pool_wf pool -> nr_id <$> pool' = nr_id <$> pool /\ pool_wf pool'.
Proof.
  intros Hs [HN HF].
  assert (Hids : forall p, nr_id <$> p = nr_id <$> pool ->
            Forall (fun r => nr_status r = Leased <-> is_Some (nr_leased_at_ms r)) p ->
            nr_id <$> p = nr_id <$> pool /\ pool_wf p).
  { intros p He Hp. unfold pool_wf. by rewrite He. }
  destruct o as [|id].
  - destruct Hs as [(e & -> & ->)|(locked & now & Hs)]; [by apply Hids|].
    destruct (claim_oldest locked now pool) as [[r p]|] eqn:E; [|destruct Hs as [_ ->]; by apply Hids].
    destruct Hs as [_ ->]. apply claim_oldest_spec in E as (l & r0 & k & -> & _ & _ & -> & ->).
    apply Hids; [by rewrite !fmap_app|].
    rewrite Forall_app, Forall_cons in HF |- *. destruct HF as (? & _ & ?). splits; [done| |done]. cbn. split; eauto.
  - destruct Hs as [(e & -> & ->)|[-> ->]]; apply Hids; [done|done|apply free_row_ids|].
    apply Forall_fmap. eapply Forall_impl; [exact HF|]. intros r Hr. cbn. case_match; [|done].
    split; [done|by intros []].
Qed.

(** A row is on lease. *)
Definition on_lease (id : Z) (pool : list nonce_row) : Prop :=
  exists r, r ∈ pool /\ nr_id r = id /\ nr_status r = Leased.

(** On a well-formed pool a free row is the only row of its id. *)
Lemma free_not_on_lease l r0 k :
  NoDup (nr_id <$> (l ++ r0 :: k)) -> nr_status r0 = FreeLease -> ~ on_lease (nr_id r0) (l ++ r0 :: k).
Proof.
  intros HN Hf (r & Hin & Hid & Hst). apply list_elem_of_lookup in Hin as [a Ha].
  assert (Hb : (l ++ r0 :: k) !! length l = Some r0) by by rewrite list_lookup_middle.
  assert (a = length l) as ->; [|congruence].
  eapply NoDup_lookup; [exact HN| |]; rewrite list_lookup_fmap; [by rewrite Ha|rewrite Hb; cbn; by f_equal].
Qed.

(** The statement leased the row with this id. *)
Definition leases (id : Z) (e : event nans) : Prop :=
  match e with Ev ClaimOldestFree (Ok (Some (Ok r))) => nr_id r = id | _ => False end.

(** The statement freed the row with this id. *)
Definition frees (id : Z) (e : event nans) : Prop :=
  match e with Ev (SetFree id') (Ok _) => id' = id | _ => False end.

(** A row on lease is not leased again, and stays on lease unless it is freed. *)
Lemma on_lease_step pool o x pool' id :
  nonce_sem pool o x pool' -> pool_wf pool -> on_lease id pool ->
  ~ leases id (Ev o x) /\ (frees id (Ev o x) \/ on_lease id pool').
Proof.
  intros Hs [HN _] Hl. destruct o as [|id'].
  - destruct Hs as [(e & -> & ->)|(locked & now & Hs)]; [split; [by intros []|auto]|].
    destruct (claim_oldest locked now pool) as [[r p]|] eqn:E.
    2:{ destruct Hs as [-> ->]. split; [by intros []|auto]. }
    apply claim_oldest_spec in E as (l & r0 & k & -> & _ & Hf & -> & ->). destruct Hs as [Hx ->].
    pose proof (free_not_on_lease l r0 k HN Hf) as Hfresh. split.
    + destruct Hx as [->|[e ->]]; cbn; [by intros <-|by intros []].
    + right. destruct Hl as (r & Hin & Hid & Hst). exists r. splits; [|done|done].
      rewrite elem_of_app, elem_of_cons in Hin |- *. destruct Hin as [?|[->|?]]; [by left|congruence|by right; right].
  - split; [by intros []|]. destruct Hs as [(e & -> & ->)|[-> ->]]; [auto|].
    destruct (Z.eqb_spec id' id) as [->|Hne]; [by left|right].
    destruct Hl as (r & Hin & Hid & Hst). exists r. splits; [|done|done]. apply list_elem_of_fmap. exists r.
    split; [|done]. by rewrite Hid, (proj2 (Z.eqb_neq id id')) by congruence.
Qed.

Lemma on_lease_trace pool tr pool' id :
  trace_sem nonce_sem pool tr pool' -> pool_wf pool -> on_lease id pool ->
  Exists (frees id) tr \/ (Forall (fun e => ~ leases id e) tr /\ on_lease id pool').
Proof.
  revert pool. induction tr as [|[o x] tr IH]; intros pool; cbn; [intros -> _ Hl; right; by split|].
  intros (p1 & Hs & Ht) Hwf Hl. destruct (on_lease_step _ _ _ _ _ Hs Hwf Hl) as [Hn [Hf|Hl1]]; [by left; left|].
  destruct (IH p1 Ht (proj2 (nonce_sem_wf _ _ _ _ Hs Hwf)) Hl1) as [Hf|[Hno Hl']]; [by left; right|].
  right. split; [by constructor|done].
Qed.

Lemma trace_pool_wf pool tr pool' : trace_sem nonce_sem pool tr pool' -> pool_wf pool -> pool_wf pool'.
Proof. apply trace_sem_inv. intros s o x s' _ Hs Hwf. by destruct (nonce_sem_wf _ _ _ _ Hs Hwf). Qed.

(** Leased twice, freed in between. *)
Lemma leased_again pool t1 e t2 e' t3 pool' id :
  trace_sem nonce_sem pool (t1 ++ e :: t2 ++ e' :: t3) pool' -> pool_wf pool ->
  leases id e -> leases id e' -> Exists (frees id) t2.
Proof.
  intros (p1 & H1 & H2)%trace_sem_app Hwf He He'. pose proof (trace_pool_wf _ _ _ H1 Hwf) as Hwf1.
  destruct e as [[|?] x]; [|done]. destruct H2 as (p2 & Hs & (p3 & H2 & H3)%trace_sem_app). destruct (nonce_sem_wf _ _ _ _ Hs Hwf1) as [_ Hwf2].
  assert (Hl : on_lease id p2).
  { destruct Hs as [(x' & -> & _)|(locked & now & Hs)]; [done|].
    destruct (claim_oldest locked now p1) as [[r1 p]|] eqn:E; [|by destruct Hs as [-> _]].
    apply claim_oldest_spec in E as (l & r0 & k & -> & _ & _ & -> & ->). destruct Hs as [[->|[? ->]] ->]; [|done].
    eexists. splits; [|exact He|done]. apply elem_of_app. right. by left. }
  destruct (on_lease_trace _ _ _ _ H2 Hwf2 Hl) as [?|[_ Hl3]]; [done|].
  destruct e' as [o x']. destruct H3 as (p4 & Hs3 & _).
  by destruct (on_lease_step _ _ _ _ id Hs3 (trace_pool_wf _ _ _ H2 Hwf2) Hl3) as [Hn _].
Qed.

(** An allocation that succeeded leased the row it answers with. *)
Lemma nonce_task_runs c tr a :
  runs (nonce_task postgres_nonce_store c) tr (Done (Ok (Some a))) -> exists e, tr = [e] /\ leases (nonce_id a) e.
Proof.
  destruct c; cbn; intros (x & t & -> & -> & Hr); [|by destruct x].
  destruct x as [[[r|]|]|]; cbn in Hr; try done. destruct (decode_row r) as [a'|] eqn:E; [|done]. simplify_eq.
  eexists. split; [done|]. cbn. by rewrite (decode_row_id r _ E).
Qed.

(** ** Claims *)

(** C34: leases are exclusive over time.  However many allocations and releases run
    concurrently on a pool with distinct ids, in whatever order their statements
    are executed and whichever rows other statements hold locked: when two
    allocations were answered with the same nonce, the row was freed by a
    release between the statement that leased it to the one and the statement that
    leased it to the other. *)
Theorem nonce_leases_exclusive pool calls tr pool' ps' i j a b :
  pool_wf pool ->
  pexec nonce_sem (pool, nonce_task postgres_nonce_store <$> calls) tr (pool', ps') ->
  ps' !! i = Some (Ret (Ok (Some a))) -> ps' !! j = Some (Ret (Ok (Some b))) ->
  nonce_id a = nonce_id b -> i <> j ->
  exists t1 t2 t3 x y e e', tr = t1 ++ (x, e) :: t2 ++ (y, e') :: t3
    /\ (x = i /\ y = j \/ x = j /\ y = i)
    /\ leases (nonce_id a) e /\ leases (nonce_id a) e' /\ Exists (fun h => frees (nonce_id a) (snd h)) t2.
Proof.
  intros Hwf Hx Hi Hj Hab Hne.
  assert (Hev : forall n c, ps' !! n = Some (Ret (Ok (Some c))) -> exists e, (n, e) ∈ tr /\ leases (nonce_id c) e).
  { intros n c Hn. destruct (pexec_reached _ _ _ _ _ _ _ _ Hx Hn) as (p & Hp & Hr).
    rewrite list_lookup_fmap in Hp. destruct (calls !! n) as [c0|]; [|done]. simplify_eq/=.
    destruct (reaches_runs _ _ _ Hr I) as ([r|] & Hrun & Hq); simplify_eq.
    apply nonce_task_runs in Hrun as (e & Ht & He). exists e. split; [|done].
    apply thread_trace_elem. rewrite Ht. by left. }
  destruct (Hev i a Hi) as (e & Hin & He), (Hev j b Hj) as (e' & Hin' & He'). rewrite <- Hab in He'.
  apply pexec_trace in Hx.
  destruct (two_elements (i, e) (j, e') tr Hin Hin') as (x & y & t1 & t2 & t3 & -> & Hxy); [congruence|].
  assert (Hl : leases (nonce_id a) (snd x) /\ leases (nonce_id a) (snd y)) by (by destruct Hxy as [[-> ->]|[-> ->]]).
  destruct x as [x ex], y as [y ey]. exists t1, t2, t3, x, y, ex, ey.
  splits; [done|naive_solver|apply Hl|apply Hl|]. rewrite fmap_app, fmap_cons, fmap_app, fmap_cons in Hx.
  change (Exists (frees (nonce_id a) ∘ snd) t2). apply Exists_fmap. eapply leased_again; [exact Hx|done|apply Hl|apply Hl].
Qed.

(** What an allocation does to the pool: the statement fails and nothing changes;
    or every row is leased or locked, nothing changes and the caller is told that
    the pool is exhausted; or the first available row, and nothing else, is
    leased; when that row cannot be read or decoded, the caller gets an error
    while the row stays leased. *)
Theorem allocate_effect key_name pool tr r pool' :
  exec nonce_sem (allocate key_name) pool tr r pool' ->
  exists locked,
  (pool' = pool /\ exists e, r = Done (Err (Nonce ("nonce allocate query failed: " +:+ e)))) \/
  (pool' = pool /\ Forall (unavailable locked) pool
   /\ r = Done (Err (Nonce "durable-nonce pool exhausted or unseeded"))) \/
  exists l r0 k now, pool = l ++ r0 :: k /\ Forall (unavailable locked) l
    /\ nr_status r0 = FreeLease /\ pool' = l ++ lease_row now r0 :: k
    /\ (r = Done (decode_row r0) \/ exists e, r = Done (Err (Nonce e))).
Proof.
  cbn [allocate call bind exec]. intros (x & p1 & t & Hs & -> & -> & -> & ->).
  destruct Hs as [(e & -> & ->)|(locked & now & Hs)]; [exists (fun _ => false); left; eauto|]. exists locked.
  destruct (claim_oldest locked now pool) as [[r1 p]|] eqn:E; right.
  2:{ destruct Hs as [-> ->]. left. splits; [done|by eapply claim_oldest_none|done]. }
  apply claim_oldest_spec in E as (l & r0 & k & -> & Hl & Hf & -> & ->). right.
  exists l, r0, k, now. destruct Hs as [[->|[e ->]] ->]; splits; eauto.
Qed.

End store.

(** ** Examples *)

Section examples.
#[local] Existing Instance toy_sdk.

Definition demo_hash (s : string) : result Hash string := Ok hash_default.
Definition demo_pool : list nonce_row :=
  [mkNonceRow 1 Leased (Some 5) "a" "b" "c"; mkNonceRow 2 FreeLease None "a" "b" "c"].

(** A database at time 7 where no row is locked. *)
Definition nonce_env (o : nop) (pool : list nonce_row) : nans o * list nonce_row :=
  match o return nans o * list nonce_row with
  | ClaimOldestFree => match claim_oldest (fun _ => false) 7 pool with
                       | Some (r, p) => (Ok (Some (Ok r)), p)
                       | None => (Ok None, pool)
                       end
  | SetFree id => (Ok tt, free_row id pool)
  end.

Lemma nonce_env_sem pool o : nonce_sem pool o (fst (nonce_env o pool)) (snd (nonce_env o pool)).
Proof.
  destruct o; cbn; [right; exists (fun _ => false), 7; destruct (claim_oldest _ _ pool) as [[? ?]|]|right];
    split; try left; reflexivity.
Defined.

(** Calls, and the order in which their statements run. *)
Definition nonce_run (calls : list nonce_call) (sched : list nat) :=
  schedule nonce_env sched demo_pool (nonce_task (postgres_nonce_store demo_hash) <$> calls).

(** Two allocations of the same row with a release between. *)
Definition reuse_calls : list nonce_call := [Allocate "k"; Release 2; Allocate "k"].
Definition reused := nonce_run reuse_calls [0; 1; 2]%nat.

Lemma nonce_pexec calls sched :
  let '(tr, pool', ps') := nonce_run calls sched in
  pexec nonce_sem (demo_pool, nonce_task (postgres_nonce_store demo_hash) <$> calls) tr (pool', ps').
Proof.
  destruct (nonce_run calls sched) as [[tr pool'] ps'] eqn:E. apply schedule_pexec in E.
  eapply pexec_weaken; [|exact E]. intros s o x s' Hs. pose proof (nonce_env_sem s o) as H. by rewrite Hs in H.
Defined.

Definition nonce_two : NonceAllocation :=
  mkNonce 2 (mkPubkey (as_bytes "a")) (mkPubkey (as_bytes "b")) hash_default.

Lemma nonce_leases_exclusive_witness :
  snd reused !! 0%nat = Some (Ret (Ok (Some nonce_two))) /\ snd reused !! 2%nat = Some (Ret (Ok (Some nonce_two)))
  /\ exists t1 t2 t3 x y e e', fst (fst reused) = t1 ++ (x, e) :: t2 ++ (y, e') :: t3
    /\ (x = 0%nat /\ y = 2%nat \/ x = 2%nat /\ y = 0%nat)
    /\ leases 2 e /\ leases 2 e' /\ Exists (fun h => frees 2 (snd h)) t2.
Proof.
  split; [reflexivity|]. split; [reflexivity|].
  refine (nonce_leases_exclusive demo_hash demo_pool reuse_calls _ (snd (fst reused)) (snd reused) 0 2
            nonce_two nonce_two _ (nonce_pexec reuse_calls [0; 1; 2]%nat) _ _ _ _).
  - split; [apply (bool_decide_unpack _); vm_compute; exact I|].
    repeat constructor; cbn; try done; by intros [].
  - reflexivity.
  - reflexivity.
  - reflexivity.
  - discriminate.
Defined.

(** [release] frees a row whoever holds it: after a second release by the first
    holder, the last two allocations hold the same nonce. *)
Example stale_release_shares :
  let '(tr, _, ps) := nonce_run [Allocate "k"; Release 2; Allocate "k"; Release 2; Allocate "k"] [0; 1; 2; 3; 4]%nat in
  ps !! 2%nat = Some (Ret (Ok (Some nonce_two))) /\ ps !! 4%nat = Some (Ret (Ok (Some nonce_two))).
Proof. split; reflexivity. Qed.

(** A pool whose only free row does not decode: the caller gets an error and the
    row stays leased. *)
Example undecodable_row_lost :
  run nonce_env (allocate demo_hash "k") [mkNonceRow 3 FreeLease None "" "b" "c"] =
    ([Ev ClaimOldestFree (Ok (Some (Ok (mkNonceRow 3 Leased (Some 7) "" "b" "c"))))],
     Done (Err (Nonce "bad nonce_account: WrongSize")), [mkNonceRow 3 Leased (Some 7) "" "b" "c"]).
Proof. reflexivity. Qed.

End examples.
