(* ===== verification/Identity.v ===== *)
(** * Caller identity

    The gRPC path: [MtlsAcceptor] captures the peer certificates
    (src/harness.rs), [PeerCertLayer] turns the leaf's SPIFFE URI into a
    synthetic header (src/middleware.rs) and [role_from] reads it
    (src/api/service.rs).  The NATS path: [check_envelope_auth] verifies a signed
    envelope (src/nats_consumer/auth.rs). *)

From S2P Require Import Prelude RustStd Effects Domain External BridgeOps Fixtures.
From Stdlib Require String.
Import String.StringSyntax.

Local Open Scope Z_scope.

(** ** middleware.rs *)

Section spiffe.
Context {X : X509}.

(** The inner loop: the first SPIFFE URI among the names of a SAN extension. *)
Fixpoint first_spiffe_name (names : list GeneralName) : option string :=
  match names with
  | [] => None
  | URI uri :: names => if starts_with "spiffe://" uri then Some uri else first_spiffe_name names
  | OtherName :: names => first_spiffe_name names
  end.

(** The outer loop over the certificate's extensions. *)
Fixpoint first_spiffe_ext (exts : list ParsedExtension) : option string :=
  match exts with
  | [] => None
  | SubjectAlternativeName names :: exts =>
      match first_spiffe_name names with
      | Some uri => Some uri
      | None => first_spiffe_ext exts
      end
  | OtherExtension :: exts => first_spiffe_ext exts
  end.

Definition extract_spiffe_id (cert_der : bytes) : option string :=
  match cert_from_der cert_der with
  | Ok cert => first_spiffe_ext (cert_extensions cert)
  | Err _ => None
  end.

(** All the URI names of a certificate, in order. *)
Definition uri_names (exts : list ParsedExtension) : list string :=
  exts ≫= fun x => match x with
                   | SubjectAlternativeName names =>
                       names ≫= fun n => match n with URI u => [u] | OtherName => [] end
                   | OtherExtension => []
                   end.

End spiffe.

Section request.
Context {X : X509} {H : HttpHeaders}.

(** The part of an HTTP request the layers touch. *)
Record Request := mkRequest {
  ext_certs : option (list bytes);
  ext_verified_spiffe : option string;
  ext_identity : option string;
  req_headers : gmap string (list HeaderValue)
}.

(** A request as it arrives: no extensions, the client's own headers. *)
Definition client_request (hs : gmap string (list HeaderValue)) : Request :=
  mkRequest None None None hs.

(** The certificates [MtlsAcceptor::accept] keeps for the connection. *)
Definition acceptor_certs (peer_certificates : option (list bytes)) : list bytes :=
  unwrap_or peer_certificates [].

(** [ConnectionService::call]. *)
Definition connection_call (certs : list bytes) (req : Request) : Request :=
  mkRequest (Some certs) (ext_verified_spiffe req) (ext_identity req) (req_headers req).

(** [MtlsAcceptor::accept]: the outcome of the TLS handshake gives the peer's
    certificates; the connection's service stamps them on every request. *)
Definition mtls_accept {A : Type} (handshake : result (option (list bytes)) string) (service : Request -> A)
  : result (list bytes * (Request -> A)) string :=
  match handshake with
  | Err e => Err e
  | Ok peer_certificates =>
      let certs := acceptor_certs peer_certificates in
      Ok (certs, fun req => service (connection_call certs req))
  end.

Definition spiffe_header_name : string := "z-gridtokenx-spiffe-id".

(** [PeerCertService::call], up to the inner service. *)
Definition peer_cert_call (req : Request) : Request :=
  match ext_certs req with
  | Some (leaf :: _) =>
      match extract_spiffe_id leaf with
      | Some spiffe_id =>
          mkRequest (ext_certs req) (Some spiffe_id) (Some spiffe_id)
            (match header_from_str spiffe_id with
             | Some hv => <[spiffe_header_name := [hv]]> (req_headers req)
             | None => req_headers req
             end)
      | None => req
      end
  | _ => req
  end.

(** [PeerCertLayer::layer]: the inner service sees the rewritten request. *)
Definition layer {A : Type} (inner : Request -> A) : Request -> A :=
  fun req => inner (peer_cert_call req).

(** ** service.rs: role resolution *)

(** [ctx.headers.get("z-gridtokenx-spiffe-id").and_then(|v| v.to_str().ok())]. *)
Definition spiffe_header (hs : gmap string (list HeaderValue)) : option string :=
  match hs !! spiffe_header_name with
  | Some (v :: _) => header_to_str v
  | _ => None
  end.

Context {C : BlockchainCore}.
(** [ServiceRole::from_headers]. *)
Context (from_headers : gmap string (list HeaderValue) -> ServiceRole).

(** [ChainBridgeGrpcService::role_from]. *)
Definition role_from (hs : gmap string (list HeaderValue)) (insecure header_auth : bool) : ServiceRole :=
  match spiffe_header hs with
  | Some spiffe_id => role_of spiffe_id
  | None => if insecure then Admin
            else if header_auth then from_headers hs
            else Unknown
  end.

(** [ChainBridgeGrpcService::extract_role]: [getenv] is the process environment. *)
Definition extract_role (getenv : string -> option string) (hs : gmap string (list HeaderValue)) : ServiceRole :=
  role_from hs (env_flag getenv "CHAIN_BRIDGE_INSECURE")
    (match getenv "CHAIN_BRIDGE_ALLOW_HEADER_AUTH" with Some _ => true | None => false end).

(** The identity [submit_transaction] hands to the signing pipeline. *)
Definition request_identity (hs : gmap string (list HeaderValue)) : string :=
  unwrap_or (spiffe_header hs) "unknown".

(** The headers a handler sees on an mTLS connection with these peer
    certificates when the client sent [hs]. *)
Definition mtls_headers (peer_certificates : option (list bytes)) (hs : gmap string (list HeaderValue))
  : gmap string (list HeaderValue) :=
  req_headers (peer_cert_call (connection_call (acceptor_certs peer_certificates) (client_request hs))).

End request.

(** ** nats_consumer/auth.rs *)

Record NatsAuthPolicy := mkPolicy { require_signed : bool; ca_der : option bytes }.

(** [NatsAuthPolicy::new]: enforcement without a CA is forced to log-only. *)
Definition policy_new (req : bool) (ca : option bytes) : NatsAuthPolicy :=
  if req && match ca with None => true | Some _ => false end then mkPolicy false None
  else mkPolicy req ca.

Inductive AuthCheck : Type :=
| Verified
| Unsigned
| Failed (reason : string).

(** [auth_decision]. *)
Definition auth_decision (check : AuthCheck) (req : bool) : result unit string :=
  if negb req then Ok tt
  else match check with
       | Verified => Ok tt
       | Unsigned => Err "unsigned envelope (signing required)"
       | Failed reason => Err reason
       end.

Section envelope.
Context {X : X509} {C : BlockchainCore} {B : Base64}.

(** [NatsAuthPolicy::from_env]. *)
Definition policy_from_env (getenv : string -> option string)
    (read_file : string -> result bytes string) : NatsAuthPolicy :=
  let req := env_flag getenv "CHAIN_BRIDGE_REQUIRE_SIGNED_NATS" in
  let ca_path := unwrap_or (getenv "CHAIN_BRIDGE_TLS_CA") "infra/certs/ca.crt" in
  let ca := match read_file ca_path with
            | Ok pem_bytes => match parse_x509_pem pem_bytes with
                              | Ok der => Some der
                              | Err _ => None
                              end
            | Err _ => None
            end in
  policy_new req ca.

(** [check_envelope_auth]. *)
Definition check_envelope_auth (ca : option bytes) (auth : option EnvelopeAuth)
    (claimed_identity : string) (canonical : bytes) (now_secs : Z) : AuthCheck :=
  match auth with
  | None => Unsigned
  | Some auth =>
  match ca with
  | None => Unsigned
  | Some ca =>
  if negb (String.eqb (auth_scheme auth) ENVELOPE_AUTH_SCHEME_V1) then
    Failed ("unknown auth scheme: " +:+ auth_scheme auth)
  else
  match parse_x509_pem (as_bytes (auth_cert_pem auth)) with
  | Err e => Failed ("cert_pem is not valid PEM: " +:+ e)
  | Ok leaf_der =>
  match cert_from_der leaf_der with
  | Err e => Failed ("cert_pem is not a valid certificate: " +:+ e)
  | Ok leaf =>
  let now := unwrap_or (asn1_from_timestamp now_secs) asn1_now in
  if negb (cert_is_valid_at leaf now) then Failed "certificate outside validity window"
  else
  match cert_from_der ca with
  | Err e => Failed ("configured CA unparseable: " +:+ e)
  | Ok ca =>
  if negb (cert_verify_signature leaf (cert_public_key ca)) then
    Failed "certificate not signed by the trusted CA"
  else
  match extract_spiffe_id leaf_der with
  | None => Failed "certificate has no SPIFFE URI SAN"
  | Some san =>
  if negb (String.eqb san claimed_identity) then
    Failed ("cert SPIFFE SAN '" +:+ san +:+ "' does not match claimed identity '"
            +:+ claimed_identity +:+ "'")
  else
  match b64_decode (auth_signature auth) with
  | Err e => Failed ("signature is not valid base64: " +:+ e)
  | Ok sig_der =>
  match verify_p256_signature (spki_data (cert_public_key leaf)) canonical sig_der with
  | Ok _ => Verified
  | Err e => Failed e
  end end end end end end end end.

(** What a verified envelope proves: the certificate is readable, in its validity
    window and issued by the CA, the first of all its URI names that is a SPIFFE
    URI is the claimed identity, and its key signed the canonical bytes. *)
Definition envelope_verified (ca : bytes) (auth : EnvelopeAuth) (claimed : string)
    (canonical : bytes) (now_secs : Z) : Prop :=
  auth_scheme auth = ENVELOPE_AUTH_SCHEME_V1 /\
  exists leaf_der leaf ca_cert sig_der u,
    parse_x509_pem (as_bytes (auth_cert_pem auth)) = Ok leaf_der
    /\ cert_from_der leaf_der = Ok leaf
    /\ cert_is_valid_at leaf (unwrap_or (asn1_from_timestamp now_secs) asn1_now) = true
    /\ cert_from_der ca = Ok ca_cert
    /\ cert_verify_signature leaf (cert_public_key ca_cert) = true
    /\ head (filter (fun u => starts_with "spiffe://" u = true) (uri_names (cert_extensions leaf))) = Some claimed
    /\ b64_decode (auth_signature auth) = Ok sig_der
    /\ verify_p256_signature (spki_data (cert_public_key leaf)) canonical sig_der = Ok u.

End envelope.

(** ** Lemmas *)

Section spiffe_lemmas.
Context {X : X509}.

Lemma first_spiffe_name_spec names :
  first_spiffe_name names =
  head (filter (fun u => starts_with "spiffe://" u = true)
          (names ≫= fun n => match n with URI u => [u] | OtherName => [] end)).
Proof.
  induction names as [|[uri|] names IH]; [done| |exact IH].
  cbn [first_spiffe_name]. rewrite bind_cons, filter_app. destruct (starts_with "spiffe://" uri) eqn:E.
  - by rewrite filter_cons_True.
  - by rewrite filter_cons_False, filter_nil by congruence.
Qed.

Lemma head_app_match {A : Type} (l k : list A) :
  head (l ++ k) = match head l with Some x => Some x | None => head k end.
Proof. by destruct l. Qed.

(** The extracted identity is the first URI name that is a SPIFFE URI. *)
Lemma first_spiffe_ext_spec exts :
  first_spiffe_ext exts = head (filter (fun u => starts_with "spiffe://" u = true) (uri_names exts)).
Proof.
  induction exts as [|[names|] exts IH]; [done| |exact IH].
  unfold uri_names in *. cbn [first_spiffe_ext]. rewrite bind_cons, filter_app, head_app_match, <- IH.
  by rewrite first_spiffe_name_spec.
Qed.

Lemma first_spiffe_ext_prefix exts s :
  first_spiffe_ext exts = Some s -> starts_with "spiffe://" s = true /\ s ∈ uri_names exts.
Proof.
  rewrite first_spiffe_ext_spec. intros Hh.
  assert (s ∈ filter (fun u => starts_with "spiffe://" u = true) (uri_names exts)) as Hin.
  { destruct (filter _ _); [done|]. injection Hh as ->. by left. }
  by apply list_elem_of_filter in Hin.
Qed.

End spiffe_lemmas.

Section envelope_lemmas.
Context {X : X509} {C : BlockchainCore} {B : Base64}.

Lemma check_verified_iff ca auth claimed canonical now :
  check_envelope_auth ca auth claimed canonical now = Verified <->
  exists c a, ca = Some c /\ auth = Some a /\ envelope_verified c a claimed canonical now.
Proof.
  unfold check_envelope_auth, envelope_verified, extract_spiffe_id. setoid_rewrite <- first_spiffe_ext_spec. split.
  - intros Hc. repeat (split_match; simplify_eq; try done).
    repeat match goal with
    | E : negb _ = false |- _ => apply negb_false_iff in E
    | E : String.eqb _ _ = true |- _ => apply String.eqb_eq in E
    end. subst. do 2 eexists. splits; [done|done|done|]. eauto 20.
  - intros (c & a & -> & -> & Hs & leaf_der & leaf & cc & sd & u & H1 & H2 & H3 & H4 & H5 & H6 & H7 & H8).
    by rewrite Hs, String.eqb_refl, H1, H2, H3, H4, H5, H6, String.eqb_refl, H7, H8.
Qed.

Lemma auth_decision_ok check req :
  is_ok (auth_decision check req) = true <-> req = false \/ check = Verified.
Proof. destruct req, check; cbn; naive_solver. Qed.

Lemma check_unsigned ca auth claimed canonical now :
  (auth = None \/ ca = None) -> check_envelope_auth ca auth claimed canonical now = Unsigned.
Proof. unfold check_envelope_auth. intros [->| ->]; [done|]. by destruct auth. Qed.

End envelope_lemmas.

(** ** Claims *)

Section identity_claims.
Context {X : X509} {H : HttpHeaders} {HL : HttpHeadersLaws} {C : BlockchainCore}.
Context (from_headers : gmap string (list HeaderValue) -> ServiceRole).

(** The SPIFFE identity of a connection: that of the leaf certificate. *)
Definition connection_spiffe (peer_certificates : option (list bytes)) : option string :=
  match acceptor_certs peer_certificates with
  | leaf :: _ => extract_spiffe_id leaf
  | [] => None
  end.

Lemma mtls_headers_eq certs hs :
  mtls_headers certs hs =
  match connection_spiffe certs with
  | Some id => match header_from_str id with
               | Some hv => <[spiffe_header_name := [hv]]> hs
               | None => hs
               end
  | None => hs
  end.
Proof.
  unfold mtls_headers, peer_cert_call, connection_spiffe. cbn.
  destruct (acceptor_certs certs) as [|leaf ?]; [done|]. by destruct (extract_spiffe_id leaf).
Qed.

(** The certificate decides.  On a connection whose leaf certificate has a
    SPIFFE URI that fits a header value, the handler's role and audit identity are
    those of the certificate, whatever headers the client sent and however the
    environment flags are set. *)
Theorem mtls_identity_authentic certs hs id hv insecure header_auth :
  connection_spiffe certs = Some id ->
  header_from_str id = Some hv -> is_Some (header_to_str hv) ->
  role_from from_headers (mtls_headers certs hs) insecure header_auth = role_of id
  /\ request_identity (mtls_headers certs hs) = id
  /\ starts_with "spiffe://" id = true.
Proof.
  intros Hc Hv [t Ht]. rewrite mtls_headers_eq, Hc, Hv.
  assert (Hs : spiffe_header (<[spiffe_header_name := [hv]]> hs) = Some id).
  { unfold spiffe_header. rewrite lookup_insert_eq, Ht. by rewrite (header_roundtrip _ _ _ Hv Ht). }
  unfold role_from, request_identity. rewrite Hs. splits; [done|done|].
  unfold connection_spiffe in Hc. destruct (acceptor_certs certs) as [|leaf ?]; [done|].
  unfold extract_spiffe_id in Hc. destruct (cert_from_der leaf); [|done].
  by destruct (first_spiffe_ext_prefix _ _ Hc).
Qed.

(** Where the certificate is silent the client's own header speaks.  On a
    connection with no SPIFFE certificate, or with a SPIFFE URI that is no valid
    header value, the synthetic header is not cleared: the
    handler sees the headers exactly as the client sent them, so a client-written
    [z-gridtokenx-spiffe-id] names the role and the audit identity, and only
    without one does the outcome fall back to the two environment flags, ending in
    [Unknown]. *)
Theorem mtls_silent_cert_passthrough certs hs insecure header_auth :
  (connection_spiffe certs = None \/ exists id, connection_spiffe certs = Some id /\ header_from_str id = None) ->
  mtls_headers certs hs = hs
  /\ (forall id, spiffe_header hs = Some id ->
        role_from from_headers (mtls_headers certs hs) insecure header_auth = role_of id
        /\ request_identity (mtls_headers certs hs) = id)
  /\ (spiffe_header hs = None ->
        role_from from_headers (mtls_headers certs hs) false false = Unknown).
Proof.
  intros Hc. assert (Hm : mtls_headers certs hs = hs).
  { rewrite mtls_headers_eq. by destruct Hc as [->|(id & -> & ->)]. }
  rewrite Hm. unfold role_from, request_identity. splits; [done|by intros id ->|by intros ->].
Qed.

End identity_claims.

Section envelope_claims.
Context {X : X509} {C : BlockchainCore} {B : Base64}.

(** C26: enforcement.  A policy read from the environment that requires
    signatures has a CA to check them against, and then an envelope passes the
    decision exactly when it is verified; without a usable CA the policy is
    log-only and every envelope passes. *)
Theorem enforced_policy_sound getenv read_file auth claimed canonical now :
  let p := policy_from_env getenv read_file in
  let check := check_envelope_auth (ca_der p) auth claimed canonical now in
  (require_signed p = true -> is_Some (ca_der p))
  /\ (require_signed p = true -> (auth_decision check (require_signed p) = Ok tt <-> check = Verified))
  /\ (ca_der p = None -> auth_decision check (require_signed p) = Ok tt).
Proof.
  unfold policy_from_env. set (req := env_flag _ _). set (ca := match read_file _ with Ok _ => _ | Err _ => _ end).
  cbn zeta. clearbody req ca. unfold policy_new.
  destruct ca as [c|]; destruct req; cbn; splits; try done; try (by eexists).
  intros _. set (k := check_envelope_auth _ _ _ _ _). destruct k; naive_solver.
Qed.

End envelope_claims.

(** ** Examples *)

Section examples.
#[local] Existing Instances toy_core toy_x509 toy_b64 toy_headers toy_headers_laws.

Definition forged_headers : gmap string (list HeaderValue) :=
  {[ spiffe_header_name := ["spiffe://gridtokenx/admin"] ]}.

Definition settlement_cert : bytes := as_bytes "spiffe://gridtokenx/settlement".

Lemma mtls_identity_authentic_witness :
  role_from (fun _ => Unknown) (mtls_headers (Some [settlement_cert]) forged_headers) true true
  = SettlementService.
Proof.
  refine (proj1 (mtls_identity_authentic (fun _ => Unknown) (Some [settlement_cert]) forged_headers
    "spiffe://gridtokenx/settlement" "spiffe://gridtokenx/settlement" true true _ _ _));
    [vm_compute; reflexivity|reflexivity|by eexists].
Defined.

Lemma mtls_silent_cert_passthrough_witness :
  role_from (fun _ => Unknown) (mtls_headers None forged_headers) false false = Admin.
Proof.
  refine (proj1 (proj1 (proj2 (mtls_silent_cert_passthrough (fun _ => Unknown) None forged_headers
    false false _)) "spiffe://gridtokenx/admin" _)); [left|]; vm_compute; reflexivity.
Defined.

End examples.
