(* ===== verification/Pki.v ===== *)
(** * Issued certificates and signed envelopes

    The publisher's side of the NATS envelope check and the certificates of the
    mTLS path, as the test modules of nats_consumer/auth.rs and middleware.rs set
    them up: a CA and a leaf issued by [rcgen], an envelope signed with the leaf's
    key by [EnvelopeSigner].  Both crates are outside the repository, so they are
    classes of operations with the laws that say what an issued certificate holds.
    The test functions are definitions of their own: [None] where an [unwrap]
    panics, otherwise whether every assertion holds. *)

From S2P Require Import Prelude RustStd Effects Domain External BridgeOps Fixtures Identity.
From Stdlib Require String.
Import String.StringSyntax.

Local Open Scope Z_scope.

Definition unwrap {A E : Type} (m : result A E) : option A :=
  match m with
  | Ok a => Some a
  | Err _ => None
  end.

(** ** rcgen *)

(** The part of [rcgen::CertificateParams] that is set: common names pushed, the
    CA flag, the URI names of the SAN, the validity in seconds since the epoch. *)
Record CertificateParams := mkParams {
  common_names : list string;
  params_is_ca : bool;
  subject_alt_names : list string;
  not_before : Z;
  not_after : Z
}.

Class Rcgen `{X509} := {
  KeyPair : Type;
  Certificate : Type;
  default_params : CertificateParams;
  date_time_ymd : Z -> Z -> Z -> Z;
  ia5_string : string -> result string string;
  self_signed : CertificateParams -> KeyPair -> result Certificate string;
  signed_by : CertificateParams -> KeyPair -> Certificate -> KeyPair -> result Certificate string;
  cert_pem : Certificate -> string;
  cert_der : Certificate -> bytes;
  serialize_pem : KeyPair -> string;
  public_point : KeyPair -> bytes
}.

Definition push_cn (cn : string) (p : CertificateParams) : CertificateParams :=
  mkParams (common_names p ++ [cn]) (params_is_ca p) (subject_alt_names p) (not_before p) (not_after p).
Definition set_is_ca (b : bool) (p : CertificateParams) : CertificateParams :=
  mkParams (common_names p) b (subject_alt_names p) (not_before p) (not_after p).
Definition push_san (uri : string) (p : CertificateParams) : CertificateParams :=
  mkParams (common_names p) (params_is_ca p) (subject_alt_names p ++ [uri]) (not_before p) (not_after p).
Definition set_validity (a b : Z) (p : CertificateParams) : CertificateParams :=
  mkParams (common_names p) (params_is_ca p) (subject_alt_names p) a b.

(** A certificate with parameters [p] for key [k], signed with key [ik]. *)
Inductive issued `{Rcgen} (c : Certificate) (p : CertificateParams) (k ik : KeyPair) : Prop :=
| issued_self : self_signed p k = Ok c -> ik = k -> issued c p k ik
| issued_by ca : signed_by p k ca ik = Ok c -> issued c p k ik.

(** Days since the epoch of a date of the Gregorian calendar. *)
Definition days_from_civil (y m d : Z) : Z :=
  let y' := if m <=? 2 then y - 1 else y in
  let era := y' / 400 in
  let yoe := y' - era * 400 in
  let doy := (153 * (m + (if m >? 2 then -3 else 9)) + 2) / 5 + d - 1 in
  era * 146097 + (yoe * 365 + yoe / 4 - yoe / 100 + doy) - 719468.

(** Times an ASN.1 certificate can carry: from the epoch to the year 9999. *)
Definition representable (p : CertificateParams) : Prop :=
  0 <= not_before p /\ not_after p < 253402300800.

(** What rcgen issues and x509-parser reads back.  The default parameters are
    valid from 1975 to 4096 and have no alternative name. *)
Class RcgenLaws `{Rcgen} := {
  date_time_ymd_spec : forall y m d, date_time_ymd y m d = 86400 * days_from_civil y m d;
  default_params_spec :
    subject_alt_names default_params = []
    /\ not_before default_params = date_time_ymd 1975 1 1
    /\ not_after default_params = date_time_ymd 4096 1 1;
  ia5_ascii : forall s, forallb (fun b => byte_to_Z b <? 128) (as_bytes s) = true -> ia5_string s = Ok s;
  self_signed_total : forall p k, exists c, self_signed p k = Ok c;
  signed_by_total : forall p k ca ik, exists c, signed_by p k ca ik = Ok c;
  pem_contents : forall c, parse_x509_pem (as_bytes (cert_pem c)) = Ok (cert_der c);
  der_parses : forall c p k ik, issued c p k ik -> representable p ->
    exists x, cert_from_der (cert_der c) = Ok x
      /\ uri_names (cert_extensions x) = subject_alt_names p
      /\ spki_data (cert_public_key x) = public_point k
      /\ (forall s t, 0 <= s < 253402300800 -> asn1_from_timestamp s = Some t ->
            cert_is_valid_at x t = bool_decide (not_before p <= s <= not_after p));
  timestamps : forall s, 0 <= s < 253402300800 -> is_Some (asn1_from_timestamp s);
  chain_verifies : forall c p k ik ca cp ck x y,
    issued c p k ik -> issued ca cp ik ck ->
    cert_from_der (cert_der c) = Ok x -> cert_from_der (cert_der ca) = Ok y ->
    cert_verify_signature x (cert_public_key y) = true
}.

(** ** EnvelopeSigner (gridtokenx_blockchain_core::rpc::envelope_auth) *)

Class EnvelopeSigning `{Rcgen} := {
  EnvelopeSigner : Type;
  signer_from_pem : string -> string -> result EnvelopeSigner string;
  signer_sign : EnvelopeSigner -> bytes -> EnvelopeAuth
}.

(** A signer attaches its certificate and a signature its own key verifies; a
    well-formed signature over other bytes is refused with the stated text. *)
Class EnvelopeSigningLaws `{ES : EnvelopeSigning} {C : BlockchainCore} {B : Base64} := {
  sign_verifies : forall pem k, exists sg,
    signer_from_pem pem (serialize_pem k) = Ok sg
    /\ forall m, auth_scheme (signer_sign sg m) = ENVELOPE_AUTH_SCHEME_V1
         /\ auth_cert_pem (signer_sign sg m) = pem
         /\ exists s, b64_decode (auth_signature (signer_sign sg m)) = Ok s
                      /\ is_ok (verify_p256_signature (public_point k) m s) = true;
  verify_refusal : forall k m m' s e,
    is_ok (verify_p256_signature (public_point k) m s) = true ->
    verify_p256_signature (public_point k) m' s = Err e ->
    str_contains "signature verification failed" e = true;
  scheme_known : String.eqb "hmac-md5-v0" ENVELOPE_AUTH_SCHEME_V1 = false
}.

(** ** The test module of auth.rs *)

Module AuthTests.

Definition NOW_SECS : Z := 1750000000.

Definition IDENTITY : string := "spiffe://gridtokenx.th/prod/iam-service".

Section auth_tests.
Context {X : X509} {R : Rcgen} {ES : EnvelopeSigning} {C : BlockchainCore} {B : Base64}.

(** [KeyPair::generate_for] returns a fresh key: the keys are arguments. *)
Definition make_test_ca (key : KeyPair) : option (Certificate * KeyPair) :=
  let params := push_cn "test-ca" default_params in
  let params := set_is_ca true params in
  cert ← unwrap (self_signed params key);
  Some (cert, key).

Definition make_leaf (spiffe_uri : string) (ca : Certificate) (ca_key key : KeyPair)
  : option (string * KeyPair) :=
  let params := push_cn "leaf" default_params in
  let params := set_is_ca false params in
  uri ← unwrap (ia5_string spiffe_uri);
  let params := push_san uri params in
  cert ← unwrap (signed_by params key ca ca_key);
  Some (cert_pem cert, key).

Definition submit_fixture (identity : string) : TxSubmitMessage :=
  mkSubmit "c1" "ik" "chain.tx.result.c1" (byte_of_Z <$> [9; 9; 9]) "platform_admin" false 0
    identity 1700000000000 None.

Definition signed_auth (envelope : TxSubmitMessage) (pem : string) (key : KeyPair) : option EnvelopeAuth :=
  signer ← unwrap (signer_from_pem pem (serialize_pem key));
  Some (signer_sign signer (canonical_submit_bytes envelope)).

(** [matches!(&check, AuthCheck::Failed(r) if r.contains(text))]. *)
Definition failed_with (text : string) (check : AuthCheck) : bool :=
  match check with
  | Failed r => str_contains text r
  | _ => false
  end.

Definition is_verified (check : AuthCheck) : bool :=
  match check with Verified => true | _ => false end.

(** The call every test ends in. *)
Definition check_fixture (ca : Certificate) (auth : EnvelopeAuth) (env : TxSubmitMessage) : AuthCheck :=
  check_envelope_auth (Some (cert_der ca)) (Some auth) IDENTITY (canonical_submit_bytes env) NOW_SECS.

Definition verified_happy_path (k1 k2 : KeyPair) : option bool :=
  '(ca, ca_key) ← make_test_ca k1;
  '(leaf_pem, leaf_key) ← make_leaf IDENTITY ca ca_key k2;
  let env := submit_fixture IDENTITY in
  auth ← signed_auth env leaf_pem leaf_key;
  Some (is_verified (check_fixture ca auth env)).

Definition san_mismatch_rejected (k1 k2 : KeyPair) : option bool :=
  '(ca, ca_key) ← make_test_ca k1;
  '(leaf_pem, leaf_key) ← make_leaf "spiffe://gridtokenx.th/prod/trading-service/api" ca ca_key k2;
  let env := submit_fixture IDENTITY in
  auth ← signed_auth env leaf_pem leaf_key;
  Some (failed_with "does not match" (check_fixture ca auth env)).

Definition wrong_ca_rejected (k1 k2 k3 : KeyPair) : option bool :=
  '(trusted_ca, _) ← make_test_ca k1;
  '(rogue_ca, rogue_ca_key) ← make_test_ca k2;
  '(leaf_pem, leaf_key) ← make_leaf IDENTITY rogue_ca rogue_ca_key k3;
  let env := submit_fixture IDENTITY in
  auth ← signed_auth env leaf_pem leaf_key;
  Some (failed_with "not signed by the trusted CA" (check_fixture trusted_ca auth env)).

Definition expired_cert_rejected (k1 k2 : KeyPair) : option bool :=
  '(ca, ca_key) ← make_test_ca k1;
  let params := push_cn "leaf" default_params in
  uri ← unwrap (ia5_string IDENTITY);
  let params := push_san uri params in
  let params := set_validity (date_time_ymd 2020 1 1) (date_time_ymd 2021 1 1) params in
  cert ← unwrap (signed_by params k2 ca ca_key);
  let leaf_pem := cert_pem cert in
  let env := submit_fixture IDENTITY in
  auth ← signed_auth env leaf_pem k2;
  Some (failed_with "validity window" (check_fixture ca auth env)).

Definition tampered_canonical_rejected (k1 k2 : KeyPair) : option bool :=
  '(ca, ca_key) ← make_test_ca k1;
  '(leaf_pem, leaf_key) ← make_leaf IDENTITY ca ca_key k2;
  let env := submit_fixture IDENTITY in
  auth ← signed_auth env leaf_pem leaf_key;
  let env := mkSubmit (ts_correlation_id env) (ts_idempotency_key env) "chain.tx.result.attacker"
               (ts_serialized_tx env) (ts_key_id env) (ts_skip_preflight env) (ts_retry_count env)
               (ts_service_identity env) (ts_created_at_ms env) (ts_auth env) in
  Some (failed_with "signature verification failed" (check_fixture ca auth env)).

Definition tampered_tx_bytes_rejected (k1 k2 : KeyPair) : option bool :=
  '(ca, ca_key) ← make_test_ca k1;
  '(leaf_pem, leaf_key) ← make_leaf IDENTITY ca ca_key k2;
  let env := submit_fixture IDENTITY in
  auth ← signed_auth env leaf_pem leaf_key;
  let env := mkSubmit (ts_correlation_id env) (ts_idempotency_key env) (ts_reply_subject env)
               (byte_of_Z <$> [1; 2; 3; 4]) (ts_key_id env) (ts_skip_preflight env) (ts_retry_count env)
               (ts_service_identity env) (ts_created_at_ms env) (ts_auth env) in
  Some (failed_with "signature verification failed" (check_fixture ca auth env)).

Definition unknown_scheme_rejected (k1 k2 : KeyPair) : option bool :=
  '(ca, ca_key) ← make_test_ca k1;
  '(leaf_pem, leaf_key) ← make_leaf IDENTITY ca ca_key k2;
  let env := submit_fixture IDENTITY in
  auth ← signed_auth env leaf_pem leaf_key;
  let auth := mkEnvelopeAuth "hmac-md5-v0" (auth_cert_pem auth) (auth_signature auth) in
  Some (failed_with "unknown auth scheme" (check_fixture ca auth env)).

End auth_tests.

Definition unsigned_rejected_when_enforced_accepted_otherwise : bool :=
  let check := Unsigned in
  let failed := Failed "boom" in
  is_err (auth_decision check true) && is_ok (auth_decision check false)
  && is_ok (auth_decision failed false) && is_err (auth_decision failed true)
  && is_ok (auth_decision Verified true).

Definition policy_new_forces_log_only_without_ca : bool :=
  negb (require_signed (policy_new true None))
  && require_signed (policy_new true (Some (byte_of_Z <$> [1; 2; 3]))).

End AuthTests.

(** ** The test module of middleware.rs *)

Module MiddlewareTests.
Section middleware_tests.
Context {X : X509} {H : HttpHeaders} {R : Rcgen}.

Definition generate_cert_with_spiffe (spiffe_uri : string) (key_pair : KeyPair) : option bytes :=
  let params := push_cn "test" default_params in
  let params := set_is_ca false params in
  uri ← unwrap (ia5_string spiffe_uri);
  let params := push_san uri params in
  cert ← unwrap (self_signed params key_pair);
  Some (cert_der cert).

Definition generate_cert_without_san (key_pair : KeyPair) : option bytes :=
  let params := push_cn "test" default_params in
  let params := set_is_ca false params in
  cert ← unwrap (self_signed params key_pair);
  Some (cert_der cert).

Definition test_extract_spiffe_id_valid (k : KeyPair) : option bool :=
  der ← generate_cert_with_spiffe "spiffe://gridtokenx.th/prod/trading-service/matcher" k;
  Some (bool_decide (extract_spiffe_id der = Some "spiffe://gridtokenx.th/prod/trading-service/matcher")).

Definition test_extract_spiffe_id_no_san (k : KeyPair) : option bool :=
  der ← generate_cert_without_san k;
  Some (bool_decide (extract_spiffe_id der = None)).

Definition test_extract_spiffe_id_non_spiffe_uri (k : KeyPair) : option bool :=
  der ← generate_cert_with_spiffe "https://example.com/not-spiffe" k;
  Some (bool_decide (extract_spiffe_id der = None)).

Definition test_extract_spiffe_id_garbage_input : bool :=
  bool_decide (extract_spiffe_id (byte_of_Z <$> [255; 254; 253]) = None).

Definition test_extract_spiffe_id_empty_input : bool :=
  bool_decide (extract_spiffe_id [] = None).

Definition header_str (req : Request) : option string := spiffe_header (req_headers req).

Definition test_peer_cert_layer_injects_identity (k : KeyPair) : option bool :=
  der ← generate_cert_with_spiffe "spiffe://gridtokenx.th/prod/iam-service" k;
  let inner req :=
    bool_decide (ext_identity req = Some "spiffe://gridtokenx.th/prod/iam-service")
    && bool_decide (ext_verified_spiffe req = Some "spiffe://gridtokenx.th/prod/iam-service")
    && bool_decide (header_str req = Some "spiffe://gridtokenx.th/prod/iam-service") in
  let req := connection_call [der] (client_request ∅) in
  Some (layer inner req).

Definition test_peer_cert_layer_no_certs : bool :=
  let inner req :=
    bool_decide (ext_identity req = None) && bool_decide (ext_verified_spiffe req = None)
    && negb (bool_decide (is_Some (req_headers req !! spiffe_header_name))) in
  layer inner (client_request ∅).

Definition test_peer_cert_layer_empty_cert_list : bool :=
  let inner req := bool_decide (ext_identity req = None) in
  layer inner (connection_call [] (client_request ∅)).

End middleware_tests.
End MiddlewareTests.

(** ** What the check makes of an issued certificate *)

Section signed.
Context {X : X509} {R : Rcgen} {RL : RcgenLaws}.
Context {C : BlockchainCore} {B : Base64} {ES : EnvelopeSigning} {SL : EnvelopeSigningLaws}.

(** The SPIFFE identity a certificate is issued for. *)
Definition spiffe_of (p : CertificateParams) : option string :=
  head (filter (fun u => starts_with "spiffe://" u = true) (subject_alt_names p)).

Definition within (p : CertificateParams) (now : Z) : Prop := not_before p <= now <= not_after p.

#[local] Instance within_dec p now : Decision (within p now).
Proof. unfold within. apply _. Defined.

Lemma issued_spiffe c p k ik :
  issued c p k ik -> representable p -> extract_spiffe_id (cert_der c) = spiffe_of p.
Proof.
  intros Hi Hr. destruct (der_parses c p k ik Hi Hr) as (x & Hx & Hu & _).
  unfold extract_spiffe_id, spiffe_of. by rewrite Hx, first_spiffe_ext_spec, Hu.
Qed.

(** Whether a leaf's signature verifies under the key of the configured CA. *)
Definition chains (leaf ca : Certificate) : bool :=
  match cert_from_der (cert_der leaf), cert_from_der (cert_der ca) with
  | Ok x, Ok y => cert_verify_signature x (cert_public_key y)
  | _, _ => false
  end.

(** The check on auth of the supported scheme whose certificate was issued with
    parameters [p] for key [k]: its four remaining tests in order. *)
Lemma check_issued auth leaf p k ik ca cp ck jk claimed m s now :
  issued leaf p k ik -> issued ca cp ck jk -> representable p -> representable cp ->
  0 <= now < 253402300800 ->
  auth_scheme auth = ENVELOPE_AUTH_SCHEME_V1 -> auth_cert_pem auth = cert_pem leaf ->
  b64_decode (auth_signature auth) = Ok s ->
  check_envelope_auth (Some (cert_der ca)) (Some auth) claimed m now =
  (if negb (bool_decide (within p now)) then Failed "certificate outside validity window"
   else if negb (chains leaf ca) then Failed "certificate not signed by the trusted CA"
   else match spiffe_of p with
        | None => Failed "certificate has no SPIFFE URI SAN"
        | Some san =>
            if negb (String.eqb san claimed) then
              Failed ("cert SPIFFE SAN '" +:+ san +:+ "' does not match claimed identity '"
                      +:+ claimed +:+ "'")
            else match verify_p256_signature (public_point k) m s with
                 | Ok _ => Verified
                 | Err e => Failed e
                 end
        end).
Proof.
  intros Hl Hc Rp Rc Hnow Hs Hp Hd.
  destruct (der_parses leaf p k ik Hl Rp) as (x & Hx & _ & Hk & Hv).
  destruct (der_parses ca cp ck jk Hc Rc) as (y & Hy & _).
  destruct (timestamps now Hnow) as [t Ht].
  unfold check_envelope_auth. rewrite Hs, String.eqb_refl, Hp, pem_contents, Hx, Ht. cbn [negb unwrap_or].
  rewrite (Hv now t Hnow Ht), Hy, (issued_spiffe leaf p k ik Hl Rp), Hd, Hk.
  unfold chains. by rewrite Hx, Hy.
Qed.

Lemma chains_issued leaf p k ca cp ck jk :
  issued leaf p k ck -> issued ca cp ck jk -> representable p -> representable cp -> chains leaf ca = true.
Proof.
  intros Hl Hc Rp Rc. destruct (der_parses leaf p k ck Hl Rp) as (x & Hx & _).
  destruct (der_parses ca cp ck jk Hc Rc) as (y & Hy & _).
  unfold chains. rewrite Hx, Hy. by apply (chain_verifies leaf p k ck ca cp jk).
Qed.

Lemma check_signed leaf p k ca cp ck jk sg m claimed now :
  issued leaf p k ck -> issued ca cp ck jk -> representable p -> representable cp ->
  0 <= now < 253402300800 ->
  signer_from_pem (cert_pem leaf) (serialize_pem k) = Ok sg ->
  check_envelope_auth (Some (cert_der ca)) (Some (signer_sign sg m)) claimed m now = Verified
  <-> within p now /\ spiffe_of p = Some claimed.
Proof.
  intros Hl Hc Rp Rc Hnow Hsg.
  destruct (sign_verifies (cert_pem leaf) k) as (sg' & Hsg' & Hsign). rewrite Hsg in Hsg'. injection Hsg' as <-.
  destruct (Hsign m) as (Hs & Hp & s & Hd & Hok).
  rewrite (check_issued _ leaf p k ck ca cp ck jk claimed m s now) by done.
  rewrite (chains_issued leaf p k ca cp ck jk) by done. cbn [negb].
  destruct (verify_p256_signature (public_point k) m s); [|done].
  case_bool_decide as Hw; cbn [negb]; [|naive_solver].
  destruct (spiffe_of p) as [san|]; [|naive_solver].
  destruct (String.eqb_spec san claimed); cbn [negb]; naive_solver.
Qed.

(** C25: the publisher and the bridge agree.  An envelope signed by [EnvelopeSigner]
    with a leaf certificate the configured CA issued is verified exactly when the
    time lies within the leaf's validity window and the claimed identity is the
    first SPIFFE URI the leaf was issued for; in particular everything a publisher
    with a current certificate signs under its own identity is accepted. *)
Theorem signed_envelope_roundtrip leaf p k ca cp ck jk sg m claimed now :
  issued leaf p k ck -> issued ca cp ck jk -> representable p -> representable cp ->
  0 <= now < 253402300800 ->
  signer_from_pem (cert_pem leaf) (serialize_pem k) = Ok sg ->
  check_envelope_auth (Some (cert_der ca)) (Some (signer_sign sg m)) claimed m now = Verified
  <-> within p now /\ spiffe_of p = Some claimed.
Proof. apply check_signed. Qed.

(** ** The tests, for every such PKI *)

Lemma default_representable cn b sans :
  representable (mkParams cn b sans (not_before default_params) (not_after default_params))
  /\ within (mkParams cn b sans (not_before default_params) (not_after default_params)) AuthTests.NOW_SECS.
Proof.
  destruct default_params_spec as (_ & E1 & E2). unfold representable, within, AuthTests.NOW_SECS. cbn.
  rewrite E1, E2, !date_time_ymd_spec.
  change (86400 * days_from_civil 1975 1 1) with 157766400.
  change (86400 * days_from_civil 4096 1 1) with 67090118400. lia.
Qed.

(** The fixtures are built without a panic, and what they are. *)
Lemma make_test_ca_spec k : exists ca p,
  AuthTests.make_test_ca k = Some (ca, k) /\ issued ca p k k /\ representable p.
Proof.
  unfold AuthTests.make_test_ca. destruct (self_signed_total (set_is_ca true (push_cn "test-ca" default_params)) k) as [c Hc].
  rewrite Hc. cbn. exists c. eexists. split; [done|]. split; [by apply issued_self|]. apply default_representable.
Qed.

Lemma make_leaf_spec uri ca ik k :
  forallb (fun b => byte_to_Z b <? 128) (as_bytes uri) = true ->
  starts_with "spiffe://" uri = true ->
  exists leaf p, AuthTests.make_leaf uri ca ik k = Some (cert_pem leaf, k)
    /\ issued leaf p k ik /\ representable p /\ within p AuthTests.NOW_SECS /\ spiffe_of p = Some uri.
Proof.
  intros Ha Hu. unfold AuthTests.make_leaf. rewrite ia5_ascii by done. cbn [unwrap mbind option_bind].
  set (p := push_san _ _). destruct (signed_by_total p k ca ik) as [c Hc]. rewrite Hc. cbn.
  exists c, p. split; [done|]. split; [by eapply issued_by|].
  split; [apply default_representable|]. split; [apply default_representable|].
  unfold spiffe_of, p, push_san, set_is_ca, push_cn. cbn.
  rewrite (proj1 default_params_spec). cbn [app]. by rewrite filter_cons_True.
Qed.

Lemma signed_auth_spec env pem k : exists sg s,
  AuthTests.signed_auth env pem k = Some (signer_sign sg (canonical_submit_bytes env))
  /\ auth_scheme (signer_sign sg (canonical_submit_bytes env)) = ENVELOPE_AUTH_SCHEME_V1
  /\ auth_cert_pem (signer_sign sg (canonical_submit_bytes env)) = pem
  /\ b64_decode (auth_signature (signer_sign sg (canonical_submit_bytes env))) = Ok s
  /\ is_ok (verify_p256_signature (public_point k) (canonical_submit_bytes env) s) = true.
Proof.
  destruct (sign_verifies pem k) as (sg & Hsg & Hs). destruct (Hs (canonical_submit_bytes env)) as (H1 & H2 & s & H3 & H4).
  unfold AuthTests.signed_auth. rewrite Hsg. by exists sg, s.
Qed.

(** A leaf and an envelope made with fixture keys, checked against a fixture CA. *)
Lemma check_fixture_spec sg s env env' leaf p k ik ca cp ck :
  issued leaf p k ik -> representable p -> issued ca cp ck ck -> representable cp ->
  auth_scheme (signer_sign sg (canonical_submit_bytes env)) = ENVELOPE_AUTH_SCHEME_V1 ->
  auth_cert_pem (signer_sign sg (canonical_submit_bytes env)) = cert_pem leaf ->
  b64_decode (auth_signature (signer_sign sg (canonical_submit_bytes env))) = Ok s ->
  AuthTests.check_fixture ca (signer_sign sg (canonical_submit_bytes env)) env' =
  (if negb (bool_decide (within p AuthTests.NOW_SECS)) then Failed "certificate outside validity window"
   else if negb (chains leaf ca) then Failed "certificate not signed by the trusted CA"
   else match spiffe_of p with
        | None => Failed "certificate has no SPIFFE URI SAN"
        | Some san =>
            if negb (String.eqb san AuthTests.IDENTITY) then
              Failed ("cert SPIFFE SAN '" +:+ san +:+ "' does not match claimed identity '"
                      +:+ AuthTests.IDENTITY +:+ "'")
            else match verify_p256_signature (public_point k) (canonical_submit_bytes env') s with
                 | Ok _ => Verified
                 | Err e => Failed e
                 end
        end).
Proof. intros. apply (check_issued _ leaf p k ik ca cp ck ck); unfold AuthTests.NOW_SECS; try done; lia. Qed.

(** The rogue CA's leaf verifies under the key of a CA that did not issue it. *)
Definition cross_verifies (trusted rogue : KeyPair) : Prop :=
  exists leaf p k ca cp, issued leaf p k rogue /\ issued ca cp trusted trusted /\ chains leaf ca = true.

(** One signature verifies over two canonical byte strings under one key. *)
Definition reuses_signature (m m' : bytes) : Prop :=
  exists k s, is_ok (verify_p256_signature (public_point k) m s) = true
              /\ is_ok (verify_p256_signature (public_point k) m' s) = true.

Ltac build_ca k := let ca := fresh "ca" in let cp := fresh "cp" in
  destruct (make_test_ca_spec k) as (ca & cp & -> & ? & ?); cbn [mbind option_bind].

Ltac build_leaf uri ca ik k := let leaf := fresh "leaf" in let p := fresh "p" in
  destruct (make_leaf_spec uri ca ik k) as (leaf & p & -> & ? & ? & ? & Hsan); [reflexivity|reflexivity|];
  cbn [mbind option_bind].

Ltac build_auth env pem k := let sg := fresh "sg" in let s := fresh "s" in
  destruct (signed_auth_spec env pem k) as (sg & s & -> & ? & ? & ? & ?); cbn [mbind option_bind].

Lemma happy_path_passes k1 k2 : AuthTests.verified_happy_path k1 k2 = Some true.
Proof.
  unfold AuthTests.verified_happy_path. build_ca k1. build_leaf AuthTests.IDENTITY ca k1 k2.
  build_auth (AuthTests.submit_fixture AuthTests.IDENTITY) (cert_pem leaf) k2. f_equal.
  erewrite check_fixture_spec by done. rewrite bool_decide_true, Hsan by done.
  erewrite chains_issued by done. rewrite String.eqb_refl. cbn [negb]. by destruct (verify_p256_signature _ _ _).
Qed.

Lemma san_mismatch_passes k1 k2 : AuthTests.san_mismatch_rejected k1 k2 = Some true.
Proof.
  unfold AuthTests.san_mismatch_rejected. build_ca k1.
  build_leaf "spiffe://gridtokenx.th/prod/trading-service/api"%string ca k1 k2.
  build_auth (AuthTests.submit_fixture AuthTests.IDENTITY) (cert_pem leaf) k2. f_equal.
  erewrite check_fixture_spec by done. rewrite bool_decide_true, Hsan by done.
  erewrite chains_issued by done. reflexivity.
Qed.

Lemma wrong_ca_passes k1 k2 k3 :
  AuthTests.wrong_ca_rejected k1 k2 k3 = Some true \/ cross_verifies k1 k2.
Proof.
  unfold AuthTests.wrong_ca_rejected. build_ca k1. build_ca k2. build_leaf AuthTests.IDENTITY ca0 k2 k3.
  build_auth (AuthTests.submit_fixture AuthTests.IDENTITY) (cert_pem leaf) k3.
  destruct (chains leaf ca) eqn:E; [right; by exists leaf, p, k3, ca, cp|left]. f_equal.
  erewrite check_fixture_spec by done. by rewrite bool_decide_true, E by done.
Qed.

Lemma expired_passes k1 k2 : AuthTests.expired_cert_rejected k1 k2 = Some true.
Proof.
  unfold AuthTests.expired_cert_rejected. build_ca k1. rewrite ia5_ascii by reflexivity. cbn [unwrap mbind option_bind].
  set (p := set_validity _ _ _). destruct (signed_by_total p k2 ca k1) as [c Hc]. rewrite Hc. cbn [unwrap mbind option_bind].
  assert (Hv : not_before p = 1577836800 /\ not_after p = 1609459200)
    by (unfold p; cbn; by rewrite !date_time_ymd_spec).
  build_auth (AuthTests.submit_fixture AuthTests.IDENTITY) (cert_pem c) k2. f_equal.
  erewrite (check_fixture_spec _ _ _ _ c p) by first [by eapply issued_by | unfold representable; lia | done].
  rewrite bool_decide_false by (unfold within, AuthTests.NOW_SECS; lia). reflexivity.
Qed.

(** Any change of the message after signing: the step the two tampering tests
    share. *)
Lemma tampered_check env' leaf p k ca cp ck sg s :
  issued leaf p k ck -> representable p -> within p AuthTests.NOW_SECS ->
  spiffe_of p = Some AuthTests.IDENTITY -> issued ca cp ck ck -> representable cp ->
  let m := canonical_submit_bytes (AuthTests.submit_fixture AuthTests.IDENTITY) in
  auth_scheme (signer_sign sg m) = ENVELOPE_AUTH_SCHEME_V1 ->
  auth_cert_pem (signer_sign sg m) = cert_pem leaf ->
  b64_decode (auth_signature (signer_sign sg m)) = Ok s ->
  is_ok (verify_p256_signature (public_point k) m s) = true ->
  AuthTests.failed_with "signature verification failed" (AuthTests.check_fixture ca (signer_sign sg m) env') = true
  \/ reuses_signature m (canonical_submit_bytes env').
Proof.
  cbn zeta. intros Hl Rp Hw Hsan Hc Rc H1 H2 H3 H4.
  rewrite (check_fixture_spec sg s _ env' leaf p k ck ca cp ck) by done. rewrite bool_decide_true, Hsan by done.
  rewrite (chains_issued leaf p k ca cp ck ck), String.eqb_refl by done. cbn [negb].
  destruct (verify_p256_signature (public_point k) (canonical_submit_bytes env') s) as [u|e] eqn:E.
  - right. exists k, s. by rewrite E.
  - left. cbn. by eapply verify_refusal.
Qed.

Definition tampered_reply : TxSubmitMessage :=
  let env := AuthTests.submit_fixture AuthTests.IDENTITY in
  mkSubmit (ts_correlation_id env) (ts_idempotency_key env) "chain.tx.result.attacker"
    (ts_serialized_tx env) (ts_key_id env) (ts_skip_preflight env) (ts_retry_count env)
    (ts_service_identity env) (ts_created_at_ms env) (ts_auth env).

Definition tampered_tx : TxSubmitMessage :=
  let env := AuthTests.submit_fixture AuthTests.IDENTITY in
  mkSubmit (ts_correlation_id env) (ts_idempotency_key env) (ts_reply_subject env)
    (byte_of_Z <$> [1; 2; 3; 4]) (ts_key_id env) (ts_skip_preflight env) (ts_retry_count env)
    (ts_service_identity env) (ts_created_at_ms env) (ts_auth env).

Lemma tampered_passes k1 k2 :
  let m := canonical_submit_bytes (AuthTests.submit_fixture AuthTests.IDENTITY) in
  (AuthTests.tampered_canonical_rejected k1 k2 = Some true
   \/ reuses_signature m (canonical_submit_bytes tampered_reply))
  /\ (AuthTests.tampered_tx_bytes_rejected k1 k2 = Some true
      \/ reuses_signature m (canonical_submit_bytes tampered_tx)).
Proof.
  intros m. unfold AuthTests.tampered_canonical_rejected, AuthTests.tampered_tx_bytes_rejected.
  build_ca k1. build_leaf AuthTests.IDENTITY ca k1 k2.
  build_auth (AuthTests.submit_fixture AuthTests.IDENTITY) (cert_pem leaf) k2.
  assert (Ht : forall env', AuthTests.failed_with "signature verification failed"
                 (AuthTests.check_fixture ca (signer_sign sg m) env') = true
               \/ reuses_signature m (canonical_submit_bytes env'))
    by (intros env'; by apply (tampered_check env' leaf p k2 ca cp k1 sg s)).
  split; [destruct (Ht tampered_reply)|destruct (Ht tampered_tx)]; auto; left; by f_equal.
Qed.

Lemma unknown_scheme_passes k1 k2 : AuthTests.unknown_scheme_rejected k1 k2 = Some true.
Proof.
  unfold AuthTests.unknown_scheme_rejected. build_ca k1. build_leaf AuthTests.IDENTITY ca k1 k2.
  build_auth (AuthTests.submit_fixture AuthTests.IDENTITY) (cert_pem leaf) k2. f_equal.
  unfold AuthTests.check_fixture, check_envelope_auth. cbn [auth_scheme]. by rewrite scheme_known.
Qed.

(** The envelope tests hold whatever keys are generated.  For every PKI that
    issues what it is asked for, with every choice of CA, rogue and leaf keys, no
    fixture panics and: the honest envelope is verified; a leaf of another service,
    an expired leaf and an unknown scheme are each refused with the reason the test
    names; a leaf of a rogue CA is refused unless its signature verifies under the
    trusted CA's key, and an envelope whose reply subject or transaction was
    replaced after signing is refused unless one signature verifies over both
    canonical byte strings; the decision and the policy constructor behave as
    tested. *)
Theorem auth_tests_pass k1 k2 k3 :
  let m := canonical_submit_bytes (AuthTests.submit_fixture AuthTests.IDENTITY) in
  AuthTests.verified_happy_path k1 k2 = Some true
  /\ AuthTests.san_mismatch_rejected k1 k2 = Some true
  /\ (AuthTests.wrong_ca_rejected k1 k2 k3 = Some true \/ cross_verifies k1 k2)
  /\ AuthTests.expired_cert_rejected k1 k2 = Some true
  /\ (AuthTests.tampered_canonical_rejected k1 k2 = Some true
      \/ reuses_signature m (canonical_submit_bytes tampered_reply))
  /\ (AuthTests.tampered_tx_bytes_rejected k1 k2 = Some true
      \/ reuses_signature m (canonical_submit_bytes tampered_tx))
  /\ AuthTests.unknown_scheme_rejected k1 k2 = Some true
  /\ AuthTests.unsigned_rejected_when_enforced_accepted_otherwise = true
  /\ AuthTests.policy_new_forces_log_only_without_ca = true.
Proof.
  intros m. destruct (tampered_passes k1 k2) as [T1 T2].
  splits; auto using happy_path_passes, san_mismatch_passes, wrong_ca_passes, expired_passes, unknown_scheme_passes.
Qed.

End signed.

Section middleware.
Context {X : X509} {R : Rcgen} {RL : RcgenLaws} {H : HttpHeaders} {HL : HttpHeadersLaws}.

Lemma cert_with_spiffe_spec uri k :
  forallb (fun b => byte_to_Z b <? 128) (as_bytes uri) = true ->
  exists der, MiddlewareTests.generate_cert_with_spiffe uri k = Some der
    /\ extract_spiffe_id der = if starts_with "spiffe://" uri then Some uri else None.
Proof.
  intros Ha. unfold MiddlewareTests.generate_cert_with_spiffe. rewrite ia5_ascii by done. cbn [unwrap mbind option_bind].
  set (p := push_san _ _). destruct (self_signed_total p k) as [c Hc]. rewrite Hc. cbn.
  exists (cert_der c). split; [done|].
  rewrite (issued_spiffe c p k k) by first [by apply issued_self | apply default_representable].
  unfold spiffe_of, p, push_san, set_is_ca, push_cn. cbn. rewrite (proj1 default_params_spec). cbn [app].
  destruct (starts_with "spiffe://" uri) eqn:E; [by rewrite filter_cons_True|].
  by rewrite filter_cons_False, filter_nil by congruence.
Qed.

Lemma cert_without_san_spec k :
  exists der, MiddlewareTests.generate_cert_without_san k = Some der /\ extract_spiffe_id der = None.
Proof.
  unfold MiddlewareTests.generate_cert_without_san. set (p := set_is_ca _ _).
  destruct (self_signed_total p k) as [c Hc]. rewrite Hc. cbn. exists (cert_der c). split; [done|].
  rewrite (issued_spiffe c p k k) by first [by apply issued_self | apply default_representable].
  unfold spiffe_of, p, set_is_ca, push_cn. cbn. by rewrite (proj1 default_params_spec).
Qed.

(** The tests of middleware.rs, for every PKI and key: the identity of the layer
    is that of the certificate, in both extensions and, where the URI fits a header
    value, in the header; there is none without a SPIFFE certificate. *)
Lemma middleware_tests_pass k hv :
  header_from_str "spiffe://gridtokenx.th/prod/iam-service" = Some hv -> is_Some (header_to_str hv) ->
  is_err (cert_from_der (byte_of_Z <$> [255; 254; 253])) = true -> is_err (cert_from_der []) = true ->
  MiddlewareTests.test_extract_spiffe_id_valid k = Some true
  /\ MiddlewareTests.test_extract_spiffe_id_no_san k = Some true
  /\ MiddlewareTests.test_extract_spiffe_id_non_spiffe_uri k = Some true
  /\ MiddlewareTests.test_extract_spiffe_id_garbage_input = true
  /\ MiddlewareTests.test_extract_spiffe_id_empty_input = true
  /\ MiddlewareTests.test_peer_cert_layer_injects_identity k = Some true
  /\ MiddlewareTests.test_peer_cert_layer_no_certs = true
  /\ MiddlewareTests.test_peer_cert_layer_empty_cert_list = true.
Proof.
  intros Hv [t Ht] Hg He.
  unfold MiddlewareTests.test_extract_spiffe_id_valid, MiddlewareTests.test_extract_spiffe_id_no_san,
    MiddlewareTests.test_extract_spiffe_id_non_spiffe_uri, MiddlewareTests.test_peer_cert_layer_injects_identity.
  destruct (cert_with_spiffe_spec "spiffe://gridtokenx.th/prod/trading-service/matcher" k) as (d1 & -> & E1); [done|].
  destruct (cert_with_spiffe_spec "https://example.com/not-spiffe" k) as (d2 & -> & E2); [done|].
  destruct (cert_with_spiffe_spec "spiffe://gridtokenx.th/prod/iam-service" k) as (d3 & -> & E3); [done|].
  destruct (cert_without_san_spec k) as (d4 & -> & E4). cbn [mbind option_bind].
  rewrite E1, E2, E4. splits; try done.
  - unfold MiddlewareTests.test_extract_spiffe_id_garbage_input, extract_spiffe_id. by destruct (cert_from_der _).
  - unfold MiddlewareTests.test_extract_spiffe_id_empty_input, extract_spiffe_id. by destruct (cert_from_der []).
  - f_equal. unfold layer, peer_cert_call, MiddlewareTests.header_str. cbn. rewrite E3. cbn. rewrite Hv.
    unfold spiffe_header. rewrite lookup_insert_eq, Ht, (header_roundtrip _ _ _ Hv Ht). done.
Qed.

End middleware.

(** ** A concrete PKI

    A certificate is its fields, written to bytes as the bits of their [Countable]
    code; a key is a name, a signature the key and the message. *)

Fixpoint pos_bits (p : positive) : bytes :=
  match p with
  | xH => [x02]
  | xO p => x00 :: pos_bits p
  | xI p => x01 :: pos_bits p
  end.

Fixpoint bits_pos (l : bytes) : option positive :=
  match l with
  | [x02] => Some xH
  | x00 :: l => xO <$> bits_pos l
  | x01 :: l => xI <$> bits_pos l
  | _ => None
  end.

Lemma bits_pos_bits p : bits_pos (pos_bits p) = Some p.
Proof. induction p as [p IH|p IH|]; cbn; [by rewrite IH..|done]. Qed.

(** Parameters, the key, the issuer's key. *)
Definition pki_cert : Type := (list string * bool * list string * Z * Z) * string * string.

Definition pki_issue (p : CertificateParams) (k ik : string) : pki_cert :=
  ((common_names p, params_is_ca p, subject_alt_names p, not_before p, not_after p), k, ik).

Definition pki_x509 : X509 := {|
  Cert := pki_cert;
  Spki := string;
  ASN1Time := Z;
  parse_x509_pem := fun b => Ok b;
  cert_from_der := fun b => match bits_pos b ≫= decode with Some c => Ok c | None => Err "invalid DER" end;
  asn1_from_timestamp := fun t => Some t;
  asn1_now := 0;
  cert_is_valid_at := fun '((_, _, _, a, b), _, _) t => bool_decide (a <= t <= b);
  cert_public_key := fun '(_, k, _) => k;
  cert_verify_signature := fun '(_, _, ik) ca => String.eqb ik ca;
  spki_data := as_bytes;
  cert_extensions := fun '((_, _, sans, _, _), _, _) => [OtherExtension; SubjectAlternativeName (URI <$> sans)]
|}.

Definition pki_rcgen : @Rcgen pki_x509 := {|
  KeyPair := string;
  Certificate := pki_cert;
  default_params := mkParams [] false [] 157766400 67090118400;
  date_time_ymd := fun y m d => 86400 * days_from_civil y m d;
  ia5_string := fun s => if forallb (fun b => byte_to_Z b <? 128) (as_bytes s) then Ok s else Err "not IA5";
  self_signed := fun p k => Ok (pki_issue p k k);
  signed_by := fun p k _ ik => Ok (pki_issue p k ik);
  cert_pem := fun c => String.string_of_list_byte (pos_bits (encode c));
  cert_der := fun c => pos_bits (encode c);
  serialize_pem := fun k => k;
  public_point := as_bytes
|}.

Definition pki_signing : @EnvelopeSigning pki_x509 pki_rcgen := {|
  EnvelopeSigner := string * string;
  signer_from_pem := fun pem k => Ok (pem, k);
  signer_sign := fun sg m => mkEnvelopeAuth "x509-p256-v1" (fst sg) (hex_string (as_bytes (snd sg) ++ m))
|}.

Definition pki_core : BlockchainCore := {|
  role_of := toy_role;
  require_any := @require_any toy_core;
  validate_transaction := @validate_transaction toy_core;
  canonical_submit_bytes := fun m => as_bytes (ts_reply_subject m) ++ ts_serialized_tx m;
  canonical_cancel_bytes := @canonical_cancel_bytes toy_core;
  canonical_mint_bytes := @canonical_mint_bytes toy_core;
  canonical_status_bytes := @canonical_status_bytes toy_core;
  ENVELOPE_AUTH_SCHEME_V1 := "x509-p256-v1";
  verify_p256_signature := fun pk m s =>
    if bool_decide (s = pk ++ m) then Ok tt else Err "signature verification failed";
  energy_kwh_to_base_units := @energy_kwh_to_base_units toy_core;
  build_generation_mint_instructions := @build_generation_mint_instructions toy_core;
  set_compute_unit_limit := @set_compute_unit_limit toy_core;
  message_new := @message_new toy_core;
  new_unsigned := @new_unsigned toy_core
|}.

Lemma pki_issued (c : pki_cert) p k ik : @issued pki_x509 pki_rcgen c p k ik -> c = pki_issue p k ik.
Proof. intros [Hs ->|ca Hs]; by injection Hs as <-. Qed.

Lemma pki_der_roundtrip (c : pki_cert) :
  @cert_from_der pki_x509 (@cert_der pki_x509 pki_rcgen c) = Ok c.
Proof. cbn. rewrite bits_pos_bits. cbn. by rewrite decode_encode. Qed.

Lemma pki_rcgen_laws : @RcgenLaws pki_x509 pki_rcgen.
Proof.
  constructor.
  - done.
  - done.
  - intros s Hs. cbn. by rewrite Hs.
  - intros p k. by eexists.
  - intros p k ca ik. by eexists.
  - intros c. exact (f_equal Ok (String.list_byte_of_string_of_list_byte (pos_bits (encode c)))).
  - intros c p k ik ->%pki_issued _. eexists. split; [apply pki_der_roundtrip|]. cbn.
    splits; [|done|by intros s t _ [= ->]]. unfold uri_names. cbn. rewrite app_nil_r.
    induction (subject_alt_names p) as [|u l IH]; [done|]. cbn. by f_equal.
  - intros s _. by eexists.
  - intros c p k ik ca cp ck x y ->%pki_issued ->%pki_issued Hx Hy.
    rewrite pki_der_roundtrip in Hx, Hy. injection Hx as <-. injection Hy as <-. cbn. apply String.eqb_refl.
Qed.

Lemma pki_signing_laws : @EnvelopeSigningLaws pki_x509 pki_rcgen pki_signing pki_core hex_b64.
Proof.
  constructor.
  - intros pem k. eexists. split; [reflexivity|]. intros m. splits; [done|done|]. cbn.
    eexists. split; [apply (b64_decode_encode (Base64Laws := hex_b64_laws))|]. by rewrite bool_decide_true.
  - intros k m m' s e _. cbn. case_bool_decide; [done|]. by intros [= <-].
  - done.
Qed.

Section examples.
#[local] Existing Instances pki_x509 pki_rcgen pki_signing pki_core hex_b64 toy_headers.
#[local] Existing Instances pki_rcgen_laws pki_signing_laws toy_headers_laws.

Example tampered_tests_run :
  AuthTests.wrong_ca_rejected "ca" "rogue" "leaf" = Some true
  /\ AuthTests.tampered_canonical_rejected "ca" "leaf" = Some true
  /\ AuthTests.tampered_tx_bytes_rejected "ca" "leaf" = Some true.
Proof. vm_compute. splits; reflexivity. Qed.

Example middleware_tests_run : MiddlewareTests.test_peer_cert_layer_injects_identity "key" = Some true.
Proof.
  eapply (middleware_tests_pass (R := pki_rcgen) (H := toy_headers) "key" "spiffe://gridtokenx.th/prod/iam-service"); [done|by eexists|done|done].
Qed.

(** The leaf of a publisher, its CA, and the time of the tests. *)
Definition leaf_params : CertificateParams :=
  mkParams ["leaf"] false ["https://example.com"; AuthTests.IDENTITY] 157766400 67090118400.
Definition ca_params : CertificateParams := mkParams ["test-ca"] true [] 157766400 67090118400.

Lemma signed_envelope_roundtrip_witness :
  check_envelope_auth (Some (cert_der (Rcgen := pki_rcgen) (pki_issue ca_params "ca" "ca")))
    (Some (signer_sign (EnvelopeSigning := pki_signing) (cert_pem (Rcgen := pki_rcgen) (pki_issue leaf_params "leaf" "ca"), "leaf"%string) [x01; x02]))
    AuthTests.IDENTITY [x01; x02] AuthTests.NOW_SECS = Verified.
Proof.
  refine (proj2 (signed_envelope_roundtrip (R := pki_rcgen) (ES := pki_signing) (pki_issue leaf_params "leaf" "ca") leaf_params "leaf"
    (pki_issue ca_params "ca" "ca") ca_params "ca" "ca" _ [x01; x02] AuthTests.IDENTITY AuthTests.NOW_SECS
    _ _ _ _ _ _) _).
  - by eapply (issued_by (H0 := pki_rcgen) _ _ _ _ (pki_issue ca_params "ca" "ca")).
  - by apply issued_self.
  - vm_compute. split; [discriminate|reflexivity].
  - vm_compute. split; [discriminate|reflexivity].
  - vm_compute. split; [discriminate|reflexivity].
  - reflexivity.
  - split; [vm_compute; split; discriminate|reflexivity].
Defined.

Lemma auth_tests_pass_witness : AuthTests.verified_happy_path "ca" "leaf" = Some true.
Proof. exact (proj1 (auth_tests_pass (R := pki_rcgen) (ES := pki_signing) "ca" "leaf" "other")). Defined.

End examples.
