(* ===== verification/Signing.v ===== *)
(** * The signing pipeline (src/api/service.rs, first half)

    [sign_and_submit] is the one path to the Vault key and to the chain; the
    generation mint and the gRPC and NATS submit paths all go through it.  Each
    [.await] of the source is a call of the command tree. *)

From S2P Require Import Prelude RustStd Effects Domain External BridgeOps.
From Stdlib Require String.
Import String.StringSyntax.

Local Open Scope Z_scope.

Inductive ConfirmOutcome : Type :=
| Confirmed (slot : Z)
| Errored
| Pending.

#[export] Instance ConfirmOutcome_eq_dec : EqDecision ConfirmOutcome.
Proof. solve_decision. Defined.

Inductive SignSubmitStage : Type :=
| InvalidFormat (e : string)
| PolicyRejected (reason : string)
| BlockhashRefreshFailed (e : string)
| SimulationRejected (reason : string)
| VaultSigningFailed (e : string)
| KeyNotAuthorized (key_id : string)
| SubmissionFailed (e : string).

(** [impl Display for SignSubmitStage]. *)
Definition stage_display (s : SignSubmitStage) : string :=
  match s with
  | InvalidFormat e => "Invalid transaction format: " +:+ e
  | PolicyRejected reason => "Policy Engine rejection: " +:+ reason
  | BlockhashRefreshFailed e => "Failed to refresh blockhash: " +:+ e
  | SimulationRejected reason => reason
  | VaultSigningFailed e => "Vault Transit signing failed: " +:+ e
  | KeyNotAuthorized key_id => "Key ID not authorized: " +:+ key_id
  | SubmissionFailed e => "Solana RPC submission failed: " +:+ e
  end.

(** An [anyhow::Error]: a typed stage, a message, or a message with a cause. *)
Inductive AnyError : Type :=
| AnyStage (s : SignSubmitStage)
| AnyMsg (s : string)
| AnyContext (ctx : string) (cause : string).

(** [format!("{:#}", e)]. *)
Definition any_display (e : AnyError) : string :=
  match e with
  | AnyStage s => stage_display s
  | AnyMsg s => s
  | AnyContext ctx cause => ctx +:+ ": " +:+ cause
  end.

(** What the service reads from its process: the environment variables, whether
    the [info] level is enabled (its arguments are only evaluated then) and the
    Vault key name. *)
Record Config := mkConfig {
  getenv : string -> option string;
  info_enabled : bool;
  transit_key_name : string
}.

(** The key name [ChainBridgeGrpcService::new] picks. *)
Definition service_new (env : string -> option string) (info : bool) : Config :=
  mkConfig env info (unwrap_or (env "CHAIN_BRIDGE_VAULT_KEY_NAME") "gridtokenx-bridge").

Section service.
Context {J : SerdeJson} {K : SolanaSdk} {C : BlockchainCore}.
Context (cfg : Config).

(** [record_audit]: best effort, a failed append is only logged. *)
Definition record_audit (corr ident act : string) (o : AuditOutcome) : prog bans unit :=
  now <~ call NowMs ;;
  do! call (AuditAppend (audit_entry_new corr ident act o (as_u64 now))) ;;
  Ret tt.

(** [signature_status]. *)
Definition signature_status (signature : string) : prog bans (result (bool * bool * string * Z) AnyError) :=
  match signature_from_str signature with
  | Err e => Ret (Err (AnyMsg ("invalid signature: " +:+ e)))
  | Ok sig =>
      resp <~ call (SigStatuses [sig]) ;;
      Ret (match (resp : result (list (option Value)) string) with
           | Err e => Err (AnyMsg ("get_signature_statuses failed: " +:+ e))
           | Ok (Some status :: _) =>
               Ok (true, value_is_null (value_index status "err"),
                   unwrap_or (value_as_str (value_index status "confirmation_status")) "processed",
                   unwrap_or (value_as_u64 (value_index status "slot")) 0)
           | Ok _ => Ok (false, false, "NotFound", 0)
           end)
  end.

(** One iteration's verdict in [resolve_confirmation_bounded]. *)
Definition poll_verdict (resp : result (list (option Value)) string) : option ConfirmOutcome :=
  match resp with
  | Ok (Some status :: _) =>
      let errored := match value_get status "err" with
                     | Some e => negb (value_is_null e)
                     | None => false
                     end in
      if errored then Some Errored
      else match value_get status "slot" with
           | Some v => match value_as_u64 v with
                       | Some slot => Some (Confirmed slot)
                       | None => None
                       end
           | None => None
           end
  | _ => None
  end.

(** [resolve_confirmation_bounded]. *)
Fixpoint resolve_confirmation_bounded (sig : Signature) (attempts : nat) (delay : Z)
  : prog bans ConfirmOutcome :=
  match attempts with
  | O => Ret Pending
  | S n =>
      resp <~ call (SigStatuses [sig]) ;;
      match poll_verdict resp with
      | Some o => Ret o
      | None =>
          do! call (SleepMs delay) ;;
          resolve_confirmation_bounded sig n delay
      end
  end.

(** [resolve_confirmation]: 24 polls, 250 ms apart. *)
Definition resolve_confirmation (sig : Signature) : prog bans ConfirmOutcome :=
  resolve_confirmation_bounded sig 24 250.

(** ** sign_and_submit *)

(** Step 1: only an all-zero blockhash is replaced, from the cache or, when the
    cache is empty, from the RPC node. *)
Definition fill_blockhash (tx : Transaction) : prog bans (result Transaction SignSubmitStage) :=
  if bool_decide (recent_blockhash (message tx) = hash_default) then
    cached <~ call CacheGet ;;
    match (cached : option (Hash * Z)) with
    | Some (bh, _) => Ret (Ok (with_blockhash bh tx))
    | None =>
        r <~ call LatestBlockhash ;;
        Ret (match (r : result (Hash * Z) string) with
             | Ok (bh, _) => Ok (with_blockhash bh tx)
             | Err e => Err (BlockhashRefreshFailed e)
             end)
    end
  else Ret (Ok tx).

(** Step 1b: the pre-sign simulation. *)
Definition presign (tx : Transaction) (identity corr : string) : prog bans (result unit SignSubmitStage) :=
  if env_flag (getenv cfg) "CHAIN_BRIDGE_PRESIGN_DISABLE" then Ret (Ok tt)
  else
    r <~ call (Simulate tx) ;;
    match (r : result SimResult string) with
    | Ok sim =>
        match sim_err sim with
        | Some err =>
            let reason := "pre-sign simulation failed: Some(" +:+ err +:+ ")" in
            do! record_audit corr identity "sign_and_submit" (Rejected "simulation" reason) ;;
            Ret (Err (SimulationRejected reason))
        | None => Ret (Ok tt)
        end
    | Err _ => Ret (Ok tt)
    end.

(** The [info!] lines that index [account_keys]. *)
Definition log_signers (tx : Transaction) : prog bans unit :=
  let num_required := Z.to_nat (num_required_signatures (header (message tx))) in
  if info_enabled cfg then
    do! index (account_keys (message tx)) 0 ;;
    if (1 <? num_required)%nat then
      for_each (seq 0 num_required) (fun i => do! index (account_keys (message tx)) i ;; Ret tt)
    else Ret tt
  else Ret tt.

(** Step 4: size the signature vector and store the signature at slot 0. *)
Definition attach_signature (sig : Signature) (tx : Transaction) : prog bans Transaction :=
  let num_required := Z.to_nat (num_required_signatures (header (message tx))) in
  let sigs := if (length (signatures tx) <? num_required)%nat
              then vec_resize num_required signature_default (signatures tx)
              else signatures tx in
  match sigs with
  | [] => Panic
  | _ :: rest => Ret (with_signatures (sig :: rest) tx)
  end.

(** The [key_id == "platform_admin"] branch. *)
Definition sign_platform_admin (tx : Transaction) (identity corr : string)
  : prog bans (result Transaction SignSubmitStage) :=
  filled <~ fill_blockhash tx ;;
  match filled with
  | Err e => Ret (Err e)
  | Ok tx =>
      sim <~ presign tx identity corr ;;
      match sim with
      | Err e => Ret (Err e)
      | Ok _ =>
          do! log_signers tx ;;
          r <~ call (VaultSign (transit_key_name cfg) (message_data (message tx))) ;;
          match (r : result Signature string) with
          | Err e => Ret (Err (VaultSigningFailed e))
          | Ok sig =>
              tx <~ attach_signature sig tx ;;
              Ret (Ok tx)
          end
      end
  end.

(** The tail: submit and audit the result. *)
Definition send_and_audit (tx : Transaction) (identity corr : string)
  : prog bans (result (Signature * Z) SignSubmitStage) :=
  r <~ call (SendTx tx) ;;
  match (r : result Signature string) with
  | Err e =>
      do! record_audit corr identity "sign_and_submit" (Rejected "submit" e) ;;
      Ret (Err (SubmissionFailed e))
  | Ok sig =>
      do! record_audit corr identity "sign_and_submit" (Submitted (signature_to_string sig) 0) ;;
      Ret (Ok (sig, 0))
  end.

Definition sign_and_submit (serialized_tx : bytes) (key_id identity corr : string)
  : prog bans (result (Signature * Z) SignSubmitStage) :=
  match deserialize_tx serialized_tx with
  | Err e => Ret (Err (InvalidFormat e))
  | Ok tx =>
      match validate_transaction identity tx with
      | Err reason =>
          do! record_audit corr identity "sign_and_submit" (Rejected "policy" reason) ;;
          Ret (Err (PolicyRejected reason))
      | Ok _ =>
          if String.eqb key_id "platform_admin" then
            signed <~ sign_platform_admin tx identity corr ;;
            match signed with
            | Err e => Ret (Err e)
            | Ok tx => send_and_audit tx identity corr
            end
          else if negb (str_is_empty key_id) then
            do! record_audit corr identity "sign_and_submit"
                  (Rejected "auth" ("Key ID not authorized: " +:+ key_id)) ;;
            Ret (Err (KeyNotAuthorized key_id))
          else send_and_audit tx identity corr
      end
  end.

(** ** The generation mint *)

Definition build_and_submit_generation_mint (recipient_wallet : string) (energy_kwh : Z)
    (meter_id : bytes) (window_start_ms : Z) (identity corr : string)
  : prog bans (result (Signature * Z) AnyError) :=
  match energy_kwh_to_base_units energy_kwh with
  | Err e => Ret (Err (AnyMsg e))
  | Ok amount_atomic =>
  match pubkey_from_str recipient_wallet with
  | Err e => Ret (Err (AnyMsg ("invalid recipient wallet '" +:+ recipient_wallet +:+ "': " +:+ e)))
  | Ok recipient =>
  p <~ call (VaultPubkey (transit_key_name cfg)) ;;
  match (p : result Pubkey string) with
  | Err e => Ret (Err (AnyContext "resolving bridge signer pubkey from Vault" e))
  | Ok payer =>
  match build_generation_mint_instructions payer payer recipient amount_atomic meter_id window_start_ms with
  | Err e => Ret (Err (AnyMsg ("building generation-mint instructions: " +:+ e)))
  | Ok ixs =>
  let ixs := set_compute_unit_limit 400000 :: ixs in
  let transaction := new_unsigned (message_new ixs (Some payer)) in
  match serialize_tx transaction with
  | Err e => Ret (Err (AnyMsg ("serializing mint tx: " +:+ e)))
  | Ok serialized =>
  r <~ sign_and_submit serialized "platform_admin" identity corr ;;
  match r with
  | Err s => Ret (Err (AnyStage s))
  | Ok (sig, _) =>
  c <~ resolve_confirmation sig ;;
  Ret (match c with
       | Confirmed slot => Ok (sig, slot)
       | Errored => Err (AnyMsg ("generation mint " +:+ signature_to_string sig
                                 +:+ " landed with an on-chain error; not confirmed"))
       | Pending => Err (AnyMsg ("generation mint " +:+ signature_to_string sig
                                 +:+ " unconfirmed within window; outbox will retry"))
       end)
  end end end end end end.

End service.
