(* ===== verification/SigningSpec.v ===== *)
(** * The signing pipeline: theorems

    Authorisation of every signature and submission, the order sign-then-send,
    the audit trail, the absence of panics, and the confirmation poll. *)

From S2P Require Import Prelude RustStd Effects Domain External BridgeOps Fixtures Signing.
From Stdlib Require String.
Import String.StringSyntax.

Local Open Scope Z_scope.

Section spec.
Context {J : SerdeJson} {K : SolanaSdk} {C : BlockchainCore}.
Context (cfg : Config).

(** ** Vocabulary *)

(** [tx'] is the request's transaction, with at most an empty blockhash filled. *)
Definition blockhash_filled (tx tx' : Transaction) : Prop :=
  tx' = tx \/ (recent_blockhash (message tx) = hash_default /\ exists bh, tx' = with_blockhash bh tx).

(** The policy engine accepted the request's transaction for the identity. *)
Definition authorised (serialized_tx : bytes) (ident : string) (tx : Transaction) : Prop :=
  deserialize_tx serialized_tx = Ok tx /\ validate_transaction ident tx = Ok tt.

(** What may be signed. *)
Definition may_sign (ser : bytes) (key_id ident key_name : string) (msg : bytes) : Prop :=
  key_name = transit_key_name cfg /\ key_id = "platform_admin" /\
  exists tx tx', authorised ser ident tx /\ blockhash_filled tx tx' /\ msg = message_data (message tx').

(** What may be sent: the caller's transaction as it is, or, for the platform
    key, with its blockhash filled and a signature stored at slot 0. *)
Definition may_send (ser : bytes) (key_id ident : string) (sent : Transaction) : Prop :=
  exists tx, authorised ser ident tx /\
  ((key_id = "" /\ sent = tx) \/
   (key_id = "platform_admin" /\
    exists tx' sig, blockhash_filled tx tx' /\ message sent = message tx'
                    /\ signatures sent = sig :: drop 1 (signatures sent)
                    /\ forall i, (0 < i)%nat -> (i < length (signatures tx))%nat ->
                       signatures sent !! i = signatures tx !! i)).

(** The calls of [sign_and_submit], each under its condition. *)
Definition pipeline_event (ser : bytes) (key_id ident corr : string) (e : event bans) : Prop :=
  match e with
  | Ev (VaultSign k m) _ => may_sign ser key_id ident k m
  | Ev (SendTx tx) _ => may_send ser key_id ident tx
  | Ev (AuditAppend a) _ =>
      identity a = ident /\ correlation_id a = corr /\ action a = "sign_and_submit"
  | Ev (Simulate _) _ | Ev CacheGet _ | Ev LatestBlockhash _ =>
      key_id = "platform_admin" /\ exists tx, authorised ser ident tx
  | Ev NowMs _ => True
  | _ => False
  end.

(** ** The pipeline as a monitor: nothing is signed after a failed simulation,
    only what was signed is sent, and nothing follows a submission. *)

Inductive phase : Type :=
| PIdle
| PStopped (s : SignSubmitStage)
| PSigned (msg : bytes) (sig : Signature)
| PSent (res : result Signature string).

(** The reason a failed simulation is rejected with. *)
Definition sim_reason (err : string) : string := "pre-sign simulation failed: Some(" +:+ err +:+ ")".

Definition pipeline_step (key_id : string) (ph : phase) (e : event bans) : option phase :=
  match e, ph with
  | Ev NowMs _, _ => Some ph
  | Ev (AuditAppend _) _, _ => Some ph
  | Ev CacheGet _, PIdle => Some PIdle
  | Ev LatestBlockhash _, PIdle => Some PIdle
  | Ev (Simulate _) (Ok sim), PIdle =>
      Some (match sim_err sim with
            | Some err => PStopped (SimulationRejected (sim_reason err))
            | None => PIdle
            end)
  | Ev (Simulate _) (Err _), PIdle => Some PIdle
  | Ev (VaultSign _ m) (Ok s), PIdle => Some (PSigned m s)
  | Ev (VaultSign _ _) (Err e), PIdle => Some (PStopped (VaultSigningFailed e))
  | Ev (SendTx _) x, PIdle => if str_is_empty key_id then Some (PSent x) else None
  | Ev (SendTx tx) x, PSigned m s =>
      if bool_decide (message_data (message tx) = m /\ signatures tx !! 0%nat = Some s)
      then Some (PSent x) else None
  | _, _ => None
  end.

(** The phase a run may end in, by its result. *)
Definition pipeline_end (ph : phase) (r : outcome (result (Signature * Z) SignSubmitStage)) : Prop :=
  match r with
  | Done (Ok (sig, slot)) => slot = 0 /\ ph = PSent (Ok sig)
  | Done (Err (SubmissionFailed e)) => ph = PSent (Err e)
  | Done (Err s) => ph = PIdle \/ ph = PStopped s
  | Aborted => ph = PIdle \/ exists m s, ph = PSigned m s
  end.

(** ** Audit *)

(** The outcomes appended to the trail, in order. *)
Definition audited (tr : list (event bans)) : list AuditOutcome :=
  omap (fun e => match e with Ev (AuditAppend a) _ => Some (audit_outcome a) | _ => None end) tr.

(** The entry each result leaves in the trail. *)
Definition audit_of (r : outcome (result (Signature * Z) SignSubmitStage)) : list AuditOutcome :=
  match r with
  | Done (Ok (sig, _)) => [Submitted (signature_to_string sig) 0]
  | Done (Err (PolicyRejected reason)) => [Rejected "policy" reason]
  | Done (Err (SimulationRejected reason)) => [Rejected "simulation" reason]
  | Done (Err (KeyNotAuthorized k)) => [Rejected "auth" ("Key ID not authorized: " +:+ k)]
  | Done (Err (SubmissionFailed e)) => [Rejected "submit" e]
  | Done (Err (InvalidFormat _)) | Done (Err (BlockhashRefreshFailed _))
  | Done (Err (VaultSigningFailed _)) | Aborted => []
  end.

(** ** Panics *)

(** The transactions on which step 2 to 4 of the pipeline panic. *)
Definition panics_on (tx : Transaction) : bool :=
  let n := Z.to_nat (num_required_signatures (header (message tx))) in
  let keys := length (account_keys (message tx)) in
  (info_enabled cfg && ((keys =? 0)%nat || ((1 <? n)%nat && (keys <? n)%nat)))
  || ((n =? 0)%nat && (length (signatures tx) =? 0)%nat).

(** ** Confirmation polling *)

(** The poll answers of a trace. *)
Definition poll_answers (tr : list (event bans)) : list (result (list (option Value)) string) :=
  omap (fun e : event bans =>
          match e with Ev (SigStatuses _) x => Some x | _ => None end) tr.

(** The reference: the first poll that decides. *)
Fixpoint first_verdict (l : list (result (list (option Value)) string)) : option ConfirmOutcome :=
  match l with
  | [] => None
  | r :: l => match poll_verdict r with Some o => Some o | None => first_verdict l end
  end.

Definition is_sleep (e : event bans) : bool :=
  match e with Ev (SleepMs _) _ => true | _ => false end.

(** ** Lemmas *)

Lemma unit_result_ok {E : Type} (r : result unit E) u : r = Ok u -> r = Ok tt.
Proof. by destruct u. Qed.

Lemma str_is_empty_spec s : str_is_empty s = true <-> s = "".
Proof. by destruct s. Qed.

Lemma record_audit_always (P : event bans -> Prop) corr ident act o F :
  (forall x, P (Ev NowMs x)) ->
  (forall ms x, P (Ev (AuditAppend (audit_entry_new corr ident act o (as_u64 ms))) x)) ->
  F (Done tt) -> always P (record_audit corr ident act o) F.
Proof. cbn. auto. Qed.

Lemma fill_blockhash_always (P : event bans -> Prop) tx :
  (forall x, P (Ev CacheGet x)) -> (forall x, P (Ev LatestBlockhash x)) ->
  always P (fill_blockhash tx)
    (fun r => match r with
              | Done (Ok tx') => blockhash_filled tx tx'
              | Done (Err _) => True
              | Aborted => False
              end).
Proof.
  intros HC HL. unfold fill_blockhash. case_bool_decide as Hb; cbn; [|by left].
  intros x. split; [done|]. destruct x as [[bh ?]|]; cbn.
  - right. eauto.
  - intros [[bh ?]|e]; (split; [done|]); [right; eauto|done].
Qed.

Lemma presign_always (P : event bans -> Prop) tx ident corr :
  (forall x, P (Ev (Simulate tx) x)) -> (forall x, P (Ev NowMs x)) ->
  (forall o ms x, P (Ev (AuditAppend (audit_entry_new corr ident "sign_and_submit" o (as_u64 ms))) x)) ->
  always P (presign cfg tx ident corr) (fun r => r <> Aborted).
Proof.
  intros HS HN HA. unfold presign. destruct (env_flag _ _); cbn; [done|].
  intros x. split; [done|]. destruct x as [sim|e]; [|done]. destruct (sim_err sim); cbn; [|done]. auto.
Qed.

Lemma for_each_index {A : Type} (l : list A) (ids : list nat) (P : event bans -> Prop) F :
  F (Done tt) -> F Aborted ->
  always P (for_each ids (fun i => do! index l i ;; Ret tt)) F.
Proof.
  intros H1 H2. induction ids as [|i ids IH]; [done|].
  cbn. unfold index. by destruct (l !! i).
Qed.

Lemma log_signers_always (P : event bans -> Prop) tx F :
  F (Done tt) -> F Aborted -> always P (log_signers cfg tx) F.
Proof.
  intros H1 H2. unfold log_signers. destruct (info_enabled cfg); [|done].
  unfold index at 1. destruct (_ !! 0%nat); [|done]. cbn [bind].
  destruct (1 <? _)%nat; [|done]. by apply for_each_index.
Qed.

Lemma attach_signature_cases sig tx :
  (attach_signature sig tx = Panic /\ signatures tx = []
   /\ Z.to_nat (num_required_signatures (header (message tx))) = 0%nat) \/
  exists rest, attach_signature sig tx = Ret (with_signatures (sig :: rest) tx)
    /\ forall i, (0 < i)%nat -> (i < length (signatures tx))%nat ->
       (sig :: rest) !! i = signatures tx !! i.
Proof.
  unfold attach_signature.
  set (n := Z.to_nat (num_required_signatures (header (message tx)))).
  destruct (length (signatures tx) <? n)%nat eqn:E.
  - apply Nat.ltb_lt in E.
    destruct (vec_resize n signature_default (signatures tx)) as [|s0 rest] eqn:Er.
    { apply (f_equal length) in Er. rewrite length_vec_resize in Er. cbn in Er. lia. }
    right. exists rest. split; [done|]. intros i Hi Hl.
    destruct (lookup_lt_is_Some_2 _ _ Hl) as [s Hs].
    rewrite Hs. destruct i as [|i]; [lia|].
    change ((sig :: rest) !! S i) with ((s0 :: rest) !! S i). rewrite <- Er.
    apply vec_resize_lookup; [done|lia].
  - apply Nat.ltb_ge in E. destruct (signatures tx) as [|s0 rest] eqn:Es.
    + left. cbn in E. splits; [done|done|lia].
    + right. exists rest. split; [done|]. intros [|i]; [lia|done].
Qed.

Lemma sign_platform_admin_always (P : event bans -> Prop) tx ident corr :
  (forall x, P (Ev CacheGet x)) -> (forall x, P (Ev LatestBlockhash x)) ->
  (forall tx' x, P (Ev (Simulate tx') x)) -> (forall x, P (Ev NowMs x)) ->
  (forall o ms x, P (Ev (AuditAppend (audit_entry_new corr ident "sign_and_submit" o (as_u64 ms))) x)) ->
  (forall tx' x, blockhash_filled tx tx' ->
     P (Ev (VaultSign (transit_key_name cfg) (message_data (message tx'))) x)) ->
  always P (sign_platform_admin cfg tx ident corr)
    (fun r => match r with
              | Done (Ok sent) =>
                  exists tx' sig, blockhash_filled tx tx' /\ message sent = message tx'
                    /\ signatures sent = sig :: drop 1 (signatures sent)
                    /\ forall i, (0 < i)%nat -> (i < length (signatures tx))%nat ->
                       signatures sent !! i = signatures tx !! i
              | _ => True
              end).
Proof.
  intros HC HL HS HN HA HV. unfold sign_platform_admin.
  eapply always_bind; [by apply fill_blockhash_always| |done].
  intros [tx'|e] Hf; cbn beta iota; [|done].
  eapply always_bind; [by apply presign_always| |done].
  intros [[]|e] _; cbn beta iota; [|done].
  eapply always_bind; [by apply (log_signers_always _ _ (fun _ => True))| |done].
  intros _ _. cbn [bind call always]. intros x. split; [by apply HV|].
  destruct x as [sig|e]; [|done].
  assert (Hs : signatures tx' = signatures tx).
  { destruct Hf as [->|(_ & bh & ->)]; done. }
  destruct (attach_signature_cases sig tx') as [(-> & _ & _)|(rest & -> & Hr)]; [done|].
  cbn. exists tx', sig. rewrite <- Hs. splits; [done|done|done|done].
Qed.

Lemma sign_and_submit_always ser key_id ident corr :
  always (pipeline_event ser key_id ident corr) (sign_and_submit cfg ser key_id ident corr)
    (fun _ => True).
Proof.
  unfold sign_and_submit.
  destruct (deserialize_tx ser) as [tx|e] eqn:Hd; [|done].
  destruct (validate_transaction ident tx) as [u|reason] eqn:Hv.
  2:{ eapply always_bind; [apply (record_audit_always _ _ _ _ _ (fun _ => True)); cbn; auto|done|done]. }
  apply unit_result_ok in Hv.
  assert (Hau : authorised ser ident tx) by done.
  assert (Hsend : forall sent, may_send ser key_id ident sent ->
    always (pipeline_event ser key_id ident corr) (send_and_audit sent ident corr) (fun _ => True)).
  { intros sent Hm. cbn. intros x. split; [done|]. destruct x; cbn; auto 8. }
  destruct (String.eqb key_id "platform_admin") eqn:Hk.
  - apply String.eqb_eq in Hk. eapply always_bind; [apply sign_platform_admin_always| |done].
    all: try (intros; cbn; eauto; fail).
    + intros tx' x Hf. cbn. split; [done|]. split; [done|]. eauto.
    + intros [sent|e] Hs; [|done]. apply Hsend. exists tx. split; [done|]. right. by split.
  - destruct (str_is_empty key_id) eqn:He; cbn [negb].
    + apply Hsend. exists tx. split; [done|]. left. by apply str_is_empty_spec in He.
    + eapply always_bind; [apply (record_audit_always _ _ _ _ _ (fun _ => True)); cbn; auto|done|done].
Qed.

(** ** The monitor *)

Lemma record_audit_obeys key_id ph corr ident act o F :
  F ph (Done tt) -> obeys (pipeline_step key_id) ph (record_audit corr ident act o) F.
Proof. by cbn. Qed.

Lemma fill_blockhash_obeys key_id tx :
  obeys (pipeline_step key_id) PIdle (fill_blockhash tx)
    (fun ph r => ph = PIdle /\ match r with
                               | Done (Err s) => exists e, s = BlockhashRefreshFailed e
                               | Done (Ok _) => True
                               | Aborted => False
                               end).
Proof.
  unfold fill_blockhash. case_bool_decide; cbn; [|done].
  intros [[bh ?]|]; cbn; [done|]. intros [[bh ?]|e]; cbn; eauto.
Qed.

Lemma presign_obeys key_id tx ident corr :
  obeys (pipeline_step key_id) PIdle (presign cfg tx ident corr)
    (fun ph r => match r with
                 | Done (Ok _) => ph = PIdle
                 | Done (Err s) => ph = PStopped s /\ exists e, s = SimulationRejected e
                 | Aborted => False
                 end).
Proof.
  unfold presign. destruct (env_flag _ _); cbn; [done|].
  intros [sim|e]; cbn; [|done]. destruct (sim_err sim) eqn:E; cbn; eauto.
Qed.

Lemma log_signers_obeys key_id ph tx :
  obeys (pipeline_step key_id) ph (log_signers cfg tx) (fun ph' _ => ph' = ph).
Proof.
  unfold log_signers. destruct (info_enabled cfg); [|done].
  unfold index at 1. destruct (_ !! 0%nat); [|done]. cbn [bind].
  destruct (1 <? _)%nat; [|done].
  generalize (seq 0 (Z.to_nat (num_required_signatures (header (message tx))))).
  intros l. induction l as [|i l IH]; [done|]. cbn. unfold index. by destruct (_ !! i).
Qed.

Lemma sign_platform_admin_obeys key_id tx ident corr :
  obeys (pipeline_step key_id) PIdle (sign_platform_admin cfg tx ident corr)
    (fun ph r => match r with
                 | Done (Ok sent) => exists s, ph = PSigned (message_data (message sent)) s
                                               /\ signatures sent !! 0%nat = Some s
                 | Done (Err e) => (ph = PIdle \/ ph = PStopped e)
                                   /\ forall x, e <> SubmissionFailed x
                 | Aborted => ph = PIdle \/ exists m s, ph = PSigned m s
                 end).
Proof.
  unfold sign_platform_admin.
  eapply obeys_bind; [apply fill_blockhash_obeys| |naive_solver].
  intros ph [tx'|e] [-> He]; cbn beta iota; [|naive_solver].
  eapply obeys_bind; [apply presign_obeys| |done].
  intros ph [[]|e]; cbn beta iota; [intros ->|intros [-> (? & ->)]; naive_solver].
  eapply obeys_bind; [apply log_signers_obeys| |].
  2:{ intros ph ->. by left. }
  intros ph [] ->. cbn. intros [sig|e]; cbn; [|naive_solver].
  destruct (attach_signature_cases sig tx') as [(-> & _ & _)|(rest & -> & _)]; cbn; eauto.
Qed.

Lemma sign_and_submit_obeys ser key_id ident corr :
  obeys (pipeline_step key_id) PIdle (sign_and_submit cfg ser key_id ident corr) pipeline_end.
Proof.
  assert (Haudit : forall ph o s, (ph = PIdle \/ ph = PStopped s) -> (forall e, s <> SubmissionFailed e) ->
    obeys (pipeline_step key_id) ph
      (do! record_audit corr ident "sign_and_submit" o ;;
       Ret (Err s : result (Signature * Z) SignSubmitStage)) pipeline_end).
  { intros ph o s Hp Hs. cbn. intros _ _. destruct s; cbn; try done. by destruct (Hs e). }
  unfold sign_and_submit.
  destruct (deserialize_tx ser) as [tx|e]; [|by left].
  destruct (validate_transaction ident tx) as [u|reason]; [|apply Haudit; [by left|done]].
  destruct (String.eqb key_id "platform_admin") eqn:Hk.
  - eapply obeys_bind; [apply sign_platform_admin_obeys| |naive_solver].
    intros ph [sent|e]; cbn beta iota.
    + intros (s & -> & Hs). cbn. intros x. rewrite bool_decide_true by done.
      by destruct x.
    + intros [Hp He]. destruct e; cbn; try done. by destruct (He e).
  - destruct (str_is_empty key_id) eqn:He; cbn [negb].
    + cbn. intros x. rewrite He. by destruct x.
    + apply Haudit; [by left|done].
Qed.

(** A monitored submission was preceded by the Vault's signature on it. *)
Lemma pipeline_signed key_id t1 m s :
  monitor (pipeline_step key_id) PIdle t1 = Some (PSigned m s) ->
  exists k, Ev (VaultSign k m) (Ok s) ∈ t1.
Proof.
  induction t1 as [|e t1 IH] using rev_ind; [done|].
  rewrite monitor_app. destruct (monitor _ PIdle t1) as [ph|]; [|done]. cbn.
  destruct (pipeline_step key_id ph e) as [ph'|] eqn:Hs; [|done]. intros [= ->].
  destruct e as [o x].
  destruct o; cbn in Hs; destruct ph; try done; simplify_eq.
  all: try (destruct (IH eq_refl) as [k Hk]; exists k; apply elem_of_app; by left).
  all: try (destruct x; simplify_eq; repeat split_match; simplify_eq).
  eexists. apply elem_of_app. right. by apply list_elem_of_singleton.
Qed.

(** ** Audit trail of a run *)

Definition audit_step (l : list AuditOutcome) (e : event bans) : option (list AuditOutcome) :=
  Some (match e with Ev (AuditAppend a) _ => l ++ [audit_outcome a] | _ => l end).

Lemma monitor_audit l tr : monitor audit_step l tr = Some (l ++ audited tr).
Proof.
  revert l. induction tr as [|[o x] tr IH]; intros l; cbn; [by rewrite app_nil_r|].
  rewrite IH. destruct o; cbn; try done. by rewrite <- app_assoc.
Qed.

Lemma pure_obeys_audit {A : Type} (p : prog bans A) l F :
  (forall r, F l r) -> (forall tr r, runs p tr r -> tr = []) -> obeys audit_step l p F.
Proof.
  intros HF. destruct p as [a| |o k]; cbn; [auto|auto|].
  intros H x.
  assert (Hrun : exists tr r, runs (k x) tr r).
  { destruct (run (fun o s => (quiet_answer o, s)) (k x) tt) as [[tr r] u] eqn:E.
    exists tr, r. by eapply run_runs. }
  destruct Hrun as (tr & r & Hr). specialize (H (Ev o x :: tr) r). cbn in H. naive_solver.
Qed.

Lemma log_signers_pure tx tr r : runs (log_signers cfg tx) tr r -> tr = [].
Proof.
  intros Hr.
  destruct (always_runs (fun _ => False) (log_signers cfg tx) (fun _ => True) tr r) as [HF _];
    [by apply log_signers_always|done|].
  by destruct tr as [|e tr]; [|inversion HF].
Qed.

Lemma sign_platform_admin_audit tx ident corr :
  obeys audit_step [] (sign_platform_admin cfg tx ident corr)
    (fun l r => match r with
                | Done (Ok _) | Aborted => l = []
                | Done (Err e) => l = audit_of (Done (Err e))
                end).
Proof.
  unfold sign_platform_admin.
  eapply (obeys_bind _ _ _ _ (fun l r => l = [] /\ match r with
     | Done (Err e) => exists x, e = BlockhashRefreshFailed x | _ => True end)).
  { unfold fill_blockhash. case_bool_decide; cbn; [|done].
    intros [[bh ?]|]; cbn; [done|]. intros [[bh ?]|e]; cbn; eauto. }
  2: naive_solver.
  intros l [tx'|e] [-> He]; cbn beta iota; [|by destruct He as [x ->]].
  eapply (obeys_bind _ _ _ _ (fun l r => match r with
     | Done (Ok _) | Aborted => l = [] | Done (Err e) => l = audit_of (Done (Err e)) end)).
  { unfold presign. destruct (env_flag _ _); cbn; [done|].
    intros [sim|e]; cbn; [|done]. destruct (sim_err sim); cbn; done. }
  2: naive_solver.
  intros l [[]|e]; cbn beta iota; [intros ->|done].
  eapply (obeys_bind _ _ _ _ (fun l _ => l = [])).
  { apply pure_obeys_audit; [done|]. apply log_signers_pure. }
  2: naive_solver.
  intros l [] ->. cbn. intros [sig|e]; cbn; [|done].
  destruct (attach_signature_cases sig tx') as [(-> & _ & _)|(rest & -> & _)]; done.
Qed.

Lemma sign_and_submit_audit ser key_id ident corr :
  obeys audit_step [] (sign_and_submit cfg ser key_id ident corr) (fun l r => l = audit_of r).
Proof.
  unfold sign_and_submit.
  destruct (deserialize_tx ser) as [tx|e]; [|done].
  destruct (validate_transaction ident tx) as [u|reason]; [|by cbn].
  destruct (String.eqb key_id "platform_admin") eqn:Hk.
  - eapply obeys_bind; [apply sign_platform_admin_audit| |done].
    intros l [sent|e]; cbn beta iota; [|done].
    intros ->. cbn. intros [s|e]; cbn; done.
  - destruct (str_is_empty key_id) eqn:He; cbn [negb].
    + cbn. intros [s|e]; cbn; done.
    + by cbn.
Qed.

(** ** Panics *)

Lemma for_each_index_eq {A : Type} (l : list A) a n :
  for_each (Ans := bans) (seq a n) (fun i => do! index l i ;; Ret tt) =
  if ((n =? 0) || (a + n <=? length l))%nat then Ret tt else Panic.
Proof.
  revert a. induction n as [|n IH]; intros a; [done|]. cbn [seq for_each].
  unfold index at 1. destruct (l !! a) as [x|] eqn:Ha; cbn [bind].
  - rewrite IH. apply lookup_lt_Some in Ha.
    assert (((n =? 0) || (S a + n <=? length l) = (S n =? 0) || (a + S n <=? length l))%nat) as ->; [|done].
    apply eq_true_iff_eq. rewrite !orb_true_iff, !Nat.eqb_eq, !Nat.leb_le. lia.
  - apply lookup_ge_None in Ha. destruct (a + S n <=? length l)%nat eqn:E; [|done].
    apply Nat.leb_le in E. lia.
Qed.

Definition log_panics (tx : Transaction) : bool :=
  let n := Z.to_nat (num_required_signatures (header (message tx))) in
  let keys := length (account_keys (message tx)) in
  info_enabled cfg && ((keys =? 0)%nat || ((1 <? n)%nat && (keys <? n)%nat)).

Lemma log_signers_eq tx : log_signers cfg tx = if log_panics tx then Panic else Ret tt.
Proof.
  unfold log_signers, log_panics. destruct (info_enabled cfg); [|done]. cbn [andb].
  unfold index at 1. destruct (account_keys (message tx)) as [|k ks]; [done|].
  cbn [lookup list_lookup bind length Nat.eqb orb].
  destruct (1 <? _)%nat eqn:E1; [|done]. cbn [andb]. rewrite for_each_index_eq.
  cbn [length Nat.add].
  set (n := Z.to_nat (num_required_signatures (header (message tx)))) in *.
  destruct (n =? 0)%nat eqn:E2, (n <=? S (length ks))%nat eqn:E3, (S (length ks) <? n)%nat eqn:E4;
    try done; exfalso; rewrite ?Nat.eqb_eq, ?Nat.leb_le, ?Nat.leb_gt, ?Nat.ltb_lt, ?Nat.ltb_ge in *; lia.
Qed.

Lemma panics_on_split tx :
  panics_on tx = log_panics tx ||
    ((Z.to_nat (num_required_signatures (header (message tx))) =? 0)%nat
     && (length (signatures tx) =? 0)%nat).
Proof. done. Qed.

Lemma panics_on_filled tx tx' :
  blockhash_filled tx tx' -> panics_on tx' = panics_on tx /\ log_panics tx' = log_panics tx.
Proof. by intros [->|(_ & bh & ->)]. Qed.

Lemma sign_platform_admin_panics tx ident corr :
  always (fun _ => True) (sign_platform_admin cfg tx ident corr)
    (fun r => r = Aborted -> panics_on tx = true).
Proof.
  unfold sign_platform_admin.
  eapply always_bind; [by apply fill_blockhash_always| |done].
  intros [tx'|e] Hf; cbn beta iota; [|done].
  destruct (panics_on_filled tx tx' Hf) as [<- _].
  eapply always_bind; [by apply presign_always| |by intros []].
  intros [[]|e] _; cbn beta iota; [|done].
  rewrite log_signers_eq, panics_on_split. destruct (log_panics tx'); cbn [bind orb]; [done|].
  cbn. intros x. split; [done|]. destruct x as [sig|e]; [|done].
  destruct (attach_signature_cases sig tx') as [(-> & Hs & Hn)|(rest & -> & _)]; cbn; [|done].
  by rewrite Hs, Hn.
Qed.

Lemma attach_signature_panics sig tx :
  (Z.to_nat (num_required_signatures (header (message tx))) =? 0)%nat
  && (length (signatures tx) =? 0)%nat = true ->
  attach_signature sig tx = Panic.
Proof.
  intros [Hn%Nat.eqb_eq Hl%Nat.eqb_eq]%andb_true_iff. unfold attach_signature.
  rewrite Hn, Hl. cbn. by apply length_zero_iff_nil in Hl as ->.
Qed.

Lemma sign_platform_admin_aborts tx ident corr :
  panics_on tx = true ->
  exists tr, runs (sign_platform_admin cfg tx ident corr) tr Aborted.
Proof.
  intros Hp. set (h := fun o (s : unit) => (quiet_answer o, s)).
  assert (Hf : exists tr tx', runs (fill_blockhash tx) tr (Done (Ok tx')) /\ blockhash_filled tx tx').
  { unfold fill_blockhash. case_bool_decide as Hb.
    - exists [Ev CacheGet (Some (hash_default, 0))], (with_blockhash hash_default tx).
      split; [|right; eauto]. cbn. eexists (Some _), []. by cbn.
    - exists [], tx. split; [done|by left]. }
  destruct Hf as (t1 & tx' & Hr & Hf). destruct (panics_on_filled tx tx' Hf) as [Hq _].
  assert (Hs : exists tr, runs (presign cfg tx' ident corr) tr (Done (Ok tt))).
  { unfold presign. destruct (env_flag _ _); [by exists []|].
    exists [Ev (Simulate tx') (Err "")]. cbn. eexists (Err _), []. by cbn. }
  destruct Hs as (t2 & Hs).
  assert (Ht : exists tr, runs (do! log_signers cfg tx' ;;
     r <~ call (VaultSign (transit_key_name cfg) (message_data (message tx'))) ;;
     match (r : result Signature string) with
     | Err e => Ret (Err (VaultSigningFailed e))
     | Ok sig => tx <~ attach_signature sig tx' ;; Ret (Ok tx)
     end) tr Aborted).
  { rewrite log_signers_eq. rewrite <- Hq, panics_on_split in Hp.
    destruct (log_panics tx'); cbn [bind]; [by exists []|]. cbn [orb] in Hp.
    exists [Ev (VaultSign (transit_key_name cfg) (message_data (message tx'))) (Ok signature_default)].
    cbn. exists (Ok signature_default), []. split; [done|].
    by rewrite attach_signature_panics. }
  destruct Ht as (t3 & Ht).
  exists (t1 ++ t2 ++ t3). unfold sign_platform_admin. apply runs_bind. left.
  exists (Ok tx'), t1, (t2 ++ t3). splits; [done|done|]. apply runs_bind. left.
  exists (Ok tt), t2, t3. done.
Qed.

(** ** Confirmation *)

Lemma poll_answers_poll sigs x tr :
  poll_answers (Ev (SigStatuses sigs) x :: tr) = x :: poll_answers tr.
Proof. done. Qed.

Lemma poll_answers_sleep d x tr : poll_answers (Ev (SleepMs d) x :: tr) = poll_answers tr.
Proof. done. Qed.

Lemma resolve_confirmation_trace sig n d tr r :
  runs (resolve_confirmation_bounded sig n d) tr r ->
  r = Done (unwrap_or (first_verdict (poll_answers tr)) Pending)
  /\ (length (poll_answers tr) <= n)%nat
  /\ (first_verdict (poll_answers tr) = None ->
        length (poll_answers tr) = n /\ count_ev is_sleep tr = n)
  /\ (is_Some (first_verdict (poll_answers tr)) ->
        S (count_ev is_sleep tr) = length (poll_answers tr)).
Proof.
  revert tr. induction n as [|n IH]; intros tr.
  - cbn. intros [-> ->]. cbn. splits; [done|lia|done|by intros [? ?]].
  - cbn [resolve_confirmation_bounded call bind runs]. intros (x & t & -> & Hr).
    rewrite poll_answers_poll. cbn [first_verdict length count_ev is_sleep Nat.add].
    destruct (poll_verdict x) as [o|] eqn:Hv.
    + destruct Hr as [-> ->]. cbn. splits; [done|lia|done|done].
    + destruct Hr as ([] & t' & -> & Hr). rewrite poll_answers_sleep. cbn [count_ev is_sleep].
      destruct (IH t' Hr) as (H1 & H2 & H3 & H4). splits; [done|lia| |].
      * intros Hn. destruct (H3 Hn). lia.
      * intros Hn. specialize (H4 Hn). lia.
Qed.


(** ** The claims *)

(** C2: every call [sign_and_submit] makes is authorised.  The Vault is only
    asked to sign with the bridge's own key, only when the caller named
    [platform_admin], and only the message of the transaction that was decoded
    from the request and accepted by the policy engine for this identity, with at
    most an empty blockhash filled in; what is submitted is that transaction (for
    an empty key id, unchanged; for [platform_admin], with the caller's other
    signatures kept); every audit entry carries the caller's identity and
    correlation id. *)
Theorem sign_and_submit_authorised ser key_id ident corr tr r :
  runs (sign_and_submit cfg ser key_id ident corr) tr r ->
  Forall (pipeline_event ser key_id ident corr) tr.
Proof.
  intros Hr. by apply (always_runs _ _ _ _ _ (sign_and_submit_always ser key_id ident corr)) in Hr as [? _].
Qed.

Definition is_send (e : event bans) : bool :=
  match e with Ev (SendTx _) _ => true | _ => false end.

(** After a submission or a refused stage only the audit is written. *)
Definition settled (ph : phase) : Prop :=
  match ph with PStopped _ | PSent _ => True | _ => False end.

Definition audit_only (e : event bans) : Prop :=
  match e with Ev NowMs _ | Ev (AuditAppend _) _ => True | _ => False end.

Lemma settled_audit_only key_id ph tr ph' :
  settled ph -> monitor (pipeline_step key_id) ph tr = Some ph' -> Forall audit_only tr /\ ph' = ph.
Proof.
  intros Hs. induction tr as [|[o x] tr IH]; cbn [monitor]; [intros [= <-]; by split|].
  destruct (pipeline_step key_id ph (Ev o x)) as [ph1|] eqn:E; [|done].
  assert (ph1 = ph /\ audit_only (Ev o x)) as [-> Ha].
  { destruct o, ph; try destruct x; cbn in E |- *; simplify_eq; done. }
  intros [? ->]%IH. auto.
Qed.

Lemma sent_after_signature ser ident corr tr r t1 tx x t2 :
  runs (sign_and_submit cfg ser "platform_admin" ident corr) tr r ->
  tr = t1 ++ Ev (SendTx tx) x :: t2 ->
  (exists k s, Ev (VaultSign k (message_data (message tx))) (Ok s) ∈ t1
               /\ signatures tx !! 0%nat = Some s)
  /\ Forall audit_only t2.
Proof.
  intros Hr ->.
  destruct (obeys_runs _ _ _ _ _ _ (sign_and_submit_obeys _ _ _ _) Hr) as (ph & Hm & _).
  rewrite monitor_app in Hm. destruct (monitor _ PIdle t1) as [p1|] eqn:E1; [|done].
  cbn [monitor] in Hm. destruct p1 as [| |m s|]; cbn in Hm; try done.
  case_bool_decide as Hb; [|done]. destruct Hb as [<- Hsig].
  apply pipeline_signed in E1 as [k Hk]. split; [eauto|].
  by eapply settled_audit_only in Hm as [? _].
Qed.

(** C5: sign, then send once, then stop.  Under [platform_admin] every
    submission is preceded in the same run by a successful Vault signature on
    exactly the submitted message, which sits in signature slot 0; and after a
    submission nothing but its audit entry follows, so a run submits at most
    once. *)
Theorem send_after_sign ser ident corr tr r t1 tx x t2 :
  runs (sign_and_submit cfg ser "platform_admin" ident corr) tr r ->
  tr = t1 ++ Ev (SendTx tx) x :: t2 ->
  (exists k s, Ev (VaultSign k (message_data (message tx))) (Ok s) ∈ t1
               /\ signatures tx !! 0%nat = Some s)
  /\ Forall audit_only t2.
Proof. apply sent_after_signature. Qed.

Lemma run_audited ser key_id ident corr tr r :
  runs (sign_and_submit cfg ser key_id ident corr) tr r -> audited tr = audit_of r.
Proof.
  intros Hr.
  destruct (obeys_runs _ _ _ _ _ _ (sign_and_submit_audit ser key_id ident corr) Hr) as (l & Hm & ->).
  rewrite monitor_audit in Hm. by simplify_eq.
Qed.

(** C16: a transaction the simulator rejects is never signed or sent: the run
    ends there with the simulator's error as its reason, nothing but the audit
    append follows the simulation, and the one audit entry of the run is that
    rejection. *)
Theorem simulation_gate ser key_id ident corr tr r t1 tx sim err t2 :
  runs (sign_and_submit cfg ser key_id ident corr) tr r ->
  tr = t1 ++ Ev (Simulate tx) (Ok sim) :: t2 -> sim_err sim = Some err ->
  Forall audit_only t2
  /\ r = Done (Err (SimulationRejected (sim_reason err)))
  /\ audited tr = [Rejected "simulation" (sim_reason err)].
Proof.
  intros Hr -> He. pose proof (run_audited _ _ _ _ _ _ Hr) as Hau.
  destruct (obeys_runs _ _ _ _ _ _ (sign_and_submit_obeys _ _ _ _) Hr) as (ph & Hm & Hend).
  rewrite monitor_app in Hm. destruct (monitor _ PIdle t1) as [p1|] eqn:E1; [|done].
  cbn [monitor] in Hm. destruct p1; cbn in Hm; try done. rewrite He in Hm.
  eapply settled_audit_only in Hm as [Ha ->]; [|done]. split; [done|].
  assert (r = Done (Err (SimulationRejected (sim_reason err)))) as ->; [|done].
  destruct r as [[[sg sl]|[]]|]; cbn in Hend; naive_solver.
Qed.

(** C15: the audit trail of a run is determined by its result: one entry for a
    submission (accepted or refused by the node), a policy, simulation or key
    rejection, and none for the stages that fail before a decision. *)
Theorem audit_trail_complete ser key_id ident corr tr r :
  runs (sign_and_submit cfg ser key_id ident corr) tr r -> audited tr = audit_of r.
Proof. apply run_audited. Qed.

Lemma sign_and_submit_abort_cause ser key_id ident corr :
  always (fun _ => True) (sign_and_submit cfg ser key_id ident corr)
    (fun r => r = Aborted ->
       key_id = "platform_admin" /\ exists tx, authorised ser ident tx /\ panics_on tx = true).
Proof.
  unfold sign_and_submit. destruct (deserialize_tx ser) as [tx|e] eqn:Hd; [|done].
  destruct (validate_transaction ident tx) as [u|reason] eqn:Hv; [|done]. apply unit_result_ok in Hv.
  assert (Hsend : forall tx' F, (forall r, r <> Aborted -> F r) ->
    always (fun _ => True) (send_and_audit tx' ident corr) F).
  { intros tx' F HF. cbn. intros x. split; [done|]. destruct x; cbn; intros _; (split; [done|]); intros _;
      (split; [done|]); by apply HF. }
  destruct (String.eqb key_id "platform_admin") eqn:Hk.
  - apply String.eqb_eq in Hk. eapply always_bind; [apply sign_platform_admin_panics| |].
    + intros [tx'|e] _; [by apply Hsend|done].
    + intros Hp _. split; [done|]. exists tx. split; [done|auto].
  - destruct (str_is_empty key_id); [by apply Hsend|done].
Qed.

(** C32: exactly when the pipeline panics: some environment aborts the run iff
    the caller used [platform_admin], the policy engine accepted the transaction,
    and the transaction has no signature slot at all, or (with [info] logging on)
    no account key or fewer keys than required signatures. *)
Theorem sign_and_submit_panics_iff ser key_id ident corr :
  (exists tr, runs (sign_and_submit cfg ser key_id ident corr) tr Aborted) <->
  key_id = "platform_admin" /\ exists tx, authorised ser ident tx /\ panics_on tx = true.
Proof.
  split.
  - intros [tr Hr]. by apply (always_runs _ _ _ _ _ (sign_and_submit_abort_cause ser key_id ident corr) Hr).
  - intros [-> (tx & [Hd Hv] & Hp)].
    destruct (sign_platform_admin_aborts tx ident corr Hp) as [tr Hr]. exists tr.
    unfold sign_and_submit. rewrite Hd, Hv. cbn [String.eqb Ascii.eqb Bool.eqb].
    apply runs_bind. by right.
Qed.

(** The confirmation poll is bounded and returns the first decisive answer:
    at most [attempts] status queries, a fixed delay after each undecided one,
    [Pending] only after all of them stayed undecided; it never panics. *)
Theorem confirmation_poll_spec sig attempts delay tr r :
  runs (resolve_confirmation_bounded sig attempts delay) tr r ->
  r = Done (unwrap_or (first_verdict (poll_answers tr)) Pending)
  /\ (length (poll_answers tr) <= attempts)%nat
  /\ (first_verdict (poll_answers tr) = None ->
        length (poll_answers tr) = attempts /\ count_ev is_sleep tr = attempts)
  /\ (is_Some (first_verdict (poll_answers tr)) ->
        S (count_ev is_sleep tr) = length (poll_answers tr)).
Proof. apply resolve_confirmation_trace. Qed.

Lemma first_verdict_in l o : first_verdict l = Some o -> exists x, x ∈ l /\ poll_verdict x = Some o.
Proof.
  induction l as [|x l IH]; cbn; [done|]. destruct (poll_verdict x) eqn:E.
  - intros [= ->]. exists x. split; [by left|done].
  - intros (y & ? & ?)%IH. exists y. split; [by right|done].
Qed.

Lemma poll_answers_in tr x :
  x ∈ poll_answers tr -> exists sigs, Ev (SigStatuses sigs) x ∈ tr.
Proof.
  unfold poll_answers. intros ([o y] & Hin & Hy)%list_elem_of_omap.
  destruct o; simplify_eq. eauto.
Qed.

(** Every poll asks for the one signature. *)
Lemma poll_queries sig attempts delay :
  always (fun e => match e with Ev (SigStatuses l) _ => l = [sig] | _ => True end)
    (resolve_confirmation_bounded sig attempts delay) (fun _ => True).
Proof.
  induction attempts as [|n IH]; cbn; [done|]. intros x. split; [done|].
  destruct (poll_verdict x); cbn; [done|]. by split.
Qed.

(** The submission inside a successful run. *)
Lemma sign_and_submit_ok_sent ser key_id ident corr tr sig slot :
  runs (sign_and_submit cfg ser key_id ident corr) tr (Done (Ok (sig, slot))) ->
  slot = 0 /\ exists tx, Ev (SendTx tx) (Ok sig) ∈ tr.
Proof.
  intros Hr.
  destruct (obeys_runs _ _ _ _ _ _ (sign_and_submit_obeys _ _ _ _) Hr) as (ph & Hm & -> & ->).
  split; [done|]. clear Hr.
  induction tr as [|e tr IH] using rev_ind; [done|].
  rewrite monitor_app in Hm. destruct (monitor _ PIdle tr) as [p|]; [|done]. cbn in Hm.
  destruct (pipeline_step key_id p e) as [p'|] eqn:Hs; [|done]. injection Hm as ->.
  destruct e as [o x]. destruct o; cbn in Hs; destruct p; try done; simplify_eq.
  all: try (destruct (IH eq_refl) as [t Ht]; exists t; apply elem_of_app; by left).
  all: try (destruct x; simplify_eq; repeat split_match; simplify_eq).
  all: eexists; apply elem_of_app; right; by apply list_elem_of_singleton.
Qed.


End spec.

(** ** Examples *)

Section examples.
#[local] Existing Instances toy_sdk toy_core.
#[local] Instance demo_serde : SerdeJson := toy_serde no_parse no_parse no_parse no_parse.

Definition demo_cfg : Config := service_new (fun _ => None) true.
Definition demo_ident : string := "spiffe://gridtokenx/trading".

(** A run of the pipeline in the given environment, from a fresh bridge. *)
Definition demo_run (env : forall o, option (bans o)) (ser : bytes) (key_id : string) :=
  fst (run (with_env (fixed_env env)) (sign_and_submit demo_cfg ser key_id demo_ident "c1") (bridge_new, tt)).

(** The node's simulator rejects. *)
Definition sim_rejects (o : bop) : option (bans o) :=
  match o with
  | Simulate _ => Some (Ok (mkSim (Some "InstructionError") None None))
  | o => healthy 1000 o
  end.

(** The node accepts and reports slot 77 on the first poll. *)
Definition confirms (o : bop) : option (bans o) :=
  match o with
  | SigStatuses _ => Some (Ok [Some (JObj [("err", JNull); ("slot", JNum 77)])])
  | VaultPubkey _ => Some (Ok admin_key)
  | o => healthy 1000 o
  end.

Lemma sign_and_submit_authorised_witness :
  let tr := fst (demo_run (healthy 1000) [x01] "platform_admin") in
  count_ev is_send tr = 1%nat /\ Forall (pipeline_event demo_cfg [x01] "platform_admin" demo_ident "c1") tr.
Proof.
  split; [vm_compute; reflexivity|].
  eapply (sign_and_submit_authorised demo_cfg [x01] "platform_admin" demo_ident "c1").
  apply run_trace.
Defined.

Definition demo_signed : Transaction :=
  with_signatures [sig_of_byte x09] (with_blockhash (mkHash (replicate 32 x05)) toy_tx).

Lemma send_after_sign_witness :
  exists t1 t2, fst (demo_run (healthy 1000) [x01] "platform_admin") =
                t1 ++ Ev (SendTx demo_signed) (Ok (sig_of_byte x09)) :: t2
  /\ (exists k s, Ev (VaultSign k (message_data (message demo_signed))) (Ok s) ∈ t1
                  /\ signatures demo_signed !! 0%nat = Some s)
  /\ Forall audit_only t2.
Proof.
  set (tr := fst (demo_run (healthy 1000) [x01] "platform_admin")).
  exists (take 4 tr), (drop 5 tr).
  assert (E : tr = take 4 tr ++ Ev (SendTx demo_signed) (Ok (sig_of_byte x09)) :: drop 5 tr)
    by (vm_compute; reflexivity).
  split; [exact E|].
  refine (send_after_sign demo_cfg [x01] demo_ident "c1" tr _ _ _ _ _ _ E).
  apply run_trace.
Defined.

Lemma simulation_gate_witness :
  let x := demo_run sim_rejects [x01] "platform_admin" in
  snd x = Done (Err (SimulationRejected (sim_reason "InstructionError")))
  /\ audited (fst x) = [Rejected "simulation" (sim_reason "InstructionError")].
Proof.
  set (tr := fst (demo_run sim_rejects [x01] "platform_admin")).
  set (tx := with_blockhash (mkHash (replicate 32 x05)) toy_tx).
  set (sim := mkSim (Some "InstructionError") None None).
  assert (E : tr = take 2 tr ++ Ev (Simulate tx) (Ok sim) :: drop 3 tr) by (vm_compute; reflexivity).
  refine (proj2 (simulation_gate demo_cfg [x01] "platform_admin" demo_ident "c1" tr _ _ _ _ _ _ _ E eq_refl)).
  apply run_trace.
Defined.

Lemma audit_trail_complete_witness :
  audited (fst (demo_run (healthy 1000) [x01] "other_key")) =
  [Rejected "auth" "Key ID not authorized: other_key"].
Proof.
  etransitivity.
  - eapply (audit_trail_complete demo_cfg [x01] "other_key" demo_ident "c1"). apply run_trace.
  - vm_compute. reflexivity.
Defined.

Lemma confirmation_poll_spec_witness :
  let t := run (with_env (fixed_env (healthy 1000)))
             (resolve_confirmation_bounded (sig_of_byte x09) 3 250) (bridge_new, tt) in
  length (poll_answers (fst (fst t))) = 3%nat /\ snd (fst t) = Done Pending.
Proof.
  cbn zeta. set (t := run _ _ _).
  pose proof (confirmation_poll_spec (sig_of_byte x09) 3 250 _ _
                (run_trace (with_env (fixed_env (healthy 1000))) _ (bridge_new, tt))) as (H1 & _ & H3 & _).
  split; [apply H3; vm_compute; reflexivity|].
  unfold t. rewrite H1. vm_compute. reflexivity.
Defined.


End examples.
