(* ===== verification/Vault.v ===== *)
(** * The Vault Transit client (src/vault.rs)

    [VaultTransitClient] asks HashiCorp Vault for the bridge's public key, which
    it caches for the life of the process, and for signatures.  The HTTP client
    is the environment; the shared [key_cache] is the state.  The copy of this
    client in chain-bridge-persistence/src/vault_signer.rs has the same code, and
    adds the [SignerPort] modelled at the end with the development keypair. *)

From S2P Require Import Prelude RustStd Effects Domain External BridgeOps Fixtures Signing.
From Stdlib Require String.
Import String.StringSyntax.
Import Errors.

Local Open Scope Z_scope.

Record VaultTransitClient := mkVaultClient { address : string; token : string }.

(** [VaultTransitClient::new]; the key cache starts empty. *)
Definition vault_client_new (addr tok : string) : VaultTransitClient := mkVaultClient addr tok.

(** How an HTTP exchange fails: sending, a status outside 2xx, or the body. *)
Inductive HttpFailure : Type :=
| SendFailed (e : string)
| StatusFailed (e : string)
| DecodeFailed (e : string).

(** The JSON bodies of the Transit API. *)
Record TransitSignRequest := mkSignRequest { sign_input : string }.
Record TransitSignData := mkSignData { sign_signature : string }.
Record TransitSignResponse := mkSignResponse { sign_data : TransitSignData }.
Record TransitSubKey := mkSubKey { sub_public_key : string }.

(** [keys] is a hash map: the versions in its iteration order. *)
Record TransitKeyData := mkKeyData { transit_keys : list (string * TransitSubKey) }.
Record TransitKeyResponse := mkKeyResponse { key_data : TransitKeyData }.

Inductive vop : Type :=
| KeyCacheGet (key_name : string)
| KeyCacheInsert (key_name : string) (pk : Pubkey)
| HttpGetKeys (url auth_token : string)
| HttpPostSign (url auth_token : string) (body : TransitSignRequest).

Definition vans (o : vop) : Type :=
  match o with
  | KeyCacheGet _ => option Pubkey
  | KeyCacheInsert _ _ => unit
  | HttpGetKeys _ _ => result TransitKeyResponse HttpFailure
  | HttpPostSign _ _ _ => result TransitSignResponse HttpFailure
  end.

(** [.send().await?.error_for_status().context(ctx)?] and [.json().await?]. *)
Definition http_error (ctx : string) (f : HttpFailure) : AnyError :=
  match f with
  | SendFailed e | DecodeFailed e => AnyMsg e
  | StatusFailed e => AnyContext ctx e
  end.

Section client.
Context {B : Base64}.
(** [Pubkey::try_from(Vec<u8>)] and [Signature::try_from(Vec<u8>)]. *)
Context (pubkey_try_from : bytes -> option Pubkey) (signature_try_from : bytes -> option Signature).
Context (client : VaultTransitClient).

(** The body of a key response: the first version's key, decoded. *)
Definition decode_key (key_name : string) (resp : TransitKeyResponse) : result Pubkey AnyError :=
  match transit_keys (key_data resp) with
  | [] => Err (AnyMsg ("No keys found for " +:+ key_name))
  | (_, version) :: _ =>
      match b64_decode (sub_public_key version) with
      | Err e => Err (AnyContext "Invalid base64 in public_key" e)
      | Ok raw => ok_or (pubkey_try_from raw) (AnyMsg "Invalid public key bytes length")
      end
  end.

Definition get_public_key (key_name : string) : prog vans (result Pubkey AnyError) :=
  cached <~ call (KeyCacheGet key_name) ;;
  match (cached : option Pubkey) with
  | Some pk => Ret (Ok pk)
  | None =>
      resp <~ call (HttpGetKeys (address client +:+ "/v1/transit/keys/" +:+ key_name) (token client)) ;;
      match (resp : result TransitKeyResponse HttpFailure) with
      | Err f => Ret (Err (http_error "Failed to fetch key from Vault" f))
      | Ok keys =>
          match decode_key key_name keys with
          | Err e => Ret (Err e)
          | Ok pubkey =>
              do! call (KeyCacheInsert key_name pubkey) ;;
              Ret (Ok pubkey)
          end
      end
  end.

(** The text Vault returns, to a signature: the part after the last colon. *)
Definition parse_vault_signature (s : string) : result Signature AnyError :=
  match last (split_on ":" s) with
  | None => Err (AnyMsg "Malformed signature format from Vault")
  | Some sig_b64 =>
      match b64_decode sig_b64 with
      | Err e => Err (AnyContext "Invalid base64 in signature" e)
      | Ok raw => ok_or (signature_try_from raw) (AnyMsg "Invalid signature length from Vault")
      end
  end.

Definition sign_message (key_name : string) (message : bytes) : prog vans (result Signature AnyError) :=
  resp <~ call (HttpPostSign (address client +:+ "/v1/transit/sign/" +:+ key_name) (token client)
                  (mkSignRequest (b64_encode message))) ;;
  Ret (match (resp : result TransitSignResponse HttpFailure) with
       | Err f => Err (http_error "Vault Transit sign request failed" f)
       | Ok resp => parse_vault_signature (sign_signature (sign_data resp))
       end).

(** The cache is the only state; HTTP answers anything. *)
Definition vault_sem (cache : gmap string Pubkey) (o : vop) : vans o -> gmap string Pubkey -> Prop :=
  match o with
  | KeyCacheGet k => fun x cache' => x = cache !! k /\ cache' = cache
  | KeyCacheInsert k pk => fun _ cache' => cache' = <[k := pk]> cache
  | HttpGetKeys _ _ => fun _ cache' => cache' = cache
  | HttpPostSign _ _ _ => fun _ cache' => cache' = cache
  end.

(** ** Claims *)

(** Reading a signature back.  Whatever precedes the last colon (Vault
    writes [vault:v<version>]), a signature that was Base64-encoded into the
    response is recovered exactly. *)
Theorem vault_signature_roundtrip {BL : Base64Laws} (prefix : string) (s : Signature) :
  signature_try_from (sig_bytes s) = Some s ->
  parse_vault_signature (prefix +:+ String ":" (b64_encode (sig_bytes s))) = Ok s.
Proof.
  intros Hs. unfold parse_vault_signature.
  destruct (split_on_app ":" prefix (b64_encode (sig_bytes s))) as (w & -> & _ & _).
  rewrite split_on_none by apply b64_no_colon. cbn. by rewrite b64_decode_encode, Hs.
Qed.

(** The public key and its cache.  A cached key is answered without any
    request and never changes; otherwise a key is answered only if the first
    version of Vault's response for that name decodes to it, and it is then the
    cached one; every failure leaves the cache as it was. *)
Theorem public_key_cached key_name cache tr r cache' :
  exec vault_sem (get_public_key key_name) cache tr r cache' ->
  match cache !! key_name with
  | Some pk => tr = [Ev (KeyCacheGet key_name) (Some pk)] /\ r = Done (Ok pk) /\ cache' = cache
  | None =>
      match r with
      | Done (Ok pk) =>
          cache' = <[key_name := pk]> cache
          /\ exists keys, Ev (HttpGetKeys (address client +:+ "/v1/transit/keys/" +:+ key_name) (token client)) (Ok keys) ∈ tr
                          /\ decode_key key_name keys = Ok pk
      | Done (Err _) => cache' = cache
      | Aborted => False
      end
  end.
Proof.
  unfold get_public_key. cbn [call bind exec]. intros (x & c1 & t & [-> ->] & -> & Hx).
  destruct (cache !! key_name) as [pk|].
  { destruct Hx as (-> & -> & ->). done. }
  cbn [call bind exec] in Hx. destruct Hx as ([keys|f] & c2 & t2 & -> & -> & Hx).
  2:{ by destruct Hx as (-> & -> & ->). }
  destruct (decode_key key_name keys) as [pk|e] eqn:Hd.
  2:{ by destruct Hx as (-> & -> & ->). }
  cbn [call bind exec] in Hx. destruct Hx as (u & c3 & t3 & -> & -> & -> & -> & ->).
  split; [done|]. exists keys. split; [|done]. right. left.
Qed.

End client.

(** ** The development keypair and the signer port *)

Section providers.
Context {B : Base64}.
Context (pubkey_try_from : bytes -> option Pubkey) (signature_try_from : bytes -> option Signature).
(** [solana_sdk::signature::Keypair]. *)
Context {Keypair : Type} (keypair_try_from : bytes -> option Keypair).
Context (keypair_pubkey : Keypair -> Pubkey) (keypair_sign : Keypair -> bytes -> Signature).

(** The [VaultProvider] trait. *)
Record VaultProvider := mkVaultProvider {
  provider_public_key : string -> prog vans (result Pubkey AnyError);
  provider_sign : string -> bytes -> prog vans (result Signature AnyError)
}.

Definition transit_provider (client : VaultTransitClient) : VaultProvider :=
  mkVaultProvider (get_public_key pubkey_try_from client) (sign_message signature_try_from client).

Definition dev_keypair_bytes : list Z :=
  [241; 3; 15; 11; 59; 189; 0; 251; 20; 183; 69; 181; 3; 24; 241; 148; 23; 179; 177; 88;
   214; 187; 29; 157; 2; 66; 127; 53; 53; 185; 21; 209; 207; 253; 141; 144; 58; 192; 105;
   53; 193; 102; 73; 89; 250; 146; 246; 181; 133; 48; 6; 16; 231; 20; 229; 155; 54; 191;
   88; 204; 36; 39; 161; 251].

(** [InsecureKeypairProvider::new]: [expect] panics on an invalid keypair. *)
Definition insecure_new : prog vans Keypair :=
  match keypair_try_from (byte_of_Z <$> dev_keypair_bytes) with
  | Some keypair => Ret keypair
  | None => Panic
  end.

(** [InsecureKeypairProvider]: one key, whatever name is asked for. *)
Definition insecure_provider (keypair : Keypair) : VaultProvider :=
  mkVaultProvider (fun _ => Ret (Ok (keypair_pubkey keypair)))
    (fun _ message => Ret (Ok (keypair_sign keypair message))).

(** [e.to_string()] of an [anyhow::Error]: the outermost message only. *)
Definition any_to_string (e : AnyError) : string :=
  match e with
  | AnyStage s => stage_display s
  | AnyMsg s => s
  | AnyContext ctx _ => ctx
  end.

End providers.

(** ** The relocated copy

    chain-bridge-persistence/src/vault_signer.rs: line for line the code above;
    its [SignerPort]s forward to these. *)

Module VaultSigner.
Section signer.
Context {B : Base64}.
Context (pubkey_try_from : bytes -> option Pubkey) (signature_try_from : bytes -> option Signature).
Context {Keypair : Type} (keypair_try_from : bytes -> option Keypair).
Context (keypair_pubkey : Keypair -> Pubkey) (keypair_sign : Keypair -> bytes -> Signature).

Definition get_public_key (client : VaultTransitClient) (key_name : string) : prog vans (result Pubkey AnyError) :=
  Vault.get_public_key pubkey_try_from client key_name.

Definition sign_message (client : VaultTransitClient) (key_name : string) (message : bytes)
  : prog vans (result Signature AnyError) :=
  Vault.sign_message signature_try_from client key_name message.

Definition transit_provider (client : VaultTransitClient) : VaultProvider :=
  mkVaultProvider (get_public_key client) (sign_message client).

(** [InsecureKeypairProvider::new], which [Default] calls. *)
Definition insecure_new : prog vans Keypair := Vault.insecure_new keypair_try_from.

Definition insecure_provider (keypair : Keypair) : VaultProvider :=
  mkVaultProvider (fun _ => Ret (Ok (keypair_pubkey keypair)))
    (fun _ message => Ret (Ok (keypair_sign keypair message))).

End signer.
End VaultSigner.

Section signer_port.

(** The [SignerPort] of either provider. *)
Definition port_public_key (p : VaultProvider) (key_name : string) : prog vans (result Pubkey ChainBridgeError) :=
  r <~ provider_public_key p key_name ;;
  Ret (map_err (fun e => Signer (any_to_string e)) r).

Definition port_sign_message (p : VaultProvider) (key_name : string) (message : bytes)
  : prog vans (result Signature ChainBridgeError) :=
  r <~ provider_sign p key_name message ;;
  Ret (map_err (fun e => Signer (any_to_string e)) r).

(** The trait [SignerPort] and its two implementations. *)
Record SignerPort := mkSignerPort {
  signer_public_key : string -> prog vans (result Pubkey ChainBridgeError);
  signer_sign_message : string -> bytes -> prog vans (result Signature ChainBridgeError)
}.

Definition transit_signer_port {B : Base64} (pubkey_try_from : bytes -> option Pubkey)
    (signature_try_from : bytes -> option Signature) (client : VaultTransitClient) : SignerPort :=
  let p := VaultSigner.transit_provider pubkey_try_from signature_try_from client in
  mkSignerPort (port_public_key p) (port_sign_message p).

Definition insecure_signer_port {Keypair : Type} (keypair_pubkey : Keypair -> Pubkey)
    (keypair_sign : Keypair -> bytes -> Signature) (keypair : Keypair) : SignerPort :=
  let p := VaultSigner.insecure_provider keypair_pubkey keypair_sign keypair in
  mkSignerPort (port_public_key p) (port_sign_message p).

(** The port signs exactly when the provider does, with the same requests, and
    every failure of a provider is one a caller may retry. *)
Lemma port_sign_message_spec p key_name message tr r :
  runs (port_sign_message p key_name message) tr r ->
  match r with
  | Done (Ok s) => runs (provider_sign p key_name message) tr (Done (Ok s))
  | Done (Err e) => is_transient e = true
                    /\ exists e', runs (provider_sign p key_name message) tr (Done (Err e'))
  | Aborted => runs (provider_sign p key_name message) tr Aborted
  end.
Proof.
  intros [([s|e] & t1 & t2 & -> & H1 & [-> ->])|[H1 ->]]%runs_bind; cbn; rewrite ?app_nil_r; eauto.
Qed.

End signer_port.

(** ** Examples *)

Section examples.
#[local] Existing Instance hex_b64.
#[local] Existing Instance hex_b64_laws.

Definition sized_signature (b : bytes) : option Signature :=
  if Nat.eqb (length b) 64 then Some (mkSignature b) else None.
Definition sized_pubkey (b : bytes) : option Pubkey :=
  if Nat.eqb (length b) 32 then Some (mkPubkey b) else None.
Definition demo_vault : VaultTransitClient := mkVaultClient "http://vault:8200" "token".

Lemma vault_signature_roundtrip_witness :
  parse_vault_signature sized_signature ("vault:v1" +:+ String ":" (b64_encode (sig_bytes (sig_of_byte x09))))
  = Ok (sig_of_byte x09).
Proof.
  apply (vault_signature_roundtrip sized_signature "vault:v1" (sig_of_byte x09)). reflexivity.
Defined.

Lemma public_key_cached_witness :
  exists tr cache',
    exec vault_sem (get_public_key sized_pubkey demo_vault "bridge") {[ "bridge" := admin_key ]} tr (Done (Ok admin_key)) cache'
    /\ tr = [Ev (KeyCacheGet "bridge") (Some admin_key)].
Proof.
  exists [Ev (KeyCacheGet "bridge") (Some admin_key)], {[ "bridge" := admin_key ]}.
  assert (Hx : exec vault_sem (get_public_key sized_pubkey demo_vault "bridge") {[ "bridge" := admin_key ]}
                 [Ev (KeyCacheGet "bridge") (Some admin_key)] (Done (Ok admin_key)) {[ "bridge" := admin_key ]}).
  { exists (Some admin_key), {[ "bridge" := admin_key ]}, []. repeat split. }
  split; [exact Hx|].
  pose proof (public_key_cached sized_pubkey demo_vault "bridge" {[ "bridge" := admin_key ]} _ _ _ Hx) as H.
  rewrite lookup_singleton_eq in H. exact (proj1 H).
Defined.

End examples.
