(* ===== verification/Refresh.v ===== *)
(** * The blockhash refresh task (src/main.rs)

    The background task that feeds the signing pipeline its blockhash, and what
    the pipeline does once the cache is filled.  The loop of the source runs for
    ever; [fuel] is the number of iterations looked at, and every theorem holds for
    every fuel. *)

From S2P Require Import Prelude RustStd Effects Domain External BridgeOps Fixtures Signing SigningSpec.
From Stdlib Require String.
Import String.StringSyntax.

Local Open Scope Z_scope.

(** ** The blockhash refresh task of [main] *)

Section refresh.
Context {J : SerdeJson}.

Fixpoint refresh_task (fuel : nat) : prog bans unit :=
  match fuel with
  | O => Ret tt
  | S fuel =>
      r <~ call LatestBlockhash ;;
      match (r : result (Hash * Z) string) with
      | Ok (hash, height) => do! call (CacheUpdate hash height) ;; refresh_task fuel
      | Err _ => refresh_task fuel
      end
  end.

(** The last answer of the node in a trace. *)
Definition last_blockhash (tr : list (event bans)) : option (Hash * Z) :=
  last (omap (fun e : event bans =>
                match e with Ev LatestBlockhash (Ok x) => Some x | _ => None end) tr).

Lemma refresh_rule (P : event bans -> Prop) fuel :
  (forall x, P (Ev LatestBlockhash x)) -> (forall h n x, P (Ev (CacheUpdate h n) x)) ->
  always P (refresh_task fuel) (fun r => r <> Aborted).
Proof.
  intros Hl Hu. induction fuel as [|fuel IH]; [done|]. cbn. intros [[h n]|e]; (split; [done|]); [|done].
  cbn. intros []. done.
Qed.

End refresh.

(** ** Lemmas *)

Section refresh_lemmas.
Context {J : SerdeJson}.

Lemma last_blockhash_cons x tr :
  last_blockhash (Ev LatestBlockhash (Ok x) :: tr) = Some (unwrap_or (last_blockhash tr) x).
Proof. unfold last_blockhash. cbn [omap list_omap]. rewrite last_cons. by destruct (last _). Qed.

Lemma last_blockhash_update h n x tr : last_blockhash (Ev (CacheUpdate h n) x :: tr) = last_blockhash tr.
Proof. done. Qed.

End refresh_lemmas.

(** ** The hot path *)

Section hot_path.
Context {J : SerdeJson} {K : SolanaSdk} {C : BlockchainCore}.
Context (cfg : Config).

(** The transaction with the cached blockhash where its own is empty. *)
Definition refreshed (bh : Hash) (tx : Transaction) : Transaction :=
  if bool_decide (recent_blockhash (message tx) = hash_default) then with_blockhash bh tx else tx.

Lemma fill_blockhash_cached s bh h tx tr r s' :
  blockhash_cache s = Some (bh, h) ->
  exec bridge_sem (fill_blockhash tx) s tr r s' ->
  r = Done (Ok (refreshed bh tx)) /\ Forall (fun e => ev_op e = CacheGet) tr.
Proof.
  intros Hc. unfold fill_blockhash, refreshed. case_bool_decide.
  - cbn [call bind exec]. intros (x & s1 & t & [-> ->] & -> & Hx). rewrite Hc in Hx.
    destruct Hx as (-> & -> & ->). split; [done|]. by repeat constructor.
  - intros (-> & -> & ->). split; [done|constructor].
Qed.

(** After the blockhash is chosen: no refresh, and only that message is simulated,
    signed and sent. *)
Definition sends_message (m : Message) (e : event bans) : Prop :=
  match e with
  | Ev LatestBlockhash _ => False
  | Ev (Simulate tx) _ => message tx = m
  | Ev (VaultSign _ b) _ => b = message_data m
  | Ev (SendTx tx) _ => message tx = m
  | _ => True
  end.

Lemma send_and_audit_message m tx ident corr :
  message tx = m -> always (sends_message m) (send_and_audit tx ident corr) (fun _ => True).
Proof. intros Hm. cbn. intros x. split; [done|]. by destruct x; cbn. Qed.

Lemma after_fill_message tx ident corr :
  always (sends_message (message tx))
    (sim <~ presign cfg tx ident corr ;;
     match sim with
     | Err e => Ret (Err e)
     | Ok _ =>
         do! log_signers cfg tx ;;
         r <~ call (VaultSign (transit_key_name cfg) (message_data (message tx))) ;;
         match (r : result Signature string) with
         | Err e => Ret (Err (VaultSigningFailed e))
         | Ok sig => tx <~ attach_signature sig tx ;; Ret (Ok tx)
         end
     end)
    (fun r => forall sent, r = Done (Ok sent) -> message sent = message tx).
Proof.
  eapply always_bind; [by apply presign_always| |by intros []].
  intros [[]|e] _; [|done].
  eapply always_bind; [by apply (log_signers_always cfg _ _ (fun _ => True))| |done].
  intros [] _. cbn. intros x. split; [done|]. destruct x as [sig|e]; [|done].
  destruct (attach_signature_cases sig tx) as [(-> & _)|(rest & -> & _)]; cbn; [done|].
  intros sent [= <-]. done.
Qed.

Lemma platform_admin_cached s bh h tx ident corr tr r s' :
  blockhash_cache s = Some (bh, h) ->
  exec bridge_sem (sign_platform_admin cfg tx ident corr) s tr r s' ->
  Forall (sends_message (message (refreshed bh tx))) tr
  /\ forall sent, r = Done (Ok sent) -> message sent = message (refreshed bh tx).
Proof.
  intros Hc. unfold sign_platform_admin.
  intros [(f & t1 & t2 & s1 & -> & H1 & H2)|[H1 ->]]%exec_bind;
    apply (fill_blockhash_cached _ _ _ _ _ _ _ Hc) in H1 as [Hf Hno]; [|done].
  injection Hf as ->. apply exec_runs in H2.
  destruct (always_runs _ _ _ _ _ (after_fill_message (refreshed bh tx) ident corr) H2) as [Ha Hr].
  split; [|done]. apply Forall_app. split; [|done].
  eapply Forall_impl; [exact Hno|]. intros [o x] Ho. cbn in Ho. by subst o.
Qed.

(** ** Claims *)

(** The refresh task keeps the cache at the node's last answer: after any
    number of rounds the cache holds the last blockhash the node returned, or what
    it held before if every request failed; it is never cleared, and the task does
    not touch the consumer's maps. *)
Theorem refresh_task_cache fuel s tr r s' :
  exec bridge_sem (refresh_task fuel) s tr r s' ->
  r = Done tt
  /\ blockhash_cache s' = match last_blockhash tr with Some x => Some x | None => blockhash_cache s end
  /\ idempotency_cache s' = idempotency_cache s /\ dedup_store s' = dedup_store s.
Proof.
  revert s tr. induction fuel as [|fuel IH]; intros s tr.
  { intros (-> & -> & ->). done. }
  cbn [refresh_task call bind exec]. intros ([[hash height]|e] & s1 & t & -> & -> & Hx).
  - cbn [call bind exec] in Hx. destruct Hx as ([] & s2 & t2 & [_ ->] & -> & Hx).
    apply IH in Hx as (-> & Hb & Hi & Hd). cbn in Hi, Hd. splits; [done| |done|done].
    rewrite Hb, last_blockhash_cons, last_blockhash_update.
    by destruct (last_blockhash t2).
  - apply IH in Hx as (-> & Hb & Hi & Hd). splits; [done| |done|done].
    by rewrite Hb.
Qed.


End hot_path.

(** ** Examples *)

Section examples.
#[local] Existing Instances toy_sdk toy_core.
#[local] Existing Instance demo_serde.

Lemma refresh_task_cache_witness :
  blockhash_cache (fst (snd (run (with_env (fixed_env (healthy 1000))) (refresh_task 2) (bridge_new, tt))))
  = Some (mkHash (replicate 32 x05), 9).
Proof.
  etransitivity.
  - refine (proj1 (proj2 (refresh_task_cache 2 bridge_new _ _ _ _))).
    exact (run_exec (fixed_env (healthy 1000)) (refresh_task 2) bridge_new tt).
  - vm_compute. reflexivity.
Defined.


End examples.
