(* ===== verification/Grpc.v ===== *)
(** * The ConnectRPC surface (src/api/service.rs, [impl ChainBridgeService])

    One definition per RPC: the role check with the handler's own role list, the
    argument parsing, the provider call and the response.  [Rpc] and [serve]
    collect them into the service's dispatch. *)

From S2P Require Import Prelude RustStd Effects Domain External BridgeOps Fixtures Identity Signing SigningSpec.
From Stdlib Require String.
Import String.StringSyntax.

Local Open Scope Z_scope.

(** ** connectrpc errors *)

Inductive ErrorCode : Type :=
| InvalidArgument
| PermissionDenied
| FailedPrecondition
| Unavailable
| Internal.

#[export] Instance ErrorCode_eq_dec : EqDecision ErrorCode.
Proof. solve_decision. Defined.

Record ConnectError := mkConnectError { ce_code : ErrorCode; ce_message : string }.

Definition permission_denied (msg : string) : ConnectError := mkConnectError PermissionDenied msg.

(** ** Responses *)

Record SubmitTransactionResponse := mkSubmitResp {
  sub_success : bool; sub_signature : string; sub_error_message : string; sub_slot : Z }.
Record GetBalanceResponse := mkBalanceResp { bal_lamports : Z }.
Record GetAccountDataResponse := mkAccountResp { acc_exists : bool; acc_data : bytes }.
Record GetLatestBlockhashResponse := mkBlockhashResp {
  lb_blockhash : string; lb_last_valid_block_height : Z }.
Record GetRecentPrioritizationFeesResponse := mkFeesResp { fees : list PrioritizationFee }.
Record GetTokenAccountBalanceResponse := mkTokenResp {
  tok_amount : string; tok_decimals : Z; tok_ui_amount : Z }.
Record GetSignatureStatusResponse := mkSigStatusResp {
  st_confirmed : bool; st_status : string; st_error : string }.
Record GetSlotResponse := mkSlotResp { slot_value : Z }.
Record RequestAirdropResponse := mkAirdropResp { air_success : bool; air_signature : string }.
Record GetTransactionDetailsResponse := mkDetailsResp {
  det_found : bool; det_slot : Z; det_account_keys : list string }.
Record GetEpochInfoResponse := mkEpochResp { ep_epoch : Z; ep_slot : Z }.

(** ** Error classification *)

(** The [downcast_ref] match of [submit_transaction]. *)
Definition classify_submit_error (e : AnyError) : ErrorCode * string :=
  match e with
  | AnyStage (InvalidFormat _) => (InvalidArgument, "Invalid transaction format")
  | AnyStage (PolicyRejected _) => (PermissionDenied, "Policy Engine rejection")
  | AnyStage (KeyNotAuthorized _) => (PermissionDenied, "Key ID not authorized")
  | AnyStage (SimulationRejected _) => (FailedPrecondition, "Transaction would fail simulation")
  | AnyStage (BlockhashRefreshFailed _)
  | AnyStage (VaultSigningFailed _)
  | AnyStage (SubmissionFailed _) => (Unavailable, "Transaction submission failed")
  | _ => (Internal, "Transaction submission failed")
  end.

Section handlers.
Context {J : SerdeJson} {K : SolanaSdk} {C : BlockchainCore} {X : X509} {H : HttpHeaders}.
Context (cfg : Config) (from_headers : gmap string (list HeaderValue) -> ServiceRole).

(** [role.require_any(roles).map_err(permission_denied)?] and the rest. *)
Definition require_role {A : Type} (hs : gmap string (list HeaderValue)) (roles : list ServiceRole)
    (body : prog bans (result A ConnectError)) : prog bans (result A ConnectError) :=
  match require_any (extract_role from_headers (getenv cfg) hs) roles with
  | Err msg => Ret (Err (permission_denied msg))
  | Ok _ => body
  end.

Definition submit_transaction (hs : gmap string (list HeaderValue)) (serialized_transaction : bytes) (key_id : string)
  : prog bans (result SubmitTransactionResponse ConnectError) :=
  require_role hs [TradingApi; TradingMatcher; AggregatorBridge; IamService; SettlementService; Admin] (
    result <~ sign_and_submit cfg serialized_transaction key_id (request_identity hs) "" ;;
    Ret (match result with
         | Ok (sig, slot) => Ok (mkSubmitResp true (signature_to_string sig) "" slot)
         | Err e =>
             let '(code, msg) := classify_submit_error (AnyStage e) in
             Err (mkConnectError code msg)
         end)).

Definition get_balance (hs : gmap string (list HeaderValue)) (pubkey : string)
  : prog bans (result GetBalanceResponse ConnectError) :=
  require_role hs [ApiGateway; TradingApi; TradingMatcher; AggregatorBridge; IamService;
                   SettlementService; ReportingService; Admin] (
    match pubkey_from_str pubkey with
    | Err e => Ret (Err (mkConnectError InvalidArgument ("Invalid pubkey: " +:+ e)))
    | Ok pk =>
        r <~ call (GetBalance pk) ;;
        Ret (match (r : result Z string) with
             | Ok lamports => Ok (mkBalanceResp lamports)
             | Err e => Err (mkConnectError Internal "Failed to fetch balance")
             end)
    end).

Definition get_account_data (hs : gmap string (list HeaderValue)) (pubkey : string)
  : prog bans (result GetAccountDataResponse ConnectError) :=
  require_role hs [ApiGateway; TradingApi; TradingMatcher; AggregatorBridge; IamService;
                   SettlementService; ReportingService; Admin] (
    match pubkey_from_str pubkey with
    | Err e => Ret (Err (mkConnectError InvalidArgument ("Invalid pubkey: " +:+ e)))
    | Ok pk =>
        r <~ call (GetAccount pk) ;;
        Ret (match (r : result Account string) with
             | Ok account => Ok (mkAccountResp true (account_data account))
             | Err e =>
                 if str_contains "AccountNotFound" e then Ok (mkAccountResp false [])
                 else Err (mkConnectError Internal "Failed to fetch account data")
             end)
    end).

Definition get_latest_blockhash (hs : gmap string (list HeaderValue))
  : prog bans (result GetLatestBlockhashResponse ConnectError) :=
  require_role hs [TradingApi; TradingMatcher; AggregatorBridge; IamService;
                   SettlementService; ReportingService; Admin] (
    r <~ call LatestBlockhash ;;
    Ret (match (r : result (Hash * Z) string) with
         | Ok (blockhash, last_valid_block_height) =>
             Ok (mkBlockhashResp (hash_to_string blockhash) last_valid_block_height)
         | Err e => Err (mkConnectError Internal "Failed to fetch blockhash")
         end)).

Definition get_recent_prioritization_fees (hs : gmap string (list HeaderValue)) (keys : list string)
  : prog bans (result GetRecentPrioritizationFeesResponse ConnectError) :=
  require_role hs [TradingApi; TradingMatcher; AggregatorBridge; IamService;
                   SettlementService; ReportingService; Admin] (
    match collect (fun k => map_err (fun e => mkConnectError InvalidArgument
                     ("Invalid account key '" +:+ k +:+ "': " +:+ e)) (pubkey_from_str k)) keys with
    | Err e => Ret (Err e)
    | Ok pks =>
        r <~ call (GetFees pks) ;;
        Ret (match (r : result (list PrioritizationFee) string) with
             | Ok l => Ok (mkFeesResp ((fun f => mkFee (fee_slot f) (prioritization_fee f)) <$> l))
             | Err e => Err (mkConnectError Internal "Failed to fetch prioritization fees")
             end)
    end).

Definition get_token_account_balance (hs : gmap string (list HeaderValue)) (pubkey : string)
  : prog bans (result GetTokenAccountBalanceResponse ConnectError) :=
  require_role hs [ApiGateway; TradingApi; TradingMatcher; AggregatorBridge; IamService;
                   SettlementService; ReportingService; Admin] (
    match pubkey_from_str pubkey with
    | Err e => Ret (Err (mkConnectError InvalidArgument ("Invalid pubkey: " +:+ e)))
    | Ok pk =>
        r <~ call (GetTokenBalance pk) ;;
        Ret (match (r : result Value string) with
             | Ok balance =>
                 Ok (mkTokenResp
                       (unwrap_or (value_as_str (value_index balance "amount")) "0")
                       (as_u32 (unwrap_or (value_as_u64 (value_index balance "decimals")) 0))
                       (unwrap_or (value_as_f64 (value_index balance "ui_amount")) 0))
             | Err e => Err (mkConnectError Internal "Failed to fetch token balance")
             end)
    end).

Definition get_signature_status (hs : gmap string (list HeaderValue)) (signature : string)
  : prog bans (result GetSignatureStatusResponse ConnectError) :=
  require_role hs [ApiGateway; TradingApi; TradingMatcher; AggregatorBridge; IamService;
                   SettlementService; ReportingService; Admin] (
    match signature_from_str signature with
    | Err e => Ret (Err (mkConnectError InvalidArgument ("Invalid signature: " +:+ e)))
    | Ok sig =>
        r <~ call (SigStatuses [sig]) ;;
        Ret (match (r : result (list (option Value)) string) with
             | Ok (Some status :: _) =>
                 let err := value_index status "err" in
                 Ok (mkSigStatusResp
                       (match value_as_u64 (value_index status "confirmations") with
                        | Some _ => true
                        | None => value_is_null err
                        end)
                       (unwrap_or (value_as_str (value_index status "confirmation_status")) "Unknown")
                       (if value_is_null err then "" else value_to_string err))
             | Ok _ => Ok (mkSigStatusResp false "NotFound" "")
             | Err e => Err (mkConnectError Internal "Failed to fetch signature status")
             end)
    end).

Definition get_slot (hs : gmap string (list HeaderValue)) : prog bans (result GetSlotResponse ConnectError) :=
  require_role hs [TradingApi; TradingMatcher; AggregatorBridge; IamService;
                   SettlementService; ReportingService; Admin] (
    r <~ call GetSlot ;;
    Ret (match (r : result Z string) with
         | Ok slot => Ok (mkSlotResp slot)
         | Err e => Err (mkConnectError Internal "Failed to fetch current slot")
         end)).

Definition request_airdrop (hs : gmap string (list HeaderValue)) (pubkey : string) (amount : Z)
  : prog bans (result RequestAirdropResponse ConnectError) :=
  require_role hs [Admin; IamService] (
    match pubkey_from_str pubkey with
    | Err e => Ret (Err (mkConnectError InvalidArgument ("Invalid pubkey: " +:+ e)))
    | Ok pk =>
        r <~ call (RequestAirdrop pk amount) ;;
        Ret (match (r : result Signature string) with
             | Ok sig => Ok (mkAirdropResp true (signature_to_string sig))
             | Err e => Err (mkConnectError Internal "Airdrop request failed")
             end)
    end).

Definition get_transaction_details (hs : gmap string (list HeaderValue)) (signature : string)
  : prog bans (result GetTransactionDetailsResponse ConnectError) :=
  require_role hs [ApiGateway; TradingApi; TradingMatcher; AggregatorBridge; IamService;
                   SettlementService; ReportingService; Admin] (
    match signature_from_str signature with
    | Err e => Ret (Err (mkConnectError InvalidArgument ("Invalid signature: " +:+ e)))
    | Ok sig =>
        r <~ call (GetTransaction sig) ;;
        Ret (match (r : result Value string) with
             | Ok tx_val =>
                 Ok (mkDetailsResp true
                       (unwrap_or (value_as_u64 (value_index tx_val "slot")) 0)
                       (match value_as_array (value_index (value_index (value_index tx_val
                                "transaction") "message") "accountKeys") with
                        | Some accounts => (fun v => unwrap_or (value_as_str v) "") <$> accounts
                        | None => []
                        end))
             | Err e =>
                 if str_contains "TransactionNotFound" e || str_contains "not found" e
                 then Ok (mkDetailsResp false 0 [])
                 else Err (mkConnectError Internal "Failed to fetch transaction details")
             end)
    end).

Definition get_epoch_info (hs : gmap string (list HeaderValue)) : prog bans (result GetEpochInfoResponse ConnectError) :=
  require_role hs [ApiGateway; TradingApi; TradingMatcher; AggregatorBridge; IamService; Admin] (
    r <~ call GetEpochInfo ;;
    Ret (match (r : result EpochInfo string) with
         | Ok info => Ok (mkEpochResp (epoch info) (absolute_slot info))
         | Err e => Err (mkConnectError Internal "Failed to fetch epoch info")
         end)).

(** ** The service as one function *)

Inductive Rpc : Type :=
| RpcSubmit (serialized_transaction : bytes) (key_id : string)
| RpcBalance (pubkey : string)
| RpcAccountData (pubkey : string)
| RpcLatestBlockhash
| RpcFees (keys : list string)
| RpcTokenBalance (pubkey : string)
| RpcSignatureStatus (signature : string)
| RpcSlot
| RpcAirdrop (pubkey : string) (amount : Z)
| RpcTransactionDetails (signature : string)
| RpcEpochInfo.

(** The outcome of a served request: the response type does not matter here. *)
Definition erase {A : Type} (r : result A ConnectError) : result unit ConnectError :=
  match r with Ok _ => Ok tt | Err e => Err e end.

Definition erased {A : Type} (p : prog bans (result A ConnectError)) : prog bans (result unit ConnectError) :=
  r <~ p ;; Ret (erase r).

Definition serve (hs : gmap string (list HeaderValue)) (q : Rpc) : prog bans (result unit ConnectError) :=
  match q with
  | RpcSubmit tx key_id => erased (submit_transaction hs tx key_id)
  | RpcBalance pk => erased (get_balance hs pk)
  | RpcAccountData pk => erased (get_account_data hs pk)
  | RpcLatestBlockhash => erased (get_latest_blockhash hs)
  | RpcFees keys => erased (get_recent_prioritization_fees hs keys)
  | RpcTokenBalance pk => erased (get_token_account_balance hs pk)
  | RpcSignatureStatus sig => erased (get_signature_status hs sig)
  | RpcSlot => erased (get_slot hs)
  | RpcAirdrop pk amount => erased (request_airdrop hs pk amount)
  | RpcTransactionDetails sig => erased (get_transaction_details hs sig)
  | RpcEpochInfo => erased (get_epoch_info hs)
  end.

(** ** Specification *)

(** Who may call what, as a table. *)
Definition rbac_matrix (r : ServiceRole) (q : Rpc) : bool :=
  match r with
  | Admin | IamService => true
  | TradingApi | TradingMatcher | AggregatorBridge =>
      match q with RpcAirdrop _ _ => false | _ => true end
  | SettlementService =>
      match q with RpcAirdrop _ _ | RpcEpochInfo => false | _ => true end
  | ReportingService =>
      match q with RpcSubmit _ _ | RpcAirdrop _ _ | RpcEpochInfo => false | _ => true end
  | ApiGateway =>
      match q with
      | RpcBalance _ | RpcAccountData _ | RpcTokenBalance _ | RpcSignatureStatus _
      | RpcTransactionDetails _ | RpcEpochInfo => true
      | _ => false
      end
  | MeterService | Unknown => false
  end.

(** The one provider call of each RPC other than submit. *)
Definition rpc_call (q : Rpc) (e : event bans) : Prop :=
  match q, ev_op e with
  | RpcBalance s, GetBalance pk | RpcAccountData s, GetAccount pk
  | RpcTokenBalance s, GetTokenBalance pk => pubkey_from_str s = Ok pk
  | RpcLatestBlockhash, LatestBlockhash | RpcSlot, GetSlot | RpcEpochInfo, GetEpochInfo => True
  | RpcFees keys, GetFees pks => Forall2 (fun k pk => pubkey_from_str k = Ok pk) keys pks
  | RpcSignatureStatus s, SigStatuses sigs => exists sg, sigs = [sg] /\ signature_from_str s = Ok sg
  | RpcTransactionDetails s, GetTransaction sg => signature_from_str s = Ok sg
  | RpcAirdrop s n, RequestAirdrop pk m => pubkey_from_str s = Ok pk /\ m = n
  | _, _ => False
  end.

Definition is_submit (q : Rpc) : bool :=
  match q with RpcSubmit _ _ => true | _ => false end.

End handlers.

(** ** Lemmas *)

Section lemmas.
Context {J : SerdeJson} {K : SolanaSdk} {C : BlockchainCore} {L : RbacLaws} {X : X509} {H : HttpHeaders}.
Context (cfg : Config) (from_headers : gmap string (list HeaderValue) -> ServiceRole).
Implicit Types (hs : gmap string (list HeaderValue)) (q : Rpc).

Abbreviation role_of_request hs := (extract_role from_headers (getenv cfg) hs).

Lemma require_role_cases {A : Type} hs roles (body : prog bans (result A ConnectError)) :
  (bool_decide (role_of_request hs ∈ roles \/ role_of_request hs = Admin) = true
   /\ require_role cfg from_headers hs roles body = body) \/
  (bool_decide (role_of_request hs ∈ roles \/ role_of_request hs = Admin) = false
   /\ exists msg, require_role cfg from_headers hs roles body = Ret (Err (permission_denied msg))).
Proof.
  unfold require_role. rewrite <- require_any_ok.
  destruct (require_any _ _); [left|right]; eauto.
Qed.

(** The role lists of the handlers are the rows of the matrix. *)
Lemma serve_rbac hs q :
  rbac_matrix (role_of_request hs) q = false ->
  exists msg, serve cfg from_headers hs q = Ret (Err (permission_denied msg)).
Proof.
  intros Hm. destruct q; unfold serve, erased, submit_transaction, get_balance, get_account_data,
    get_latest_blockhash, get_recent_prioritization_fees, get_token_account_balance,
    get_signature_status, get_slot, request_airdrop, get_transaction_details, get_epoch_info.
  all: match goal with |- context [require_role _ _ ?hs ?l ?b] =>
         destruct (require_role_cases hs l b) as [[Hd ->]|[_ [msg ->]]] end.
  all: try (by exists msg).
  all: destruct (role_of_request hs); vm_compute in Hm, Hd; congruence.
Qed.

(** Every other RPC makes at most its one provider call, and its errors are an
    invalid argument (no call made) or a failed call. *)
Lemma serve_read_always hs q :
  is_submit q = false -> rbac_matrix (role_of_request hs) q = true ->
  always (rpc_call q) (serve cfg from_headers hs q)
    (fun r => exists x, r = Done x
              /\ forall e, x = Err e -> ce_code e = InvalidArgument \/ ce_code e = Internal).
Proof.
  intros Hq Hm. destruct q; [done|..];
    unfold serve, erased, get_balance, get_account_data,
      get_latest_blockhash, get_recent_prioritization_fees, get_token_account_balance,
      get_signature_status, get_slot, request_airdrop, get_transaction_details, get_epoch_info.
  all: match goal with |- context [require_role _ _ ?hs ?l ?b] =>
         destruct (require_role_cases hs l b) as [[_ ->]|[Hd _]] end.
  all: try (destruct (role_of_request hs); vm_compute in Hm, Hd; congruence).
  all: try match goal with |- context [pubkey_from_str ?k] => is_var k; destruct (pubkey_from_str k) eqn:E
                          | |- context [signature_from_str ?k] => destruct (signature_from_str k) eqn:E
                          | |- context [collect ?f ?l] => destruct (collect f l) as [pks|] eqn:E
       end.
  all: cbn.
  all: try (intros x; split; [unfold rpc_call; cbn; eauto|]).
  all: try (eexists; split; [done|]; repeat split_match; cbn; intros; simplify_eq; cbn; auto; fail).
  all: try (destruct x as [?|?]; repeat split_match; eexists; (split; [done|]); intros; simplify_eq/=; auto; fail).
  - apply collect_Ok in E. eapply Forall2_impl; [exact E|]. intros k pk. apply map_err_Ok.
  - apply collect_Err in E as (k & _ & (m & _ & ->)%map_err_Err). eexists. split; [done|].
    intros ? [= <-]. by left.
Qed.

(** A rule for everything a request can do: the pipeline, or one query. *)
Definition query_op (o : bop) : bool :=
  match o with
  | LatestBlockhash | GetBalance _ | GetAccount _ | GetFees _ | GetTokenBalance _ | SigStatuses _
  | GetSlot | RequestAirdrop _ _ | GetTransaction _ | GetEpochInfo => true
  | _ => false
  end.

Lemma serve_rule (P : event bans -> Prop) hs q :
  (forall ser key, q = RpcSubmit ser key -> always P (sign_and_submit cfg ser key (request_identity hs) "") (fun _ => True)) ->
  (forall o x, query_op o = true -> P (Ev o x)) ->
  always P (serve cfg from_headers hs q) (fun _ => True).
Proof.
  intros Hs Hq. destruct q;
    unfold serve, erased, submit_transaction, get_balance, get_account_data,
      get_latest_blockhash, get_recent_prioritization_fees, get_token_account_balance,
      get_signature_status, get_slot, request_airdrop, get_transaction_details, get_epoch_info, require_role.
  { eapply (always_bind _ _ _ (fun _ => True)); [|done|done]. split_match; [|done].
    eapply (always_bind _ _ _ (fun _ => True)); [by apply Hs|done|done]. }
  all: repeat match goal with
         | |- True => exact I
         | |- _ (Ev _ _) => by apply Hq
         | |- _ /\ _ => split
         | |- forall _, _ => intro
         | |- always _ _ _ => first [split_match | progress cbn]
         | |- _ => split_match
         end.
Qed.

(** The phase of a run that got an accepted submission. *)
Lemma accepted_phase key_id tr tx sig ph :
  monitor (pipeline_step key_id) PIdle tr = Some ph -> Ev (SendTx tx) (Ok sig) ∈ tr -> ph = PSent (Ok sig).
Proof.
  intros Hm (t1 & t2 & ->)%list_elem_of_split. rewrite monitor_app in Hm.
  destruct (monitor _ PIdle t1) as [p1|]; [|done]. cbn [monitor] in Hm.
  assert (Hs : pipeline_step key_id p1 (Ev (SendTx tx) (Ok sig)) = Some (PSent (Ok sig))
               \/ pipeline_step key_id p1 (Ev (SendTx tx) (Ok sig)) = None).
  { destruct p1; cbn; repeat split_match; auto. }
  destruct Hs as [Hs|Hs]; rewrite Hs in Hm; [|done].
  by eapply settled_audit_only in Hm as [_ ?].
Qed.

(** A monitor that allows one call. *)
Definition at_most_one (used : bool) (e : event bans) : option bool :=
  if used then None else Some true.

Lemma at_most_one_length tr b : monitor at_most_one false tr = Some b -> (length tr <= 1)%nat.
Proof. destruct tr as [|e [|e' tr]]; cbn; [lia|lia|done]. Qed.

Lemma serve_read_once hs q :
  is_submit q = false -> obeys at_most_one false (serve cfg from_headers hs q) (fun _ _ => True).
Proof.
  intros Hq. destruct q; [done|..];
    unfold serve, erased, get_balance, get_account_data,
      get_latest_blockhash, get_recent_prioritization_fees, get_token_account_balance,
      get_signature_status, get_slot, request_airdrop, get_transaction_details, get_epoch_info, require_role.
  all: repeat (split_match; cbn; try done).
Qed.

(** ** Claims *)

(** C21: role-based access control of the RPC surface.  A caller whose role the
    matrix does not list for an RPC gets [PermissionDenied] before any call
    leaves the bridge: nothing is read, simulated, signed, sent or audited.  A
    caller it does list is never refused by a read RPC. *)
Theorem rpc_rbac hs q tr r :
  runs (serve cfg from_headers hs q) tr r ->
  (rbac_matrix (role_of_request hs) q = false ->
     tr = [] /\ exists msg, r = Done (Err (permission_denied msg)))
  /\ (rbac_matrix (role_of_request hs) q = true -> is_submit q = false ->
     forall e, r = Done (Err e) -> ce_code e <> PermissionDenied).
Proof.
  intros Hr. split.
  - intros [msg Hs]%serve_rbac. rewrite Hs in Hr. destruct Hr as [-> ->]. eauto.
  - intros Hm Hq e ->.
    apply (always_runs _ _ _ _ _ (serve_read_always hs q Hq Hm)) in Hr as [_ (x & [= <-] & He)].
    by destruct (He e eq_refl) as [-> | ->].
Qed.

(** The ten RPCs other than submit only read: a run makes at most one call,
    the provider query the RPC is for, with the parsed arguments; it never
    reaches the Vault, the submission path, the audit trail or the consumer's
    maps (the airdrop request is its own provider call), and never panics. *)
Theorem read_rpc_single_call hs q tr r :
  is_submit q = false -> runs (serve cfg from_headers hs q) tr r ->
  (length tr <= 1)%nat /\ Forall (rpc_call q) tr /\ r <> Aborted.
Proof.
  intros Hq Hr. split.
  { destruct (obeys_runs _ _ _ _ _ _ (serve_read_once hs q Hq) Hr) as (b & Hb & _).
    by eapply at_most_one_length. }
  destruct (rbac_matrix (role_of_request hs) q) eqn:Hm.
  - apply (always_runs _ _ _ _ _ (serve_read_always hs q Hq Hm)) in Hr as [? (x & -> & _)].
    by split.
  - apply serve_rbac in Hm as [msg Hs]. rewrite Hs in Hr. by destruct Hr as [-> ->].
Qed.

(** C22: the submit RPC tells the truth.  It answers success exactly when the
    node accepted a submission in that run, with the node's signature and slot 0.
    An error is either the refusal of the caller's role, before any call, or the
    classification of the stage at which this run of the pipeline failed, which is
    never [Internal]. *)
Theorem submit_rpc_outcome hs ser key_id tr r :
  runs (submit_transaction cfg from_headers hs ser key_id) tr r ->
  ((exists resp, r = Done (Ok resp)) <-> (exists tx sig, Ev (SendTx tx) (Ok sig) ∈ tr))
  /\ (forall resp, r = Done (Ok resp) -> sub_success resp = true /\ sub_slot resp = 0
        /\ exists tx sig, Ev (SendTx tx) (Ok sig) ∈ tr /\ sub_signature resp = signature_to_string sig)
  /\ (forall e, r = Done (Err e) ->
        (tr = [] /\ rbac_matrix (role_of_request hs) (RpcSubmit ser key_id) = false
         /\ exists msg, e = permission_denied msg)
        \/ exists s, runs (sign_and_submit cfg ser key_id (request_identity hs) "") tr (Done (Err s))
            /\ classify_submit_error (AnyStage s) = (ce_code e, ce_message e)
            /\ ce_code e <> Internal).
Proof.
  unfold submit_transaction. intros Hr.
  match type of Hr with runs (require_role _ _ _ ?l ?b) _ _ =>
    destruct (require_role_cases hs l b) as [[_ Hb]|[Hd [msg Hb]]]; rewrite Hb in Hr end.
  2:{ destruct Hr as [-> ->]. splits; [|naive_solver|].
      2:{ intros ? [= <-]. left. splits; [done| |by eexists].
          destruct (role_of_request hs); vm_compute in Hd |- *; congruence. }
      split; [naive_solver|]. by intros (? & ? & ?%elem_of_nil). }
  apply runs_bind in Hr as [(x & t1 & t2 & -> & H1 & H2)|[H1 ->]];
    destruct (obeys_runs _ _ _ _ _ _ (sign_and_submit_obeys _ _ _ _ _) H1) as (ph & Hm & Hend).
  - destruct H2 as [-> ->]. rewrite app_nil_r. destruct x as [[sig slot]|s].
    + apply sign_and_submit_ok_sent in H1 as (-> & tx & Hin).
      splits; [split; eauto| |done]. intros resp [= <-]. cbn. splits; [done|done|]. eauto.
    + assert (Hne : ~ exists tx sig, Ev (SendTx tx) (Ok sig) ∈ t1).
      { intros (tx & sig & Hin). pose proof (accepted_phase _ _ _ _ _ Hm Hin) as ->.
        destruct s; cbn in Hend; naive_solver. }
      splits; [|by destruct s|intros e He; right; exists s; split; [done|]; by destruct s; injection He as <-].
      split; [|done]. destruct s; naive_solver.
  - splits; [|done|done]. split; [naive_solver|]. intros (tx & sig & Hin).
    pose proof (accepted_phase _ _ _ _ _ Hm Hin) as ->. cbn in Hend. naive_solver.
Qed.

End lemmas.

(** ** Examples *)

Section examples.
#[local] Existing Instances toy_sdk toy_core toy_rbac toy_x509 toy_headers.
#[local] Existing Instance demo_serde.

Definition caller (ident : string) : gmap string (list HeaderValue) := {[ spiffe_header_name := [ident] ]}.

Definition served (ident : string) (q : Rpc) :=
  fst (run (with_env (fixed_env (healthy 1000))) (serve demo_cfg (fun _ => Unknown) (caller ident) q) (bridge_new, tt)).

Lemma rpc_rbac_witness :
  let s := served "spiffe://gridtokenx/gateway" (RpcSubmit [x01] "platform_admin") in
  fst s = [] /\ exists msg, snd s = Done (Err (permission_denied msg)).
Proof.
  refine (proj1 (rpc_rbac demo_cfg (fun _ => Unknown) (caller "spiffe://gridtokenx/gateway")
                   (RpcSubmit [x01] "platform_admin") _ _ _) _);
    [apply run_trace|vm_compute; reflexivity].
Defined.

Lemma read_rpc_single_call_witness :
  let s := served "spiffe://gridtokenx/trading" (RpcBalance "wallet") in
  length (fst s) = 1%nat /\ (length (fst s) <= 1)%nat /\ Forall (rpc_call (RpcBalance "wallet")) (fst s)
  /\ snd s <> Aborted.
Proof.
  split; [vm_compute; reflexivity|].
  apply (read_rpc_single_call demo_cfg (fun _ => Unknown) (caller "spiffe://gridtokenx/trading")
           (RpcBalance "wallet")); [reflexivity|apply run_trace].
Defined.

Lemma submit_rpc_outcome_witness :
  let s := fst (run (with_env (fixed_env (healthy 1000)))
    (submit_transaction demo_cfg (fun _ => Unknown) (caller "spiffe://gridtokenx/trading") [x01] "platform_admin")
    (bridge_new, tt)) in
  (exists resp, snd s = Done (Ok resp)) /\ exists tx sig, Ev (SendTx tx) (Ok sig) ∈ fst s.
Proof.
  cbn zeta.
  pose proof (submit_rpc_outcome demo_cfg (fun _ => Unknown) (caller "spiffe://gridtokenx/trading")
    [x01] "platform_admin" _ _ (run_trace (with_env (fixed_env (healthy 1000))) _ (bridge_new, tt))) as [Hi _].
  assert (Ho : exists resp, snd (fst (run (with_env (fixed_env (healthy 1000)))
    (submit_transaction demo_cfg (fun _ => Unknown) (caller "spiffe://gridtokenx/trading") [x01] "platform_admin")
    (bridge_new, tt))) = Done (Ok resp)) by (eexists; vm_compute; reflexivity).
  split; [exact Ho|]. apply Hi. exact Ho.
Defined.

End examples.
