(* ===== verification/Consumer.v ===== *)
(** * The NATS consumer (src/nats_consumer/consumer.rs)

    One command tree per handler.  The long handlers are cut at their numbered
    steps into one definition per group of steps, each ending in the next, so
    that the whole handler is the first of them.  [dispatch] is the subject match
    of the receive loop and [cleanup_task] the background task of [start]. *)

From S2P Require Import Prelude RustStd Effects Domain External BridgeOps Identity Signing.
From Stdlib Require String.
Import String.StringSyntax.

Local Open Scope Z_scope.

Section consumer.
Context {J : SerdeJson} {K : SolanaSdk} {C : BlockchainCore} {X : X509} {B : Base64} {R : TokioRetry}.
Context (cfg : Config) (auth_policy : NatsAuthPolicy).

(** ** Shared steps *)

(** [let _ = msg.ack().await] and [let _ = msg.ack_with(Term).await]. *)
Definition ack_msg (kind : AckKind) : prog bans unit :=
  do! call (AckMsg kind) ;; Ret tt.

Definition metric (name : string) (success : bool) : prog bans unit :=
  do! call (Metric name success) ;; Ret tt.

(** [publish_result] and its three siblings: encode, publish, log failures. *)
Definition publish_reply (subject : string) (r : Reply) : prog bans unit :=
  match encode_reply r with
  | Err _ => Ret tt
  | Ok payload => do! call (Publish subject payload) ;; Ret tt
  end.

Definition publish_result (subject : string) (m : TxResultMessage) : prog bans unit :=
  publish_reply subject (ReplySubmit m).
Definition publish_cancel_result (subject : string) (m : TxCancelResultMessage) : prog bans unit :=
  publish_reply subject (ReplyCancel m).
Definition publish_mint_result (subject : string) (m : MintEnergyResultMessage) : prog bans unit :=
  publish_reply subject (ReplyMint m).
Definition publish_status_result (subject : string) (m : TxStatusResultMessage) : prog bans unit :=
  publish_reply subject (ReplyStatus m).

Definition audit_rejection (corr claimed act stage reason : string) : prog bans unit :=
  record_audit corr claimed act (Rejected stage reason).

(** [evaluate_envelope_auth]. *)
Definition evaluate_envelope_auth (auth : option EnvelopeAuth) (claimed_identity : string)
    (canonical : bytes) (force_signed : bool) : prog bans (result unit string) :=
  let require := require_signed auth_policy || force_signed in
  now_secs <~ call NowSecs ;;
  let check := check_envelope_auth (ca_der auth_policy) auth claimed_identity canonical now_secs in
  do! match check with
      | Verified => metric "nats_auth_verified" true
      | Unsigned => metric "nats_auth_unsigned" true
      | Failed _ => metric "nats_auth_failed" false
      end ;;
  Ret (auth_decision check require).

(** [(!key.is_empty()).then(|| format!("{ns}:{key}"))]. *)
Definition namespaced (ns key : string) : option string :=
  if str_is_empty key then None else Some (ns +:+ ":" +:+ key).

(** [self.dedup_store.insert/remove] under [if let Some(key) = &dedup_key]. *)
Definition dedup_done (key : option string) (now_ms : Z) (sig : Signature) (slot : Z) : prog bans unit :=
  match key with
  | Some k => call (DedupInsert k (mkDedup (u64_add now_ms 120000)
                                     (DoneState (Some (signature_to_string sig)) slot)))
  | None => Ret tt
  end.

Definition dedup_release (key : option string) : prog bans unit :=
  match key with
  | Some k => call (DedupRemove k)
  | None => Ret tt
  end.

(** ** handle_submit *)

Definition submit_failure (env : TxSubmitMessage) (err : string) : TxResultMessage :=
  mkTxResult (ts_correlation_id env) false None (Some err) 0 false.

(** A rejected submit: audit (where the branch has one), reply, ack. *)
Definition submit_reject (env : TxSubmitMessage) (audit : option (string * string)) (err : string)
    (kind : AckKind) : prog bans unit :=
  do! match audit with
      | Some (stage, reason) =>
          audit_rejection (ts_correlation_id env) (ts_service_identity env) "submit" stage reason
      | None => Ret tt
      end ;;
  do! publish_result (ts_reply_subject env) (submit_failure env err) ;;
  ack_msg kind.

(** Step 5: sign and submit with retries, record the effect, reply, ack. *)
Definition submit_effect (env : TxSubmitMessage) (now_ms : Z) (dedup_key : option string) : prog bans unit :=
  result <~ retry_spawn (fixed_interval_take 500 3)
              (sign_and_submit cfg (ts_serialized_tx env) (ts_key_id env)
                 (ts_service_identity env) (ts_correlation_id env)) ;;
  result_msg <~ match result with
                | Ok (sig, slot) =>
                    do! call (IdemInsert (ts_correlation_id env) (u64_add now_ms 60000)) ;;
                    do! dedup_done dedup_key now_ms sig slot ;;
                    Ret (mkTxResult (ts_correlation_id env) true (Some (signature_to_string sig)) None slot false)
                | Err e =>
                    do! dedup_release dedup_key ;;
                    Ret (submit_failure env (any_display (AnyStage e)))
                end ;;
  do! metric "nats_consumer_submit" (tr_success result_msg) ;;
  do! publish_result (ts_reply_subject env) result_msg ;;
  ack_msg Ack.

(** Step 4.5: effect-level dedup. *)
Definition submit_dedup (env : TxSubmitMessage) (now_ms : Z) : prog bans unit :=
  let dedup_key := namespaced "submit" (ts_idempotency_key env) in
  claim <~ call (ClaimOrReplay dedup_key (ts_correlation_id env) now_ms) ;;
  match (claim : option TxResultMessage) with
  | Some result_msg =>
      do! metric "nats_submit_deduplicated" (tr_success result_msg) ;;
      do! publish_result (ts_reply_subject env) result_msg ;;
      ack_msg Ack
  | None => submit_effect env now_ms dedup_key
  end.

(** Step 4: format, policy and key checks. *)
Definition submit_checks (env : TxSubmitMessage) (now_ms : Z) : prog bans unit :=
  match deserialize_tx (ts_serialized_tx env) with
  | Err e => submit_reject env None ("Invalid transaction format: " +:+ e) Term
  | Ok transaction =>
      match validate_transaction (ts_service_identity env) transaction with
      | Err e => submit_reject env (Some ("policy", e)) ("Policy Engine rejection: " +:+ e) Term
      | Ok _ =>
          if negb (String.eqb (ts_key_id env) "platform_admin") && negb (str_is_empty (ts_key_id env)) then
            let reason := "Key ID not authorized: " +:+ ts_key_id env in
            submit_reject env (Some ("auth", reason)) reason Term
          else submit_dedup env now_ms
      end
  end.

(** Steps 1 to 3: role, redelivery and staleness. *)
Definition submit_admit (env : TxSubmitMessage) : prog bans unit :=
  if bool_decide (role_of (ts_service_identity env) = Unknown) then
    submit_reject env (Some ("rbac", "unknown service role"))
      ("Unauthorised service identity: " +:+ ts_service_identity env) Term
  else
    dup <~ call (IdemContains (ts_correlation_id env)) ;;
    if (dup : bool) then ack_msg Ack
    else
      now <~ call NowMs ;;
      let now_ms := as_u64 now in
      let age_ms := saturating_sub now_ms (ts_created_at_ms env) in
      if 55000 <? age_ms then
        do! metric "nats_submit_stale_rejected" false ;;
        submit_reject env (Some ("stale", "stale envelope: age " +:+ pretty age_ms +:+ "ms"))
          "Stale transaction — blockhash may be expired" Ack
      else submit_checks env now_ms.

Definition handle_submit (payload : bytes) : prog bans unit :=
  match parse_submit payload with
  | Err _ => ack_msg Term
  | Ok env =>
      auth <~ evaluate_envelope_auth (ts_auth env) (ts_service_identity env)
                (canonical_submit_bytes env) false ;;
      match auth with
      | Err reason =>
          do! metric "nats_auth_rejected" false ;;
          let reason := "envelope authentication failed: " +:+ reason in
          submit_reject env (Some ("auth", reason)) reason Term
      | Ok _ => submit_admit env
      end
  end.

(** ** handle_cancel *)

Definition cancel_reject (env : TxCancelMessage) (stage reason err : string) (kind : AckKind) : prog bans unit :=
  do! audit_rejection (tc_correlation_id env) (tc_service_identity env) "cancel" stage reason ;;
  do! publish_cancel_result (tc_reply_subject env) (mkCancelResult (tc_correlation_id env) false (Some err)) ;;
  ack_msg kind.

(** Steps 1 to 4. *)
Definition cancel_admit (env : TxCancelMessage) : prog bans unit :=
  if bool_decide (role_of (tc_service_identity env) = Unknown) then
    cancel_reject env "rbac" "unknown service role"
      ("Unauthorised service identity: " +:+ tc_service_identity env) Term
  else
    dup <~ call (IdemContains ("cancel:" +:+ tc_correlation_id env)) ;;
    if (dup : bool) then ack_msg Ack
    else
      now <~ call NowMs ;;
      let now_ms := as_u64 now in
      if 55000 <? saturating_sub now_ms (tc_created_at_ms env) then
        cancel_reject env "stale" "stale cancellation request" "Cancellation request stale" Ack
      else
        do! call (IdemInsert ("cancel:" +:+ tc_correlation_id env) (u64_add now_ms 60000)) ;;
        do! call (IdemInsert (tc_correlation_id env) (u64_add now_ms 60000)) ;;
        do! metric "nats_consumer_cancel" true ;;
        do! publish_cancel_result (tc_reply_subject env) (mkCancelResult (tc_correlation_id env) true None) ;;
        ack_msg Ack.

Definition handle_cancel (payload : bytes) : prog bans unit :=
  match parse_cancel payload with
  | Err _ => ack_msg Term
  | Ok env =>
      auth <~ evaluate_envelope_auth (tc_auth env) (tc_service_identity env)
                (canonical_cancel_bytes env) false ;;
      match auth with
      | Err reason =>
          do! metric "nats_auth_rejected" false ;;
          let reason := "envelope authentication failed: " +:+ reason in
          cancel_reject env "auth" reason reason Term
      | Ok _ => cancel_admit env
      end
  end.

(** ** handle_mint *)

Definition mint_failure (env : MintEnergyMessage) (err : string) : MintEnergyResultMessage :=
  mkMintResult (me_correlation_id env) false None (Some err) 0 false.

Definition mint_reject (env : MintEnergyMessage) (stage reason err : string) (kind : AckKind) : prog bans unit :=
  do! audit_rejection (me_correlation_id env) (me_service_identity env) "mint" stage reason ;;
  do! publish_mint_result (me_reply_subject env) (mint_failure env err) ;;
  ack_msg kind.

(** Step 5: build, sign, submit, confirm; record the effect; reply; ack. *)
Definition mint_effect (env : MintEnergyMessage) (now_ms : Z) (dedup_key : option string) : prog bans unit :=
  result <~ build_and_submit_generation_mint cfg (me_recipient_wallet env) (me_energy_kwh env)
              (me_meter_id env) (me_window_start_ms env) (me_service_identity env) (me_correlation_id env) ;;
  result_msg <~ match result with
                | Ok (sig, slot) =>
                    do! call (IdemInsert (me_correlation_id env) (u64_add now_ms 60000)) ;;
                    do! dedup_done dedup_key now_ms sig slot ;;
                    Ret (mkMintResult (me_correlation_id env) true (Some (signature_to_string sig)) None slot false)
                | Err e =>
                    do! dedup_release dedup_key ;;
                    Ret (mint_failure env (any_display e))
                end ;;
  do! metric "nats_consumer_mint" (mr_success result_msg) ;;
  do! publish_mint_result (me_reply_subject env) result_msg ;;
  ack_msg Ack.

(** Step 4: effect-level dedup. *)
Definition mint_dedup (env : MintEnergyMessage) (now_ms : Z) : prog bans unit :=
  let dedup_key := namespaced "mint" (me_idempotency_key env) in
  claim <~ call (ClaimOrReplay dedup_key (me_correlation_id env) now_ms) ;;
  match (claim : option TxResultMessage) with
  | Some prior =>
      do! metric "nats_mint_deduplicated" (tr_success prior) ;;
      do! publish_mint_result (me_reply_subject env)
            (mkMintResult (tr_correlation_id prior) (tr_success prior) (tr_signature prior)
               (tr_error prior) (tr_slot prior) true) ;;
      ack_msg Ack
  | None => mint_effect env now_ms dedup_key
  end.

(** Steps 1 to 3. *)
Definition mint_admit (env : MintEnergyMessage) : prog bans unit :=
  if is_err (require_any (role_of (me_service_identity env)) [AggregatorBridge; MeterService]) then
    mint_reject env "rbac" "role not permitted to mint"
      ("Unauthorised service identity for mint: " +:+ me_service_identity env) Term
  else
    dup <~ call (IdemContains (me_correlation_id env)) ;;
    if (dup : bool) then ack_msg Ack
    else
      now <~ call NowMs ;;
      let now_ms := as_u64 now in
      let age_ms := saturating_sub now_ms (me_created_at_ms env) in
      if 55000 <? age_ms then
        do! metric "nats_mint_stale_rejected" false ;;
        mint_reject env "stale" ("stale envelope: age " +:+ pretty age_ms +:+ "ms") "Stale mint request" Ack
      else mint_dedup env now_ms.

Definition handle_mint (payload : bytes) : prog bans unit :=
  match parse_mint payload with
  | Err _ => ack_msg Term
  | Ok env =>
      auth <~ evaluate_envelope_auth (me_auth env) (me_service_identity env)
                (canonical_mint_bytes env) true ;;
      match auth with
      | Err reason =>
          do! metric "nats_auth_rejected" false ;;
          let reason := "envelope authentication failed: " +:+ reason in
          mint_reject env "auth" reason reason Term
      | Ok _ => mint_admit env
      end
  end.

(** ** handle_status *)

Definition status_failure (env : TxStatusMessage) (err : string) : TxStatusResultMessage :=
  mkStatusResult (tq_correlation_id env) false false "Error" 0 (Some err).

Definition status_reject (env : TxStatusMessage) (stage reason err : string) : prog bans unit :=
  do! audit_rejection (tq_correlation_id env) (tq_service_identity env) "status" stage reason ;;
  do! publish_status_result (tq_reply_subject env) (status_failure env err) ;;
  ack_msg Term.

Definition status_query (env : TxStatusMessage) : prog bans unit :=
  if is_err (require_any (role_of (tq_service_identity env)) [MeterService; Admin]) then
    status_reject env "rbac" "role not permitted to query status"
      ("Unauthorised service identity for status: " +:+ tq_service_identity env)
  else
    st <~ signature_status (tq_signature env) ;;
    do! publish_status_result (tq_reply_subject env)
          (match st with
           | Ok (found, confirmed, status, slot) =>
               mkStatusResult (tq_correlation_id env) found confirmed status slot None
           | Err e => status_failure env (any_display e)
           end) ;;
    ack_msg Ack.

Definition handle_status (payload : bytes) : prog bans unit :=
  match parse_status payload with
  | Err _ => ack_msg Term
  | Ok env =>
      auth <~ evaluate_envelope_auth (tq_auth env) (tq_service_identity env)
                (canonical_status_bytes env) false ;;
      match auth with
      | Err reason =>
          do! metric "nats_auth_rejected" false ;;
          let reason := "envelope authentication failed: " +:+ reason in
          status_reject env "auth" reason reason
      | Ok _ => status_query env
      end
  end.

(** ** The receive loop's subject match *)

Definition dispatch (subject : string) (payload : bytes) : prog bans unit :=
  if String.eqb subject "chain.tx.submit" then handle_submit payload
  else if String.eqb subject "chain.tx.cancel" then handle_cancel payload
  else if String.eqb subject "chain.tx.mint" then handle_mint payload
  else if String.eqb subject "chain.tx.status" then handle_status payload
  else ack_msg Ack.

(** ** The cleanup task of [start]

    [idempotency_cache.clone()] copies the map, [dedup_store.clone()] shares it:
    a tick filters its own copy of the first and the live second.  [n] ticks. *)
Fixpoint cleanup_task (n : nat) (cleanup_cache : gmap string Z) : prog bans (gmap string Z) :=
  match n with
  | O => Ret cleanup_cache
  | S n =>
      now <~ call NowMs ;;
      let now_ms := as_u64 now in
      let kept := filter (fun x : string * Z => now_ms < snd x) cleanup_cache in
      do! call (DedupRetain now_ms) ;;
      cleanup_task n kept
  end.

End consumer.
