(* ===== verification/ConsumerSpec.v ===== *)
(** * The NATS consumer: theorems

    The life cycle of a message (one reply at most, one ack, ack last), the
    gates in front of every signature and submission, retries, cancellation and
    the read-only status path. *)

From S2P Require Import Prelude RustStd Effects Domain External BridgeOps Fixtures Identity Signing SigningSpec Consumer.
From Stdlib Require String.
Import String.StringSyntax.

Local Open Scope Z_scope.

Section spec.
Context {J : SerdeJson} {K : SolanaSdk} {C : BlockchainCore} {X : X509} {B : Base64} {R : TokioRetry}.
Context (cfg : Config) (auth_policy : NatsAuthPolicy).

(** ** Vocabulary *)

(** Calls with no effect on the chain, the Vault or the consumer's maps. *)
Definition denied (e : event bans) : Prop :=
  match e with
  | Ev NowSecs _ | Ev NowMs _ | Ev (Metric _ _) _ | Ev (AuditAppend _) _
  | Ev (Publish _ _) _ | Ev (AckMsg _) _ | Ev (IdemContains _) _ => True
  | _ => False
  end.

(** The same with a dedup claim that was refused. *)
Definition quiet (e : event bans) : Prop :=
  match e with
  | Ev (ClaimOrReplay _ _ _) (Some _) => True
  | _ => denied e
  end.

(** The life cycle of one message. *)
Inductive lifecycle : Type := Working | Replied | Acked.

Definition lifecycle_step (m : lifecycle) (e : event bans) : option lifecycle :=
  match m, ev_op e with
  | Working, Publish _ _ => Some Replied
  | (Working | Replied), AckMsg _ => Some Acked
  | Working, _ => Some Working
  | _, _ => None
  end.

(** A call a handler's inner pipeline may make without touching the message. *)
Definition inner (e : event bans) : Prop :=
  match ev_op e with Publish _ _ | AckMsg _ => False | _ => True end.

(** The envelope passed authentication at the clock reading [now_secs]. *)
Definition auth_passed (auth : option EnvelopeAuth) (claimed : string) (canonical : bytes)
    (force : bool) (now_secs : Z) : Prop :=
  auth_decision (check_envelope_auth (ca_der auth_policy) auth claimed canonical now_secs)
    (require_signed auth_policy || force) = Ok tt.

(** The trace of a message that reached its effect: authentication, the
    redelivery check, the clock and the granted claim. *)
Definition admitted (corr : string) (key : option string) (now_secs now : Z) (m : string) (b : bool)
  : list (event bans) :=
  [ Ev NowSecs now_secs; Ev (Metric m b) tt; Ev (IdemContains corr) false; Ev NowMs now;
    Ev (ClaimOrReplay key corr (as_u64 now)) None ].

(** ** Basic rules *)

Lemma eval_auth_runs auth claimed canonical force tr r :
  runs (evaluate_envelope_auth auth_policy auth claimed canonical force) tr r ->
  exists now m b, tr = [Ev NowSecs now; Ev (Metric m b) tt] /\
    r = Done (auth_decision (check_envelope_auth (ca_der auth_policy) auth claimed canonical now)
                (require_signed auth_policy || force)).
Proof.
  unfold evaluate_envelope_auth. cbn [call bind runs]. intros (now & t & -> & Hr). cbn zeta in Hr.
  apply runs_bind in Hr as [(u & t1 & t2 & -> & H1 & -> & ->)|[H1 _]];
    destruct (check_envelope_auth _ _ _ _ _) eqn:Hk; cbn in H1; try naive_solver.
  all: destruct H1 as ([] & t & -> & -> & _); do 3 eexists; by rewrite Hk.
Qed.

Lemma publish_reply_always P subject rep :
  (forall p x, P (Ev (Publish subject p) x)) ->
  always P (publish_reply subject rep) (fun r => r = Done tt).
Proof. intros HP. unfold publish_reply. destruct (encode_reply rep); cbn; auto. Qed.

Lemma submit_reject_denied env audit err kind :
  always denied (submit_reject env audit err kind) (fun r => r = Done tt).
Proof.
  unfold submit_reject. eapply (always_bind _ _ _ (fun r => r = Done tt)); [|intros []|done].
  - destruct audit as [[stage reason]|]; cbn; auto.
  - intros _. eapply always_bind; [by apply publish_reply_always| |done]. by cbn.
Qed.

Lemma mint_reject_denied env stage reason err kind :
  always denied (mint_reject env stage reason err kind) (fun r => r = Done tt).
Proof.
  unfold mint_reject. eapply (always_bind _ _ _ (fun r => r = Done tt)); [by cbn|intros []|done].
  intros _. eapply always_bind; [by apply publish_reply_always| |done]. by cbn.
Qed.

Lemma cancel_reject_denied env stage reason err kind :
  always denied (cancel_reject env stage reason err kind) (fun r => r = Done tt).
Proof.
  unfold cancel_reject. eapply (always_bind _ _ _ (fun r => r = Done tt)); [by cbn|intros []|done].
  intros _. eapply always_bind; [by apply publish_reply_always| |done]. by cbn.
Qed.

Lemma status_reject_denied env stage reason err :
  always denied (status_reject env stage reason err) (fun r => r = Done tt).
Proof.
  unfold status_reject. eapply (always_bind _ _ _ (fun r => r = Done tt)); [by cbn|intros []|done].
  intros _. eapply always_bind; [by apply publish_reply_always| |done]. by cbn.
Qed.

Lemma metric_quiet {A : Type} m b (p : prog bans A) tr r :
  runs (bind (metric m b) (fun _ => p)) tr r ->
  exists tr', tr = Ev (Metric m b) tt :: tr' /\ runs p tr' r.
Proof. cbn. intros ([] & t & -> & Hr). eauto. Qed.

Lemma always_denied_runs {A : Type} (p : prog bans A) F tr r :
  always denied p F -> runs p tr r -> Forall denied tr.
Proof. intros HA HR. by destruct (always_runs _ _ _ _ _ HA HR). Qed.

(** ** One rule per handler

    A property of every event of a handler, and a condition for its panics, from
    the calls all handlers make and from the handler's effect. *)

(** Clock, metrics, reply, ack, the redelivery check, and an audit entry stamped
    with the clock. *)
Definition routine (e : event bans) : Prop :=
  match e with
  | Ev NowSecs _ | Ev NowMs _ | Ev (Metric _ _) _
  | Ev (Publish _ _) _ | Ev (AckMsg _) _ | Ev (IdemContains _) _ => True
  | Ev (AuditAppend a) _ => exists n, created_at_ms a = as_u64 n
  | _ => False
  end.

Section rules.
Context (P : event bans -> Prop) (Q : Prop).
Context (Hroutine : forall e, routine e -> P e).

Lemma finish_rule name b subject rep kind :
  always P (do! metric name b ;; do! publish_reply subject rep ;; ack_msg kind) (fun r => r = Aborted -> Q).
Proof.
  cbn [metric call bind always]. intros []. split; [by apply Hroutine|].
  eapply always_bind; [apply publish_reply_always; intros; by apply Hroutine| |done].
  intros [] _. cbn. intros x. split; [by apply Hroutine|done].
Qed.

Lemma reject_rule {A : Type} (pre : prog bans A) subject (rep : A -> Reply) kind :
  always P pre (fun r => r <> Aborted) ->
  always P (x <~ pre ;; do! publish_reply subject (rep x) ;; ack_msg kind) (fun r => r = Aborted -> Q).
Proof.
  intros Hpre. eapply always_bind; [exact Hpre| |done]. intros x0 _.
  eapply always_bind; [apply publish_reply_always; intros; by apply Hroutine| |done].
  intros [] _. cbn. intros x. split; [by apply Hroutine|done].
Qed.

Lemma audit_rule corr claimed act stage reason :
  always P (audit_rejection corr claimed act stage reason) (fun r => r <> Aborted).
Proof. cbn. intros n. split; [by apply Hroutine|]. intros x. split; [apply Hroutine; by exists n|done]. Qed.

Lemma submit_reject_rule env audit err kind :
  always P (submit_reject env audit err kind) (fun r => r = Aborted -> Q).
Proof. apply (reject_rule _ _ (fun _ => _)). destruct audit as [[stage reason]|]; [apply audit_rule|done]. Qed.

Lemma ack_rule kind : always P (ack_msg kind) (fun r => r = Aborted -> Q).
Proof. cbn. intros x. split; [by apply Hroutine|done]. Qed.

(** Envelope authentication in front of a handler. *)
Lemma eval_auth_rule auth claimed canonical force (accept : prog bans unit) (reject : string -> prog bans unit) :
  always P accept (fun r => r = Aborted -> Q) ->
  (forall reason, always P (reject reason) (fun r => r = Aborted -> Q)) ->
  always P (auth <~ evaluate_envelope_auth auth_policy auth claimed canonical force ;;
            match auth with
            | Err reason => do! metric "nats_auth_rejected" false ;; reject reason
            | Ok _ => accept
            end) (fun r => r = Aborted -> Q).
Proof.
  intros Ha Hj. eapply (always_bind _ _ _ (fun r => r <> Aborted)); [| |done].
  - unfold evaluate_envelope_auth. cbn. intros x. split; [by apply Hroutine|].
    destruct (check_envelope_auth _ _ _ _ _); cbn; intros []; (split; [by apply Hroutine|done]).
  - intros [u|reason] _; [done|]. cbn [metric call bind always]. intros []. split; [by apply Hroutine|done].
Qed.

Lemma handle_submit_rule payload :
  (forall env now x, parse_submit payload = Ok env ->
     P (Ev (ClaimOrReplay (namespaced "submit" (ts_idempotency_key env)) (ts_correlation_id env) (as_u64 now)) x)) ->
  (forall env now, parse_submit payload = Ok env ->
     always P (submit_effect cfg env (as_u64 now) (namespaced "submit" (ts_idempotency_key env)))
       (fun r => r = Aborted -> Q)) ->
  always P (handle_submit cfg auth_policy payload) (fun r => r = Aborted -> Q).
Proof.
  intros Hclaim Heff. unfold handle_submit. destruct (parse_submit payload) as [env|] eqn:Hp; [|apply ack_rule].
  apply eval_auth_rule; [|intros; apply submit_reject_rule].
  unfold submit_admit. case_bool_decide; [apply submit_reject_rule|].
  cbn [call bind always]. intros []; (split; [by apply Hroutine|]); [apply ack_rule|].
  cbn [call bind always]. intros now. split; [by apply Hroutine|]. cbn zeta. destruct (55000 <? _).
  { cbn [metric bind call always]. intros []. split; [by apply Hroutine|]. apply submit_reject_rule. }
  unfold submit_checks. destruct (deserialize_tx _); [|apply submit_reject_rule].
  destruct (validate_transaction _ _); [|apply submit_reject_rule].
  destruct (_ && _); [apply submit_reject_rule|].
  unfold submit_dedup. cbn [call bind always]. intros [rm|]; (split; [by apply Hclaim|]); [apply finish_rule|by apply Heff].
Qed.

Lemma handle_mint_rule payload :
  (forall env now x, parse_mint payload = Ok env ->
     P (Ev (ClaimOrReplay (namespaced "mint" (me_idempotency_key env)) (me_correlation_id env) (as_u64 now)) x)) ->
  (forall env now, parse_mint payload = Ok env ->
     always P (mint_effect cfg env (as_u64 now) (namespaced "mint" (me_idempotency_key env)))
       (fun r => r = Aborted -> Q)) ->
  always P (handle_mint cfg auth_policy payload) (fun r => r = Aborted -> Q).
Proof.
  intros Hclaim Heff. unfold handle_mint. destruct (parse_mint payload) as [env|] eqn:Hp; [|apply ack_rule].
  apply eval_auth_rule; [|intros; apply (reject_rule _ _ (fun _ => _)), audit_rule].
  unfold mint_admit. destruct (is_err _); [apply (reject_rule _ _ (fun _ => _)), audit_rule|].
  cbn [call bind always]. intros []; (split; [by apply Hroutine|]); [apply ack_rule|].
  cbn [call bind always]. intros now. split; [by apply Hroutine|]. cbn zeta. destruct (55000 <? _).
  { cbn [metric bind call always]. intros []. split; [by apply Hroutine|]. apply (reject_rule _ _ (fun _ => _)), audit_rule. }
  unfold mint_dedup. cbn [call bind always]. intros [rm|]; (split; [by apply Hclaim|]); [apply finish_rule|by apply Heff].
Qed.

Lemma handle_cancel_rule payload :
  (forall env k now x, parse_cancel payload = Ok env -> P (Ev (IdemInsert k (u64_add now 60000)) x)) ->
  always P (handle_cancel auth_policy payload) (fun r => r = Aborted -> Q).
Proof.
  intros Hins. unfold handle_cancel. destruct (parse_cancel payload) as [env|] eqn:Hp; [|apply ack_rule].
  apply eval_auth_rule; [|intros; apply (reject_rule _ _ (fun _ => _)), audit_rule].
  unfold cancel_admit. case_bool_decide; [apply (reject_rule _ _ (fun _ => _)), audit_rule|].
  cbn [call bind always]. intros []; (split; [by apply Hroutine|]); [apply ack_rule|].
  cbn [call bind always]. intros now. split; [by apply Hroutine|]. cbn zeta.
  destruct (55000 <? _); [apply (reject_rule _ _ (fun _ => _)), audit_rule|].
  cbn [call bind always]. do 2 (intros []; split; [by eapply Hins|]). apply finish_rule.
Qed.

Lemma handle_status_rule payload :
  (forall sigs x, P (Ev (SigStatuses sigs) x)) ->
  always P (handle_status auth_policy payload) (fun r => r = Aborted -> Q).
Proof.
  intros Hsig. unfold handle_status. destruct (parse_status payload) as [env|] eqn:Hp; [|apply ack_rule].
  apply eval_auth_rule; [|intros; apply (reject_rule _ _ (fun _ => _)), audit_rule].
  unfold status_query. destruct (is_err _); [apply (reject_rule _ _ (fun _ => _)), audit_rule|].
  apply (reject_rule (signature_status (tq_signature env)) _ (fun st => ReplyStatus _)).
  unfold signature_status. destruct (signature_from_str _); cbn; [|done].
  intros x. by split.
Qed.

(** Every delivery, from its handlers. *)
Lemma dispatch_rule subject payload :
  (subject = "chain.tx.submit" -> always P (handle_submit cfg auth_policy payload) (fun r => r = Aborted -> Q)) ->
  (subject = "chain.tx.mint" -> always P (handle_mint cfg auth_policy payload) (fun r => r = Aborted -> Q)) ->
  (forall k now x, P (Ev (IdemInsert k (u64_add now 60000)) x)) -> (forall sigs x, P (Ev (SigStatuses sigs) x)) ->
  always P (dispatch cfg auth_policy subject payload) (fun r => r = Aborted -> Q).
Proof.
  intros Hsub Hmint Hins Hsig. unfold dispatch.
  destruct (String.eqb_spec subject "chain.tx.submit"); [auto|].
  destruct (String.eqb subject "chain.tx.cancel"); [apply handle_cancel_rule; auto|].
  destruct (String.eqb_spec subject "chain.tx.mint"); [auto|].
  destruct (String.eqb subject "chain.tx.status"); [by apply handle_status_rule|apply ack_rule].
Qed.

End rules.

(** ** Canonical form of a submit *)

(** Every run of [handle_submit] either has no effect, or passed every gate, in
    this order, and continues with [submit_effect]. *)
Definition submit_gates (env : TxSubmitMessage) (now_secs now : Z) : Prop :=
  auth_passed (ts_auth env) (ts_service_identity env) (canonical_submit_bytes env) false now_secs
  /\ role_of (ts_service_identity env) <> Unknown
  /\ saturating_sub (as_u64 now) (ts_created_at_ms env) <= 55000
  /\ (exists tx, authorised (ts_serialized_tx env) (ts_service_identity env) tx)
  /\ (ts_key_id env = "platform_admin" \/ ts_key_id env = "").

(** The publication of a reply, when it encodes. *)
Definition reply_events (subject : string) (rep : Reply) (y : result unit string) : list (event bans) :=
  match encode_reply rep with
  | Ok p => [Ev (Publish subject p) y]
  | Err _ => []
  end.

Lemma publish_runs subject rep tr r :
  runs (publish_reply subject rep) tr r -> exists y, tr = reply_events subject rep y /\ r = Done tt.
Proof.
  unfold publish_reply, reply_events. destruct (encode_reply rep); cbn.
  - intros (y & t & -> & -> & ->). eauto.
  - intros [-> ->]. by exists (Ok tt).
Qed.

Lemma ack_runs kind tr r : runs (ack_msg kind) tr r -> exists a, tr = [Ev (AckMsg kind) a] /\ r = Done tt.
Proof. cbn. intros (a & t & -> & -> & ->). eauto. Qed.

Lemma finish_runs name b subject rep kind tr r :
  runs (do! metric name b ;; do! publish_reply subject rep ;; ack_msg kind) tr r ->
  exists y a, tr = Ev (Metric name b) tt :: reply_events subject rep y ++ [Ev (AckMsg kind) a] /\ r = Done tt.
Proof.
  intros (t & -> & Hr)%metric_quiet.
  apply runs_bind in Hr as [(u & t1 & t2 & -> & (y & -> & _)%publish_runs & (a & -> & ->)%ack_runs)
                           |[(y & _ & ?)%publish_runs _]]; [|done].
  eauto.
Qed.

Lemma submit_dedup_inv env now tr r :
  runs (submit_dedup cfg env now) tr r ->
  let key := namespaced "submit" (ts_idempotency_key env) in
  (exists rm y a, tr = Ev (ClaimOrReplay key (ts_correlation_id env) now) (Some rm)
       :: Ev (Metric "nats_submit_deduplicated" (tr_success rm)) tt
       :: reply_events (ts_reply_subject env) (ReplySubmit rm) y ++ [Ev (AckMsg Ack) a]) \/
  exists t, tr = Ev (ClaimOrReplay key (ts_correlation_id env) now) None :: t
            /\ runs (submit_effect cfg env now key) t r.
Proof.
  unfold submit_dedup. cbn zeta. cbn [call bind runs]. intros ([rm|] & t & -> & Hr).
  - left. apply finish_runs in Hr as (y & a & -> & _). eauto.
  - right. eauto.
Qed.

Lemma submit_checks_inv env now tr r :
  runs (submit_checks cfg env now) tr r ->
  Forall denied tr \/
  ((exists tx, authorised (ts_serialized_tx env) (ts_service_identity env) tx)
   /\ (ts_key_id env = "platform_admin" \/ ts_key_id env = "")
   /\ runs (submit_dedup cfg env now) tr r).
Proof.
  unfold submit_checks. intros Hr.
  destruct (deserialize_tx _) as [tx|e] eqn:Hd;
    [|left; eapply always_denied_runs; [apply submit_reject_denied|done]].
  destruct (validate_transaction _ tx) as [[]|e] eqn:Hv;
    [|left; eapply always_denied_runs; [apply submit_reject_denied|done]].
  destruct (String.eqb (ts_key_id env) "platform_admin") eqn:Hk; cbn [negb andb] in Hr.
  - apply String.eqb_eq in Hk. right. splits; [by exists tx|by left|done].
  - destruct (str_is_empty (ts_key_id env)) eqn:He; cbn [negb] in Hr.
    + apply str_is_empty_spec in He. right. splits; [by exists tx|by right|done].
    + left. eapply always_denied_runs; [apply submit_reject_denied|done].
Qed.

Lemma submit_admit_inv env tr r :
  runs (submit_admit cfg env) tr r ->
  Forall denied tr \/
  exists now t, role_of (ts_service_identity env) <> Unknown
    /\ saturating_sub (as_u64 now) (ts_created_at_ms env) <= 55000
    /\ tr = Ev (IdemContains (ts_correlation_id env)) false :: Ev NowMs now :: t
    /\ runs (submit_checks cfg env (as_u64 now)) t r.
Proof.
  unfold submit_admit. case_bool_decide as Hrole; intros Hr.
  { left. eapply always_denied_runs; [apply submit_reject_denied|done]. }
  cbn [call bind runs] in Hr. destruct Hr as ([] & t & -> & Hr).
  { left. destruct Hr as (? & ? & -> & -> & _). by repeat constructor. }
  cbn [call bind runs] in Hr. destruct Hr as (now & t' & -> & Hr). cbn zeta in Hr.
  destruct (55000 <? _) eqn:Hage.
  - left. apply metric_quiet in Hr as (t'' & -> & Hr). repeat (constructor; [done|]).
    eapply always_denied_runs; [apply submit_reject_denied|done].
  - right. exists now, t'. apply Z.ltb_ge in Hage. done.
Qed.

(** The trace of a message whose key has a live record: the reply it replays. *)
Definition replayed (corr : string) (key : option string) (now_secs now : Z) (m : string) (b : bool)
    (metric_name subject : string) (rm : TxResultMessage) (rep : Reply) (y a : result unit string) : list (event bans) :=
  [ Ev NowSecs now_secs; Ev (Metric m b) tt; Ev (IdemContains corr) false; Ev NowMs now;
    Ev (ClaimOrReplay key corr (as_u64 now)) (Some rm); Ev (Metric metric_name (tr_success rm)) tt ]
  ++ reply_events subject rep y ++ [Ev (AckMsg Ack) a].

Lemma replayed_quiet corr key ns n m b mn subject rm rep y a :
  Forall quiet (replayed corr key ns n m b mn subject rm rep y a).
Proof. unfold replayed, reply_events. destruct (encode_reply rep); by repeat constructor. Qed.

Lemma denied_quiet tr : Forall denied tr -> Forall quiet tr.
Proof. intros HF. eapply Forall_impl; [exact HF|]. by intros [[] x]. Qed.

(** The three shapes of a run: rejected, replayed, or through every gate. *)
Lemma handle_submit_shape payload tr r :
  runs (handle_submit cfg auth_policy payload) tr r ->
  Forall denied tr \/
  exists env now_secs now m b,
    parse_submit payload = Ok env /\ submit_gates env now_secs now /\
    let key := namespaced "submit" (ts_idempotency_key env) in
    (exists rm y a, tr = replayed (ts_correlation_id env) key now_secs now m b
        "nats_submit_deduplicated" (ts_reply_subject env) rm (ReplySubmit rm) y a) \/
    (exists t, tr = admitted (ts_correlation_id env) key now_secs now m b ++ t
        /\ runs (submit_effect cfg env (as_u64 now) key) t r).
Proof.
  unfold handle_submit. intros Hr.
  destruct (parse_submit payload) as [env|e] eqn:Hp.
  2:{ left. destruct Hr as (? & ? & -> & -> & _). by repeat constructor. }
  apply runs_bind in Hr as [(a & t1 & t2 & -> & H1 & H2)|[H1 ->]];
    apply eval_auth_runs in H1 as (now_secs & m & b & -> & Ha); [|done].
  injection Ha as ->.
  destruct (auth_decision _ _) as [[]|reason] eqn:Hd.
  2:{ left. apply metric_quiet in H2 as (t & -> & H2). cbn. repeat (constructor; [done|]).
      eapply always_denied_runs; [apply submit_reject_denied|exact H2]. }
  apply submit_admit_inv in H2 as [?|(now & t & Hrole & Hage & -> & H2)].
  { left. repeat (constructor; [done|]). done. }
  apply submit_checks_inv in H2 as [?|(Hau & Hk & H2)].
  { left. repeat (constructor; [done|]). done. }
  right. exists env, now_secs, now, m, b. splits; [done..|]. cbn zeta.
  apply submit_dedup_inv in H2 as [(rm & y & a & ->)|(t' & -> & H2)]; [left|right].
  - by exists rm, y, a.
  - by exists t'.
Qed.

(** Two of them, when the replay does not matter. *)
Lemma handle_submit_inv payload tr r :
  runs (handle_submit cfg auth_policy payload) tr r ->
  Forall quiet tr \/
  exists env now_secs now m b t,
    parse_submit payload = Ok env
    /\ submit_gates env now_secs now
    /\ tr = admitted (ts_correlation_id env) (namespaced "submit" (ts_idempotency_key env)) now_secs now m b ++ t
    /\ runs (submit_effect cfg env (as_u64 now) (namespaced "submit" (ts_idempotency_key env))) t r.
Proof.
  intros [HF|(env & ns & n & m & b & Hp & Hg & [(rm & y & a & ->)|(t & -> & Hr)])]%handle_submit_shape.
  - left. by apply denied_quiet.
  - left. apply replayed_quiet.
  - right. exists env, ns, n, m, b, t. done.
Qed.

(** ** The life cycle of a message *)

Definition lifecycle_end (m : lifecycle) (r : outcome unit) : Prop :=
  match r with Done _ => m = Acked | Aborted => m = Working end.

Lemma pipeline_inner ser key ident corr e : pipeline_event cfg ser key ident corr e -> inner e.
Proof. by destruct e as [[] x]. Qed.

Lemma sign_and_submit_inner ser key ident corr :
  always inner (sign_and_submit cfg ser key ident corr) (fun _ => True).
Proof. eapply always_mono; [apply sign_and_submit_always|apply pipeline_inner|done]. Qed.

Lemma confirmation_always (P : event bans -> Prop) sig n d :
  (forall x, P (Ev (SigStatuses [sig]) x)) -> (forall x, P (Ev (SleepMs d) x)) ->
  always P (resolve_confirmation_bounded sig n d) (fun r => exists c, r = Done c).
Proof.
  intros H1 H2. induction n as [|n IH]; cbn; [eauto|]. intros x. split; [done|].
  destruct (poll_verdict x); cbn; eauto.
Qed.

(** The calls of the mint pipeline: the payer's key, the signing pipeline on the
    transaction the bridge built itself, and the confirmation poll. *)
Definition mint_event (ident corr : string) (e : event bans) : Prop :=
  match ev_op e with
  | VaultPubkey k => k = transit_key_name cfg
  | SigStatuses _ | SleepMs _ => True
  | _ => exists ser, pipeline_event cfg ser "platform_admin" ident corr e
  end.

Lemma mint_event_inner ident corr e : mint_event ident corr e -> inner e.
Proof. destruct e as [[] x]; cbn; try done; by intros [? ?]. Qed.

Lemma pipeline_mint ser ident corr e :
  pipeline_event cfg ser "platform_admin" ident corr e -> mint_event ident corr e.
Proof. destruct e as [[] x]; unfold mint_event; cbn [ev_op]; try done; eauto. Qed.

Lemma build_mint_always wallet kwh meter window ident corr :
  always (mint_event ident corr)
    (build_and_submit_generation_mint cfg wallet kwh meter window ident corr) (fun _ => True).
Proof.
  unfold build_and_submit_generation_mint.
  destruct (energy_kwh_to_base_units kwh); [|done]. destruct (pubkey_from_str wallet); [|done].
  cbn [call bind always]. intros x. split; [done|]. destruct x as [payer|e]; [|done].
  destruct (build_generation_mint_instructions _ _ _ _ _ _); [|done]. cbn zeta.
  destruct (serialize_tx _) as [ser|e]; [|done].
  eapply always_bind; [|intros [[sig sl]|e] _|done].
  - eapply always_mono; [apply sign_and_submit_always|apply pipeline_mint|by intros r _; exact I].
  - eapply always_bind; [by apply confirmation_always|done|done].
  - done.
Qed.

Lemma life_inner {A : Type} (p : prog bans A) F :
  always inner p F -> obeys lifecycle_step Working p (fun m r => m = Working /\ F r).
Proof.
  apply (always_obeys _ (fun m => m = Working)); [|done].
  intros m [o x] -> Hi. exists Working. destruct o; by cbn.
Qed.

Lemma life_bind {A : Type} (p : prog bans A) (f : A -> prog bans unit) F :
  always inner p F ->
  (forall a, F (Done a) -> obeys lifecycle_step Working (f a) lifecycle_end) ->
  obeys lifecycle_step Working (bind p f) lifecycle_end.
Proof.
  intros Hp Hf. eapply obeys_bind; [by apply life_inner| |].
  - intros m a [-> HF]. by apply Hf.
  - by intros m [-> _].
Qed.

Lemma life_finish subject rep kind :
  obeys lifecycle_step Working (do! publish_reply subject rep ;; ack_msg kind) lifecycle_end.
Proof. unfold publish_reply. destruct (encode_reply rep); by cbn. Qed.

Lemma life_ack kind : obeys lifecycle_step Working (ack_msg kind) lifecycle_end.
Proof. by cbn. Qed.

Lemma metric_inner m b : always inner (metric m b) (fun r => r = Done tt).
Proof. by cbn. Qed.

Lemma audit_inner corr claimed act stage reason :
  always inner (audit_rejection corr claimed act stage reason) (fun r => r = Done tt).
Proof. by cbn. Qed.

Lemma eval_auth_inner auth claimed canonical force :
  always inner (evaluate_envelope_auth auth_policy auth claimed canonical force) (fun _ => True).
Proof. unfold evaluate_envelope_auth. cbn. intros x. split; [done|]. by destruct (check_envelope_auth _ _ _ _ _). Qed.

Lemma call_inner o : inner (Ev o (quiet_answer o)) -> always inner (call o : prog bans _) (fun _ => True).
Proof. cbn. unfold inner. cbn. auto. Qed.

Lemma dedup_done_inner key now sig slot : always inner (dedup_done key now sig slot) (fun _ => True).
Proof. by destruct key; cbn. Qed.

Lemma dedup_release_inner key : always inner (dedup_release key) (fun _ => True).
Proof. by destruct key; cbn. Qed.

Lemma submit_reject_life env audit err kind :
  obeys lifecycle_step Working (submit_reject env audit err kind) lifecycle_end.
Proof.
  unfold submit_reject. eapply (life_bind _ _ (fun _ => True)); [|intros _ _; apply life_finish].
  destruct audit as [[stage reason]|]; by cbn.
Qed.

Lemma submit_effect_life env now key : obeys lifecycle_step Working (submit_effect cfg env now key) lifecycle_end.
Proof.
  unfold submit_effect. eapply life_bind; [by apply retry_always, sign_and_submit_inner|].
  intros x _. eapply (life_bind _ _ (fun _ => True)).
  - destruct x as [[sig slot]|e].
    + cbn [call bind always]. intros []. split; [done|].
      eapply always_bind; [apply dedup_done_inner|done|done].
    + eapply always_bind; [apply dedup_release_inner|done|done].
  - intros rm _. eapply life_bind; [apply metric_inner|]. intros _ _. apply life_finish.
Qed.

Lemma handle_submit_life payload :
  obeys lifecycle_step Working (handle_submit cfg auth_policy payload) lifecycle_end.
Proof.
  unfold handle_submit. destruct (parse_submit payload) as [env|]; [|apply life_ack].
  eapply life_bind; [apply eval_auth_inner|]. intros [_|reason] _.
  2:{ eapply life_bind; [apply metric_inner|]. intros _ _. apply submit_reject_life. }
  unfold submit_admit. case_bool_decide; [apply submit_reject_life|].
  eapply life_bind; [by apply call_inner|]. intros [] _; [apply life_ack|].
  eapply life_bind; [by apply call_inner|]. intros now _. cbn zeta. destruct (55000 <? _).
  { eapply life_bind; [apply metric_inner|]. intros _ _. apply submit_reject_life. }
  unfold submit_checks. destruct (deserialize_tx _) as [tx|]; [|apply submit_reject_life].
  destruct (validate_transaction _ tx); [|apply submit_reject_life].
  destruct (_ && _); [apply submit_reject_life|].
  unfold submit_dedup. cbn zeta. eapply life_bind; [by apply call_inner|].
  intros [rm|] _; [|apply submit_effect_life].
  eapply life_bind; [apply metric_inner|]. intros _ _. apply life_finish.
Qed.

Lemma handle_cancel_life payload :
  obeys lifecycle_step Working (handle_cancel auth_policy payload) lifecycle_end.
Proof.
  assert (Hrej : forall env stage reason err kind,
    obeys lifecycle_step Working (cancel_reject env stage reason err kind) lifecycle_end).
  { intros. eapply life_bind; [apply audit_inner|]. intros _ _. apply life_finish. }
  unfold handle_cancel. destruct (parse_cancel payload) as [env|]; [|apply life_ack].
  eapply life_bind; [apply eval_auth_inner|]. intros [_|reason] _.
  2:{ eapply life_bind; [apply metric_inner|]. intros _ _. apply Hrej. }
  unfold cancel_admit. case_bool_decide; [apply Hrej|].
  eapply life_bind; [by apply call_inner|]. intros [] _; [apply life_ack|].
  eapply life_bind; [by apply call_inner|]. intros now _. cbn zeta. destruct (55000 <? _); [apply Hrej|].
  eapply life_bind; [by apply call_inner|]. intros _ _. eapply life_bind; [by apply call_inner|].
  intros _ _. eapply life_bind; [apply metric_inner|]. intros _ _. apply life_finish.
Qed.

Lemma handle_mint_life payload :
  obeys lifecycle_step Working (handle_mint cfg auth_policy payload) lifecycle_end.
Proof.
  assert (Hrej : forall env stage reason err kind,
    obeys lifecycle_step Working (mint_reject env stage reason err kind) lifecycle_end).
  { intros. eapply life_bind; [apply audit_inner|]. intros _ _. apply life_finish. }
  unfold handle_mint. destruct (parse_mint payload) as [env|]; [|apply life_ack].
  eapply life_bind; [apply eval_auth_inner|]. intros [_|reason] _.
  2:{ eapply life_bind; [apply metric_inner|]. intros _ _. apply Hrej. }
  unfold mint_admit. destruct (is_err _); [apply Hrej|].
  eapply life_bind; [by apply call_inner|]. intros [] _; [apply life_ack|].
  eapply life_bind; [by apply call_inner|]. intros now _. cbn zeta. destruct (55000 <? _).
  { eapply life_bind; [apply metric_inner|]. intros _ _. apply Hrej. }
  unfold mint_dedup. cbn zeta. eapply life_bind; [by apply call_inner|]. intros [rm|] _.
  { eapply life_bind; [apply metric_inner|]. intros _ _. apply life_finish. }
  unfold mint_effect. eapply life_bind.
  { eapply always_mono; [apply build_mint_always|apply mint_event_inner|by intros r _; exact I]. }
  intros x _. eapply (life_bind _ _ (fun _ => True)).
  - destruct x as [[sig slot]|e].
    + cbn [call bind always]. intros []. split; [done|].
      eapply always_bind; [apply dedup_done_inner|done|done].
    + eapply always_bind; [apply dedup_release_inner|done|done].
  - intros m _. eapply life_bind; [apply metric_inner|]. intros _ _. apply life_finish.
Qed.

(** Only the status query leaves the bridge on this path. *)
Definition status_event (env : TxStatusMessage) (e : event bans) : Prop :=
  quiet e \/ exists sg, ev_op e = SigStatuses [sg] /\ signature_from_str (tq_signature env) = Ok sg.

Lemma signature_status_always env (P : event bans -> Prop) :
  (forall sg x, signature_from_str (tq_signature env) = Ok sg -> P (Ev (SigStatuses [sg]) x)) ->
  always P (signature_status (tq_signature env)) (fun r => exists x, r = Done x).
Proof. intros HP. unfold signature_status. destruct (signature_from_str _); cbn; eauto. Qed.

Lemma handle_status_life payload :
  obeys lifecycle_step Working (handle_status auth_policy payload) lifecycle_end.
Proof.
  assert (Hrej : forall env stage reason err,
    obeys lifecycle_step Working (status_reject env stage reason err) lifecycle_end).
  { intros. eapply life_bind; [apply audit_inner|]. intros _ _. apply life_finish. }
  unfold handle_status. destruct (parse_status payload) as [env|]; [|apply life_ack].
  eapply life_bind; [apply eval_auth_inner|]. intros [_|reason] _.
  2:{ eapply life_bind; [apply metric_inner|]. intros _ _. apply Hrej. }
  unfold status_query. destruct (is_err _); [apply Hrej|].
  eapply life_bind; [by apply signature_status_always|]. intros x _. apply life_finish.
Qed.

Lemma dispatch_life subject payload :
  obeys lifecycle_step Working (dispatch cfg auth_policy subject payload) lifecycle_end.
Proof.
  unfold dispatch.
  destruct (String.eqb subject "chain.tx.submit"); [apply handle_submit_life|].
  destruct (String.eqb subject "chain.tx.cancel"); [apply handle_cancel_life|].
  destruct (String.eqb subject "chain.tx.mint"); [apply handle_mint_life|].
  destruct (String.eqb subject "chain.tx.status"); [apply handle_status_life|apply life_ack].
Qed.

(** ** Counting submissions *)

(** Remaining submissions, and the accepted one. *)
Definition send_step (m : nat * option Signature) (e : event bans) : option (nat * option Signature) :=
  match e with
  | Ev (SendTx _) x =>
      match m with
      | (S n, None) => Some (n, match x with Ok sig => Some sig | Err _ => None end)
      | _ => None
      end
  | _ => Some m
  end.

Definition sends_end (m : nat * option Signature) (r : outcome (result (Signature * Z) SignSubmitStage)) : Prop :=
  match r with
  | Done (Ok (sig, slot)) => snd m = Some sig /\ slot = 0
  | Done (Err _) | Aborted => snd m = None
  end.

Lemma sign_and_submit_sends n ser key ident corr :
  obeys send_step (S n, None) (sign_and_submit cfg ser key ident corr)
    (fun m r => (n <= fst m)%nat /\ sends_end m r).
Proof.
  eapply (obeys_sim (pipeline_step key) send_step
    (fun ph m => match ph with
                 | PSent (Ok sig) => m = (n, Some sig)
                 | PSent (Err _) => m = (n, None)
                 | _ => m = (S n, None)
                 end) PIdle); [|done|apply sign_and_submit_obeys|].
  - intros ph m [o x] ph' HR Hd. destruct o; cbn in Hd; destruct ph; try done;
      try destruct x; simplify_eq; cbn; repeat split_match; simplify_eq; eauto.
  - intros ph m r HR He. destruct r as [[[sig slot]|e]|]; cbn in He |- *.
    + destruct He as [-> ->]. rewrite HR. cbn. auto.
    + destruct e, ph as [| | |[]]; try (by destruct He); simplify_eq; cbn; auto.
    + destruct He as [->|(? & ? & ->)]; rewrite HR; cbn; auto.
Qed.

Lemma retry_sends ds ser key ident corr :
  obeys send_step (S (length ds), None) (retry_spawn ds (sign_and_submit cfg ser key ident corr)) sends_end.
Proof.
  apply (retry_obeys _ (fun n m => (n <= fst m)%nat /\ snd m = None)); [done| |cbn; auto with lia].
  intros n [a o] [Ha Ho]. cbn in Ha, Ho. subst o. destruct a as [|a]; [lia|].
  eapply obeys_mono; [apply sign_and_submit_sends|].
  intros m [[x|e]|] [H1 H2]; [done| |done]. split; [|done]. split; [lia|done].
Qed.

Lemma sends_after n sig tr m :
  monitor send_step (n, Some sig) tr = Some m -> Forall (fun e => is_send e = false) tr /\ m = (n, Some sig).
Proof.
  induction tr as [|[o x] tr IH]; cbn [monitor]; [intros [= <-]; by split|].
  destruct o; cbn; intros Hm; try (by destruct (IH Hm); auto). by destruct n.
Qed.

Lemma sends_count n o tr n' o' :
  monitor send_step (n, o) tr = Some (n', o') -> n = (n' + count_ev is_send tr)%nat.
Proof.
  revert n o. induction tr as [|[op x] tr IH]; intros n o; cbn [monitor count_ev]; [intros [= <- <-]; lia|].
  destruct op; cbn [send_step is_send]; try (intros ->%IH; cbn; lia).
  destruct n as [|n]; [done|]. destruct o; [done|]. intros ->%IH. lia.
Qed.

Lemma sends_accepted n tr n' o' t1 tx sig t2 :
  monitor send_step (n, None) tr = Some (n', o') -> tr = t1 ++ Ev (SendTx tx) (Ok sig) :: t2 ->
  Forall (fun e => is_send e = false) t2 /\ o' = Some sig.
Proof.
  intros Hm ->. rewrite monitor_app in Hm.
  destruct (monitor send_step (n, None) t1) as [[a o]|]; [|done]. cbn [monitor send_step] in Hm.
  destruct a as [|a]; [done|]. destruct o; [done|].
  apply sends_after in Hm as [? [= -> ->]]. done.
Qed.

(** The calls after the pipeline's result. *)
Definition submit_reply (env : TxSubmitMessage) (res : result (Signature * Z) SignSubmitStage) : TxResultMessage :=
  match res with
  | Ok (sig, slot) => mkTxResult (ts_correlation_id env) true (Some (signature_to_string sig)) None slot false
  | Err e => submit_failure env (any_display (AnyStage e))
  end.

Definition record_events (corr : string) (now : Z) (key : option string) (res : option (Signature * Z))
  : list (event bans) :=
  match res, key with
  | Some (sig, slot), Some k =>
      [ Ev (IdemInsert corr (u64_add now 60000)) tt;
        Ev (DedupInsert k (mkDedup (u64_add now 120000) (DoneState (Some (signature_to_string sig)) slot))) tt ]
  | Some _, None => [ Ev (IdemInsert corr (u64_add now 60000)) tt ]
  | None, Some k => [ Ev (DedupRemove k) tt ]
  | None, None => []
  end.

Definition effect_tail (env : TxSubmitMessage) (now : Z) (key : option string)
    (res : result (Signature * Z) SignSubmitStage) (y a : result unit string) : list (event bans) :=
  record_events (ts_correlation_id env) now key (match res with Ok x => Some x | Err _ => None end)
  ++ Ev (Metric "nats_consumer_submit" (is_ok res)) tt
  :: reply_events (ts_reply_subject env) (ReplySubmit (submit_reply env res)) y ++ [Ev (AckMsg Ack) a].

Lemma dedup_done_runs key now sig slot tr r :
  runs (dedup_done key now sig slot) tr r ->
  r = Done tt /\ tr = match key with
                      | Some k => [Ev (DedupInsert k (mkDedup (u64_add now 120000)
                                     (DoneState (Some (signature_to_string sig)) slot))) tt]
                      | None => [] end.
Proof. destruct key; cbn; [intros ([] & t & -> & -> & ->)|intros [-> ->]]; done. Qed.

Lemma dedup_release_runs key tr r :
  runs (dedup_release key) tr r ->
  r = Done tt /\ tr = match key with Some k => [Ev (DedupRemove k) tt] | None => [] end.
Proof. destruct key; cbn; [intros ([] & t & -> & -> & ->)|intros [-> ->]]; done. Qed.

(** A run of the effect: the retried pipeline, then a tail its result determines. *)
Lemma submit_effect_inv env now key tr r :
  runs (submit_effect cfg env now key) tr r ->
  exists t, let p := retry_spawn (fixed_interval_take 500 3)
                (sign_and_submit cfg (ts_serialized_tx env) (ts_key_id env)
                   (ts_service_identity env) (ts_correlation_id env)) in
  (runs p tr Aborted /\ r = Aborted)
  \/ (exists res y a, runs p t (Done res) /\ tr = t ++ effect_tail env now key res y a /\ r = Done tt).
Proof.
  unfold submit_effect. intros Hr.
  apply runs_bind in Hr as [(res & t1 & t2 & -> & H1 & H2)|[H1 ->]]; [|exists []; by left].
  exists t1. right. unfold effect_tail. destruct res as [[sig slot]|e].
  - cbn [call bind runs] in H2. destruct H2 as ([] & t & -> & H2).
    apply runs_bind in H2 as [(m & t3 & t4 & -> & H3 & H4)|[H3 _]].
    + apply runs_bind in H3 as [(u & t5 & t6 & -> & (_ & ->)%dedup_done_runs & -> & [= ->])|[_ ?]]; [|done].
      apply finish_runs in H4 as (y & a & -> & ->). exists (Ok (sig, slot)), y, a.
      splits; [done| |done]. cbn [record_events submit_reply is_ok tr_success]. destruct key; by rewrite app_nil_r.
    + apply runs_bind in H3 as [(u & t5 & t6 & _ & _ & _ & ?)|[(? & _)%dedup_done_runs _]]; done.
  - apply runs_bind in H2 as [(m & t3 & t4 & -> & H3 & H4)|[H3 _]].
    + apply runs_bind in H3 as [(u & t5 & t6 & -> & (_ & ->)%dedup_release_runs & -> & [= ->])|[_ ?]]; [|done].
      apply finish_runs in H4 as (y & a & -> & ->). exists (Err e), y, a.
      splits; [done| |done]. rewrite app_nil_r. by destruct key.
    + apply runs_bind in H3 as [(u & t5 & t6 & _ & _ & _ & ?)|[(? & _)%dedup_release_runs _]]; done.
Qed.

Lemma effect_tail_no_send env now key res y a :
  Forall (fun e => is_send e = false) (effect_tail env now key res y a).
Proof.
  unfold effect_tail, reply_events. destruct res as [[sig slot]|e], key, (encode_reply _);
    cbn; repeat constructor.
Qed.

Lemma no_send_monitor m tr :
  Forall (fun e => is_send e = false) tr -> monitor send_step m tr = Some m.
Proof. induction 1 as [|[o x] tr He _ IH]; [done|]. destruct o; cbn [monitor send_step]; done. Qed.

Lemma sends_accepted_in n tr n' sig :
  monitor send_step (n, None) tr = Some (n', Some sig) -> exists tx, Ev (SendTx tx) (Ok sig) ∈ tr.
Proof.
  revert n. induction tr as [|[o x] tr IH]; intros n; [done|].
  cbn [monitor]. destruct o; cbn [send_step]; try (intros [tx1 ?]%IH; exists tx1; by right).
  destruct n as [|n]; [done|]. destruct x as [sg|e].
  - intros [_ Heq]%sends_after. simplify_eq. eexists. left.
  - intros [tx' ?]%IH. exists tx'. by right.
Qed.

(** The submissions of a whole admitted run. *)
Lemma effect_sends env key ns n m b res y a t :
  runs (retry_spawn (fixed_interval_take 500 3)
          (sign_and_submit cfg (ts_serialized_tx env) (ts_key_id env)
             (ts_service_identity env) (ts_correlation_id env))) t (Done res) ->
  exists n' o',
    monitor send_step (4%nat, None)
      (admitted (ts_correlation_id env) key ns n m b ++ t ++ effect_tail env (as_u64 n) key res y a) = Some (n', o')
    /\ sends_end (n', o') (Done res).
Proof.
  intros Hr. destruct (obeys_runs _ _ _ _ _ _ (retry_sends _ _ _ _ _) Hr) as ([n' o'] & Hm & Hend).
  exists n', o'. split; [|done].
  rewrite monitor_app, no_send_monitor, monitor_app by by repeat constructor.
  change (S (length (fixed_interval_take 500 3))) with 4%nat in Hm. rewrite Hm.
  apply no_send_monitor, effect_tail_no_send.
Qed.

End spec.
