(* ===== verification/ConsumerProps.v ===== *)
(** * The NATS consumer: properties of a single message

    Built on the canonical forms of [ConsumerSpec]: what happens to one delivered
    message, whatever the environment answers; then what the bridge's own maps
    add when handlers run one after another. *)

From S2P Require Import Prelude RustStd Effects Domain External BridgeOps Fixtures Identity Signing SigningSpec Consumer ConsumerSpec.
From Stdlib Require String.
Import String.StringSyntax.

Local Open Scope Z_scope.

Section lemmas.
Context {J : SerdeJson} {K : SolanaSdk} {C : BlockchainCore} {X : X509} {B : Base64} {R : TokioRetry}.
Context (cfg : Config) (auth_policy : NatsAuthPolicy).

(** ** Shape of a complete life cycle *)

Lemma lifecycle_acked tr m :
  monitor lifecycle_step Acked tr = Some m -> tr = [] /\ m = Acked.
Proof. destruct tr as [|[o x] tr]; cbn; [by intros [= <-]|done]. Qed.

Lemma lifecycle_replied tr :
  monitor lifecycle_step Replied tr = Some Acked -> exists k x, tr = [Ev (AckMsg k) x].
Proof.
  destruct tr as [|[o x] tr]; cbn; [done|]. destruct o; try done.
  intros [-> _]%lifecycle_acked. eauto.
Qed.

Lemma lifecycle_shape tr m :
  monitor lifecycle_step Working tr = Some m ->
  match m with
  | Acked => exists t pub k x, tr = t ++ pub ++ [Ev (AckMsg k) x] /\ Forall inner t
               /\ (pub = [] \/ exists s p y, pub = [Ev (Publish s p) y])
  | Working => Forall inner tr
  | Replied => True
  end.
Proof.
  induction tr as [|[o x] tr IH]; [intros [= <-]; constructor|]. cbn [monitor].
  assert (Hin : inner (Ev o x) -> lifecycle_step Working (Ev o x) = Some Working) by (by destruct o).
  assert (Hc : (exists s p, o = Publish s p) \/ (exists k, o = AckMsg k) \/ inner (Ev o x))
    by (destruct o; cbn; eauto).
  destruct Hc as [(s & p & ->)|[(k & ->)|Hi]].
  { cbn. destruct m; [| done |].
    - destruct tr as [|[o' x'] tr]; cbn; [done|]. destruct o'; try done. by intros [_ ?]%lifecycle_acked.
    - intros (k & a & ->)%lifecycle_replied. exists [], [Ev (Publish s p) x], k, a. splits; [done|constructor|].
      right. eauto. }
  { cbn. intros [-> ->]%lifecycle_acked. exists [], [], k, x. splits; [done|constructor|by left]. }
  rewrite (Hin Hi). intros Hm. specialize (IH Hm). destruct m; [by constructor|done|].
  destruct IH as (t & pub & k & a & -> & Ht & Hpub). exists (Ev o x :: t), pub, k, a.
  splits; [done|by constructor|done].
Qed.

(** ** Canonical form of a mint *)

Definition mint_gates (env : MintEnergyMessage) (now_secs now : Z) : Prop :=
  auth_passed auth_policy (me_auth env) (me_service_identity env) (canonical_mint_bytes env) true now_secs
  /\ is_ok (require_any (role_of (me_service_identity env)) [AggregatorBridge; MeterService]) = true
  /\ saturating_sub (as_u64 now) (me_created_at_ms env) <= 55000.

Definition mint_replay (rm : TxResultMessage) : MintEnergyResultMessage :=
  mkMintResult (tr_correlation_id rm) (tr_success rm) (tr_signature rm) (tr_error rm) (tr_slot rm) true.

Lemma mint_dedup_inv env now tr r :
  runs (mint_dedup cfg env now) tr r ->
  let key := namespaced "mint" (me_idempotency_key env) in
  (exists rm y a, tr = Ev (ClaimOrReplay key (me_correlation_id env) now) (Some rm)
       :: Ev (Metric "nats_mint_deduplicated" (tr_success rm)) tt
       :: reply_events (me_reply_subject env) (ReplyMint (mint_replay rm)) y ++ [Ev (AckMsg Ack) a]) \/
  exists t, tr = Ev (ClaimOrReplay key (me_correlation_id env) now) None :: t
            /\ runs (mint_effect cfg env now key) t r.
Proof.
  unfold mint_dedup. cbn zeta. cbn [call bind runs]. intros ([rm|] & t & -> & Hr).
  - left. apply finish_runs in Hr as (y & a & -> & _). eauto.
  - right. eauto.
Qed.

Lemma mint_admit_inv env tr r :
  runs (mint_admit cfg env) tr r ->
  Forall denied tr \/
  exists now t, is_ok (require_any (role_of (me_service_identity env)) [AggregatorBridge; MeterService]) = true
    /\ saturating_sub (as_u64 now) (me_created_at_ms env) <= 55000
    /\ tr = Ev (IdemContains (me_correlation_id env)) false :: Ev NowMs now :: t
    /\ runs (mint_dedup cfg env (as_u64 now)) t r.
Proof.
  unfold mint_admit, is_err. destruct (is_ok _) eqn:Hrole; cbn [negb]; intros Hr.
  2:{ left. eapply always_denied_runs; [apply mint_reject_denied|done]. }
  cbn [call bind runs] in Hr. destruct Hr as ([] & t & -> & Hr).
  { left. destruct Hr as (? & ? & -> & -> & _). by repeat constructor. }
  cbn [call bind runs] in Hr. destruct Hr as (now & t' & -> & Hr). cbn zeta in Hr.
  destruct (55000 <? _) eqn:Hage.
  - left. apply metric_quiet in Hr as (t'' & -> & Hr). repeat (constructor; [done|]).
    eapply always_denied_runs; [apply mint_reject_denied|done].
  - right. exists now, t'. apply Z.ltb_ge in Hage. done.
Qed.

Lemma handle_mint_shape payload tr r :
  runs (handle_mint cfg auth_policy payload) tr r ->
  Forall denied tr \/
  exists env now_secs now m b,
    parse_mint payload = Ok env /\ mint_gates env now_secs now /\
    let key := namespaced "mint" (me_idempotency_key env) in
    (exists rm y a, tr = replayed (me_correlation_id env) key now_secs now m b
        "nats_mint_deduplicated" (me_reply_subject env) rm (ReplyMint (mint_replay rm)) y a) \/
    (exists t, tr = admitted (me_correlation_id env) key now_secs now m b ++ t
        /\ runs (mint_effect cfg env (as_u64 now) key) t r).
Proof.
  unfold handle_mint. intros Hr.
  destruct (parse_mint payload) as [env|e] eqn:Hp.
  2:{ left. destruct Hr as (? & ? & -> & -> & _). by repeat constructor. }
  apply runs_bind in Hr as [(a & t1 & t2 & -> & H1 & H2)|[H1 ->]];
    apply eval_auth_runs in H1 as (now_secs & m & b & -> & Ha); [|done].
  injection Ha as ->.
  destruct (auth_decision _ _) as [[]|reason] eqn:Hd.
  2:{ left. apply metric_quiet in H2 as (t & -> & H2). cbn. repeat (constructor; [done|]).
      eapply always_denied_runs; [apply mint_reject_denied|exact H2]. }
  apply mint_admit_inv in H2 as [?|(now & t & Hrole & Hage & -> & H2)].
  { left. repeat (constructor; [done|]). done. }
  right. exists env, now_secs, now, m, b. splits; [done..|]. cbn zeta.
  apply mint_dedup_inv in H2 as [(rm & y & a & ->)|(t' & -> & H2)]; [left|right].
  - by exists rm, y, a.
  - by exists t'.
Qed.

Lemma handle_mint_inv payload tr r :
  runs (handle_mint cfg auth_policy payload) tr r ->
  Forall quiet tr \/
  exists env now_secs now m b t,
    parse_mint payload = Ok env
    /\ mint_gates env now_secs now
    /\ tr = admitted (me_correlation_id env) (namespaced "mint" (me_idempotency_key env)) now_secs now m b ++ t
    /\ runs (mint_effect cfg env (as_u64 now) (namespaced "mint" (me_idempotency_key env))) t r.
Proof.
  intros [HF|(env & ns & n & m & b & Hp & Hg & [(rm & y & a & ->)|(t & -> & Hr)])]%handle_mint_shape.
  - left. by apply denied_quiet.
  - left. apply replayed_quiet.
  - right. exists env, ns, n, m, b, t. done.
Qed.

(** ** Claims on one message *)

(** C9: the life cycle of a message.  Whatever a subject or payload is and
    whatever the environment answers, a handler that returns has acknowledged the
    message exactly once, as its very last call, and has published at most one
    reply, directly before the acknowledgement; a handler that panics has neither
    replied nor acknowledged. *)
Theorem message_lifecycle subject payload tr r :
  runs (dispatch cfg auth_policy subject payload) tr r ->
  match r with
  | Done _ => exists t pub k x, tr = t ++ pub ++ [Ev (AckMsg k) x] /\ Forall inner t
                /\ (pub = [] \/ exists s p y, pub = [Ev (Publish s p) y])
  | Aborted => Forall inner tr
  end.
Proof.
  intros Hr. destruct (obeys_runs _ _ _ _ _ _ (dispatch_life cfg auth_policy subject payload) Hr) as (m & Hm & He).
  apply lifecycle_shape in Hm. destruct r; cbn in He; by subst m.
Qed.

(** C3: the gates of [handle_submit].  If a run does anything beyond reading
    the clock, checking for redelivery, metrics, audit, replying and acking (that
    is: claims a dedup slot, simulates, signs, submits, or writes a map) then the
    payload parsed, its envelope passed authentication under the policy, the role
    is known, the message is at most 55 s old, the transaction decodes and the
    policy engine accepts it, and the key id is [platform_admin] or empty; and all
    those checks, then the granted dedup claim, come before anything else. *)
Theorem submit_gated payload tr r e :
  runs (handle_submit cfg auth_policy payload) tr r -> e ∈ tr -> ~ quiet e ->
  exists env now_secs now m b t,
    parse_submit payload = Ok env
    /\ submit_gates auth_policy env now_secs now
    /\ tr = admitted (ts_correlation_id env) (namespaced "submit" (ts_idempotency_key env)) now_secs now m b ++ t.
Proof.
  intros Hr He Hq. apply handle_submit_inv in Hr as [HF|(env & ns & n & m & b & t & Hp & Hg & -> & _)].
  - rewrite Forall_forall in HF. by apply HF in He.
  - exists env, ns, n, m, b, t. done.
Qed.

(** C4: a mint is never self-asserted.  If a run of [handle_mint] does more
    than reject, whether or not the policy requires signatures globally, then a
    CA is configured and the envelope is cryptographically verified against it
    for exactly the identity it claims, that identity holds a minting role, the
    message is fresh, and all of that precedes the Vault and the chain. *)
Theorem mint_gated payload tr r e :
  runs (handle_mint cfg auth_policy payload) tr r -> e ∈ tr -> ~ quiet e ->
  exists env now_secs now m b t ca auth,
    parse_mint payload = Ok env
    /\ ca_der auth_policy = Some ca /\ me_auth env = Some auth
    /\ envelope_verified ca auth (me_service_identity env) (canonical_mint_bytes env) now_secs
    /\ is_ok (require_any (role_of (me_service_identity env)) [AggregatorBridge; MeterService]) = true
    /\ saturating_sub (as_u64 now) (me_created_at_ms env) <= 55000
    /\ tr = admitted (me_correlation_id env) (namespaced "mint" (me_idempotency_key env)) now_secs now m b ++ t.
Proof.
  intros Hr He Hq. apply handle_mint_inv in Hr as [HF|(env & ns & n & m & b & t & Hp & (Ha & Hrole & Hage) & -> & _)].
  - rewrite Forall_forall in HF. by apply HF in He.
  - unfold auth_passed in Ha. rewrite orb_true_r in Ha.
    destruct (check_envelope_auth _ _ _ _ _) eqn:Hc; [|done..].
    apply check_verified_iff in Hc as (ca & auth & Hca & Hau & Hv).
    exists env, ns, n, m, b, t, ca, auth. by splits.
Qed.

(** C12: retries.  A submit makes at most four submissions (one attempt and
    three retries); the node accepts at most one of them, no further one follows
    it, and it is reported: the reply with the node's signature is published if it
    encodes. *)
Theorem submit_retries_bounded payload env tr :
  runs (handle_submit cfg auth_policy payload) tr (Done tt) -> parse_submit payload = Ok env ->
  (count_ev is_send tr <= 4)%nat
  /\ forall t1 tx sig t2, tr = t1 ++ Ev (SendTx tx) (Ok sig) :: t2 ->
     Forall (fun e => is_send e = false) t2
     /\ forall p, encode_reply (ReplySubmit (submit_reply env (Ok (sig, 0)))) = Ok p ->
        exists y, Ev (Publish (ts_reply_subject env) p) y ∈ t2.
Proof.
  intros Hr Hp.
  assert (Hquiet : forall l, Forall quiet l -> Forall (fun e => is_send e = false) l).
  { intros l HF. eapply Forall_impl; [exact HF|]. by intros [[] x]. }
  apply handle_submit_inv in Hr as [HF%Hquiet|(env' & ns & n & m & b & t & Hp' & _ & -> & Hr)].
  { split; [rewrite count_ev_zero; [lia|done]|]. intros t1 tx sig t2 ->.
    apply Forall_app in HF as [_ HF]. by inversion HF. }
  assert (env' = env) as -> by congruence. apply submit_effect_inv in Hr as (t0 & [[_ ?]|(res & y & a & Hr & -> & _)]); [done|].
  destruct (effect_sends cfg env (namespaced "submit" (ts_idempotency_key env)) ns n m b res y a t0 Hr)
    as (n' & o' & Hall & Hend).
  pose proof (effect_tail_no_send env (as_u64 n) (namespaced "submit" (ts_idempotency_key env)) res y a) as Htail.
  set (pre := admitted _ _ _ _ _ _) in *. set (tail := effect_tail _ _ _ _ _ _) in *.
  split; [apply sends_count in Hall; lia|].
  intros t1 tx sig t2 Htr. rewrite Htr in Hall.
  destruct (sends_accepted _ _ _ _ _ _ _ _ Hall eq_refl) as [Hno ->]. split; [done|].
  intros p Henc. destruct res as [[sig' slot]|e]; cbn in Hend; [destruct Hend as [[= ->] ->]|done].
  rewrite app_assoc in Htr. apply app_cons_suffix in Htr as [u ->].
  - exists y. apply elem_of_app. right. subst tail. unfold effect_tail, reply_events. rewrite Henc.
    apply elem_of_app. right. cbn. rewrite !elem_of_cons. auto.
  - intros Hin. rewrite Forall_forall in Htail. by apply Htail in Hin.
Qed.

(** The status path is read-only.  A status query only ever asks the node
    for the status of the one signature it names; it signs, submits, claims and
    records nothing, and never panics. *)
Theorem status_read_only payload tr r :
  runs (handle_status auth_policy payload) tr r ->
  r = Done tt /\ Forall (fun e => quiet e \/ exists env sg, parse_status payload = Ok env
      /\ ev_op e = SigStatuses [sg] /\ signature_from_str (tq_signature env) = Ok sg) tr.
Proof.
  intros Hr. set (P := fun e : event bans => _).
  assert (HA : always P (handle_status auth_policy payload) (fun r => r = Done tt));
    [|by destruct (always_runs _ _ _ _ _ HA Hr)].
  assert (Hq : forall A (p : prog bans A) F, always denied p F -> always P p F).
  { intros A p F Hp. eapply always_mono; [exact Hp|by intros [[] x]; left|done]. }
  subst P. unfold handle_status. destruct (parse_status payload) as [env|] eqn:Hp; [|apply Hq; by cbn].
  eapply (always_bind _ _ _ (fun r => r <> Aborted)); [| |done].
  { apply Hq. unfold evaluate_envelope_auth. cbn. intros x. split; [done|].
    by destruct (check_envelope_auth _ _ _ _ _). }
  intros [_|reason] _.
  2:{ apply Hq. cbn [metric bind call always]. intros []. split; [done|]. apply status_reject_denied. }
  unfold status_query. destruct (is_err _); [apply Hq, status_reject_denied|].
  eapply always_bind; [apply signature_status_always| |by intros [? ?]].
  { intros sg x Hs. right. exists env, sg. done. }
  intros x _. apply Hq. eapply always_bind; [by apply publish_reply_always| |done]. by cbn.
Qed.

(** ** The bridge's own maps *)

#[local] Instance quiet_dec (e : event bans) : Decision (quiet e).
Proof. destruct e as [[] x]; cbn; try apply _. destruct x; apply _. Defined.

(** Watching one correlation id: until its redelivery check came back negative,
    a thread may only make quiet calls. *)
Inductive watch : Type := WFree | WChecking | WPassed.

Definition watch_step (corr : string) (m : watch) (e : event bans) : option watch :=
  match m with
  | WChecking =>
      if decide (quiet e) then
        match e with
        | Ev (IdemContains k) false => Some (if String.eqb k corr then WPassed else WChecking)
        | _ => Some WChecking
        end
      else None
  | _ => Some m
  end.

Lemma watch_stable corr m tr : m <> WChecking -> monitor (watch_step corr) m tr = Some m.
Proof. intros Hm. induction tr as [|e tr IH]; [done|]. cbn. by destruct m. Qed.

Lemma watch_quiet corr tr : Forall quiet tr -> exists m, monitor (watch_step corr) WChecking tr = Some m.
Proof.
  induction 1 as [|e tr He _ IH]; [by eexists|]. cbn. rewrite decide_True by done.
  destruct e as [o x]. destruct o; eauto. destruct x; [eauto|].
  destruct (String.eqb k corr); [|eauto]. eexists. by apply watch_stable.
Qed.

Lemma watch_admitted corr key ns n m b t :
  monitor (watch_step corr) WChecking (admitted corr key ns n m b ++ t) = Some WPassed.
Proof.
  unfold admitted. cbn [app monitor].
  assert (watch_step corr WChecking (Ev NowSecs ns) = Some WChecking) as ->
    by (unfold watch_step; by rewrite decide_True).
  assert (watch_step corr WChecking (Ev (Metric m b) tt) = Some WChecking) as ->
    by (unfold watch_step; by rewrite decide_True).
  assert (watch_step corr WChecking (Ev (IdemContains corr) false) = Some WPassed) as ->
    by (unfold watch_step; rewrite decide_True by done; by rewrite String.eqb_refl).
  by apply (watch_stable corr WPassed (Ev NowMs n :: Ev (ClaimOrReplay key corr (as_u64 n)) None :: t)).
Qed.

Lemma watch_checking corr tr : monitor (watch_step corr) WChecking tr = Some WChecking -> Forall quiet tr.
Proof.
  induction tr as [|e tr IH]; [by constructor|]. cbn [monitor watch_step].
  destruct (decide (quiet e)); [|done]. intros Hm. constructor; [done|]. apply IH.
  destruct e as [o x]. destruct o; try done. destruct x; [done|].
  destruct (String.eqb k corr); [|done]. by rewrite watch_stable in Hm.
Qed.

Lemma handle_submit_watched payload env :
  parse_submit payload = Ok env ->
  obeys (watch_step (ts_correlation_id env)) WChecking (handle_submit cfg auth_policy payload) (fun _ _ => True).
Proof.
  intros Hp. apply (runs_obeys quiet_answer). intros tr r Hr.
  apply handle_submit_inv in Hr as [HF|(env' & ns & n & m & b & t & Hp' & _ & -> & _)].
  - destruct (watch_quiet (ts_correlation_id env) tr HF) as [m Hm]. eauto.
  - assert (env' = env) as -> by congruence. rewrite watch_admitted. eauto.
Qed.

Lemma handle_mint_watched payload env :
  parse_mint payload = Ok env ->
  obeys (watch_step (me_correlation_id env)) WChecking (handle_mint cfg auth_policy payload) (fun _ _ => True).
Proof.
  intros Hp. apply (runs_obeys quiet_answer). intros tr r Hr.
  apply handle_mint_inv in Hr as [HF|(env' & ns & n & m & b & t & Hp' & _ & -> & _)].
  - destruct (watch_quiet (me_correlation_id env) tr HF) as [m Hm]. eauto.
  - assert (env' = env) as -> by congruence. rewrite watch_admitted. eauto.
Qed.

Lemma free_obeys {A : Type} corr (p : prog bans A) : obeys (watch_step corr) WFree p (fun _ _ => True).
Proof. induction p; cbn; auto. Qed.

(** A recorded correlation id blocks every thread that watches it, in every
    interleaving. *)
Lemma blocked_thread corr s (ps : list (prog bans unit)) tr s' ps' i p :
  is_Some (idempotency_cache s !! corr) ->
  pexec bridge_sem (s, ps) tr (s', ps') -> ps !! i = Some p ->
  obeys (watch_step corr) WChecking p (fun _ _ => True) ->
  Forall quiet (thread_trace i tr) /\ is_Some (idempotency_cache s' !! corr).
Proof.
  intros Hs Hx Hi Hob.
  set (ms := <[i := WChecking]> (replicate (length ps) WFree)).
  assert (Hlt : (i < length ps)%nat) by by eapply lookup_lt_Some.
  assert (Hmi : ms !! i = Some WChecking)
    by (apply list_lookup_insert_eq; by rewrite length_replicate).
  destruct (pexec_inv (A := unit) bridge_sem (watch_step corr) (fun _ _ => True)
    (fun s ms => is_Some (idempotency_cache s !! corr) /\ ms !! i = Some WChecking)
  ) with (s := s) (ps := ps) (tr := tr) (s' := s') (ps' := ps') (ms := ms) as (ms' & [Hs' Hm'] & _ & Hmon).
  - intros s1 ms1 j m o x s2 m' [H1 H2] Hj Hd Hsem.
    split; [by eapply bridge_sem_idem|]. destruct (decide (j = i)) as [->|]; [|by rewrite list_lookup_insert_ne].
    rewrite list_lookup_insert_eq by by eapply lookup_lt_Some.
    assert (m = WChecking) as -> by congruence. f_equal.
    unfold watch_step in Hd. destruct (decide _); [|done]. destruct o; simplify_eq; try done.
    destruct x; simplify_eq; [done|]. destruct (String.eqb k corr) eqn:Hk; simplify_eq; [|done].
    apply String.eqb_eq in Hk as ->. destruct Hsem as [Hsem _]. by rewrite bool_decide_true in Hsem.
  - exact Hx.
  - done.
  - apply Forall2_same_length_lookup. split; [unfold ms; by rewrite length_insert, length_replicate|].
    intros j m q Hm Hq. unfold ms in Hm. destruct (decide (j = i)) as [->|].
    + rewrite list_lookup_insert_eq in Hm by by rewrite length_replicate. by simplify_eq.
    + rewrite list_lookup_insert_ne in Hm by done. apply lookup_replicate in Hm as [-> _]. apply free_obeys.
  - split; [|done]. destruct (Hmon i WChecking Hmi) as (m' & Hm2 & Hm3).
    assert (m' = WChecking) as -> by congruence. by eapply watch_checking.
Qed.

(** Correlation ids are recorded for good.  No call of any handler or of
    the cleanup task removes one, so in every interleaving of any number of tasks
    a correlation id that was ever recorded stays recorded, also after the expiry
    stored with it, and keeps every later submit or mint delivery with that id
    from having any effect. *)
Theorem recorded_correlation_blocks corr s ps tr s' ps' i payload :
  is_Some (idempotency_cache s !! corr) ->
  pexec bridge_sem (s, ps) tr (s', ps') ->
  (ps !! i = Some (handle_submit cfg auth_policy payload)
     /\ (exists env, parse_submit payload = Ok env /\ ts_correlation_id env = corr)
   \/ ps !! i = Some (handle_mint cfg auth_policy payload)
     /\ (exists env, parse_mint payload = Ok env /\ me_correlation_id env = corr)) ->
  Forall quiet (thread_trace i tr) /\ is_Some (idempotency_cache s' !! corr).
Proof.
  intros Hs Hx [[Hi (env & Hp & <-)]|[Hi (env & Hp & <-)]]; eapply blocked_thread; try done.
  - by apply handle_submit_watched.
  - by apply handle_mint_watched.
Qed.

(** The calls of a cancel that was let through. *)
Definition cancel_calls (env : TxCancelMessage) (now_secs now : Z) (m : string) (b : bool)
    (y a : result unit string) : list (event bans) :=
  [ Ev NowSecs now_secs; Ev (Metric m b) tt; Ev (IdemContains ("cancel:" +:+ tc_correlation_id env)) false;
    Ev NowMs now;
    Ev (IdemInsert ("cancel:" +:+ tc_correlation_id env) (u64_add (as_u64 now) 60000)) tt;
    Ev (IdemInsert (tc_correlation_id env) (u64_add (as_u64 now) 60000)) tt;
    Ev (Metric "nats_consumer_cancel" true) tt ]
  ++ reply_events (tc_reply_subject env) (ReplyCancel (mkCancelResult (tc_correlation_id env) true None)) y
  ++ [Ev (AckMsg Ack) a].

Lemma handle_cancel_accepts pc env tr r :
  parse_cancel pc = Ok env -> role_of (tc_service_identity env) <> Unknown ->
  (forall ns, Ev NowSecs ns ∈ tr ->
     auth_passed auth_policy (tc_auth env) (tc_service_identity env) (canonical_cancel_bytes env) false ns) ->
  (forall n, Ev NowMs n ∈ tr -> saturating_sub (as_u64 n) (tc_created_at_ms env) <= 55000) ->
  Ev (IdemContains ("cancel:" +:+ tc_correlation_id env)) true ∉ tr ->
  runs (handle_cancel auth_policy pc) tr r ->
  exists ns n m b y a, tr = cancel_calls env ns n m b y a /\ r = Done tt.
Proof.
  intros Hp Hrole Hauth Hage Hdup Hr. unfold handle_cancel in Hr. rewrite Hp in Hr.
  apply runs_bind in Hr as [(x & t1 & t2 & -> & H1 & H2)|[H1 ->]];
    apply eval_auth_runs in H1 as (ns & m & b & -> & Ha); [|done]. injection Ha as ->.
  rewrite Hauth in H2 by left. unfold cancel_admit in H2. rewrite bool_decide_false in H2 by done.
  cbn [call bind runs] in H2. destruct H2 as (dup & t & -> & H2). destruct dup; [destruct Hdup; do 2 right; left|].
  cbn [call bind runs] in H2. destruct H2 as (n & t' & -> & H2). cbn zeta in H2.
  assert (Hn : saturating_sub (as_u64 n) (tc_created_at_ms env) <= 55000) by (apply Hage; do 3 right; left).
  apply Z.ltb_ge in Hn. rewrite Hn in H2. cbn [call bind runs] in H2. destruct H2 as ([] & t1 & -> & [] & t2 & -> & H2).
  apply finish_runs in H2 as (y & a & -> & ->). by exists ns, n, m, b, y, a.
Qed.

(** C27: cancellation.  Take a cancel delivery whose sender has a role, which is
    authentic and at most 55 s old at the clock readings it makes, and which does
    not find its own cancellation recorded.  In every interleaving with other tasks
    in which it has returned, it told the sender that it succeeded and acknowledged
    the message; and from then on no submit or mint delivery with the cancelled
    correlation id that starts later signs, submits, claims or records anything, in
    any interleaving.  There is no limit in time: the 60 s the entries are stored
    with are never looked at. *)
Theorem cancel_blocks_submit pc cenv s ps0 tr1 s1 ps1 j :
  parse_cancel pc = Ok cenv -> role_of (tc_service_identity cenv) <> Unknown ->
  pexec bridge_sem (s, ps0) tr1 (s1, ps1) ->
  ps0 !! j = Some (handle_cancel auth_policy pc) -> ps1 !! j = Some (Ret tt) ->
  (forall ns, Ev NowSecs ns ∈ thread_trace j tr1 ->
     auth_passed auth_policy (tc_auth cenv) (tc_service_identity cenv) (canonical_cancel_bytes cenv) false ns) ->
  (forall n, Ev NowMs n ∈ thread_trace j tr1 -> saturating_sub (as_u64 n) (tc_created_at_ms cenv) <= 55000) ->
  Ev (IdemContains ("cancel:" +:+ tc_correlation_id cenv)) true ∉ thread_trace j tr1 ->
  (exists l y a, thread_trace j tr1
     = l ++ reply_events (tc_reply_subject cenv) (ReplyCancel (mkCancelResult (tc_correlation_id cenv) true None)) y
         ++ [Ev (AckMsg Ack) a])
  /\ forall ps tr2 s2 ps2 i payload, pexec bridge_sem (s1, ps) tr2 (s2, ps2) ->
       (ps !! i = Some (handle_submit cfg auth_policy payload)
          /\ (exists env, parse_submit payload = Ok env /\ ts_correlation_id env = tc_correlation_id cenv)
        \/ ps !! i = Some (handle_mint cfg auth_policy payload)
          /\ (exists env, parse_mint payload = Ok env /\ me_correlation_id env = tc_correlation_id cenv)) ->
       Forall quiet (thread_trace i tr2).
Proof.
  intros Hp Hrole Hx Hj Hret Hauth Hage Hdup.
  destruct (pexec_reaches _ _ _ _ _ _ j _ Hx Hj) as (q & Hq & Hr). assert (q = Ret tt) as -> by congruence.
  destruct (reaches_runs _ _ _ Hr I) as (r & Hrun & _).
  destruct (handle_cancel_accepts _ _ _ _ Hp Hrole Hauth Hage Hdup Hrun) as (ns & n & m & b & y & a & Htr & _).
  split; [exists (take 7 (cancel_calls cenv ns n m b y a)), y, a; exact Htr|].
  intros ps tr2 s2 ps2 i payload Hx2 Hi.
  assert (Hs : is_Some (idempotency_cache s1 !! tc_correlation_id cenv)).
  { eapply (trace_idem_insert _ _ _ _ (u64_add (as_u64 n) 60000) tt (pexec_trace _ _ _ _ Hx)).
    apply list_elem_of_fmap. exists (j, Ev (IdemInsert (tc_correlation_id cenv) (u64_add (as_u64 n) 60000)) tt).
    split; [done|]. apply thread_trace_elem. rewrite Htr. do 5 right. left. }
  destruct Hi as [[Hi (env & Hpe & Hc)]|[Hi (env & Hpe & Hc)]]; rewrite <- Hc in Hs.
  - by destruct (blocked_thread _ _ _ _ _ _ _ _ Hs Hx2 Hi (handle_submit_watched _ _ Hpe)).
  - by destruct (blocked_thread _ _ _ _ _ _ _ _ Hs Hx2 Hi (handle_mint_watched _ _ Hpe)).
Qed.

(** ** Handlers run one after another *)

Lemma quiet_state s tr s' : trace_sem bridge_sem s tr s' -> Forall quiet tr -> s' = s.
Proof.
  revert s. induction tr as [|[o x] tr IH]; intros s; [done|].
  intros (s1 & Hs & Ht) HF. inversion HF as [|? ? Hq HF']; subst. rewrite (IH s1 Ht HF').
  destruct o; try done; try (by destruct Hs).
  unfold bridge_sem, own_step in Hs. destruct (claim_or_replay _ _ _ _) as [r m] eqn:E.
  destruct Hs as [-> ->]. destruct r as [r|]; [|done]. apply claim_refused in E as ->. by destruct s.
Qed.

(** The pipeline does not write the consumer's maps. *)
Definition pipeline_or_sleep (e : event bans) : Prop :=
  match ev_op e with
  | VaultSign _ _ | SendTx _ | AuditAppend _ | Simulate _ | CacheGet | LatestBlockhash | NowMs | SleepMs _ => True
  | _ => False
  end.

Lemma pipeline_state s tr s' : trace_sem bridge_sem s tr s' -> Forall pipeline_or_sleep tr -> s' = s.
Proof.
  revert s. induction tr as [|[o x] tr IH]; intros s; [done|].
  intros (s1 & Hs & Ht) HF. inversion HF as [|? ? Hq HF']; subst. rewrite (IH s1 Ht HF').
  destruct o; try done. by destruct Hs.
Qed.

Lemma retried_pipeline ds ser key ident corr tr r :
  runs (retry_spawn ds (sign_and_submit cfg ser key ident corr)) tr r -> Forall pipeline_or_sleep tr.
Proof.
  intros Hr.
  assert (HA : always pipeline_or_sleep (retry_spawn ds (sign_and_submit cfg ser key ident corr)) (fun _ => True)).
  { apply retry_always; [done|]. eapply always_mono; [apply sign_and_submit_always| |by intros r' _; exact I].
    by intros [[] x]. }
  by destruct (always_runs _ _ _ _ _ HA Hr).
Qed.

(** C13: replay.  While a completed effect is on record under a submit's
    idempotency key and every clock reading is before its expiry, a re-send is
    either rejected by a gate or answered with the recorded signature and slot,
    marked as a duplicate; nothing is signed or submitted and no map changes. *)
Theorem done_record_replayed payload env s tr r s' k exp sig slot :
  exec bridge_sem (handle_submit cfg auth_policy payload) s tr r s' ->
  parse_submit payload = Ok env -> namespaced "submit" (ts_idempotency_key env) = Some k ->
  dedup_store s !! k = Some (mkDedup exp (DoneState sig slot)) ->
  (forall n, Ev NowMs n ∈ tr -> as_u64 n < exp) ->
  s' = s /\
  (Forall denied tr \/
   exists ns n m b y a,
     let rm := mkTxResult (ts_correlation_id env) true sig None slot true in
     tr = replayed (ts_correlation_id env) (Some k) ns n m b
            "nats_submit_deduplicated" (ts_reply_subject env) rm (ReplySubmit rm) y a).
Proof.
  intros [Hr Ht]%exec_iff Hp Hk Hrec Hclock.
  assert (Hclaim : forall ns n m b x l, Ev NowMs n ∈ tr ->
    tr = [Ev NowSecs ns; Ev (Metric m b) tt; Ev (IdemContains (ts_correlation_id env)) false; Ev NowMs n;
          Ev (ClaimOrReplay (Some k) (ts_correlation_id env) (as_u64 n)) x] ++ l ->
    x = Some (mkTxResult (ts_correlation_id env) true sig None slot true)).
  { intros ns n m b x l Hin ->. apply trace_sem_app in Ht as (s1 & Ht & _).
    cbn [trace_sem] in Ht. destruct Ht as (? & -> & ? & -> & ? & [_ ->] & ? & -> & s4 & Hc & _).
    cbn in Hc. destruct (claim_live (dedup_store s) k (ts_correlation_id env) (as_u64 n) _ Hrec
      (Hclock n Hin)) as (rm & Hcl & _ & _ & ->). unfold bridge_sem, own_step in Hc.
    rewrite Hcl in Hc. by destruct Hc as [-> _]. }
  apply handle_submit_shape in Hr as [HF|(env' & ns & n & m & b & Hp' & _ & Hcase)].
  { split; [|by left]. eapply quiet_state; [done|by apply denied_quiet]. }
  assert (env' = env) as -> by congruence. rewrite Hk in Hcase. cbn zeta in Hcase.
  destruct Hcase as [(rm & y & a & Htr)|(t & Htr & _)].
  - assert (Some rm = Some (mkTxResult (ts_correlation_id env) true sig None slot true)) as [= ->].
    { eapply (Hclaim ns n m b (Some rm)); [|exact Htr]. rewrite Htr. unfold replayed. cbn. set_solver. }
    split; [|right; by exists ns, n, m, b, y, a].
    eapply quiet_state; [exact Ht|]. rewrite Htr. apply replayed_quiet.
  - exfalso. assert (@None TxResultMessage = Some (mkTxResult (ts_correlation_id env) true sig None slot true)); [|done].
    eapply (Hclaim ns n m b None t); [|exact Htr]. rewrite Htr. unfold admitted. cbn. set_solver.
Qed.

Lemma tail_state env now k res y a s s' :
  trace_sem bridge_sem s (effect_tail env now (Some k) res y a) s' ->
  blockhash_cache s' = blockhash_cache s /\
  match res with
  | Ok (sig, slot) =>
      dedup_store s' = <[k := mkDedup (u64_add now 120000) (DoneState (Some (signature_to_string sig)) slot)]> (dedup_store s)
      /\ idempotency_cache s' = <[ts_correlation_id env := u64_add now 60000]> (idempotency_cache s)
  | Err _ => dedup_store s' = delete k (dedup_store s) /\ idempotency_cache s' = idempotency_cache s
  end.
Proof.
  unfold effect_tail. intros (s1 & H1 & s2 & -> & H2)%trace_sem_app.
  assert (s' = s1) as ->.
  { eapply quiet_state; [exact H2|]. unfold reply_events. destruct (encode_reply _); by repeat constructor. }
  destruct res as [[sig slot]|e]; cbn in H1.
  - destruct H1 as (sa & [_ ->] & sb & [_ ->] & ->). done.
  - destruct H1 as (sa & [_ ->] & ->). done.
Qed.

Lemma admitted_state corr k ns n m b s s1 :
  trace_sem bridge_sem s (admitted corr (Some k) ns n m b) s1 ->
  idempotency_cache s1 = idempotency_cache s
  /\ forall k', k' <> k -> dedup_store s1 !! k' = dedup_store s !! k'.
Proof.
  cbn [admitted trace_sem]. intros (? & -> & ? & -> & ? & [_ ->] & ? & -> & sc & Hc & ->).
  unfold bridge_sem, own_step in Hc. destruct (claim_or_replay _ _ _ _) as [x mm] eqn:E.
  destruct Hc as [<- ->]. split; [done|]. intros k' Hk'. cbn.
  replace mm with (snd (claim_or_replay (dedup_store s) (Some k) corr (as_u64 n))) by by rewrite E.
  apply claim_other. congruence.
Qed.

(** The granted claim of an admitted run is the one in its prefix. *)
Lemma admitted_claim env k ns n m b t now res y a :
  Forall pipeline_or_sleep t ->
  Ev (ClaimOrReplay (Some k) (ts_correlation_id env) now) None
    ∈ admitted (ts_correlation_id env) (Some k) ns n m b ++ t ++ effect_tail env (as_u64 n) (Some k) res y a ->
  now = as_u64 n.
Proof.
  intros Hpipe Hin. apply (list_elem_of_fmap_2 ev_op) in Hin. rewrite !fmap_app, !elem_of_app in Hin. cbn [ev_op] in Hin.
  destruct Hin as [Hin|[Hin|Hin]].
  - unfold admitted in Hin. cbn in Hin. rewrite !elem_of_cons in Hin.
    destruct Hin as [H|[H|[H|[H|[H|H]]]]]; [congruence..|by apply elem_of_nil in H].
  - apply list_elem_of_fmap in Hin as (e & He & Hin). rewrite Forall_forall in Hpipe.
    apply Hpipe in Hin. unfold pipeline_or_sleep in Hin. by rewrite <- He in Hin.
  - exfalso. unfold effect_tail, reply_events in Hin.
    destruct res as [[? ?]|?], (encode_reply _); cbn in Hin; rewrite !elem_of_cons in Hin; set_solver.
Qed.

(** C14: what a submit leaves behind.  Run without interference with an
    idempotency key, a submit whose claim was granted ends in one of two states:
    the node accepted a submission, which is then on record under its key for
    120 s and under its correlation id, or nothing was accepted, the key is free
    again for a retry and the correlation id was not recorded.  No other key is
    touched. *)
Theorem submit_final_state payload env s tr s' k now :
  exec bridge_sem (handle_submit cfg auth_policy payload) s tr (Done tt) s' ->
  parse_submit payload = Ok env -> namespaced "submit" (ts_idempotency_key env) = Some k ->
  Ev (ClaimOrReplay (Some k) (ts_correlation_id env) now) None ∈ tr ->
  (forall k', k' <> k -> dedup_store s' !! k' = dedup_store s !! k') /\
  ((exists tx sig, Ev (SendTx tx) (Ok sig) ∈ tr
      /\ dedup_store s' !! k = Some (mkDedup (u64_add now 120000) (DoneState (Some (signature_to_string sig)) 0))
      /\ idempotency_cache s' = <[ts_correlation_id env := u64_add now 60000]> (idempotency_cache s))
   \/ ((forall tx sig, Ev (SendTx tx) (Ok sig) ∉ tr)
      /\ dedup_store s' !! k = None /\ idempotency_cache s' = idempotency_cache s)).
Proof.
  intros [Hr Ht]%exec_iff Hp Hk Hin.
  apply handle_submit_inv in Hr as [HF|(env' & ns & n & m & b & t & Hp' & _ & -> & Hr)].
  { rewrite Forall_forall in HF. by apply HF in Hin. }
  assert (env' = env) as -> by congruence. rewrite Hk in *.
  apply submit_effect_inv in Hr as (t0 & [[_ ?]|(res & y & a & Hr & -> & _)]); [done|].
  destruct (effect_sends cfg env (Some k) ns n m b res y a t0 Hr) as (n' & o' & Hall & Hend).
  pose proof (retried_pipeline _ _ _ _ _ _ _ Hr) as Hpipe.
  assert (now = as_u64 n) as -> by by eapply admitted_claim.
  apply trace_sem_app in Ht as (s1 & Hadm & (s2 & ->%pipeline_state & Htail)%trace_sem_app); [|done].
  apply admitted_state in Hadm as [Hi Hd]. apply tail_state in Htail as [_ Htail].
  destruct res as [[sig slot]|e]; cbn in Hend.
  - destruct Hend as [-> ->]. destruct Htail as [-> ->]. split.
    { intros k' Hk'. rewrite lookup_insert_ne by done. by apply Hd. }
    left. destruct (sends_accepted_in _ _ _ _ Hall) as [tx Hacc].
    exists tx, sig. splits; [done|by rewrite lookup_insert_eq|by rewrite Hi].
  - destruct Htail as [-> ->]. split.
    { intros k' Hk'. rewrite lookup_delete_ne by done. by apply Hd. }
    right. splits; [|by rewrite lookup_delete_eq|done].
    intros tx sig (t1 & t2 & Heq)%list_elem_of_split.
    destruct (sends_accepted _ _ _ _ _ _ _ _ Hall Heq) as [_ Ho]. congruence.
Qed.

End lemmas.

(** ** Examples *)

Section examples.
#[local] Existing Instances toy_sdk toy_core toy_x509 toy_b64.

Definition demo_submit (corr key : string) : TxSubmitMessage :=
  mkSubmit corr key "replies" [x01] "platform_admin" false 0 demo_ident 1000 None.

Definition demo_parse_submit (b : bytes) : result TxSubmitMessage string :=
  match b with
  | [x01] => Ok (demo_submit "c1" "k1")
  | [x02] => Ok (demo_submit "c2" "k1")
  | [x03] => Ok (demo_submit "c1" "")
  | _ => Err "expected value"
  end.

Definition demo_aggregator : string := "spiffe://gridtokenx/aggregator".

Definition demo_mint : MintEnergyMessage :=
  mkMint "m1" "window-7" "replies" "wallet" 5 [x01] 0 demo_aggregator 1000
    (Some (mkEnvelopeAuth "x509-p256-v1" demo_aggregator "m1")).

#[local] Instance consumer_serde : SerdeJson :=
  toy_serde demo_parse_submit
    (fun _ => Ok (mkCancel "c1" "replies" demo_ident 1000 None))
    (fun _ => Ok demo_mint)
    (fun _ => Ok (mkStatus "s1" "replies" "sig" "spiffe://gridtokenx/admin" None)).
#[local] Existing Instance toy_tokio.

Definition demo_policy : NatsAuthPolicy := mkPolicy false (Some (as_bytes "ca")).

(** The node answers the first confirmation poll. *)
Definition node (now : Z) (o : bop) : option (bans o) :=
  match o with
  | SigStatuses _ => Some (Ok [Some (JObj [("err", JNull); ("slot", JNum 77)])])
  | VaultPubkey _ => Some (Ok admin_key)
  | o => healthy now o
  end.

Definition demo_handle (p : prog bans unit) (s : bridge_state) := run (with_env (fixed_env (node 2000))) p (s, tt).

Definition demo_dispatch (subject : string) (payload : bytes) : prog bans unit :=
  dispatch demo_cfg demo_policy subject payload.

Lemma message_lifecycle_witness :
  let t := fst (demo_handle (demo_dispatch "chain.tx.submit" [x01]) bridge_new) in
  snd t = Done tt /\
  exists l pub k x, fst t = l ++ pub ++ [Ev (AckMsg k) x] /\ Forall inner l
    /\ (pub = [] \/ exists s p y, pub = [Ev (Publish s p) y]).
Proof.
  cbn zeta. assert (E : snd (fst (demo_handle (demo_dispatch "chain.tx.submit" [x01]) bridge_new)) = Done tt)
    by (vm_compute; reflexivity).
  split; [exact E|].
  pose proof (message_lifecycle demo_cfg demo_policy "chain.tx.submit" [x01] _ _
    (run_trace (with_env (fixed_env (node 2000))) (demo_dispatch "chain.tx.submit" [x01]) (bridge_new, tt))) as H.
  unfold demo_handle in E |- *. rewrite E in H. exact H.
Defined.

Lemma submit_gated_witness :
  let tr := fst (fst (demo_handle (handle_submit demo_cfg demo_policy [x01]) bridge_new)) in
  exists env now_secs now m b t,
    parse_submit [x01] = Ok env /\ submit_gates demo_policy env now_secs now
    /\ tr = admitted (ts_correlation_id env) (namespaced "submit" (ts_idempotency_key env)) now_secs now m b ++ t.
Proof.
  cbn zeta. eapply (submit_gated demo_cfg demo_policy [x01] _ _ (Ev (IdemInsert "c1" 62000) tt)).
  - apply run_trace.
  - assert (E : (fst (fst (demo_handle (handle_submit demo_cfg demo_policy [x01]) bridge_new))) !! 12%nat
                = Some (Ev (IdemInsert "c1" 62000) tt)) by (vm_compute; reflexivity).
    exact (list_elem_of_lookup_2 _ _ _ E).
  - intros [].
Defined.

Lemma mint_gated_witness :
  exists env now_secs ca auth,
    parse_mint [] = Ok env /\ ca_der demo_policy = Some ca /\ me_auth env = Some auth
    /\ envelope_verified ca auth (me_service_identity env) (canonical_mint_bytes env) now_secs.
Proof.
  destruct (mint_gated demo_cfg demo_policy []
    (fst (fst (demo_handle (handle_mint demo_cfg demo_policy []) bridge_new)))
    (snd (fst (demo_handle (handle_mint demo_cfg demo_policy []) bridge_new)))
    (Ev (VaultPubkey "gridtokenx-bridge") (Ok admin_key)))
    as (env & ns & n & m & b & t & ca & auth & H1 & H2 & H3 & H4 & _).
  - apply run_trace.
  - assert (E : (fst (fst (demo_handle (handle_mint demo_cfg demo_policy []) bridge_new))) !! 5%nat
                = Some (Ev (VaultPubkey "gridtokenx-bridge") (Ok admin_key))) by (vm_compute; reflexivity).
    exact (list_elem_of_lookup_2 _ _ _ E).
  - intros [].
  - exists env, ns, ca, auth. splits; assumption.
Defined.

Lemma submit_retries_bounded_witness :
  let tr := fst (fst (demo_handle (handle_submit demo_cfg demo_policy [x01]) bridge_new)) in
  count_ev is_send tr = 1%nat /\ (count_ev is_send tr <= 4)%nat.
Proof.
  split; [vm_compute; reflexivity|].
  refine (proj1 (submit_retries_bounded demo_cfg demo_policy [x01] (demo_submit "c1" "k1") _ _ eq_refl)).
  assert (E : Done tt = snd (fst (demo_handle (handle_submit demo_cfg demo_policy [x01]) bridge_new)))
    by (vm_compute; reflexivity).
  rewrite E. apply run_trace.
Defined.

Lemma status_read_only_witness :
  snd (fst (demo_handle (handle_status demo_policy []) bridge_new)) = Done tt.
Proof.
  refine (proj1 (status_read_only demo_policy []
    (fst (fst (demo_handle (handle_status demo_policy []) bridge_new))) _ _)).
  apply run_trace.
Defined.

(** The cancel is handled, then the submit is delivered. *)
Definition demo_cancel := schedule (with_env (fixed_env (node 2000))) (replicate 20 0%nat) (bridge_new, tt)
  [handle_cancel demo_policy []].

Definition demo_cancelled : bridge_state := fst (snd (fst demo_cancel)).

Definition demo_late := schedule (with_env (fixed_env (node 2000))) (replicate 20 0%nat) (demo_cancelled, tt)
  [handle_submit demo_cfg demo_policy [x01]].

Lemma recorded_correlation_blocks_witness :
  Forall quiet (thread_trace 0 (fst (fst demo_late))).
Proof.
  refine (proj1 (recorded_correlation_blocks demo_cfg demo_policy "c1" demo_cancelled
    [handle_submit demo_cfg demo_policy [x01]] _ _ _ 0 [x01] _ _ _)).
  - vm_compute. eexists. reflexivity.
  - exact (schedule_bridge (fixed_env (node 2000)) (replicate 20 0%nat) demo_cancelled tt
             [handle_submit demo_cfg demo_policy [x01]]).
  - left. split; [reflexivity|]. exists (demo_submit "c1" "k1"). split; reflexivity.
Defined.

Lemma cancel_blocks_submit_witness :
  Forall quiet (thread_trace 0 (fst (fst demo_late))).
Proof.
  assert (Hx : pexec bridge_sem (bridge_new, [handle_cancel demo_policy []]) (fst (fst demo_cancel))
    (demo_cancelled, snd demo_cancel)) by apply schedule_bridge.
  assert (Hall : forallb (fun e => match e with
      | Ev NowSecs n => n =? 2
      | Ev NowMs n => n =? 2000
      | Ev (IdemContains _) b => negb b
      | _ => true end) (thread_trace 0 (fst (fst demo_cancel))) = true) by (vm_compute; reflexivity).
  rewrite List.forallb_forall in Hall.
  refine (proj2 (cancel_blocks_submit demo_cfg demo_policy [] (mkCancel "c1" "replies" demo_ident 1000 None)
    bridge_new [handle_cancel demo_policy []] _ _ _ 0 eq_refl _ Hx eq_refl _ _ _ _)
    [handle_submit demo_cfg demo_policy [x01]] _ _ _ 0%nat [x01] _ _).
  - vm_compute. discriminate.
  - vm_compute. reflexivity.
  - intros ns Hin. apply list_elem_of_In, Hall, Z.eqb_eq in Hin as ->. vm_compute. reflexivity.
  - intros n Hin. apply list_elem_of_In, Hall, Z.eqb_eq in Hin as ->. vm_compute. discriminate.
  - intros Hin. apply list_elem_of_In, Hall in Hin. discriminate Hin.
  - exact (schedule_bridge (fixed_env (node 2000)) (replicate 20 0%nat) demo_cancelled tt
             [handle_submit demo_cfg demo_policy [x01]]).
  - left. split; [reflexivity|]. exists (demo_submit "c1" "k1"). split; reflexivity.
Defined.

(** The state after [k1] was submitted under correlation id [c1]. *)
Definition demo_submitted : bridge_state :=
  fst (snd (demo_handle (handle_submit demo_cfg demo_policy [x01]) bridge_new)).

Lemma done_record_replayed_witness :
  fst (snd (demo_handle (handle_submit demo_cfg demo_policy [x02]) demo_submitted)) = demo_submitted.
Proof.
  refine (proj1 (done_record_replayed demo_cfg demo_policy [x02] (demo_submit "c2" "k1") demo_submitted
    (fst (fst (demo_handle (handle_submit demo_cfg demo_policy [x02]) demo_submitted))) _ _
    "submit:k1" 122000 (Some (signature_to_string (sig_of_byte x09))) 0 _ _ _ _ _)).
  - apply run_exec.
  - reflexivity.
  - vm_compute. reflexivity.
  - vm_compute. reflexivity.
  - intros n Hin.
    assert (Hall : forallb (fun e => match e with Ev NowMs n => as_u64 n <? 122000 | _ => true end)
      (fst (fst (demo_handle (handle_submit demo_cfg demo_policy [x02]) demo_submitted))) = true)
      by (vm_compute; reflexivity).
    rewrite List.forallb_forall in Hall. apply list_elem_of_In, Hall, Z.ltb_lt in Hin. exact Hin.
Defined.

Lemma submit_final_state_witness :
  exists tx sig, Ev (SendTx tx) (Ok sig) ∈ fst (fst (demo_handle (handle_submit demo_cfg demo_policy [x01]) bridge_new))
    /\ dedup_store demo_submitted !! "submit:k1"
       = Some (mkDedup 122000 (DoneState (Some (signature_to_string sig)) 0)).
Proof.
  assert (E : Done tt = snd (fst (demo_handle (handle_submit demo_cfg demo_policy [x01]) bridge_new)))
    by (vm_compute; reflexivity).
  destruct (submit_final_state demo_cfg demo_policy [x01] (demo_submit "c1" "k1") bridge_new
    (fst (fst (demo_handle (handle_submit demo_cfg demo_policy [x01]) bridge_new))) demo_submitted
    "submit:k1" 2000) as [_ [(tx & sig & Hs & Hd & _)|(_ & Hd & _)]].
  - rewrite E. apply run_exec.
  - reflexivity.
  - vm_compute. reflexivity.
  - assert (E2 : (fst (fst (demo_handle (handle_submit demo_cfg demo_policy [x01]) bridge_new))) !! 4%nat
                = Some (Ev (ClaimOrReplay (Some "submit:k1") "c1" 2000) None)) by (vm_compute; reflexivity).
    exact (list_elem_of_lookup_2 _ _ _ E2).
  - exists tx, sig. split; [exact Hs|]. rewrite Hd. reflexivity.
  - vm_compute in Hd. discriminate Hd.
Defined.

End examples.
