(* ===== verification/Concurrency.v ===== *)
(** * The bridge's tasks, interleaved

    [for_each_concurrent] runs many handlers over the same [dedup_store] and
    [idempotency_cache], beside the cleanup task, the gRPC requests and the blockhash
    refresh.  The tasks are interleaved call by call ([pexec] over [bridge_sem]).
    The main results are at-most-once submission per idempotency key and the
    finality of a recorded mint; the last section shows what is left when a message
    has no key. *)

From S2P Require Import Prelude RustStd Effects Domain External BridgeOps Fixtures Identity Signing SigningSpec Refresh Grpc Consumer ConsumerSpec ConsumerProps.
From Stdlib Require String.
Import String.StringSyntax.

Local Open Scope Z_scope.

Section concurrency.
Context {J : SerdeJson} {K : SolanaSdk} {C : BlockchainCore} {X : X509} {B : Base64} {R : TokioRetry} {H : HttpHeaders}.
Context (cfg : Config) (auth_policy : NatsAuthPolicy).
Context (from_headers : gmap string (list HeaderValue) -> ServiceRole).

(** ** Tasks *)

Inductive task : Type :=
| Deliver (subject : string) (payload : bytes)
| Cleanup (ticks : nat) (snapshot : gmap string Z)
| ServeRpc (headers : gmap string (list HeaderValue)) (q : Rpc)
| RefreshBlockhash (rounds : nat).

Definition task_prog (t : task) : prog bans unit :=
  match t with
  | Deliver subject payload => dispatch cfg auth_policy subject payload
  | Cleanup ticks snapshot => do! cleanup_task ticks snapshot ;; Ret tt
  | ServeRpc headers q => do! serve cfg from_headers headers q ;; Ret tt
  | RefreshBlockhash rounds => refresh_task rounds
  end.

Lemma cleanup_rule (P : event bans -> Prop) n snap :
  (forall now, P (Ev NowMs now)) -> (forall now x, P (Ev (DedupRetain (as_u64 now)) x)) ->
  always P (cleanup_task n snap) (fun _ => True).
Proof.
  intros Hn Hr. revert snap. induction n as [|n IH]; intros snap; [done|]. cbn [cleanup_task call bind always].
  intros now. split; [done|]. intros []. split; [done|apply IH].
Qed.

(** The dedup key of a submit delivery, and of a mint delivery. *)
Definition submit_key (t : task) : option string :=
  match t with
  | Deliver subject payload =>
      if String.eqb subject "chain.tx.submit" then
        match parse_submit payload with
        | Ok env => namespaced "submit" (ts_idempotency_key env)
        | Err _ => None
        end
      else None
  | _ => None
  end.

Definition mint_key (t : task) : option string :=
  match t with
  | Deliver subject payload =>
      if String.eqb subject "chain.tx.mint" then
        match parse_mint payload with
        | Ok env => namespaced "mint" (me_idempotency_key env)
        | Err _ => None
        end
      else None
  | _ => None
  end.

Definition is_accepted (e : event bans) : bool :=
  match e with Ev (SendTx _) (Ok _) => true | _ => false end.

(** ** The protocol of one key

    What a thread may do to the record of key [k].  A [Free] thread remembers
    its last clock reading; [mine] says that its key is [k].  A submit is done
    once the node has accepted it.  A mint ([mint]) is not: while its confirmation
    is out it may still give the key back, so it stays [Holding] until it records
    the confirmed effect. *)

Inductive holder : Type :=
| Free (mine : bool) (clock : option Z)
| Holding (since : Z)
| Accepted (since : Z)
| Recorded (since : Z).

Definition claim_step (mint : bool) (k : string) (m : holder) (e : event bans) : option holder :=
  match m with
  | Free mine c =>
      match e with
      | Ev NowMs n => Some (Free mine (Some (as_u64 n)))
      | Ev (ClaimOrReplay (Some k') _ now) x =>
          if String.eqb k' k then
            if mine && bool_decide (c = Some now)
            then Some (match x with None => Holding now | Some _ => Free mine c end)
            else None
          else Some m
      | Ev (DedupInsert k' _) _ | Ev (DedupRemove k') _ => if String.eqb k' k then None else Some m
      | Ev (DedupRetain now) _ => if bool_decide (c = Some now) then Some m else None
      | Ev (SendTx _) _ => if mine then None else Some m
      | _ => Some m
      end
  | Holding t =>
      match e with
      | Ev (SendTx _) (Ok _) => Some (if mint then m else Accepted t)
      | Ev (DedupInsert k' rec) _ =>
          if mint && String.eqb k' k && (expiry_ms rec =? u64_add t 120000) then Some (Recorded t) else None
      | Ev (DedupRemove k') _ => if String.eqb k' k then Some (Free true None) else None
      | Ev (ClaimOrReplay _ _ _) _ | Ev (DedupRetain _) _ => None
      | _ => Some m
      end
  | Accepted t =>
      match e with
      | Ev (DedupInsert k' rec) _ =>
          if String.eqb k' k && (expiry_ms rec =? u64_add t 120000) then Some (Recorded t) else None
      | Ev (SendTx _) _ | Ev (ClaimOrReplay _ _ _) _ | Ev (DedupRemove _) _ | Ev (DedupRetain _) _ => None
      | _ => Some m
      end
  | Recorded t =>
      match e with
      | Ev (SendTx _) _ | Ev (ClaimOrReplay _ _ _) _ | Ev (DedupInsert _ _) _
      | Ev (DedupRemove _) _ | Ev (DedupRetain _) _ => None
      | _ => Some m
      end
  end.

(** ** Every task follows the protocol *)

Definition untouched (k : string) (e : event bans) : Prop := ~ touches k (ev_op e).

Lemma untouched_free mint k c tr :
  Forall (untouched k) tr -> exists c', monitor (claim_step mint k) (Free false c) tr = Some (Free false c').
Proof.
  revert c. induction tr as [|[o x] tr IH]; intros c; [by eexists|].
  inversion 1 as [|? ? Ho HF]; subst. cbn [monitor].
  assert (Hd : exists c1, claim_step mint k (Free false c) (Ev o x) = Some (Free false c1)).
  { unfold untouched in Ho. destruct o; cbn in *; eauto.
    - destruct k0 as [k0|]; [|eauto]. destruct (String.eqb_spec k0 k); [done|eauto].
    - destruct (String.eqb_spec k0 k); [done|eauto].
    - destruct (String.eqb_spec k0 k); [done|eauto].
    - destruct Ho. done. }
  destruct Hd as [c1 ->]. auto.
Qed.

Lemma denied_untouched k e : denied e -> untouched k e.
Proof. destruct e as [[] x]; cbn; try done; by intros _ []. Qed.

Lemma quiet_untouched k e : quiet e -> (forall key corr n, ev_op e = ClaimOrReplay key corr n -> key <> Some k) ->
  untouched k e.
Proof.
  destruct e as [o x]. destruct o; try (intros Hd _; by apply denied_untouched).
  cbn. intros _ Hk. specialize (Hk _ _ _ eq_refl). unfold untouched. cbn. destruct k0; [|tauto]. congruence.
Qed.

Lemma pipeline_untouched k e : pipeline_or_sleep e -> untouched k e.
Proof. destruct e as [[] x]; cbn; try done; by intros _ []. Qed.

Lemma dedup_done_untouched k key now sig slot :
  key <> Some k -> always (untouched k) (dedup_done key now sig slot) (fun _ => True).
Proof. destruct key as [k0|]; cbn; [|done]. intros Hk []. split; [|done]. unfold untouched. cbn. congruence. Qed.

Lemma dedup_release_untouched k key :
  key <> Some k -> always (untouched k) (dedup_release key) (fun _ => True).
Proof. destruct key as [k0|]; cbn; [|done]. intros Hk []. split; [|done]. unfold untouched. cbn. congruence. Qed.

Lemma finish_untouched k name b subject rep kind :
  always (untouched k) (do! metric name b ;; do! publish_reply subject rep ;; ack_msg kind) (fun _ => True).
Proof.
  cbn [metric call bind always]. intros []. split; [by intros []|].
  eapply always_bind; [apply publish_reply_always; by intros p x []| |done].
  intros [] _. cbn. intros y. split; [by intros []|done].
Qed.

Lemma sign_and_submit_untouched k ser key ident corr :
  always (untouched k) (sign_and_submit cfg ser key ident corr) (fun _ => True).
Proof.
  eapply always_mono; [apply sign_and_submit_always| |by intros r _; exact I].
  intros [[] x]; cbn; try done; by intros _ [].
Qed.

Lemma submit_effect_untouched k env now key :
  key <> Some k -> always (untouched k) (submit_effect cfg env now key) (fun _ => True).
Proof.
  intros Hk. unfold submit_effect.
  eapply always_bind; [apply retry_always; [by intros d x []|apply sign_and_submit_untouched]| |done].
  intros res _. eapply (always_bind _ _ _ (fun _ => True)); [|intros rm _; apply finish_untouched|done].
  destruct res as [[sig slot]|e].
  - cbn [call bind always]. intros []. split; [by intros []|].
    eapply always_bind; [by apply dedup_done_untouched|done|done].
  - eapply always_bind; [by apply dedup_release_untouched|done|done].
Qed.

Lemma mint_effect_untouched k env now key :
  key <> Some k -> always (untouched k) (mint_effect cfg env now key) (fun _ => True).
Proof.
  intros Hk. unfold mint_effect. eapply always_bind.
  { eapply always_mono; [apply build_mint_always| |by intros r _; exact I].
    intros [o x]. destruct o; unfold mint_event, untouched; cbn; try tauto; by intros (? & []). }
  2: done.
  intros res _. eapply (always_bind _ _ _ (fun _ => True)); [|intros rm _; apply finish_untouched|done].
  destruct res as [[sig slot]|e].
  - cbn [call bind always]. intros []. split; [by intros []|].
    eapply always_bind; [by apply dedup_done_untouched|done|done].
  - eapply always_bind; [by apply dedup_release_untouched|done|done].
Qed.

Lemma replayed_untouched k corr key ns n m b mn subject rm rep y a :
  key <> Some k -> Forall (untouched k) (replayed corr key ns n m b mn subject rm rep y a).
Proof.
  intros Hk. pose proof (replayed_quiet corr key ns n m b mn subject rm rep y a) as HF.
  rewrite Forall_forall in HF |- *. intros e He. apply quiet_untouched; [by apply HF|].
  intros key' corr' n' Hop. unfold replayed in He. rewrite !elem_of_app in He.
  destruct He as [He|[He|He]].
  - rewrite !elem_of_cons in He. destruct He as [->|[->|[->|[->|[->|[->|He]]]]]]; cbn in Hop; try done.
    + congruence.
    + by apply elem_of_nil in He.
  - unfold reply_events in He. destruct (encode_reply rep); [|by apply elem_of_nil in He].
    apply list_elem_of_singleton in He as ->. done.
  - apply list_elem_of_singleton in He as ->. done.
Qed.

Lemma admitted_untouched k corr key ns n m b :
  key <> Some k -> Forall (untouched k) (admitted corr key ns n m b).
Proof.
  intros Hk. unfold admitted. repeat (constructor; [by intros []|]).
  constructor; [|constructor]. unfold untouched. cbn. destruct key; [congruence|tauto].
Qed.

Lemma untouched_obeys {A : Type} mint k (p : prog bans A) F :
  (forall tr r, runs p tr r -> Forall (untouched k) tr) -> (forall m r, F m r) ->
  obeys (claim_step mint k) (Free false None) p F.
Proof.
  intros Hp HF. apply (runs_obeys quiet_answer). intros tr r Hr.
  destruct (untouched_free mint k None tr (Hp tr r Hr)) as [c Hc]. eauto.
Qed.

Lemma handle_submit_other k payload tr r :
  (forall env, parse_submit payload = Ok env -> namespaced "submit" (ts_idempotency_key env) <> Some k) ->
  runs (handle_submit cfg auth_policy payload) tr r -> Forall (untouched k) tr.
Proof.
  intros Hk [HF|(env & ns & n & m & b & Hp & _ & [(rm & y & a & ->)|(t & -> & Hr)])]%handle_submit_shape.
  - eapply Forall_impl; [exact HF|]. intros e. apply denied_untouched.
  - apply replayed_untouched. auto.
  - apply Forall_app. split; [apply admitted_untouched; auto|].
    by destruct (always_runs _ _ _ _ _ (submit_effect_untouched k _ _ _ (Hk env Hp)) Hr).
Qed.

Lemma handle_mint_other k payload tr r :
  (forall env, parse_mint payload = Ok env -> namespaced "mint" (me_idempotency_key env) <> Some k) ->
  runs (handle_mint cfg auth_policy payload) tr r -> Forall (untouched k) tr.
Proof.
  intros Hk [HF|(env & ns & n & m & b & Hp & _ & [(rm & y & a & ->)|(t & -> & Hr)])]%handle_mint_shape.
  - eapply Forall_impl; [exact HF|]. intros e. apply denied_untouched.
  - apply replayed_untouched. auto.
  - apply Forall_app. split; [apply admitted_untouched; auto|].
    by destruct (always_runs _ _ _ _ _ (mint_effect_untouched k _ _ _ (Hk env Hp)) Hr).
Qed.

Lemma routine_untouched k e : routine e -> untouched k e.
Proof. destruct e as [[] x]; cbn; try done; by intros _ []. Qed.

Lemma handle_cancel_other k payload tr r :
  runs (handle_cancel auth_policy payload) tr r -> Forall (untouched k) tr.
Proof.
  intros Hr. refine (proj1 (always_runs _ _ _ _ _ (handle_cancel_rule auth_policy (untouched k) True _ payload _) Hr)).
  - apply routine_untouched.
  - by intros env k' now x _ [].
Qed.

Lemma handle_status_other k payload tr r :
  runs (handle_status auth_policy payload) tr r -> Forall (untouched k) tr.
Proof.
  intros Hr. refine (proj1 (always_runs _ _ _ _ _ (handle_status_rule auth_policy (untouched k) True _ payload _) Hr)).
  - apply routine_untouched.
  - by intros sigs x [].
Qed.

Lemma serve_other k headers q tr r :
  runs (do! serve cfg from_headers headers q ;; Ret tt) tr r -> Forall (untouched k) tr.
Proof.
  intros Hr. refine (proj1 (always_runs _ _ (fun _ => True) _ _ _ Hr)).
  apply (always_bind _ _ _ (fun _ => True)); [|done|done]. apply serve_rule.
  - intros ser key _. apply sign_and_submit_untouched.
  - intros o x Ho. destruct o; try done; by intros [].
Qed.

Lemma refresh_other k rounds tr r : runs (refresh_task rounds) tr r -> Forall (untouched k) tr.
Proof.
  intros Hr. refine (proj1 (always_runs _ _ (fun r => r <> Aborted) _ _ _ Hr)).
  apply refresh_rule; [by intros x []|by intros h n x []].
Qed.

Lemma cleanup_obeys mint k n snap c F :
  (forall m r, F m r) -> obeys (claim_step mint k) (Free false c) (do! cleanup_task n snap ;; Ret tt) F.
Proof.
  intros HF. revert snap c. induction n as [|n IH]; intros snap c; [by apply HF|].
  cbn [cleanup_task call bind obeys claim_step]. intros now. rewrite bool_decide_true by done. intros _. apply IH.
Qed.

(** The pipeline under a held claim. *)
Lemma holding_pipeline k t ds ser key ident corr :
  obeys (claim_step false k) (Holding t) (retry_spawn ds (sign_and_submit cfg ser key ident corr))
    (fun m r => match r with
                | Done (Ok _) => m = Accepted t
                | Done (Err _) | Aborted => m = Holding t
                end).
Proof.
  apply (retry_obeys _ (fun _ m => m = Holding t)); [by intros ? ? ? ? ->| |done].
  intros n m ->.
  apply (obeys_sim (pipeline_step key) (claim_step false k)
    (fun ph m => match ph with PSent (Ok _) => m = Accepted t | _ => m = Holding t end)
    PIdle _ _ pipeline_end); [|done|apply sign_and_submit_obeys|].
  - intros ph m [o x] ph' HR Hd. destruct o; cbn in Hd; destruct ph as [| | |[]]; try done;
      try destruct x; simplify_eq; cbn; repeat split_match; simplify_eq; eauto.
  - intros ph m [[[sig slot]|e]|] HR He; cbn in He |- *.
    + by destruct He as [_ ->].
    + destruct e, ph as [| | |[]]; try (by destruct He); simplify_eq; auto.
    + by destruct He as [->|(? & ? & ->)].
Qed.

Lemma denied_mine mint k c tr :
  Forall denied tr -> exists c', monitor (claim_step mint k) (Free true c) tr = Some (Free true c').
Proof.
  revert c. induction tr as [|[o x] tr IH]; intros c; [by eexists|].
  inversion 1 as [|? ? Ho HF]; subst. cbn [monitor]. destruct o; try done; cbn [claim_step]; auto.
Qed.

Lemma reply_settled mint k m subject rep y :
  (match m with Free _ _ | Recorded _ => True | _ => False end) ->
  monitor (claim_step mint k) m (reply_events subject rep y) = Some m.
Proof. intros Hm. unfold reply_events. destruct (encode_reply rep); [|done]. by destruct m. Qed.

Lemma tail_protocol k env t res y a :
  monitor (claim_step false k) (match res with Ok _ => Accepted t | Err _ => Holding t end)
    (effect_tail env t (Some k) res y a)
  = Some (match res with Ok _ => Recorded t | Err _ => Free true None end).
Proof.
  unfold effect_tail. destruct res as [[sig slot]|e]; rewrite monitor_app;
    cbn [record_events monitor claim_step expiry_ms]; rewrite String.eqb_refl, ?Z.eqb_refl;
    cbn [andb monitor claim_step]; by rewrite monitor_app, reply_settled.
Qed.

(** A delivery whose key is [k]: rejected, replayed, or admitted under a claim. *)
Lemma claimed_protocol mint k corr ns n m b t m' :
  monitor (claim_step mint k) (Holding (as_u64 n)) t = Some m' ->
  monitor (claim_step mint k) (Free true None) (admitted corr (Some k) ns n m b ++ t) = Some m'.
Proof.
  intros Hm. unfold admitted. cbn [app monitor claim_step]. rewrite String.eqb_refl, bool_decide_true by done. done.
Qed.

Lemma replayed_protocol mint k corr ns n m b mn subject rm rep y a :
  exists m', monitor (claim_step mint k) (Free true None) (replayed corr (Some k) ns n m b mn subject rm rep y a) = Some m'.
Proof.
  unfold replayed. cbn [app monitor claim_step]. rewrite String.eqb_refl, bool_decide_true by done.
  cbn [andb monitor claim_step]. rewrite monitor_app, reply_settled by done. by eexists.
Qed.

Lemma handle_submit_mine k payload env :
  parse_submit payload = Ok env -> namespaced "submit" (ts_idempotency_key env) = Some k ->
  obeys (claim_step false k) (Free true None) (handle_submit cfg auth_policy payload) (fun _ _ => True).
Proof.
  intros Hp Hk. apply (runs_obeys quiet_answer). intros tr r Hr.
  apply handle_submit_shape in Hr as [HF|(env' & ns & n & m & b & Hp' & _ & Hcase)].
  { destruct (denied_mine false k None tr HF) as [c Hc]. eauto. }
  assert (env' = env) as -> by congruence. rewrite Hk in Hcase. destruct Hcase as [(rm & y & a & ->)|(t & -> & Hr)].
  { edestruct (replayed_protocol false k) as [m' Hm]. eauto. }
  apply submit_effect_inv in Hr as (t0 & [[Hr ->]|(res & y & a & Hr & -> & ->)]);
    destruct (obeys_runs _ _ _ _ _ _ (holding_pipeline k (as_u64 n) _ _ _ _ _) Hr) as (m' & Hm & Hend).
  - eexists. split; [by apply claimed_protocol|done].
  - pose proof (tail_protocol k env (as_u64 n) res y a) as Ht.
    destruct res as [x|e]; subst m'; eexists; (split; [|done]); apply claimed_protocol; rewrite monitor_app, Hm; exact Ht.
Qed.

(** A mint under its claim. *)
Lemma mint_holds k t wallet kwh meter window ident corr :
  obeys (claim_step true k) (Holding t)
    (build_and_submit_generation_mint cfg wallet kwh meter window ident corr) (fun m _ => m = Holding t).
Proof.
  eapply obeys_mono;
    [apply (always_obeys _ (fun m => m = Holding t) (mint_event cfg ident corr) _ _ (fun _ => True));
       [|done|apply build_mint_always]|by intros m r [? _]].
  intros m [o x] -> He. exists (Holding t). split; [|done].
  destruct o; cbn in He |- *; try done; try (by destruct He as [? []]). by destruct x.
Qed.

Lemma settled_finish mint k m name b subject rep kind :
  (match m with Free true _ | Recorded _ => True | _ => False end) ->
  obeys (claim_step mint k) m (do! metric name b ;; do! publish_reply subject rep ;; ack_msg kind) (fun _ _ => True).
Proof.
  intros Hm. eapply obeys_mono;
    [apply (always_obeys _ (fun m => match m with Free true _ | Recorded _ => True | _ => False end) routine _ _
              (fun r => r = Aborted -> True)); [|done|by apply (finish_rule routine)]|done].
  intros m0 [o x] Hm0 He. destruct m0 as [[] c|?|?|?], o; try done; eexists; done.
Qed.

Lemma mint_effect_mine k t env : obeys (claim_step true k) (Holding t) (mint_effect cfg env t (Some k)) (fun _ _ => True).
Proof.
  unfold mint_effect. eapply obeys_bind; [apply mint_holds| |done]. intros m res ->.
  eapply (obeys_bind _ _ _ _ (fun m _ => match m with Free true _ | Recorded _ => True | _ => False end));
    [|intros m' rm Hm'; by apply settled_finish|done].
  destruct res as [[sig slot]|e]; cbn; rewrite String.eqb_refl; [|done]. rewrite Z.eqb_refl. done.
Qed.

Lemma handle_mint_mine k payload env :
  parse_mint payload = Ok env -> namespaced "mint" (me_idempotency_key env) = Some k ->
  obeys (claim_step true k) (Free true None) (handle_mint cfg auth_policy payload) (fun _ _ => True).
Proof.
  intros Hp Hk. apply (runs_obeys quiet_answer). intros tr r Hr.
  apply handle_mint_shape in Hr as [HF|(env' & ns & n & m & b & Hp' & _ & Hcase)].
  { destruct (denied_mine true k None tr HF) as [c Hc]. eauto. }
  assert (env' = env) as -> by congruence. rewrite Hk in Hcase. destruct Hcase as [(rm & y & a & ->)|(t & -> & Hr)].
  { edestruct (replayed_protocol true k) as [m' Hm]. eauto. }
  destruct (obeys_runs _ _ _ _ _ _ (mint_effect_mine k (as_u64 n) env) Hr) as (m' & Hm & _).
  eexists. split; [by apply claimed_protocol|done].
Qed.

(** Submit and mint keys live in disjoint namespaces. *)
Lemma namespaces_disjoint a b k : namespaced "submit" a = Some k -> namespaced "mint" b <> Some k.
Proof.
  unfold namespaced. destruct (str_is_empty a); [done|]. intros [= <-].
  destruct (str_is_empty b); [done|]. intros Heq%(inj Some).
  rewrite !string_app_cons in Heq. discriminate.
Qed.

(** The key of a delivery on one path or the other. *)
Definition path_key (mint : bool) (t : task) : option string := if mint then mint_key t else submit_key t.

Definition path (mint : bool) : string := if mint then "mint" else "submit".

Definition initial_holder (mint : bool) (k : string) (t : task) : holder :=
  Free (bool_decide (path_key mint t = Some k)) None.

Lemma handler_other mint k key0 subject payload tr r :
  namespaced (path mint) key0 = Some k -> path_key mint (Deliver subject payload) <> Some k ->
  runs (dispatch cfg auth_policy subject payload) tr r -> Forall (untouched k) tr.
Proof.
  intros Hns Hk. unfold dispatch. destruct (String.eqb subject "chain.tx.submit") eqn:E1.
  { apply handle_submit_other. intros env Hp Hs. destruct mint; cbn in Hns, Hk; [by eapply namespaces_disjoint|].
    by rewrite E1, Hp in Hk. }
  destruct (String.eqb subject "chain.tx.cancel"); [apply handle_cancel_other|].
  destruct (String.eqb subject "chain.tx.mint") eqn:E2.
  { apply handle_mint_other. intros env Hp Hs. destruct mint; cbn in Hns, Hk; [|by eapply namespaces_disjoint].
    by rewrite E2, Hp in Hk. }
  destruct (String.eqb subject "chain.tx.status"); [apply handle_status_other|].
  intros (a & -> & _)%ack_runs. constructor; [by intros []|constructor].
Qed.

Lemma task_protocol mint k key0 t :
  namespaced (path mint) key0 = Some k ->
  obeys (claim_step mint k) (initial_holder mint k t) (task_prog t) (fun _ _ => True).
Proof.
  intros Hns. unfold initial_holder. destruct t as [subject payload|ticks snap|headers q|rounds].
  2:{ rewrite bool_decide_false by by destruct mint. by apply cleanup_obeys. }
  2:{ rewrite bool_decide_false by by destruct mint. apply untouched_obeys; [|done]. intros tr r. apply serve_other. }
  2:{ rewrite bool_decide_false by by destruct mint. apply untouched_obeys; [|done]. intros tr r. apply refresh_other. }
  cbn [task_prog]. case_bool_decide as Hk.
  2:{ apply untouched_obeys; [|done]. intros tr r. by eapply handler_other. }
  destruct mint; cbn in Hk.
  - destruct (String.eqb subject "chain.tx.mint") eqn:E; [|done]. apply String.eqb_eq in E as ->.
    destruct (parse_mint payload) as [env|] eqn:Hp; [|done]. by eapply handle_mint_mine.
  - destruct (String.eqb subject "chain.tx.submit") eqn:E; [|done]. apply String.eqb_eq in E as ->.
    destruct (parse_submit payload) as [env|] eqn:Hp; [|done]. by eapply handle_submit_mine.
Qed.

(** ** The invariant *)

Section window.
Context (k : string) (T : Z).
Context (HT0 : 0 <= T) (HT1 : T + 240000 < u64_mod).

Definition in_window (t : Z) : Prop := T <= t < T + 120000.

(** The shared-state semantics with all clock readings in the window. *)
Definition window_sem (s : bridge_state) (o : bop) (x : bans o) (s' : bridge_state) : Prop :=
  bridge_sem s o x s' /\ match Ev o x with Ev NowMs n => in_window (as_u64 n) | _ => True end.

Definition held (m : holder) : option Z :=
  match m with
  | Free _ _ => None
  | Holding t | Accepted t | Recorded t => Some t
  end.

(** At most one thread holds the key; its record is in the store and outlives
    the window; every remembered clock reading is in the window. *)
Definition claim_inv (s : bridge_state) (ms : list holder) : Prop :=
  (forall i mine t, ms !! i = Some (Free mine (Some t)) -> in_window t)
  /\ (forall i m t, ms !! i = Some m -> held m = Some t ->
        in_window t /\ exists rec, dedup_store s !! k = Some rec /\ expiry_ms rec = u64_add t 120000)
  /\ (forall i j m m', ms !! i = Some m -> ms !! j = Some m' ->
        is_Some (held m) -> is_Some (held m') -> i = j).

Lemma window_expiry t u : in_window t -> in_window u -> u < u64_add t 120000.
Proof. unfold in_window, u64_add. intros Ht Hu. rewrite Z.mod_small; lia. Qed.

Lemma insert_lookup_cases {A : Type} (l : list A) i j x y :
  <[i := x]> l !! j = Some y -> (j = i /\ y = x) \/ (j <> i /\ l !! j = Some y).
Proof.
  destruct (decide (j = i)) as [->|]; [|rewrite list_lookup_insert_ne by done; auto].
  intros Hl. assert (Hlt : (i < length (<[i := x]> l))%nat) by by eapply lookup_lt_Some.
  rewrite length_insert in Hlt. rewrite list_lookup_insert_eq in Hl by done. left. naive_solver.
Qed.

(** A step that keeps the thread's hold and the record. *)
Lemma inv_keep s s' ms i m m' :
  claim_inv s ms -> ms !! i = Some m -> held m' = held m ->
  (forall mine t, m' = Free mine (Some t) -> in_window t) ->
  (forall t, (exists j m, ms !! j = Some m /\ held m = Some t) ->
     forall rec, dedup_store s !! k = Some rec -> expiry_ms rec = u64_add t 120000 ->
     exists rec', dedup_store s' !! k = Some rec' /\ expiry_ms rec' = u64_add t 120000) ->
  claim_inv s' (<[i := m']> ms).
Proof.
  intros (HA & HB & HC) Hi Hh Hw Hrec.
  assert (Hback : forall j x, <[i := m']> ms !! j = Some x -> is_Some (held x) ->
                  exists y, ms !! j = Some y /\ held y = held x).
  { intros j x [[-> ->]|[_ Hl]]%insert_lookup_cases Hx; eauto. }
  unfold claim_inv. splits.
  - intros j mine t [[-> Hm]|[_ Hl]]%insert_lookup_cases; eauto.
  - intros j x t Hl Hx. destruct (Hback j x Hl) as (y & Hy & Hyx); [by eexists|].
    rewrite Hx in Hyx. destruct (HB j y t Hy Hyx) as (Ht & rec & Hr & He). split; [done|].
    eapply Hrec; eauto.
  - intros j j' x x' Hl Hl' Hx Hx'. destruct (Hback j x Hl Hx) as (y & Hy & Hyx).
    destruct (Hback j' x' Hl' Hx') as (y' & Hy' & Hyx'). rewrite <- Hyx in Hx. rewrite <- Hyx' in Hx'. eauto.
Qed.

Lemma inv_untouched s s' ms i m m' o x :
  claim_inv s ms -> ms !! i = Some m -> held m' = held m ->
  (forall mine t, m' = Free mine (Some t) -> in_window t) ->
  bridge_sem s o x s' -> ~ touches k o -> claim_inv s' (<[i := m']> ms).
Proof.
  intros HI Hi Hh Hw Hs Ht. eapply inv_keep; [done..|]. intros t _ rec Hr He.
  rewrite (bridge_sem_dedup _ _ _ _ _ Hs Ht). eauto.
Qed.

(** Granting a claim: nobody else holds the key. *)
Lemma inv_claim s ms i m corr now mm :
  claim_inv s ms -> ms !! i = Some m -> held m = None -> in_window now ->
  claim_or_replay (dedup_store s) (Some k) corr now = (None, mm) ->
  claim_inv (set_dedup mm s) (<[i := Holding now]> ms).
Proof.
  intros (HA & HB & HC) Hi Hh Hw [Hfree ->]%claim_granted.
  assert (Hnone : forall j y, ms !! j = Some y -> held y = None).
  { intros j y Hy. destruct (held y) as [t|] eqn:Ht; [|done].
    destruct (HB j y t Hy Ht) as (Hwt & rec & Hr & He). specialize (Hfree rec Hr).
    pose proof (window_expiry t now Hwt Hw). lia. }
  unfold claim_inv. splits.
  - intros j mine t [[-> ?]|[_ Hl]]%insert_lookup_cases; [done|eauto].
  - intros j y t [[-> ->]|[_ Hl]]%insert_lookup_cases Ht; [|by rewrite (Hnone j y) in Ht].
    cbn in Ht. simplify_eq. split; [done|]. cbn. rewrite lookup_insert_eq. eauto.
  - intros j j' y y' [[-> ->]|[_ Hl]]%insert_lookup_cases [[-> ->]|[_ Hl']]%insert_lookup_cases Hy Hy'; [done|..].
    + rewrite (Hnone j' y') in Hy' by done. by destruct Hy'.
    + rewrite (Hnone j y) in Hy by done. by destruct Hy.
    + rewrite (Hnone j y) in Hy by done. by destruct Hy.
Qed.

(** Recording the effect: the record is replaced under the same expiry. *)
Lemma inv_record s ms i m m' t rec :
  claim_inv s ms -> ms !! i = Some m -> held m = Some t -> held m' = Some t -> expiry_ms rec = u64_add t 120000 ->
  claim_inv (set_dedup (<[k := rec]> (dedup_store s)) s) (<[i := m']> ms).
Proof.
  intros HI Hi Hm Hm' He. pose proof HI as (_ & _ & HC). eapply inv_keep; [done|done|congruence|by intros ? ? ->|].
  intros u (j & y & Hj & Hy) rec0 _ _. cbn. rewrite lookup_insert_eq. exists rec. split; [done|].
  assert (j = i) as -> by (eapply HC; [exact Hj|exact Hi|by eexists..]). congruence.
Qed.

(** Releasing it. *)
Lemma inv_release s s' ms i m :
  claim_inv s ms -> ms !! i = Some m -> is_Some (held m) ->
  claim_inv s' (<[i := Free true None]> ms).
Proof.
  intros (HA & HB & HC) Hi Hh.
  assert (Hnone : forall j y, <[i := Free true None]> ms !! j = Some y -> held y = None).
  { intros j y [[-> ->]|[Hne Hl]]%insert_lookup_cases; [done|].
    destruct (held y) as [t|] eqn:Ht; [|done]. destruct Hne. eapply HC; eauto. }
  unfold claim_inv. splits.
  - intros j mine t [[-> ?]|[_ Hl]]%insert_lookup_cases; [done|eauto].
  - intros j y t Hl Ht. by rewrite (Hnone j y Hl) in Ht.
  - intros j j' y y' Hl Hl' Hy. rewrite (Hnone j y Hl) in Hy. by destruct Hy.
Qed.

(** A claim of [k] itself: refused and nothing changes, or granted. *)
Lemma inv_claim_call mint s ms i mine c corr now x s' m' :
  claim_inv s ms -> ms !! i = Some (Free mine c) ->
  claim_step mint k (Free mine c) (Ev (ClaimOrReplay (Some k) corr now) x) = Some m' ->
  bridge_sem s (ClaimOrReplay (Some k) corr now) x s' ->
  claim_inv s' (<[i := m']> ms).
Proof.
  intros HI Hi Hd Hs. pose proof HI as (HA & _ & _). cbn in Hd. rewrite String.eqb_refl in Hd.
  destruct mine; [|done]. cbn [andb] in Hd. case_bool_decide as Hc; [|done]. subst c. simplify_eq.
  unfold bridge_sem, own_step in Hs. destruct (claim_or_replay _ _ _ _) as [r mm] eqn:E. destruct Hs as [-> ->].
  destruct r as [r|].
  - apply claim_refused in E as ->. eapply inv_keep; [done|done|done| |].
    + intros mine t [= _ <-]. eapply HA. exact Hi.
    + intros t _ rec Hr He. eauto.
  - eapply inv_claim; [done|done|done| |done]. eapply HA. exact Hi.
Qed.

Lemma claim_inv_step mint s ms i m o x s' m' :
  claim_inv s ms -> ms !! i = Some m -> claim_step mint k m (Ev o x) = Some m' -> window_sem s o x s' ->
  claim_inv s' (<[i := m']> ms).
Proof.
  intros HI Hi Hd [Hs Hw]. pose proof HI as (HA & HB & HC).
  assert (Hold : forall mine c t, m = Free mine c -> Free mine c = Free mine (Some t) -> in_window t).
  { intros mine c t -> [= ->]. eapply HA. exact Hi. }
  destruct o; try (destruct m; cbn in Hd; simplify_eq;
    (eapply inv_untouched; [done|done|done| |done|tauto]);
    intros; simplify_eq; eauto; fail).
  - (* SendTx *)
    destruct m as [[] c|t|t|t]; cbn in Hd; simplify_eq; [|destruct x, mint; simplify_eq];
      (eapply inv_untouched; [done|done|done| |done|tauto]); intros; simplify_eq; eauto.
  - (* ClaimOrReplay *)
    destruct m as [mine c|t|t|t]; cbn in Hd; simplify_eq. destruct k0 as [k0|].
    2:{ simplify_eq. eapply inv_untouched; [done|done|done| |done|cbn; tauto]. intros; simplify_eq; eauto. }
    destruct (String.eqb_spec k0 k) as [->|Hne].
    2:{ simplify_eq. eapply inv_untouched; [done|done|done| |done|cbn; congruence]. intros; simplify_eq; eauto. }
    eapply (inv_claim_call mint); [exact HI|exact Hi| |exact Hs]. cbn. by rewrite String.eqb_refl.
  - (* DedupInsert *)
    destruct Hs as [_ ->]. destruct m as [mine c|t|t|t]; cbn in Hd; simplify_eq.
    + destruct (String.eqb_spec k0 k) as [->|Hne]; simplify_eq.
      eapply inv_keep; [done|done|done|intros; simplify_eq; eauto|].
      intros t _ rec0 Hr He. exists rec0. cbn. by rewrite lookup_insert_ne by congruence.
    + destruct mint, (String.eqb_spec k0 k) as [->|], (Z.eqb_spec (expiry_ms rec) (u64_add t 120000)); cbn in Hd; simplify_eq.
      by apply (inv_record s ms i _ _ t rec HI Hi).
    + destruct (String.eqb_spec k0 k) as [->|], (Z.eqb_spec (expiry_ms rec) (u64_add t 120000)); cbn in Hd; simplify_eq.
      by apply (inv_record s ms i _ _ t rec HI Hi).
  - (* DedupRemove *)
    destruct m as [mine c|t|t|t]; cbn in Hd; simplify_eq; (destruct (String.eqb_spec k0 k) as [->|Hne]; simplify_eq).
    + eapply inv_untouched; [done|done|done| |done|cbn; congruence]. intros; simplify_eq; eauto.
    + eapply inv_release; [done|exact Hi|by eexists].
  - (* DedupRetain *)
    destruct m as [mine c|t|t|t]; cbn in Hd; simplify_eq. case_bool_decide as Hc; simplify_eq.
    destruct Hs as [_ ->]. eapply inv_keep; [done|done|done| |].
    + intros mine' t [= _ <-]. eapply HA. exact Hi.
    + intros t (j & y & Hj & Hy) rec Hr He. exists rec. split; [|done]. cbn. apply map_lookup_filter_Some.
      split; [done|]. cbn. rewrite He. apply window_expiry; [by eapply HB|]. eapply HA. exact Hi.
Qed.

Lemma window_pexec (ps ps' : list (prog bans unit)) s tr s' :
  pexec bridge_sem (s, ps) tr (s', ps') ->
  (forall i n, (i, Ev NowMs n) ∈ tr -> in_window (as_u64 n)) ->
  pexec window_sem (s, ps) tr (s', ps').
Proof.
  intros Hx. remember (s, ps) as c eqn:Hc. remember (s', ps') as c' eqn:Hc'. clear Hc Hc'.
  induction Hx as [c|s0 ps0 i o q x s1 tr c Hi Hsem _ IH]; intros Hw; [constructor|].
  econstructor; [done| |].
  - split; [done|]. destruct o; try done. apply (Hw i). left.
  - apply IH. intros j n Hin. apply (Hw j). by right.
Qed.

(** A thread whose key is [k] stays one. *)
Lemma mine_kept mint m tr m' :
  monitor (claim_step mint k) m tr = Some m' -> (forall c, m <> Free false c) -> forall c, m' <> Free false c.
Proof.
  revert m. induction tr as [|[o x] tr IH]; intros m; cbn [monitor]; [by intros [= <-]|].
  destruct (claim_step mint k m (Ev o x)) as [m1|] eqn:E; [|done]. intros Hmon Hm. apply (IH m1 Hmon).
  destruct m as [[] c|t|t|t]; [|by destruct (Hm c)|..];
    destruct o; cbn in E; simplify_eq; try done; try destruct x; repeat split_match; simplify_eq; done.
Qed.

(** Its accepted submissions, on the submit path. *)
Lemma accepted_count m tr m' :
  (forall c, m <> Free false c) -> monitor (claim_step false k) m tr = Some m' ->
  (count_ev is_accepted tr + match m with Accepted _ | Recorded _ => 1 | _ => 0 end
   = match m' with Accepted _ | Recorded _ => 1 | _ => 0 end)%nat.
Proof.
  revert m. induction tr as [|[o x] tr IH]; intros m Hm; cbn [monitor]; [by intros [= <-]|].
  destruct (claim_step false k m (Ev o x)) as [m1|] eqn:E; [|done]. intros Hmon.
  assert (Hstep : ((if is_accepted (Ev o x) then 1 else 0) + match m with Accepted _ | Recorded _ => 1 | _ => 0 end
     = match m1 with Accepted _ | Recorded _ => 1 | _ => 0 end)%nat).
  { destruct m as [[] c|t|t|t]; [|by destruct (Hm c)|..];
      destruct o; cbn in E; simplify_eq; try done; try destruct x; repeat split_match; simplify_eq; done. }
  pose proof (mine_kept false m [Ev o x] m1) as Hk. cbn [monitor] in Hk. rewrite E in Hk.
  specialize (IH m1 (Hk eq_refl Hm) Hmon). cbn [count_ev]. lia.
Qed.

(** A thread that has recorded the key. *)
Lemma recorded_stays mint t tr m' : monitor (claim_step mint k) (Recorded t) tr = Some m' -> m' = Recorded t.
Proof.
  induction tr as [|[o x] tr IH]; cbn [monitor]; [by intros [= <-]|].
  destruct (claim_step mint k (Recorded t) (Ev o x)) as [m1|] eqn:E; [|done].
  assert (m1 = Recorded t) as -> by (destruct o; cbn in E; by simplify_eq). auto.
Qed.

Lemma recorded_final mint m tr m' rec y :
  monitor (claim_step mint k) m tr = Some m' -> Ev (DedupInsert k rec) y ∈ tr -> exists t, m' = Recorded t.
Proof.
  revert m. induction tr as [|[o x] tr IH]; intros m; cbn [monitor]; [by intros _ ?%elem_of_nil|].
  destruct (claim_step mint k m (Ev o x)) as [m1|] eqn:E; [|done]. intros Hm [He|Hin]%elem_of_cons; [|eauto].
  assert (exists t, m1 = Recorded t) as [t ->].
  { apply (f_equal ev_op) in He. cbn in He. subst o.
    destruct m; cbn in E; rewrite ?String.eqb_refl in E; repeat split_match; simplify_eq; eauto. }
  eexists. by eapply recorded_stays.
Qed.

(** A thread that submits under its key [k], or records [k], holds the key and has
    not recorded it yet. *)
Definition acts (mine : bool) (o : bop) : Prop :=
  match o with SendTx _ => mine = true | DedupInsert k' _ => k' = k | _ => False end.

Lemma acting_holds mint mine tr m1 m2 o x :
  monitor (claim_step mint k) (Free mine None) tr = Some m1 -> claim_step mint k m1 (Ev o x) = Some m2 ->
  acts mine o -> is_Some (held m1) /\ forall t, m1 <> Recorded t.
Proof.
  intros Hm E Ho. destruct o; try done; cbn in Ho; subst.
  - pose proof (mine_kept _ _ _ _ Hm ltac:(done)) as Hk.
    destruct m1 as [[] c|t|t|t]; [done|by destruct (Hk c)|..]; cbn in E; simplify_eq; split; done.
  - destruct m1; cbn in E; rewrite ?String.eqb_refl in E; simplify_eq; split; done.
Qed.

(** All of a window: the invariant at its end, and every thread's protocol. *)
Lemma window_run mint key0 s (tasks : list task) tr s' ps' :
  namespaced (path mint) key0 = Some k ->
  pexec bridge_sem (s, task_prog <$> tasks) tr (s', ps') ->
  (forall i n, (i, Ev NowMs n) ∈ tr -> in_window (as_u64 n)) ->
  exists ms', claim_inv s' ms' /\ forall i t, tasks !! i = Some t ->
    exists m', ms' !! i = Some m' /\ monitor (claim_step mint k) (initial_holder mint k t) (thread_trace i tr) = Some m'.
Proof.
  intros Hns Hx Hw.
  destruct (pexec_inv (A := unit) window_sem (claim_step mint k) (fun _ _ => True) claim_inv
      (claim_inv_step mint) s (task_prog <$> tasks) tr s' ps' (initial_holder mint k <$> tasks))
    as (ms' & HI & _ & Hmon).
  - by apply window_pexec.
  - unfold claim_inv. splits; intros i; [intros mine t Hi|intros m t Hi Hh|intros j m m' Hi _ Hh _];
      rewrite list_lookup_fmap in Hi; destruct (tasks !! i); simplify_eq/=; [done..|]. by destruct Hh.
  - apply Forall2_fmap. apply Forall_Forall2_diag, Forall_true. intros t. by eapply task_protocol.
  - exists ms'. split; [done|]. intros i t Hi. apply Hmon. by rewrite list_lookup_fmap, Hi.
Qed.

(** Once the key is on record, no thread acts on it. *)
Lemma recorded_blocks mint key0 s (tasks : list task) tr1 i o x tr2 s' ps' t :
  namespaced (path mint) key0 = Some k ->
  pexec bridge_sem (s, task_prog <$> tasks) (tr1 ++ (i, Ev o x) :: tr2) (s', ps') ->
  (forall j n, (j, Ev NowMs n) ∈ tr1 ++ (i, Ev o x) :: tr2 -> in_window (as_u64 n)) ->
  (exists j rec y, (j, Ev (DedupInsert k rec) y) ∈ tr1) ->
  tasks !! i = Some t -> ~ acts (bool_decide (path_key mint t = Some k)) o.
Proof.
  intros Hns Hx Hw (j & rec & y & Hj) Hi Ha. pose proof Hx as ([s1 ps1] & H1 & H2)%pexec_split.
  destruct (window_run mint key0 s tasks tr1 s1 ps1 Hns H1) as (ms1 & (_ & _ & HC) & Hm1).
  { intros j' n Hin. apply (Hw j'). apply elem_of_app. by left. }
  destruct (window_run mint key0 s tasks _ s' ps' Hns Hx Hw) as (ms & _ & Hm).
  destruct (Hm1 i t Hi) as (mi & Hmi & Hmoni). destruct (Hm i t Hi) as (mi' & _ & Hmon).
  rewrite thread_trace_app, monitor_app, Hmoni, thread_trace_cons in Hmon. cbn [monitor] in Hmon.
  destruct (claim_step mint k mi (Ev o x)) as [m2|] eqn:E; [|done].
  destruct (acting_holds _ _ _ _ _ _ _ Hmoni E Ha) as [Hh Hnr].
  destruct (pexec_thread _ _ _ _ _ _ _ _ H1 Hj) as [p Hp]. rewrite list_lookup_fmap in Hp.
  destruct (tasks !! j) as [tj|] eqn:Htj; [|done]. destruct (Hm1 j tj Htj) as (mj & Hmj & Hmonj).
  assert (Hin : Ev (DedupInsert k rec) y ∈ thread_trace j tr1) by by apply thread_trace_elem.
  destruct (recorded_final _ _ _ _ _ _ Hmonj Hin) as [u ->].
  assert (i = j) as -> by (eapply HC; [exact Hmi|exact Hmj|done|by eexists]).
  assert (mi = Recorded u) as -> by congruence. by eapply Hnr.
Qed.

End window.

Lemma path_key_namespaced mint t k : path_key mint t = Some k -> exists key0, namespaced (path mint) key0 = Some k.
Proof.
  destruct t as [subject payload| | |]; [|by destruct mint..]. destruct mint; cbn.
  - destruct (String.eqb subject _); [|done]. destruct (parse_mint payload); [eauto|done].
  - destruct (String.eqb subject _); [|done]. destruct (parse_submit payload); [eauto|done].
Qed.

(** At most one thread, and that one at most once, gets a submission accepted. *)
Lemma accepted_once k T s (tasks : list task) tr s' ps' :
  0 <= T -> T + 240000 < u64_mod ->
  pexec bridge_sem (s, task_prog <$> tasks) tr (s', ps') ->
  (forall i n, (i, Ev NowMs n) ∈ tr -> T <= as_u64 n < T + 120000) ->
  (forall i t, tasks !! i = Some t -> submit_key t = Some k ->
     (count_ev is_accepted (thread_trace i tr) <= 1)%nat)
  /\ (forall i j ti tj, tasks !! i = Some ti -> tasks !! j = Some tj ->
        submit_key ti = Some k -> submit_key tj = Some k ->
        (0 < count_ev is_accepted (thread_trace i tr))%nat ->
        (0 < count_ev is_accepted (thread_trace j tr))%nat -> i = j).
Proof.
  intros HT0 HT1 Hx Hw.
  destruct (decide (Exists (fun t => submit_key t = Some k) tasks)) as [Hex|Hno].
  2:{ rewrite <- Forall_Exists_neg in Hno. rewrite Forall_forall in Hno.
      split; [intros i t Hi Hk|intros i j ti tj Hi _ Hk _ _ _]; exfalso; eapply Hno; eauto using list_elem_of_lookup_2. }
  apply Exists_exists in Hex as (t0 & _ & Hk0).
  destruct (path_key_namespaced false t0 k Hk0) as [key0 Hns].
  destruct (window_run k T HT0 HT1 false key0 s tasks tr s' ps' Hns Hx Hw) as (ms' & (_ & _ & HC) & Hmon).
  assert (Hcount : forall i t, tasks !! i = Some t -> submit_key t = Some k ->
    exists m', ms' !! i = Some m' /\
      count_ev is_accepted (thread_trace i tr) = match m' with Accepted _ | Recorded _ => 1%nat | _ => 0%nat end).
  { intros i t Hi Hk. destruct (Hmon i t Hi) as (m' & Hm' & Hmo). exists m'. split; [done|].
    unfold initial_holder in Hmo. rewrite bool_decide_true in Hmo by done.
    apply accepted_count in Hmo; [|done]. cbn in Hmo. lia. }
  split.
  - intros i t Hi Hk. destruct (Hcount i t Hi Hk) as (m' & _ & ->). destruct m'; lia.
  - intros i j ti tj Hi Hj Hki Hkj Hpi Hpj.
    destruct (Hcount i ti Hi Hki) as (mi & Hmi & Hci). destruct (Hcount j tj Hj Hkj) as (mj & Hmj & Hcj).
    rewrite Hci in Hpi. rewrite Hcj in Hpj.
    eapply HC; [exact Hmi|exact Hmj| |]; [destruct mi|destruct mj]; try lia; by eexists.
Qed.

(** C1: at most once.  Take any number of message deliveries (submits, mints,
    cancels, status queries, unknown subjects, with any payloads), gRPC requests,
    cleanup tasks and blockhash refreshes, interleaved in any order call by call
    from any state of the maps, with every external call answered arbitrarily.  As long as the clock readings fall
    in one window of 120 s, all the deliveries whose idempotency key is [k]
    together get at most one submission accepted by the node. *)
Theorem at_most_once_per_key k T s (tasks : list task) tr s' ps' :
  0 <= T -> T + 240000 < u64_mod ->
  pexec bridge_sem (s, task_prog <$> tasks) tr (s', ps') ->
  (forall i n, (i, Ev NowMs n) ∈ tr -> T <= as_u64 n < T + 120000) ->
  (forall i t, tasks !! i = Some t -> submit_key t = Some k ->
     (count_ev is_accepted (thread_trace i tr) <= 1)%nat)
  /\ (forall i j ti tj, tasks !! i = Some ti -> tasks !! j = Some tj ->
        submit_key ti = Some k -> submit_key tj = Some k ->
        (0 < count_ev is_accepted (thread_trace i tr))%nat ->
        (0 < count_ev is_accepted (thread_trace j tr))%nat -> i = j).
Proof. apply accepted_once. Qed.

(** C11: a recorded mint is final.  In any interleaving of deliveries, gRPC
    requests and background tasks whose clock readings fall in one window of 120 s: once some delivery has
    put the confirmed mint of key [k] on record, no mint delivery with that key
    submits anything any more, and nobody records the key again.  (Before that, a
    mint that was not confirmed gives the key back and may be tried again.) *)
Theorem recorded_mint_final k T key s (tasks : list task) tr1 i e tr2 s' ps' :
  0 <= T -> T + 240000 < u64_mod -> namespaced "mint" key = Some k ->
  pexec bridge_sem (s, task_prog <$> tasks) (tr1 ++ (i, e) :: tr2) (s', ps') ->
  (forall j n, (j, Ev NowMs n) ∈ tr1 ++ (i, e) :: tr2 -> T <= as_u64 n < T + 120000) ->
  (exists j rec y, (j, Ev (DedupInsert k rec) y) ∈ tr1) ->
  (forall tx x t, e = Ev (SendTx tx) x -> tasks !! i = Some t -> mint_key t <> Some k)
  /\ (forall rec y, e <> Ev (DedupInsert k rec) y).
Proof.
  intros HT0 HT1 Hns Hx Hw Hrec. split.
  - intros tx x t -> Hi Hk. eapply (recorded_blocks k T HT0 HT1 true); [done..|exact Hi|].
    cbn. by rewrite bool_decide_true.
  - intros rec y ->. destruct (pexec_thread _ _ _ _ _ _ i (Ev (DedupInsert k rec) y) Hx) as [p Hi];
      [apply elem_of_app; right; left|].
    rewrite list_lookup_fmap in Hi. destruct (tasks !! i) as [t|] eqn:Ht; [|done].
    by eapply (recorded_blocks k T HT0 HT1 true).
Qed.

(** ** The cleanup task *)

Lemma cleanup_tick_state snap n s tr r s' :
  exec bridge_sem (cleanup_task (S n) snap) s tr r s' ->
  exists now t, tr = Ev NowMs now :: Ev (DedupRetain (as_u64 now)) tt :: t
    /\ exec bridge_sem (cleanup_task n (filter (fun x : string * Z => as_u64 now < snd x) snap))
         (set_dedup (filter (fun x => as_u64 now < expiry_ms (snd x)) (dedup_store s)) s) t r s'.
Proof.
  cbn [cleanup_task call bind exec]. intros (now & s1 & t1 & -> & -> & (u & s2 & t2 & [-> ->] & -> & Hx)).
  by exists now, t2.
Qed.

Lemma cleanup_shrinks n snap s tr r s' :
  exec bridge_sem (cleanup_task n snap) s tr r s' ->
  idempotency_cache s' = idempotency_cache s /\ dedup_store s' ⊆ dedup_store s.
Proof.
  revert snap s tr. induction n as [|n IH]; intros snap s tr.
  - cbn. intros (_ & _ & ->). done.
  - intros (now & t & -> & [-> Hsub]%IH)%cleanup_tick_state. split; [done|].
    cbn in Hsub. etrans; [exact Hsub|]. apply map_filter_subseteq.
Qed.

(** What the cleanup task cleans.  After at least one tick the shared dedup
    store holds no record that had expired at the task's first clock reading, and
    only records it held before; the live idempotency cache is exactly as it was,
    because the task filters a private copy of it. *)
Theorem cleanup_effect n snap s tr r s' :
  exec bridge_sem (cleanup_task (S n) snap) s tr r s' ->
  idempotency_cache s' = idempotency_cache s
  /\ dedup_store s' ⊆ dedup_store s
  /\ exists now t, tr = Ev NowMs now :: t
     /\ forall k rec, dedup_store s' !! k = Some rec -> as_u64 now < expiry_ms rec.
Proof.
  intros Hx. destruct (cleanup_shrinks _ _ _ _ _ _ Hx) as [Hi Hd]. splits; [done|done|].
  apply cleanup_tick_state in Hx as (now & t & -> & [_ Hsub]%cleanup_shrinks).
  exists now. eexists. split; [done|]. intros k rec Hk. cbn in Hsub.
  eapply lookup_weaken in Hk; [|exact Hsub]. by apply map_lookup_filter_Some in Hk as [_ ?].
Qed.

End concurrency.

(** ** Examples *)

Section examples.
#[local] Existing Instances toy_sdk toy_core toy_x509 toy_b64.
#[local] Existing Instance consumer_serde.
#[local] Existing Instances toy_tokio toy_headers.

(** No role from the headers alone. *)
Definition unlisted (hs : gmap string (list HeaderValue)) : ServiceRole := Unknown.

(** Two deliveries of key [k1] under different correlation ids, a cleanup, a gRPC
    submit of the same transaction, and the blockhash refresh. *)
Definition demo_tasks : list task :=
  [Deliver "chain.tx.submit" [x01]; Deliver "chain.tx.submit" [x02]; Cleanup 3 ∅;
   ServeRpc (caller "spiffe://gridtokenx/trading") (RpcSubmit [x01] "platform_admin"); RefreshBlockhash 2].

Definition alternate (n : nat) : list nat := mjoin (replicate n (seq 0 5)).

Definition demo_interleaving :=
  schedule (with_env (fixed_env (node 2000))) (alternate 20) (bridge_new, tt)
    (task_prog demo_cfg demo_policy unlisted <$> demo_tasks).

(** Every clock reading of a trace is 2 s. *)
Definition clock_at_2s (tr : list (nat * event bans)) : bool :=
  forallb (fun x => match snd x with Ev NowMs n => as_u64 n =? 2000 | _ => true end) tr.

Lemma clock_stands tr i n : clock_at_2s tr = true -> (i, Ev NowMs n) ∈ tr -> 2000 <= as_u64 n < 2000 + 120000.
Proof.
  unfold clock_at_2s. rewrite List.forallb_forall. intros Hall Hin.
  apply list_elem_of_In, Hall, Z.eqb_eq in Hin. lia.
Qed.

Lemma at_most_once_per_key_witness :
  let tr := fst (fst demo_interleaving) in
  count_ev is_accepted (thread_trace 0 tr) = 1%nat
  /\ ~ (0 < count_ev is_accepted (thread_trace 1 tr))%nat.
Proof.
  cbn zeta. assert (E : count_ev is_accepted (thread_trace 0 (fst (fst demo_interleaving))) = 1%nat)
    by (vm_compute; reflexivity).
  split; [exact E|]. intros Hpos.
  destruct (at_most_once_per_key demo_cfg demo_policy unlisted "submit:k1" 2000 bridge_new demo_tasks
    (fst (fst demo_interleaving)) (fst (snd (fst demo_interleaving))) (snd demo_interleaving)) as [_ Hu].
  - lia.
  - vm_compute. reflexivity.
  - apply schedule_bridge.
  - intros i n. apply clock_stands. vm_compute. reflexivity.
  - assert (Hij : 0%nat = 1%nat); [|discriminate Hij].
    eapply (Hu 0%nat 1%nat (Deliver "chain.tx.submit" [x01]) (Deliver "chain.tx.submit" [x02]));
      [reflexivity|reflexivity|vm_compute; reflexivity|vm_compute; reflexivity|rewrite E; lia|exact Hpos].
Defined.

(** Two deliveries of one mint, interleaved: the first records it. *)
Definition mint_race :=
  schedule (with_env (fixed_env (node 2000))) (alternate 30) (bridge_new, tt)
    (task_prog demo_cfg demo_policy unlisted <$> [Deliver "chain.tx.mint" [x01]; Deliver "chain.tx.mint" [x02]]).

Lemma recorded_mint_final_witness :
  exists tr1 i e tr2,
    fst (fst mint_race) = tr1 ++ (i, e) :: tr2
    /\ (exists j rec y, (j, Ev (DedupInsert "mint:window-7" rec) y) ∈ tr1)
    /\ forall rec y, e <> Ev (DedupInsert "mint:window-7" rec) y.
Proof.
  assert (E : exists tr1 i e tr2, fst (fst mint_race) = tr1 ++ (i, e) :: tr2
    /\ last tr1 = Some (0%nat, Ev (DedupInsert "mint:window-7"
         (mkDedup 122000 (DoneState (Some (signature_to_string (sig_of_byte x09))) 77))) tt)).
  { exists (take 24 (fst (fst mint_race))), 0%nat. do 2 eexists. split; vm_compute; reflexivity. }
  destruct E as (tr1 & i & e & tr2 & E & Hl). exists tr1, i, e, tr2.
  assert (Hrec : exists j rec y, (j, Ev (DedupInsert "mint:window-7" rec) y) ∈ tr1)
    by (do 3 eexists; exact (last_Some_elem_of _ _ Hl)).
  split; [exact E|]. split; [exact Hrec|].
  refine (proj2 (recorded_mint_final demo_cfg demo_policy unlisted "mint:window-7" 2000 "window-7" bridge_new
    [Deliver "chain.tx.mint" [x01]; Deliver "chain.tx.mint" [x02]] tr1 i e tr2
    (fst (snd (fst mint_race))) (snd mint_race) _ _ _ _ _ Hrec)).
  - lia.
  - vm_compute. reflexivity.
  - reflexivity.
  - rewrite <- E. apply schedule_bridge.
  - rewrite <- E. intros j n. apply clock_stands. vm_compute. reflexivity.
Defined.

(** A mint that is not confirmed gives its key back: the next delivery submits. *)
Definition unconfirmed (o : bop) : option (bans o) :=
  match o with SigStatuses _ => Some (Ok [None]) | o => node 2000 o end.

Example unconfirmed_mint_retried :
  let '(tr, _, _) := schedule (with_env (fixed_env unconfirmed)) (replicate 80 0%nat ++ replicate 80 1%nat) (bridge_new, tt)
    (task_prog demo_cfg demo_policy unlisted <$> [Deliver "chain.tx.mint" [x01]; Deliver "chain.tx.mint" [x02]]) in
  count_ev is_accepted (thread_trace 0 tr) = 1%nat /\ count_ev is_accepted (thread_trace 1 tr) = 1%nat.
Proof. vm_compute. split; reflexivity. Qed.

Lemma cleanup_effect_witness :
  idempotency_cache (fst (snd (run (with_env (fixed_env (node 500000))) (cleanup_task 1 ∅) (demo_submitted, tt))))
  = idempotency_cache demo_submitted
  /\ is_Some (idempotency_cache demo_submitted !! "c1").
Proof.
  split.
  - refine (proj1 (cleanup_effect 0 ∅ demo_submitted _ _ _ _)).
    exact (run_exec (fixed_env (node 500000)) (cleanup_task 1 ∅) demo_submitted tt).
  - vm_compute. eexists. reflexivity.
Defined.

(** Two deliveries of the same message without an idempotency key. *)
Definition unkeyed_race :=
  schedule (with_env (fixed_env (node 2000))) (alternate 20) (bridge_new, tt)
    (task_prog demo_cfg demo_policy unlisted <$> [Deliver "chain.tx.submit" [x03]; Deliver "chain.tx.submit" [x03]]).

(** What the key protects from.  The redelivery check on the correlation id
    alone is check-then-act: there is an interleaving of two deliveries of one and
    the same submit message with an empty idempotency key in which the node accepts
    a submission from each. *)
Theorem unkeyed_submit_races :
  exists tr s' ps',
    pexec bridge_sem
      (bridge_new, task_prog demo_cfg demo_policy unlisted <$> [Deliver "chain.tx.submit" [x03]; Deliver "chain.tx.submit" [x03]])
      tr (s', ps')
    /\ count_ev is_accepted (thread_trace 0 tr) = 1%nat
    /\ count_ev is_accepted (thread_trace 1 tr) = 1%nat.
Proof.
  exists (fst (fst unkeyed_race)), (fst (snd (fst unkeyed_race))), (snd unkeyed_race).
  splits; [apply schedule_bridge|vm_compute; reflexivity|vm_compute; reflexivity].
Qed.

End examples.
