(* ===== verification/Reconnect.v ===== *)
(** * Reconnecting and the maps (src/main.rs:105-148)

    The supervisor builds a new [NatsConsumer] for every connection, with empty
    maps, while the service and its blockhash cache live on.  Here the deliveries of
    several connections are put one after the other: at-most-once does not survive
    the loss of the maps in between ([reconnect_resubmits]). *)

From S2P Require Import Prelude RustStd Effects Domain External BridgeOps Fixtures Identity Signing SigningSpec Consumer ConsumerSpec Refresh Grpc ConsumerProps Concurrency.
From Stdlib Require String.
Import String.StringSyntax.

Local Open Scope Z_scope.

Section reconnect.
Context {J : SerdeJson} {K : SolanaSdk} {C : BlockchainCore} {X : X509} {B : Base64} {R : TokioRetry}.
Context (cfg : Config) (auth_policy : NatsAuthPolicy).
Context {HT : HttpHeaders} (from_headers : gmap string (list HeaderValue) -> ServiceRole).

(** [NatsConsumer::new] on the service's state. *)
Definition reconnected (s : bridge_state) : bridge_state := mkBridge (blockhash_cache s) ∅ ∅.

(** One connection after the other: the tasks of each, and what they did.  A
    connection may end with its handlers anywhere ([try_join!] drops them). *)
Inductive connections : bridge_state -> list (list task * list (nat * event bans)) -> Prop :=
| connections_nil s : connections s []
| connections_cons s tasks tr s' ps' rest :
    pexec bridge_sem (reconnected s, task_prog cfg auth_policy from_headers <$> tasks) tr (s', ps') ->
    connections s' rest -> connections s ((tasks, tr) :: rest).

(** Submissions accepted for key [k] during one connection. *)
Definition accepted_for (k : string) (c : list task * list (nat * event bans)) : nat :=
  sum_list (imap (fun i t => if bool_decide (submit_key t = Some k)
                             then count_ev is_accepted (thread_trace i (snd c)) else 0%nat) (fst c)).

End reconnect.

(** ** Examples *)

Section examples.
#[local] Existing Instances toy_sdk toy_core toy_x509 toy_b64.
#[local] Existing Instance consumer_serde.
#[local] Existing Instances toy_tokio toy_headers.

Definition one_delivery := [Deliver "chain.tx.submit" [x01]].

Definition connection_from (s : bridge_state) (n : nat) :=
  schedule (with_env (fixed_env (node 2000))) (replicate n 0%nat) (reconnected s, tt)
    (task_prog demo_cfg demo_policy unlisted <$> one_delivery).

(** The first connection is lost just before the acknowledgement, and the message
    is delivered again on the second one. *)
Definition first_connection := connection_from bridge_new 16.
Definition second_connection := connection_from (fst (snd (fst first_connection))) 30.

Definition two_connections : list (list task * list (nat * event bans)) :=
  [(one_delivery, fst (fst first_connection)); (one_delivery, fst (fst second_connection))].

Lemma two_connections_run : connections demo_cfg demo_policy unlisted bridge_new two_connections.
Proof.
  refine (connections_cons _ _ _ bridge_new one_delivery _ (fst (snd (fst first_connection))) (snd first_connection) _ _ _).
  { exact (schedule_bridge (fixed_env (node 2000)) (replicate 16 0%nat) (reconnected bridge_new) tt
             (task_prog demo_cfg demo_policy unlisted <$> one_delivery)). }
  refine (connections_cons _ _ _ _ one_delivery _ (fst (snd (fst second_connection))) (snd second_connection) _ _ _);
    [|constructor].
  exact (schedule_bridge (fixed_env (node 2000)) (replicate 30 0%nat) (reconnected (fst (snd (fst first_connection)))) tt
           (task_prog demo_cfg demo_policy unlisted <$> one_delivery)).
Defined.

(** The node accepts the same keyed submit twice, although the first was
    on record as done, and not yet acknowledged, when the first connection was
    lost. *)
Example reconnect_resubmits :
  connections demo_cfg demo_policy unlisted bridge_new two_connections
  /\ sum_list (accepted_for "submit:k1" <$> two_connections) = 2%nat
  /\ (exists e sig slot, dedup_store (fst (snd (fst first_connection))) !! "submit:k1" = Some (mkDedup e (DoneState sig slot)))
  /\ forallb (fun x => match snd x with Ev (AckMsg _) _ => false | _ => true end) (fst (fst first_connection)) = true.
Proof. split; [apply two_connections_run|]. vm_compute. eauto 10. Qed.

End examples.
