(* ===== verification/Supervision.v ===== *)
(** * Supervising the NATS consumer (src/main.rs, src/nats_consumer/consumer.rs)

    [supervise] is the reconnect loop of [main], [start] and [run_consumer] are the
    consumer's methods of these names, [run_dlq_monitor] is the dead-letter monitor
    that runs beside it.  What the NATS server answers is the environment's choice.
    The loops of the source run for ever: [fuel] and [inner] bound the iterations
    looked at, a result of [None] means that the loop is still running (it never
    stands for a return), and every theorem holds for all bounds. *)

From S2P Require Import Prelude RustStd Effects Domain External BridgeOps Fixtures Identity Signing SigningSpec Consumer ConsumerSpec ConsumerProps.
From Stdlib Require String.
Import String.StringSyntax.

Local Open Scope Z_scope.

(** ** JetStream configuration

    [None] is the library's default ([..Default::default()]). *)

Record StreamConfig := mkStream { stream_name : string; stream_subjects : list string }.

Inductive AckPolicy : Type := AckExplicit.

Record PullConfig := mkPull {
  durable_name : string;
  ack_policy : option AckPolicy;
  ack_wait_secs : option Z;
  max_batch : option Z;
  max_waiting : option Z;
  filter_subjects : option (list string)
}.

Record PullOptions := mkPullOptions { max_messages_per_batch : Z; expires_secs : Z; heartbeat_secs : Z }.

Definition chain_tx : StreamConfig := mkStream "CHAIN_TX" ["chain.tx.*"].

(** The configuration [run_consumer] builds from its arguments. *)
Definition consumer_config (durable : string) (filters : list string) (ack_wait : Z) : PullConfig :=
  mkPull durable (Some AckExplicit) (Some ack_wait) (Some 128) (Some 512) (Some filters).

Definition pull_options : PullOptions := mkPullOptions 100 30 10.

(** ** Calls *)

(** The two places that sleep. *)
Inductive sleeper : Type := InSupervisor | InConsumer (durable : string).

Inductive sop : Type :=
| Connect
| GetOrCreateStream (c : StreamConfig)
| GetOrCreateConsumer (stream : string) (c : PullConfig)
| OpenMessages (durable : string) (opts : option PullOptions)
| ProcessMessages (durable : string) (concurrency : nat)
| NextDeadLetter
| TrackDeadLetter (payload_len : Z)
| AckDeadLetter
| SpawnCleanup
| SpawnDlqMonitor
| AbortDlqMonitor
| PollFirst
| SleepFor (who : sleeper) (ms : Z).

Definition sans (o : sop) : Type :=
  match o with
  | Connect | GetOrCreateStream _ | GetOrCreateConsumer _ _ | OpenMessages _ _ => result unit string
  | NextDeadLetter => option (result bytes string)
  | AckDeadLetter => result unit string
  | PollFirst => bool
  | ProcessMessages _ _ | TrackDeadLetter _ | SpawnCleanup | SpawnDlqMonitor | AbortDlqMonitor | SleepFor _ _ => unit
  end.

(** How far a loop of the source has come: still running when the iterations
    looked at are over, or returned. *)
Abbreviation ending := (option (result unit string)).

(** Both futures have ended, neither with an error: [Ok] when both have returned. *)
Definition join_ok (a b : ending) : ending :=
  match a, b with Some _, Some _ => Some (Ok tt) | _, _ => None end.

(** [tokio::try_join!]: the futures run interleaved ([PollFirst] says which one
    moves next) until both are done or one has failed, which drops the other. *)
Fixpoint try_join (p : prog sans ending) : prog sans ending -> prog sans ending :=
  fix join (q : prog sans ending) : prog sans ending :=
    match p, q with
    | Ret (Some (Err e)), _ => Ret (Some (Err e))
    | _, Ret (Some (Err e)) => Ret (Some (Err e))
    | Panic, _ => Panic
    | _, Panic => Panic
    | Ret a, Ret b => Ret (join_ok a b)
    | Ret _, Vis o k => Vis o (fun x => join (k x))
    | Vis o k, Ret _ => Vis o (fun x => try_join (k x) q)
    | Vis o k, Vis o' k' =>
        @Vis sop sans _ PollFirst (fun b : bool =>
          if b then Vis o (fun x => try_join (k x) q) else Vis o' (fun x => join (k' x)))
    end.

(** ** [run_consumer] *)

Fixpoint consumer_loop (durable : string) (concurrency : nat) (fuel : nat) (backoff_ms create_failures : Z)
  : prog sans ending :=
  match fuel with
  | O => Ret None
  | S fuel =>
      m <~ call (OpenMessages durable (Some pull_options)) ;;
      match (m : result unit string) with
      | Ok _ =>
          do! call (ProcessMessages durable concurrency) ;;
          do! call (SleepFor (InConsumer durable) 200) ;;
          consumer_loop durable concurrency fuel 100 0
      | Err e =>
          let create_failures := create_failures + 1 in
          if 5 <=? create_failures then
            Ret (Some (Err ("NATS messages stream for '" +:+ durable +:+ "' unrecoverable after "
                            +:+ pretty create_failures +:+ " attempts: " +:+ e)))
          else
            do! call (SleepFor (InConsumer durable) backoff_ms) ;;
            consumer_loop durable concurrency fuel (Z.min (backoff_ms * 2) 5000) create_failures
      end
  end.

Definition run_consumer (durable : string) (filters : list string) (ack_wait : Z) (concurrency fuel : nat)
  : prog sans ending :=
  s <~ call (GetOrCreateStream chain_tx) ;;
  match (s : result unit string) with
  | Err e => Ret (Some (Err e))
  | Ok _ =>
      c <~ call (GetOrCreateConsumer "CHAIN_TX" (consumer_config durable filters ack_wait)) ;;
      match (c : result unit string) with
      | Err e => Ret (Some (Err e))
      | Ok _ => consumer_loop durable concurrency fuel 100 0
      end
  end.

(** ** [start] *)

Definition fast_subjects : list string := ["chain.tx.submit"; "chain.tx.simulate"; "chain.tx.cancel"; "chain.tx.status"].
Definition mint_subjects : list string := ["chain.tx.mint"].

Definition run_fast (fuel : nat) : prog sans ending := run_consumer "chain-bridge-worker" fast_subjects 30 32 fuel.
Definition run_mint (fuel : nat) : prog sans ending := run_consumer "chain-bridge-mint-worker" mint_subjects 90 8 fuel.

Definition start (fuel : nat) : prog sans ending :=
  s <~ call (GetOrCreateStream chain_tx) ;;
  match (s : result unit string) with
  | Err e => Ret (Some (Err e))
  | Ok _ =>
      do! call SpawnCleanup ;;
      try_join (run_fast fuel) (run_mint fuel)
  end.

(** ** The supervisor of [main] *)

Fixpoint supervise (inner fuel : nat) (backoff_ms : Z) : prog sans unit :=
  match fuel with
  | O => Ret tt
  | S fuel =>
      c <~ call Connect ;;
      next <~ match (c : result unit string) with
              | Ok _ =>
                  do! call SpawnDlqMonitor ;;
                  r <~ start inner ;;
                  match r with
                  | None => Ret None
                  | Some _ => do! call AbortDlqMonitor ;; Ret (Some 500)
                  end
              | Err _ => Ret (Some backoff_ms)
              end ;;
      match next with
      | None => Ret tt
      | Some backoff_ms =>
          do! call (SleepFor InSupervisor backoff_ms) ;;
          supervise inner fuel (Z.min (backoff_ms * 2) 30000)
      end
  end.

(** ** [run_dlq_monitor] *)

Fixpoint dlq_loop (fuel : nat) : prog sans (option (result unit string)) :=
  match fuel with
  | O => Ret None
  | S fuel =>
      m <~ call NextDeadLetter ;;
      match (m : option (result bytes string)) with
      | None => Ret (Some (Ok tt))
      | Some (Ok payload) =>
          do! call (TrackDeadLetter (Z.of_nat (length payload))) ;;
          do! call AckDeadLetter ;;
          dlq_loop fuel
      | Some (Err _) => dlq_loop fuel
      end
  end.

Definition run_dlq_monitor (fuel : nat) : prog sans (option (result unit string)) :=
  s <~ call (GetOrCreateStream (mkStream "CHAIN_TX_DLQ" ["chain.tx.dlq.*"])) ;;
  match (s : result unit string) with
  | Err e => Ret (Some (Err e))
  | Ok _ =>
      c <~ call (GetOrCreateConsumer "CHAIN_TX_DLQ" (mkPull "dlq-monitor" None None None None None)) ;;
      match (c : result unit string) with
      | Err e => Ret (Some (Err e))
      | Ok _ =>
          m <~ call (OpenMessages "dlq-monitor" None) ;;
          match (m : result unit string) with
          | Err e => Ret (Some (Err e))
          | Ok _ => dlq_loop fuel
          end
      end
  end.

(** ** Vocabulary *)

(** [t] interleaves [a] and [b], the scheduler's choices aside. *)
Inductive joined : list (event sans) -> list (event sans) -> list (event sans) -> Prop :=
| joined_nil : joined [] [] []
| joined_poll x t a b : joined t a b -> joined (Ev PollFirst x :: t) a b
| joined_l e t a b : joined t a b -> joined (e :: t) (e :: a) b
| joined_r e t a b : joined t a b -> joined (e :: t) a (e :: b).

(** Failed openings in a row, at the end of a trace that began with [n] of them. *)
Fixpoint streak (n : nat) (tr : list (event sans)) : nat :=
  match tr with
  | [] => n
  | Ev (OpenMessages _ _) (Err _) :: tr => streak (S n) tr
  | Ev (OpenMessages _ _) (Ok _) :: tr => streak 0 tr
  | _ :: tr => streak n tr
  end.

(** From [n] failed openings in a row on, there are never five. *)
Fixpoint steady (n : nat) (tr : list (event sans)) : Prop :=
  (n < 5)%nat /\
  match tr with
  | [] => True
  | Ev (OpenMessages _ _) (Err _) :: tr => steady (S n) tr
  | Ev (OpenMessages _ _) (Ok _) :: tr => steady 0 tr
  | _ :: tr => steady n tr
  end.

Definition is_open (e : event sans) : bool :=
  match e with Ev (OpenMessages _ _) _ => true | _ => false end.

(** Failed openings, the [k]-th followed by a delay of [100 * 2^k] ms. *)
Fixpoint failed_opens (durable : string) (k : nat) (es : list string) : list (event sans) :=
  match es with
  | [] => []
  | [e] => [Ev (OpenMessages durable (Some pull_options)) (Err e)]
  | e :: es => Ev (OpenMessages durable (Some pull_options)) (Err e)
               :: Ev (SleepFor (InConsumer durable) (100 * 2 ^ Z.of_nat k)) tt :: failed_opens durable (S k) es
  end.

(** The error of a consumer that gives up. *)
Definition gave_up (durable e : string) : string :=
  "NATS messages stream for '" +:+ durable +:+ "' unrecoverable after 5 attempts: " +:+ e.

(** Why a consumer fails: it cannot be set up, or, for the first time, five
    openings in a row failed, the last one with the error that is passed on. *)
Definition consumer_failed (durable : string) (filters : list string) (ack_wait : Z) (msg : string)
    (t : list (event sans)) : Prop :=
  let stream := GetOrCreateStream chain_tx in
  let consumer := GetOrCreateConsumer "CHAIN_TX" (consumer_config durable filters ack_wait) in
  t = [@Ev sop sans stream (Err msg)]
  \/ t = [@Ev sop sans stream (Ok tt); @Ev sop sans consumer (Err msg)]
  \/ exists t0 es e, length es = 4%nat /\ msg = gave_up durable e /\ steady 0 t0 /\ streak 0 t0 = 0%nat
       /\ t = @Ev sop sans stream (Ok tt) :: @Ev sop sans consumer (Ok tt) :: t0 ++ failed_opens durable 0 (es ++ [e]).

(** A consumer that is running: set up, and in its [fuel] openings so far never
    five failures in a row. *)
Definition consumer_running (durable : string) (filters : list string) (ack_wait : Z) (fuel : nat)
    (t : list (event sans)) : Prop :=
  exists t0, t = @Ev sop sans (GetOrCreateStream chain_tx) (Ok tt)
                 :: @Ev sop sans (GetOrCreateConsumer "CHAIN_TX" (consumer_config durable filters ack_wait)) (Ok tt) :: t0
    /\ count_ev is_open t0 = fuel /\ steady 0 t0.

Definition sleeps (tr : list (event sans)) : list Z :=
  omap (fun e : event sans => match ev_op e with SleepFor InSupervisor ms => Some ms | _ => None end) tr.

Definition connected (e : event sans) : bool :=
  match e with Ev Connect (Ok _) => true | _ => false end.

Definition is_cleanup (e : event sans) : bool :=
  match e with Ev SpawnCleanup _ => true | _ => false end.

(** ** Lemmas *)

Lemma reaches_refl {A : Type} (p : prog sans A) : reaches p [] p.
Proof. destruct p; by left. Qed.

Lemma reaches_vis {A : Type} o k x tr (q : prog sans A) : reaches (k x) tr q -> reaches (Vis o k) (Ev o x :: tr) q.
Proof. intros Hr. right. eauto. Qed.

(** How a [try_join] ends: each future has performed a part of the trace. *)
Definition join_end (p q : prog sans ending) (r : outcome ending) : Prop :=
  match r with
  | Done (Some (Err e)) => p = Ret (Some (Err e)) \/ q = Ret (Some (Err e))
  | Done d => exists a b, p = Ret a /\ q = Ret b /\ d = join_ok a b
                /\ forall e, a <> Some (Err e) /\ b <> Some (Err e)
  | Aborted => p = Panic \/ q = Panic
  end.

Definition join_spec (p q : prog sans ending) (t : list (event sans)) (r : outcome ending) : Prop :=
  exists a b p' q', joined t a b /\ reaches p a p' /\ reaches q b q' /\ join_end p' q' r.

Lemma join_spec_end p q r : join_end p q r -> join_spec p q [] r.
Proof. intros He. exists [], [], p, q. splits; [constructor|apply reaches_refl..|done]. Qed.

Lemma join_spec_l o k q x t r : join_spec (k x) q t r -> join_spec (Vis o k) q (Ev o x :: t) r.
Proof.
  intros (a & b & p' & q' & Hj & Hp & Hq & He). exists (Ev o x :: a), b, p', q'.
  splits; [by constructor|by apply reaches_vis|done|done].
Qed.

Lemma join_spec_r p o k x t r : join_spec p (k x) t r -> join_spec p (Vis o k) (Ev o x :: t) r.
Proof.
  intros (a & b & p' & q' & Hj & Hp & Hq & He). exists a, (Ev o x :: b), p', q'.
  splits; [by constructor|done|by apply reaches_vis|done].
Qed.

Lemma join_spec_poll p q x t r : join_spec p q t r -> join_spec p q (Ev PollFirst x :: t) r.
Proof. intros (a & b & p' & q' & Hj & ?). exists a, b, p', q'. split; [by constructor|done]. Qed.

Lemma try_join_runs p q t r : runs (try_join p q) t r -> join_spec p q t r.
Proof.
  revert q t r. induction p as [[[[]|e]|]| |o k IHp]; intros q; induction q as [[[[]|e']|]| |o' k' IHq];
    intros t r Hr; cbn in Hr; try (destruct Hr as [-> ->]; apply join_spec_end; cbn; first [by eauto|eexists _, _; by repeat split]).
  - destruct Hr as (x & t' & -> & Hr). by apply join_spec_r, IHq.
  - destruct Hr as (x & t' & -> & Hr). by apply join_spec_r, IHq.
  - destruct Hr as (x & t' & -> & Hr). by apply join_spec_l, IHp.
  - destruct Hr as (x & t' & -> & Hr). by apply join_spec_l, IHp.
  - destruct Hr as ([] & t' & -> & (x & t'' & -> & Hr)); apply join_spec_poll;
      [by apply join_spec_l, IHp|by apply join_spec_r, IHq].
Qed.

Lemma reaches_done {A : Type} (p : prog sans A) t a : reaches p t (Ret a) -> runs p t (Done a).
Proof.
  revert t. induction p as [b| |o k IH]; intros t.
  - intros [[-> [= ->]]|[]]. done.
  - intros [[_ ?]|[]]. done.
  - intros [[_ ?]|(x & t' & -> & Hr)]; [done|]. cbn. eauto.
Qed.

Lemma reaches_panic {A : Type} (p : prog sans A) t : reaches p t Panic -> runs p t Aborted.
Proof.
  revert t. induction p as [b| |o k IH]; intros t.
  - intros [[_ ?]|[]]. done.
  - intros [[-> _]|[]]. done.
  - intros [[_ ?]|(x & t' & -> & Hr)]; [done|]. cbn. eauto.
Qed.

Lemma backoff_step k : (k < 4)%nat -> Z.min (100 * 2 ^ Z.of_nat k * 2) 5000 = 100 * 2 ^ Z.of_nat (S k).
Proof. destruct k as [|[|[|[|k]]]]; [reflexivity..|lia]. Qed.

Lemma steady_nil : steady 0 [].
Proof. split; [lia|done]. Qed.

Lemma failed_opens_cons durable k e es :
  es <> [] -> failed_opens durable k (e :: es)
    = Ev (OpenMessages durable (Some pull_options)) (Err e)
      :: Ev (SleepFor (InConsumer durable) (100 * 2 ^ Z.of_nat k)) tt :: failed_opens durable (S k) es.
Proof. by destruct es. Qed.

(** The resilience loop after [k] failures in a row. *)
Lemma consumer_loop_runs durable n fuel k tr r :
  (k < 5)%nat -> runs (consumer_loop durable n fuel (100 * 2 ^ Z.of_nat k) (Z.of_nat k)) tr r ->
  (r = Done None /\ steady k tr /\ count_ev is_open tr = fuel)
  \/ exists es e, r = Done (Some (Err (gave_up durable e)))
       /\ ((tr = failed_opens durable k (es ++ [e]) /\ length es = (4 - k)%nat)
           \/ exists t, tr = t ++ failed_opens durable 0 (es ++ [e]) /\ length es = 4%nat
                /\ steady k t /\ streak k t = 0%nat).
Proof.
  revert k tr. induction fuel as [|fuel IH]; intros k tr Hk; [intros [-> ->]; by left|].
  cbn [consumer_loop call bind runs]. intros ([[]|e] & t & -> & Hr).
  - cbn [call bind runs] in Hr. destruct Hr as ([] & t1 & -> & ([] & t2 & -> & Hr)).
    destruct (IH 0%nat t2) as [(-> & Hs & <-)|(es & e & -> & Hc)]; [lia|exact Hr|left|right].
    { splits; [done|cbn; splits; [lia..|exact Hs]|done]. }
    exists es, e. split; [done|]. right.
    assert (exists t, t2 = t ++ failed_opens durable 0 (es ++ [e]) /\ length es = 4%nat /\ steady 0 t /\ streak 0 t = 0%nat)
      as (t & -> & Hl & Hs & H0) by (destruct Hc as [[-> Hl]|?]; [exists []; splits; [done|done|apply steady_nil|done]|done]).
    eexists (_ :: _ :: _ :: t). splits; [done|done|cbn; splits; [lia..|done]|done].
  - cbn zeta in Hr. destruct (5 <=? Z.of_nat k + 1) eqn:H5.
    + destruct Hr as [-> ->]. apply Z.leb_le in H5. assert (k = 4%nat) as -> by lia.
      right. exists [], e. split; [done|by left].
    + apply Z.leb_gt in H5. cbn [call bind runs] in Hr. destruct Hr as ([] & t1 & -> & Hr).
      replace (Z.of_nat k + 1) with (Z.of_nat (S k)) in Hr by lia. rewrite backoff_step in Hr by lia.
      destruct (IH (S k) t1) as [(-> & Hs & <-)|(es & e' & -> & Hc)]; [lia|exact Hr|left; splits; [done|cbn; splits; [lia..|done]|done]|right].
      destruct Hc as [[-> Hl]|(t & -> & Hl & Hs & H0)].
      * exists (e :: es), e'. split; [done|]. left. split; [|cbn; lia]. cbn [app].
        rewrite failed_opens_cons; [done|]. by destruct es.
      * exists es, e'. split; [done|]. right. eexists (_ :: _ :: t). splits; [done|done|cbn; splits; [lia..|done]|done].
Qed.

Lemma run_consumer_runs durable filters ack_wait n fuel tr r :
  runs (run_consumer durable filters ack_wait n fuel) tr r ->
  (r = Done None /\ consumer_running durable filters ack_wait fuel tr)
  \/ exists msg, r = Done (Some (Err msg)) /\ consumer_failed durable filters ack_wait msg tr.
Proof.
  unfold run_consumer, consumer_failed, consumer_running. cbn [call bind runs]. intros ([[]|e] & t & -> & Hr).
  2:{ destruct Hr as [-> ->]. eauto 10. }
  cbn [call bind runs] in Hr. destruct Hr as ([[]|e] & t1 & -> & Hr).
  2:{ destruct Hr as [-> ->]. eauto 10. }
  apply (consumer_loop_runs durable n fuel 0) in Hr as [(-> & Hs & Hc)|(es & e & -> & Hc)]; [left; eauto 10| |lia].
  right. eexists. split; [done|]. right. right. destruct Hc as [[-> Hl]|(t & -> & Hl & Hs & H0)].
  - exists [], es, e. splits; [done|done|apply steady_nil|done|done].
  - exists t, es, e. done.
Qed.

(** ** What a start does on the server *)

(** The calls of the two consumers: they never connect and spawn nothing. *)
Definition consumer_event (e : event sans) : Prop :=
  match ev_op e with
  | GetOrCreateStream c => c = chain_tx
  | GetOrCreateConsumer s c =>
      s = "CHAIN_TX" /\ (c = consumer_config "chain-bridge-worker" fast_subjects 30
                         \/ c = consumer_config "chain-bridge-mint-worker" mint_subjects 90)
  | OpenMessages d o => o = Some pull_options
  | ProcessMessages _ _ | PollFirst | SleepFor (InConsumer _) _ => True
  | _ => False
  end.

Lemma consumer_loop_events durable n fuel b f :
  always consumer_event (consumer_loop durable n fuel b f) (fun r => r <> Aborted).
Proof.
  revert b f. induction fuel as [|fuel IH]; intros b f; [done|]. cbn. intros [[]|e].
  - split; [done|]. intros []. split; [done|]. intros []. split; [done|]. apply IH.
  - split; [done|]. destruct (5 <=? f + 1); [done|]. cbn. intros []. split; [done|]. apply IH.
Qed.

Lemma run_consumer_events durable filters ack_wait n fuel :
  (consumer_config durable filters ack_wait = consumer_config "chain-bridge-worker" fast_subjects 30
   \/ consumer_config durable filters ack_wait = consumer_config "chain-bridge-mint-worker" mint_subjects 90) ->
  always consumer_event (run_consumer durable filters ack_wait n fuel) (fun r => r <> Aborted).
Proof.
  intros Hc. cbn. intros [[]|e]; (split; [done|]); [|done]. cbn. intros [[]|e]; (split; [by split|]); [|done].
  apply consumer_loop_events.
Qed.

Lemma try_join_events P p q :
  (forall x, P (Ev PollFirst x)) -> always P p (fun r => r <> Aborted) -> always P q (fun r => r <> Aborted) ->
  always P (try_join p q) (fun r => r <> Aborted).
Proof.
  intros HP. revert q. induction p as [[[[]|e]|]| |o k IHp]; intros q Hp;
    (induction q as [[[[]|e']|]| |o' k' IHq]; intros Hq; cbn in Hp, Hq |- *; try done); intros x.
  1,2: destruct (Hq x) as [? ?]; split; [done|]; by apply IHq.
  1,2: destruct (Hp x) as [? ?]; split; [done|]; by apply IHp.
  split; [done|]. destruct x; cbn; intros x.
  - destruct (Hp x) as [? ?]. split; [done|]. by apply IHp.
  - destruct (Hq x) as [? ?]. split; [done|]. by apply IHq.
Qed.

(** The calls of [start]: the spawned cleanup task, and the consumers'. *)
Definition start_event (e : event sans) : Prop := is_cleanup e = true \/ consumer_event e.

Lemma start_joined fuel tr r :
  runs (start fuel) tr r ->
  (exists msg, tr = [@Ev sop sans (GetOrCreateStream chain_tx) (Err msg)] /\ r = Done (Some (Err msg)))
  \/ exists t, tr = @Ev sop sans (GetOrCreateStream chain_tx) (Ok tt) :: Ev SpawnCleanup tt :: t
       /\ runs (try_join (run_fast fuel) (run_mint fuel)) t r.
Proof.
  unfold start. cbn [call bind runs]. intros ([[]|e] & t & -> & Hr); [right|left].
  - cbn [call bind runs] in Hr. destruct Hr as ([] & t1 & -> & Hr). eauto.
  - destruct Hr as [-> ->]. eauto.
Qed.

Lemma joined_events fuel t r :
  runs (try_join (run_fast fuel) (run_mint fuel)) t r -> Forall consumer_event t /\ r <> Aborted.
Proof.
  apply (always_runs consumer_event _ (fun r => r <> Aborted)).
  apply try_join_events; [done|..]; apply run_consumer_events; auto.
Qed.

Lemma start_runs_events fuel tr r : runs (start fuel) tr r -> Forall start_event tr /\ r <> Aborted.
Proof.
  intros [(msg & -> & ->)|(t & -> & [HF Hr]%joined_events)]%start_joined.
  - split; [|done]. constructor; [by right|constructor].
  - split; [|done]. constructor; [by right|]. constructor; [by left|].
    eapply Forall_impl; [exact HF|]. intros e ?. by right.
Qed.

Definition stream_refused (e : event sans) : bool :=
  match e with Ev (GetOrCreateStream _) (Err _) => true | _ => false end.

(** A start spawns one cleanup task, unless the stream cannot be had. *)
Lemma start_cleanups fuel tr r :
  runs (start fuel) tr r ->
  (count_ev is_cleanup tr <= 1)%nat /\ (count_ev stream_refused tr = 0%nat -> count_ev is_cleanup tr = 1%nat).
Proof.
  intros [(msg & -> & ->)|(t & -> & [HF _]%joined_events)]%start_joined; [cbn; split; lia|].
  assert (H0 : count_ev is_cleanup t = 0%nat).
  { apply count_ev_zero. eapply Forall_impl; [exact HF|]. by intros [[] x]. }
  cbn [count_ev is_cleanup]. rewrite H0. split; lia.
Qed.

(** ** Claims: the consumer *)


(** ** Claims: the supervisor *)

Lemma sleeps_app t1 t2 : sleeps (t1 ++ t2) = sleeps t1 ++ sleeps t2.
Proof. unfold sleeps. apply omap_app. Qed.

Lemma start_no_sleeps tr : Forall start_event tr -> sleeps tr = [].
Proof.
  induction 1 as [|[o x] tr He _ IH]; [done|]. unfold sleeps in *. cbn [omap list_omap ev_op]. rewrite IH.
  destruct o; try done. destruct He as [?|He]; [done|]. cbn in He. by destruct who.
Qed.

Lemma start_not_connected tr : Forall start_event tr -> count_ev connected tr = 0%nat.
Proof. intros HF. apply count_ev_zero. eapply Forall_impl; [exact HF|]. intros [[] x] [?|?]; done. Qed.

(** One round of the supervisor. *)
Lemma supervise_round inner fuel b tr r :
  runs (supervise inner (S fuel) b) tr r ->
  (exists e t, tr = Ev Connect (Err e) :: Ev (SleepFor InSupervisor b) tt :: t
               /\ runs (supervise inner fuel (Z.min (b * 2) 30000)) t r)
  \/ (exists t0, tr = Ev Connect (Ok tt) :: Ev SpawnDlqMonitor tt :: t0 /\ runs (start inner) t0 (Done None) /\ r = Done tt)
  \/ (exists t0 msg t, tr = Ev Connect (Ok tt) :: Ev SpawnDlqMonitor tt :: t0
                            ++ Ev AbortDlqMonitor tt :: Ev (SleepFor InSupervisor 500) tt :: t
         /\ runs (start inner) t0 (Done (Some msg)) /\ runs (supervise inner fuel 1000) t r).
Proof.
  cbn [supervise call]. cbn [bind runs]. intros ([[]|e] & t & -> & Hr).
  2:{ cbn [bind call runs] in Hr. destruct Hr as ([] & t1 & -> & Hr). left. eauto. }
  right. cbn [bind call runs] in Hr. destruct Hr as ([] & t3 & -> & Hr).
  apply runs_bind in Hr as [(next & t1 & t2 & -> & H1 & H2)|[H1 ->]];
    (apply runs_bind in H1 as [(res & t4 & t5 & -> & H4 & H5)|[H4 _]];
      [|by apply start_runs_events in H4 as [_ ?]]).
  2:{ destruct res; cbn [bind call runs] in H5; [destruct H5 as ([] & ? & _ & _ & ?)|destruct H5]; done. }
  destruct res as [msg|].
  - right. cbn [bind call runs] in H5. destruct H5 as ([] & t6 & -> & -> & [= ->]).
    cbn [bind call runs] in H2. destruct H2 as ([] & t7 & -> & H2). exists t4, msg, t7. splits; [|done|done].
    cbn. by rewrite <- app_assoc.
  - left. destruct H5 as [-> [= ->]]. destruct H2 as [-> ->]. exists t4. by rewrite !app_nil_r.
Qed.

Lemma backoff_double b p :
  500 <= b -> 0 < p -> Z.min (Z.min (b * 2) 30000 * p) 30000 = Z.min (b * (2 * p)) 30000.
Proof.
  intros Hb Hp. destruct (Z.le_gt_cases (b * 2) 30000).
  - rewrite (Z.min_l (b * 2)) by lia. f_equal. lia.
  - rewrite (Z.min_r (b * 2)) by lia. rewrite !Z.min_r by nia. done.
Qed.

Lemma supervise_sleeps inner fuel b tr r :
  500 <= b <= 30000 -> runs (supervise inner fuel b) tr r ->
  r = Done tt /\ Forall (fun ms => 500 <= ms <= 30000) (sleeps tr)
  /\ (count_ev connected tr = 0%nat -> length (sleeps tr) = fuel
      /\ forall k, (k < fuel)%nat -> sleeps tr !! k = Some (Z.min (b * 2 ^ Z.of_nat k) 30000)).
Proof.
  revert b tr. induction fuel as [|fuel IH]; intros b tr Hb.
  { intros [-> ->]. splits; [done|constructor|]. intros _. split; [done|lia]. }
  intros [(e & t & -> & Hr)|[(t0 & -> & [HF _]%start_runs_events & ->)|(t0 & msg & t & -> & [HF _]%start_runs_events & Hr)]]%supervise_round.
  - destruct (IH (Z.min (b * 2) 30000) t) as (-> & HF & Hn); [lia|done|].
    change (sleeps (_ :: _ :: t)) with (b :: sleeps t). splits; [done|by constructor|].
    intros Hc. destruct (Hn Hc) as [Hl Hk]. split; [cbn; lia|]. intros [|k] Hlt; cbn [lookup list_lookup].
    + cbn. f_equal. lia.
    + rewrite Hk by lia. f_equal. rewrite Nat2Z.inj_succ, Z.pow_succ_r by lia. apply backoff_double; lia.
  - change (sleeps (_ :: _ :: t0)) with (sleeps t0). rewrite (start_no_sleeps _ HF).
    splits; [done|constructor|]. cbn. lia.
  - destruct (IH 1000 t) as (-> & HF' & _); [lia|done|].
    change (sleeps (Ev Connect (Ok tt) :: Ev SpawnDlqMonitor tt :: ?l)) with (sleeps l).
    rewrite sleeps_app, (start_no_sleeps _ HF). splits; [done| |cbn; lia].
    change (sleeps (_ :: _ :: t)) with (500 :: sleeps t). constructor; [lia|done].
Qed.

(** Reconnecting.  Whatever the server answers, the supervisor never panics, and
    never sleeps less than 0.5 s or more than 30 s between two rounds; while no
    connection succeeds it goes on for ever, the [k]-th delay being
    [min(500 * 2^k, 30000)] ms. *)
Theorem supervisor_backoff inner fuel tr r :
  runs (supervise inner fuel 500) tr r ->
  r = Done tt /\ Forall (fun ms => 500 <= ms <= 30000) (sleeps tr)
  /\ (count_ev connected tr = 0%nat -> length (sleeps tr) = fuel
      /\ forall k, (k < fuel)%nat -> sleeps tr !! k = Some (Z.min (500 * 2 ^ Z.of_nat k) 30000)).
Proof. apply supervise_sleeps. lia. Qed.

(** The dead-letter monitor beside the consumer: whether one is running. *)
Definition monitor_step (alive : bool) (e : event sans) : option bool :=
  match ev_op e with
  | Connect | SleepFor InSupervisor _ => if alive then None else Some false
  | SpawnDlqMonitor => if alive then None else Some true
  | AbortDlqMonitor => if alive then Some false else None
  | _ => if alive then Some true else None
  end.

Lemma start_monitored tr : Forall start_event tr -> monitor monitor_step true tr = Some true.
Proof.
  induction 1 as [|[o x] tr He _ IH]; [done|]. cbn [monitor].
  assert (monitor_step true (Ev o x) = Some true) as ->; [|done].
  destruct o; destruct He as [?|He]; try done. cbn in He |- *. by destruct who.
Qed.

(** What a reconnect leaves behind.  The consumer only ever runs beside a
    dead-letter monitor, and a monitor has been aborted before the supervisor sleeps
    or connects again, so at most one is running at any time.  The cleanup task a
    start spawns is not: as long as the stream can be had there is one for each
    successful connection, and none is ever stopped. *)
Theorem reconnects_keep_cleanups inner fuel b tr r :
  runs (supervise inner fuel b) tr r ->
  (exists alive, monitor monitor_step false tr = Some alive)
  /\ (count_ev is_cleanup tr <= count_ev connected tr)%nat
  /\ (count_ev stream_refused tr = 0%nat -> count_ev is_cleanup tr = count_ev connected tr).
Proof.
  revert b tr. induction fuel as [|fuel IH]; intros b tr; [intros [-> ->]; cbn; eauto|].
  intros [(e & t & -> & Hr)|[(t0 & -> & Hr & ->)|(t0 & msg & t & -> & Hr & Hr')]]%supervise_round.
  - exact (IH _ _ Hr).
  - destruct (start_runs_events _ _ _ Hr) as [HF _]. destruct (start_cleanups _ _ _ Hr) as [Hle Heq].
    cbn [monitor monitor_step ev_op count_ev is_cleanup connected stream_refused].
    rewrite (start_monitored _ HF), (start_not_connected _ HF). splits; [by eexists|lia|lia].
  - destruct (start_runs_events _ _ _ Hr) as [HF _]. destruct (start_cleanups _ _ _ Hr) as [Hle Heq].
    destruct (IH _ _ Hr') as (Hm & Hc & Hc').
    cbn [monitor monitor_step ev_op count_ev is_cleanup connected stream_refused].
    rewrite monitor_app, (start_monitored _ HF), !count_ev_app, (start_not_connected _ HF).
    cbn [monitor monitor_step ev_op count_ev is_cleanup connected stream_refused].
    splits; [done|lia|]. intros H0. rewrite Heq, Hc' by lia. lia.
Qed.

(** ** Leases and subjects *)

Section leases.
Context {J : SerdeJson} {K : SolanaSdk} {C : BlockchainCore} {X : X509} {B : Base64} {R : TokioRetry}.
Context (cfg : Config) (auth_policy : NatsAuthPolicy).

(** The time a handler slept, in milliseconds. *)
Definition slept (tr : list (event bans)) : Z :=
  foldr (fun e acc => match ev_op e with SleepMs ms => ms | _ => 0 end + acc) 0 tr.

Definition sleepless (e : event bans) : Prop := forall ms, ev_op e <> SleepMs ms.

Lemma slept_app t1 t2 : slept (t1 ++ t2) = slept t1 + slept t2.
Proof. induction t1 as [|e t1 IH]; [done|]. unfold slept in *. cbn [foldr app]. rewrite IH. lia. Qed.

Lemma slept_none tr : Forall sleepless tr -> slept tr = 0.
Proof.
  induction 1 as [|[o x] tr He _ IH]; [done|]. unfold slept in *. cbn [foldr ev_op]. rewrite IH.
  destruct o; try done. by destruct (He ms).
Qed.

Lemma routine_sleepless e : routine e -> sleepless e.
Proof. by destruct e as [[] x]. Qed.

Lemma denied_sleepless e : denied e -> sleepless e.
Proof. by destruct e as [[] x]. Qed.

Lemma quiet_sleepless e : quiet e -> sleepless e.
Proof. by destruct e as [[] x]. Qed.

Lemma pipeline_slept ser key ident corr tr r : runs (sign_and_submit cfg ser key ident corr) tr r -> slept tr = 0.
Proof.
  intros Hr. apply slept_none.
  eapply Forall_impl; [exact (proj1 (always_runs _ _ _ _ _ (sign_and_submit_always cfg ser key ident corr) Hr))|].
  by intros [[] x].
Qed.

Lemma retry_slept {A E : Type} ds (act : prog bans (result A E)) tr r :
  Forall (Z.le 0) ds -> (forall t q, runs act t q -> slept t = 0) ->
  runs (retry_spawn ds act) tr r -> 0 <= slept tr <= foldr Z.add 0 ds.
Proof.
  intros Hds Ha. revert tr. induction Hds as [|d ds Hd HF IH]; intros tr.
  - rewrite retry_nil. intros ->%Ha. cbn. lia.
  - assert (0 <= foldr Z.add 0 ds) by (clear -HF; induction HF; cbn; lia).
    rewrite retry_cons. cbn [foldr]. intros [(x & t1 & t2 & -> & H1%Ha & H2)|[H1%Ha _]]%runs_bind; [|lia].
    rewrite slept_app, H1. destruct x as [a|e]; [destruct H2 as [-> _]; cbn; lia|].
    cbn [bind call runs] in H2. destruct H2 as ([] & t3 & -> & Hr%IH). cbn. unfold slept in Hr. lia.
Qed.

Lemma poll_slept sig n d tr r :
  0 <= d -> runs (resolve_confirmation_bounded sig n d) tr r -> 0 <= slept tr <= Z.of_nat n * d.
Proof.
  intros Hd. revert tr. induction n as [|n IH]; intros tr; [intros [-> _]; cbn; lia|].
  cbn [resolve_confirmation_bounded call bind runs]. intros (x & t & -> & Hr).
  change (slept (Ev (SigStatuses [sig]) x :: t)) with (slept t).
  destruct (poll_verdict x); [destruct Hr as [-> _]; cbn; nia|].
  cbn [call bind runs] in Hr. destruct Hr as ([] & t' & -> & Hr%IH).
  change (slept (Ev (SleepMs d) tt :: t')) with (d + slept t'). nia.
Qed.

Lemma build_mint_slept wallet kwh meter window ident corr tr r :
  runs (build_and_submit_generation_mint cfg wallet kwh meter window ident corr) tr r -> 0 <= slept tr <= 6000.
Proof.
  unfold build_and_submit_generation_mint.
  destruct (energy_kwh_to_base_units kwh); [|intros [-> _]; cbn; lia].
  destruct (pubkey_from_str wallet); [|intros [-> _]; cbn; lia].
  cbn [call bind runs]. intros (x & t & -> & Hr). change (slept (Ev _ x :: t)) with (slept t).
  destruct x as [payer|e]; [|destruct Hr as [-> _]; cbn; lia].
  destruct (build_generation_mint_instructions _ _ _ _ _ _); [|destruct Hr as [-> _]; cbn; lia].
  cbn zeta in Hr. destruct (serialize_tx _) as [ser|e]; [|destruct Hr as [-> _]; cbn; lia].
  apply runs_bind in Hr as [(res & t1 & t2 & -> & H1%pipeline_slept & H2)|[H1%pipeline_slept _]]; [|lia].
  rewrite slept_app, H1. destruct res as [[sig slot]|e]; [|destruct H2 as [-> _]; cbn; lia].
  apply runs_bind in H2 as [(o & t3 & t4 & -> & H3 & H4)|[H3 _]]; apply poll_slept in H3; try lia.
  rewrite slept_app. destruct o; destruct H4 as [-> _]; cbn; lia.
Qed.

Lemma mint_effect_slept env now key tr r : runs (mint_effect cfg env now key) tr r -> 0 <= slept tr <= 6000.
Proof.
  unfold mint_effect. intros [(res & t1 & t2 & -> & H1%build_mint_slept & H2)|[H1%build_mint_slept _]]%runs_bind; [|lia].
  assert (Ha : always sleepless
    (rm <~ match res with
           | Ok (sig, slot) =>
               do! call (IdemInsert (me_correlation_id env) (u64_add now 60000)) ;;
               do! dedup_done key now sig slot ;;
               Ret (mkMintResult (me_correlation_id env) true (Some (signature_to_string sig)) None slot false)
           | Err e => do! dedup_release key ;; Ret (mint_failure env (any_display e))
           end ;;
     do! metric "nats_consumer_mint" (mr_success rm) ;; do! publish_mint_result (me_reply_subject env) rm ;; ack_msg Ack)
    (fun r => r = Aborted -> True)).
  { eapply (always_bind _ _ _ (fun _ => True)); [|intros; apply (finish_rule sleepless True routine_sleepless)|done].
    destruct res as [[sig slot]|e], key as [k|]; cbn; intros; repeat (split || intros); done. }
  rewrite slept_app, (slept_none t2); [lia|]. exact (proj1 (always_runs _ _ _ _ _ Ha H2)).
Qed.

Lemma submit_effect_slept env now key tr r : runs (submit_effect cfg env now key) tr r -> 0 <= slept tr <= 1500.
Proof.
  assert (Hretry : forall t q, runs (retry_spawn (fixed_interval_take 500 3)
    (sign_and_submit cfg (ts_serialized_tx env) (ts_key_id env) (ts_service_identity env) (ts_correlation_id env))) t q ->
    0 <= slept t <= 1500).
  { intros t q Hr. apply retry_slept in Hr; [cbn in Hr; lia|by repeat constructor|]. intros ? ?. apply pipeline_slept. }
  intros (t & [[Hr _]|(res & y & a & Hr & -> & _)])%submit_effect_inv; apply Hretry in Hr; [done|].
  rewrite slept_app, (slept_none (effect_tail _ _ _ _ _ _)); [lia|].
  unfold effect_tail, reply_events. destruct res as [[sig slot]|e], key, (encode_reply _); by repeat constructor.
Qed.

(** How long each subject's handler sleeps at most. *)
Definition wait_bound (subject : string) : Z :=
  if String.eqb subject "chain.tx.submit" then 1500 else if String.eqb subject "chain.tx.mint" then 6000 else 0.

Lemma admitted_slept corr key ns n m b : slept (admitted corr key ns n m b) = 0.
Proof. reflexivity. Qed.

Lemma dispatch_slept subject payload tr r :
  runs (dispatch cfg auth_policy subject payload) tr r -> 0 <= slept tr <= wait_bound subject.
Proof.
  unfold dispatch, wait_bound. destruct (String.eqb subject "chain.tx.submit").
  { intros [HF|(env & ns & n & m & b & _ & _ & [(rm & y & a & ->)|(t & -> & Hr)])]%handle_submit_shape.
    - rewrite slept_none; [lia|]. eapply Forall_impl; [exact HF|apply denied_sleepless].
    - rewrite slept_none; [lia|]. eapply Forall_impl; [apply replayed_quiet|apply quiet_sleepless].
    - rewrite slept_app, admitted_slept. apply submit_effect_slept in Hr. lia. }
  destruct (String.eqb subject "chain.tx.cancel") eqn:Ec.
  { apply String.eqb_eq in Ec as ->. intros Hr. cbn. rewrite slept_none; [lia|].
    refine (proj1 (always_runs _ _ _ _ _ (handle_cancel_rule auth_policy sleepless True routine_sleepless payload _) Hr)). done. }
  destruct (String.eqb subject "chain.tx.mint").
  { intros [HF|(env & ns & n & m & b & _ & _ & [(rm & y & a & ->)|(t & -> & Hr)])]%handle_mint_shape.
    - rewrite slept_none; [lia|]. eapply Forall_impl; [exact HF|apply denied_sleepless].
    - rewrite slept_none; [lia|]. eapply Forall_impl; [apply replayed_quiet|apply quiet_sleepless].
    - rewrite slept_app, admitted_slept. apply mint_effect_slept in Hr. lia. }
  destruct (String.eqb subject "chain.tx.status").
  { intros Hr. rewrite slept_none; [lia|].
    refine (proj1 (always_runs _ _ _ _ _ (handle_status_rule auth_policy sleepless True routine_sleepless payload _) Hr)). done. }
  intros (a & -> & _)%ack_runs. cbn. lia.
Qed.

Lemma subjects_disjoint subject : subject ∈ fast_subjects -> subject ∈ mint_subjects -> False.
Proof.
  unfold fast_subjects, mint_subjects. intros Hf ->%list_elem_of_singleton.
  repeat (apply elem_of_cons in Hf as [?|Hf]; [discriminate|]). by apply elem_of_nil in Hf.
Qed.

(** C31: consumers and leases.  Take any pull consumer that a start creates and any
    subject it is filtered to.  Handling a message of that subject waits for less
    time than the server leases it for, so that a delivery that only waits is not
    sent a second time; no consumer under another name is filtered to the same
    subject; and no pull asks for more messages than the consumer's batch limit. *)
Theorem leases_cover_waits fuel tr r s c x filters subject payload tr' r' :
  runs (start fuel) tr r -> Ev (GetOrCreateConsumer s c) x ∈ tr ->
  filter_subjects c = Some filters -> subject ∈ filters ->
  runs (dispatch cfg auth_policy subject payload) tr' r' ->
  (exists secs, ack_wait_secs c = Some secs /\ 0 <= slept tr' < secs * 1000)
  /\ (forall s' c' x' filters', Ev (GetOrCreateConsumer s' c') x' ∈ tr -> filter_subjects c' = Some filters' ->
        durable_name c' <> durable_name c -> subject ∉ filters')
  /\ (forall d o y, Ev (OpenMessages d (Some o)) y ∈ tr ->
        exists limit, max_batch c = Some limit /\ max_messages_per_batch o <= limit).
Proof.
  intros [HF _]%start_runs_events Hc Hf Hs Hr. rewrite Forall_forall in HF.
  assert (Hcfg : forall s c x, Ev (GetOrCreateConsumer s c) x ∈ tr ->
    c = consumer_config "chain-bridge-worker" fast_subjects 30 \/ c = consumer_config "chain-bridge-mint-worker" mint_subjects 90).
  { intros s1 c1 x1 [?|[_ ?]]%HF; done. }
  assert (Hbatch : forall d o y, Ev (OpenMessages d (Some o)) y ∈ tr -> o = pull_options).
  { intros d o y [?|Ho]%HF; [done|]. cbn in Ho. congruence. }
  apply dispatch_slept in Hr. unfold wait_bound in Hr. splits.
  - destruct (Hcfg _ _ _ Hc) as [-> | ->]; cbn in *; simplify_eq; eexists; (split; [done|]); repeat case_match; lia.
  - intros s' c' x' filters' Hc' Hf' Hne Hin.
    destruct (Hcfg _ _ _ Hc) as [-> | ->], (Hcfg _ _ _ Hc') as [-> | ->]; cbn in *; simplify_eq;
      by eapply subjects_disjoint.
  - intros d o y ->%Hbatch. destruct (Hcfg _ _ _ Hc) as [-> | ->]; by eexists.
Qed.

(** The subject nobody handles: the fast consumer pulls it, and a message on it is
    acknowledged and dropped. *)
Lemma simulate_dropped payload :
  "chain.tx.simulate" ∈ fast_subjects /\ dispatch cfg auth_policy "chain.tx.simulate" payload = ack_msg Ack.
Proof. split; [right; left|reflexivity]. Qed.

End leases.

(** ** The dead-letter monitor *)

Definition dead_letters (tr : list (event sans)) : list bytes :=
  omap (fun e : event sans => match e with Ev NextDeadLetter (Some (Ok payload)) => Some payload | _ => None end) tr.

Definition tracked (tr : list (event sans)) : list Z :=
  omap (fun e : event sans => match ev_op e with TrackDeadLetter n => Some n | _ => None end) tr.

Definition is_dlq_ack (e : event sans) : bool :=
  match e with Ev AckDeadLetter _ => true | _ => false end.

(** Every dead letter is counted with its size and acknowledged once; the monitor
    stops only when its stream ends, not on a failed message. *)
Lemma dlq_loop_runs fuel tr r :
  runs (dlq_loop fuel) tr r ->
  tracked tr = (fun p => Z.of_nat (length p)) <$> dead_letters tr
  /\ count_ev is_dlq_ack tr = length (dead_letters tr)
  /\ (r = Done None \/ (r = Done (Some (Ok tt)) /\ exists t, tr = t ++ [Ev NextDeadLetter None])).
Proof.
  revert tr. induction fuel as [|fuel IH]; intros tr; [intros [-> ->]; cbn; auto|].
  cbn [dlq_loop call bind runs]. intros ([[p|e]|] & t & -> & Hr).
  - cbn [call bind runs] in Hr. destruct Hr as ([] & t1 & -> & (a & t2 & -> & Hr)).
    destruct (IH t2 Hr) as (H1 & H2 & H3). unfold tracked, dead_letters in *. cbn. rewrite H1, H2.
    splits; [done|done|]. destruct H3 as [?|[? (t & ->)]]; [by left|right]. split; [done|]. by eexists (_ :: _ :: _ :: t).
  - destruct (IH t Hr) as (H1 & H2 & H3). splits; [done|done|].
    destruct H3 as [?|[? (t' & ->)]]; [by left|right]. split; [done|]. by eexists (_ :: t').
  - destruct Hr as [-> ->]. cbn. splits; [done|done|right]. split; [done|]. by exists [].
Qed.

(** ** Examples *)

Section examples.

(** A server that is reachable but opens no message stream; [up] says whether it
    can be connected to. *)
Definition starving (up : bool) (o : sop) (u : unit) : sans o * unit :=
  match o return sans o * unit with
  | Connect => (if up then Ok tt else Err "connection refused", u)
  | GetOrCreateStream _ | GetOrCreateConsumer _ _ | AckDeadLetter => (Ok tt, u)
  | OpenMessages _ _ => (Err "no responders", u)
  | NextDeadLetter => (None, u)
  | PollFirst => (true, u)
  | ProcessMessages _ _ | TrackDeadLetter _ | SpawnCleanup | SpawnDlqMonitor | AbortDlqMonitor | SleepFor _ _ => (tt, u)
  end.


Lemma supervisor_backoff_witness :
  sleeps (fst (fst (run (starving false) (supervise 9 8 500) tt))) !! 7%nat = Some 30000.
Proof.
  refine (proj2 (proj2 (proj2 (supervisor_backoff 9 8 _ _ (run_trace (starving false) (supervise 9 8 500) tt))) _) 7%nat _).
  - vm_compute. reflexivity.
  - lia.
Defined.

Lemma reconnects_keep_cleanups_witness :
  count_ev is_cleanup (fst (fst (run (starving true) (supervise 9 3 500) tt))) = 3%nat.
Proof.
  rewrite (proj2 (proj2 (reconnects_keep_cleanups 9 3 500 _ _ (run_trace (starving true) (supervise 9 3 500) tt)))).
  - vm_compute. reflexivity.
  - vm_compute. reflexivity.
Defined.

#[local] Existing Instances toy_sdk toy_core toy_x509 toy_b64.
#[local] Existing Instance consumer_serde.
#[local] Existing Instance toy_tokio.

Lemma leases_cover_waits_witness :
  exists secs, 0 <= slept (fst (fst (demo_handle (demo_dispatch "chain.tx.submit" [x01]) bridge_new))) < secs * 1000.
Proof.
  destruct (leases_cover_waits demo_cfg demo_policy 9
    (fst (fst (run (starving true) (start 9) tt))) (snd (fst (run (starving true) (start 9) tt)))
    "CHAIN_TX" (consumer_config "chain-bridge-worker" fast_subjects 30) (Ok tt) fast_subjects "chain.tx.submit" [x01]
    (fst (fst (demo_handle (demo_dispatch "chain.tx.submit" [x01]) bridge_new)))
    (snd (fst (demo_handle (demo_dispatch "chain.tx.submit" [x01]) bridge_new)))) as [(secs & _ & Hs) _].
  - apply run_trace.
  - assert (E : fst (fst (run (starving true) (start 9) tt)) !! 5%nat
      = Some (@Ev sop sans (GetOrCreateConsumer "CHAIN_TX" (consumer_config "chain-bridge-worker" fast_subjects 30)) (Ok tt)))
      by (vm_compute; reflexivity).
    exact (list_elem_of_lookup_2 _ _ _ E).
  - reflexivity.
  - left.
  - apply run_trace.
  - exists secs. exact Hs.
Defined.

End examples.
