(* ===== verification/Liveness.v ===== *)
(** * How the process ends, and when a submit succeeds

    The pool of tasks of [Concurrency] seen as one process, under the release
    profile's [panic = 'abort'].  It can go on until every task has returned, with
    every delivery acknowledged, or until a task panics, which only one of the
    transactions of [panics_on] can bring about; the abort leaves every unfinished
    delivery unacknowledged.  The last section says what has to go right for a
    submit to be answered with a signature. *)

From S2P Require Import Prelude RustStd Effects Domain External BridgeOps Fixtures Identity Signing SigningSpec Consumer ConsumerSpec Refresh Grpc ConsumerProps Concurrency.
From Stdlib Require String.
Import String.StringSyntax.

Local Open Scope Z_scope.

Section liveness.
Context {J : SerdeJson} {K : SolanaSdk} {C : BlockchainCore} {X : X509} {B : Base64} {R : TokioRetry}.
Context {RL : RbacLaws}.
Context (cfg : Config) (auth_policy : NatsAuthPolicy).
Context {HT : HttpHeaders} (from_headers : gmap string (list HeaderValue) -> ServiceRole).

(** Every call has an answer: the bridge's own state gives one, or the
    environment may give any. *)
Lemma bridge_answered s o : exists x s', bridge_sem s o x s'.
Proof.
  unfold bridge_sem. destruct (own_step s o) as [[x s1]|]; [by exists x, s1|].
  by exists (quiet_answer o), s.
Qed.

(** ** Which tasks can panic *)

(** The transaction a mint message is turned into, with the Vault's key [payer]. *)
Definition mint_serialized (env : MintEnergyMessage) (payer : Pubkey) (ser : bytes) : Prop :=
  exists amount recipient ixs,
    energy_kwh_to_base_units (me_energy_kwh env) = Ok amount
    /\ pubkey_from_str (me_recipient_wallet env) = Ok recipient
    /\ build_generation_mint_instructions payer payer recipient amount (me_meter_id env) (me_window_start_ms env) = Ok ixs
    /\ serialize_tx (new_unsigned (message_new (set_compute_unit_limit 400000 :: ixs) (Some payer))) = Ok ser.

(** The pipeline panics on a transaction the task leads to. *)
Definition poison (t : task) : Prop :=
  match t with
  | Deliver subject payload =>
      (subject = "chain.tx.submit" /\ exists env tx,
         parse_submit payload = Ok env /\ ts_key_id env = "platform_admin"
         /\ authorised (ts_serialized_tx env) (ts_service_identity env) tx /\ panics_on cfg tx = true)
      \/ (subject = "chain.tx.mint" /\ exists env payer ser tx,
         parse_mint payload = Ok env /\ mint_serialized env payer ser
         /\ authorised ser (me_service_identity env) tx /\ panics_on cfg tx = true)
  | ServeRpc headers (RpcSubmit ser key) =>
      rbac_matrix (extract_role from_headers (getenv cfg) headers) (RpcSubmit ser key) = true
      /\ key = "platform_admin"
      /\ exists tx, authorised ser (request_identity headers) tx /\ panics_on cfg tx = true
  | _ => False
  end.

Lemma submit_effect_abort env now key :
  always (fun _ => True) (submit_effect cfg env now key)
    (fun r => r = Aborted -> ts_key_id env = "platform_admin" /\ exists tx,
       authorised (ts_serialized_tx env) (ts_service_identity env) tx /\ panics_on cfg tx = true).
Proof.
  unfold submit_effect.
  eapply always_bind; [apply retry_always; [done|apply sign_and_submit_abort_cause]| |auto].
  intros res _. eapply (always_bind _ _ _ (fun r => r <> Aborted)); [| |done].
  - destruct res as [[sig slot]|e]; [destruct key|destruct key]; cbn; repeat (intros []; split; [done|]); done.
  - intros rm _. unfold publish_result, publish_reply. destruct (encode_reply _); cbn;
      repeat (intros ?; split; [done|]); done.
Qed.

Definition mint_poison (env : MintEnergyMessage) : Prop :=
  exists payer ser tx, mint_serialized env payer ser
    /\ authorised ser (me_service_identity env) tx /\ panics_on cfg tx = true.

Lemma build_mint_abort env :
  always (fun _ => True)
    (build_and_submit_generation_mint cfg (me_recipient_wallet env) (me_energy_kwh env) (me_meter_id env)
       (me_window_start_ms env) (me_service_identity env) (me_correlation_id env))
    (fun r => r = Aborted -> mint_poison env).
Proof.
  unfold build_and_submit_generation_mint.
  destruct (energy_kwh_to_base_units _) as [amount|e] eqn:Ha; [|done].
  destruct (pubkey_from_str _) as [recipient|e] eqn:Hr; [|done].
  cbn [call bind always]. intros [payer|e]; (split; [done|]); [|done].
  destruct (build_generation_mint_instructions _ _ _ _ _ _) as [ixs|e] eqn:Hb; [|done]. cbn zeta.
  destruct (serialize_tx _) as [ser|e] eqn:Hs; [|done].
  eapply always_bind; [apply sign_and_submit_abort_cause| |].
  - intros [[sig slot]|s] _; [|done].
    eapply always_bind; [by apply (confirmation_always (fun _ => True) sig)| |by intros []].
    intros c _. by destruct c.
  - intros H _. destruct (H eq_refl) as [_ [tx ?]]. exists payer, ser, tx. split; [|done]. by exists amount, recipient, ixs.
Qed.

Lemma mint_effect_abort env now key :
  always (fun _ => True) (mint_effect cfg env now key) (fun r => r = Aborted -> mint_poison env).
Proof.
  unfold mint_effect. eapply always_bind; [apply build_mint_abort| |auto].
  intros res _. eapply (always_bind _ _ _ (fun r => r <> Aborted)); [| |done].
  - destruct res as [[sig slot]|e]; [destruct key|destruct key]; cbn; repeat (intros []; split; [done|]); done.
  - intros rm _. unfold publish_mint_result, publish_reply. destruct (encode_reply _); cbn;
      repeat (intros ?; split; [done|]); done.
Qed.

(** A delivery panics only on a poisonous payload. *)
Lemma dispatch_abort subject payload tr :
  runs (dispatch cfg auth_policy subject payload) tr Aborted -> poison (Deliver subject payload).
Proof.
  intros Hr. refine (proj2 (always_runs (fun _ => True) _ (fun r => r = Aborted -> poison (Deliver subject payload)) _ _ _ Hr) eq_refl).
  apply dispatch_rule; [done| | |done|done].
  - intros ->. apply handle_submit_rule; [done|done|]. intros env now Hp.
    eapply always_mono; [apply submit_effect_abort|done|].
    intros r Hab Ha. destruct (Hab Ha) as (Hk & tx & Hau & Hpn). left. split; [done|]. by exists env, tx.
  - intros ->. apply handle_mint_rule; [done|done|]. intros env now Hp.
    eapply always_mono; [apply mint_effect_abort|done|].
    intros r Hab Ha. destruct (Hab Ha) as (payer & ser & tx & Hm & Hau & Hpn). right. split; [done|].
    by exists env, payer, ser, tx.
Qed.

(** So does a request, and it has not touched a message either. *)
Lemma serve_abort hs q tr :
  runs (serve cfg from_headers hs q) tr Aborted -> poison (ServeRpc hs q) /\ Forall inner tr.
Proof.
  intros Hr. destruct (is_submit q) eqn:Hq; [|by apply read_rpc_single_call in Hr as (_ & _ & ?)].
  split.
  - destruct (rbac_matrix (extract_role from_headers (getenv cfg) hs) q) eqn:Hm.
    2:{ apply serve_rbac in Hm as [msg Hs]. rewrite Hs in Hr. by destruct Hr. }
    destruct q as [ser key| | | | | | | | | |]; try done. split; [done|].
    set (Q := key = "platform_admin" /\ exists tx, authorised ser (request_identity hs) tx /\ panics_on cfg tx = true).
    refine (proj2 (always_runs (fun _ => True) _ (fun r => r = Aborted -> Q) _ _ _ Hr) eq_refl).
    unfold serve, erased, submit_transaction, require_role.
    eapply (always_bind _ _ _ (fun r => r = Aborted -> Q)); [|done|auto]. destruct (require_any _ _); [|done].
    eapply always_bind; [apply sign_and_submit_abort_cause|done|intros Ha _; exact (Ha eq_refl)].
  - refine (proj1 (always_runs inner _ (fun _ => True) _ _ _ Hr)). apply serve_rule; [|by intros []].
    intros ser key _. apply sign_and_submit_inner.
Qed.

Lemma task_abort t tr : runs (task_prog cfg auth_policy from_headers t) tr Aborted -> poison t /\ Forall inner tr.
Proof.
  destruct t as [subject payload|ticks snap|headers q|rounds]; cbn [task_prog]; intros Hr.
  - split; [by eapply dispatch_abort|].
    destruct (obeys_runs _ _ _ _ _ _ (dispatch_life cfg auth_policy subject payload) Hr) as (m & Hm & He).
    apply lifecycle_shape in Hm. cbn in He. by subst m.
  - exfalso. apply runs_bind in Hr as [(? & ? & ? & _ & _ & _ & ?)|[Hr _]]; [done|].
    revert snap tr Hr. induction ticks as [|n IH]; intros snap tr; cbn; [by intros [_ ?]|].
    intros (now & t & -> & [] & t' & -> & Hr). eauto.
  - apply runs_bind in Hr as [(? & ? & ? & _ & _ & _ & ?)|[Hr _]]; [done|]. by apply serve_abort.
  - exfalso. by destruct (always_runs _ _ _ _ _ (refresh_rule (fun _ => True) rounds (fun _ => I) (fun _ _ _ => I)) Hr).
Qed.

(** ** Acknowledgements *)

Definition no_ack (e : event bans) : Prop := forall k, ev_op e <> AckMsg k.

(** Acknowledged once, by the last call. *)
Definition acknowledged (t : list (event bans)) : Prop :=
  exists t' k x, t = t' ++ [Ev (AckMsg k) x] /\ Forall no_ack t'.

Lemma lifecycle_unacked tr m0 m : monitor lifecycle_step m0 tr = Some m -> m <> Acked -> Forall no_ack tr.
Proof.
  revert m0. induction tr as [|[o x] tr IH]; intros m0; [constructor|]. cbn [monitor].
  destruct (lifecycle_step m0 (Ev o x)) as [m1|] eqn:E; [|done]. intros Hm Hn. constructor; [|by eapply IH].
  intros k Hk. cbn in Hk. subst o. assert (m1 = Acked) as -> by (by destruct m0; simplify_eq/=).
  by apply lifecycle_acked in Hm as [_ ->].
Qed.

Lemma inner_no_ack t : Forall inner t -> Forall no_ack t.
Proof. intros Ht. eapply Forall_impl; [exact Ht|]. intros [[] y]; done. Qed.

(** At any moment a delivery has returned, acknowledged by its last call, or it has
    not acknowledged its message yet. *)
Lemma dispatch_reached subject payload t q :
  reaches (dispatch cfg auth_policy subject payload) t q ->
  (acknowledged t /\ q = Ret tt) \/ (Forall no_ack t /\ q <> Ret tt).
Proof.
  intros Hr. destruct (obeys_reaches _ _ _ _ _ _ (dispatch_life cfg auth_policy subject payload) Hr) as (m & Hm & Ho).
  assert (m = Acked \/ m <> Acked) as [->|Hn] by (destruct m; auto).
  - left. split.
    + apply lifecycle_shape in Hm as (t' & pub & k & x & -> & Ht & Hpub). exists (t' ++ pub), k, x.
      rewrite app_assoc. split; [done|]. apply Forall_app. split; [by apply inner_no_ack|].
      destruct Hpub as [->|(sj & p & y & ->)]; by repeat constructor.
    + destruct q as [[]| |o k]; [done|done|]. by specialize (Ho (quiet_answer o)).
  - right. split; [by eapply lifecycle_unacked|]. intros ->. by cbn in Ho.
Qed.

(** C10: how the process ends.  Take any deliveries, gRPC requests and background
    tasks over any state of the maps, in any interleaving, with every external call
    answered arbitrarily and the process aborting on the first panic.  When nothing
    can move any more, either every task has returned and every message was
    acknowledged exactly once, by the last call of its delivery; or some task
    panicked.  Then that task's own transaction is one the pipeline panics on (the
    submitted one, the one built for the mint, or the one of a request of a role
    that may submit), and it neither replied nor acknowledged; and every other
    delivery either had returned, acknowledged exactly once, or is left
    unacknowledged for redelivery, however far it had got. *)
Theorem process_stops s (tasks : list task) tr s' ps' :
  aexec bridge_sem (s, task_prog cfg auth_policy from_headers <$> tasks) tr (s', ps') ->
  (forall l c, ~ aexec bridge_sem (s', ps') [l] c) ->
  (Forall (fun p => p = Ret tt) ps'
   /\ forall i subject payload, tasks !! i = Some (Deliver subject payload) -> acknowledged (thread_trace i tr))
  \/ ((exists i t, tasks !! i = Some t /\ ps' !! i = Some Panic /\ poison t /\ Forall inner (thread_trace i tr))
      /\ forall i subject payload, tasks !! i = Some (Deliver subject payload) ->
           (acknowledged (thread_trace i tr) /\ ps' !! i = Some (Ret tt)) \/ Forall no_ack (thread_trace i tr)).
Proof.
  intros Hx%aexec_pexec Hstuck.
  assert (Hdel : forall i subject payload, tasks !! i = Some (Deliver subject payload) -> exists q, ps' !! i = Some q
    /\ (acknowledged (thread_trace i tr) /\ q = Ret tt \/ Forall no_ack (thread_trace i tr) /\ q <> Ret tt)).
  { intros i subject payload Hi.
    destruct (pexec_reaches _ _ _ _ _ _ i (dispatch cfg auth_policy subject payload) Hx) as (q & Hq & Hr);
      [by rewrite list_lookup_fmap, Hi|]. exists q. split; [done|]. by eapply dispatch_reached. }
  destruct (aexec_progress bridge_sem s' ps' bridge_answered) as [[Hab|Hret]|(l & c & Hc)]; [right|left|by destruct (Hstuck l c)].
  - split.
    + apply aborted_elem in Hab as [i Hi]. destruct (pexec_reached _ _ _ _ _ _ _ _ Hx Hi) as (p & Hp & Hr).
      rewrite list_lookup_fmap in Hp. destruct (tasks !! i) as [t|] eqn:Ht; [|done]. injection Hp as <-.
      destruct (reaches_runs _ _ _ Hr I) as ([a|] & Hrun & Hq); [done|]. apply task_abort in Hrun. exists i, t. tauto.
    + intros i subject payload Hi. destruct (Hdel _ _ _ Hi) as (q & Hq & [[? ->]|[? _]]); auto.
  - assert (Hall : Forall (fun p => p = Ret tt) ps') by (eapply Forall_impl; [exact Hret|by intros p [[] ->]]).
    split; [done|]. intros i subject payload Hi. destruct (Hdel _ _ _ Hi) as (q & Hq & Hc).
    rewrite Forall_lookup in Hall. specialize (Hall _ _ Hq). tauto.
Qed.

(** ** When a submit succeeds *)

(** The answers under which nothing stands in the way of [env]: its envelope
    passes authentication at the clock's seconds, it is fresh, neither its
    correlation id nor its key is known, the simulation does not report an error,
    and the Vault and the node answer. *)
Definition favourable (env : TxSubmitMessage) (e : event bans) : Prop :=
  match e with
  | Ev NowSecs n =>
      auth_passed auth_policy (ts_auth env) (ts_service_identity env) (canonical_submit_bytes env) false n
  | Ev NowMs n => saturating_sub (as_u64 n) (ts_created_at_ms env) <= 55000
  | Ev (IdemContains _) b => b = false
  | Ev (ClaimOrReplay _ _ _) x => x = None
  | Ev LatestBlockhash x => is_ok x = true
  | Ev (Simulate _) (Ok sim) => sim_err sim = None
  | Ev (VaultSign _ _) x => is_ok x = true
  | Ev (SendTx _) x => is_ok x = true
  | _ => True
  end.

Lemma favourable_platform_admin env tx ident corr :
  panics_on cfg tx = false ->
  under (favourable env) (sign_platform_admin cfg tx ident corr) (fun r => exists tx', r = Done (Ok tx')).
Proof.
  intros Hp. unfold sign_platform_admin.
  eapply (under_bind _ _ _ (fun r => exists tx', r = Done (Ok tx') /\ blockhash_filled tx tx')); [| |naive_solver].
  { unfold fill_blockhash, blockhash_filled. case_bool_decide; [|cbn; eauto].
    cbn. intros [[bh h]|] _; cbn; [eauto 6|]. intros [[bh h]|e]; cbn; [eauto 6|done]. }
  intros f (tx' & [= ->] & Hf). destruct (panics_on_filled cfg tx tx' Hf) as [Hp' _]. rewrite Hp in Hp'.
  eapply (under_bind _ _ _ (fun r => r = Done (Ok tt))); [| |done].
  { unfold presign. destruct (env_flag _ _); [done|]. cbn. intros [sim|e] Hs; cbn in Hs |- *; [by rewrite Hs|done]. }
  intros ? [= ->]. rewrite panics_on_split in Hp'. apply orb_false_iff in Hp' as [Hl Hs].
  rewrite log_signers_eq, Hl. cbn. intros [sig|e]; [intros _|done].
  destruct (attach_signature_cases sig tx') as [(Ha & Hn & Hz)|(rest & -> & _)]; [|cbn; eauto].
  exfalso. by rewrite Hn, Hz in Hs.
Qed.

Lemma favourable_pipeline env tx ser key ident corr :
  authorised ser ident tx -> (key = "platform_admin" \/ key = "") -> panics_on cfg tx = false ->
  under (favourable env) (sign_and_submit cfg ser key ident corr) (fun r => exists sig, r = Done (Ok (sig, 0))).
Proof.
  intros [Hd Hv] Hk Hp. unfold sign_and_submit. rewrite Hd, Hv.
  assert (Hsend : forall tx', under (favourable env) (send_and_audit tx' ident corr)
                    (fun r => exists sig, r = Done (Ok (sig, 0)))).
  { intros tx'. cbn. intros [sig|e]; [intros _|done]. cbn. eauto. }
  destruct Hk as [-> | ->]; cbn [String.eqb Ascii.eqb Bool.eqb str_is_empty negb]; [|apply Hsend].
  eapply under_bind; [by apply favourable_platform_admin| |naive_solver].
  intros x [tx' [= ->]]. apply Hsend.
Qed.

Lemma favourable_retry env tx ds ser key ident corr :
  authorised ser ident tx -> (key = "platform_admin" \/ key = "") -> panics_on cfg tx = false ->
  under (favourable env) (retry_spawn ds (sign_and_submit cfg ser key ident corr))
    (fun r => exists sig, r = Done (Ok (sig, 0))).
Proof.
  intros Ha Hk Hp. destruct ds as [|d ds]; [rewrite retry_nil; by apply (favourable_pipeline env tx)|].
  rewrite retry_cons. eapply under_bind; [by apply (favourable_pipeline env tx)| |naive_solver].
  intros x [sig [= ->]]. cbn. eauto.
Qed.

(** Under favourable answers every gate opens. *)
Lemma favourable_admitted payload env tx tr r :
  parse_submit payload = Ok env -> role_of (ts_service_identity env) <> Unknown ->
  authorised (ts_serialized_tx env) (ts_service_identity env) tx ->
  (ts_key_id env = "platform_admin" \/ ts_key_id env = "") ->
  runs (handle_submit cfg auth_policy payload) tr r -> Forall (favourable env) tr ->
  exists ns n m b t,
    tr = admitted (ts_correlation_id env) (namespaced "submit" (ts_idempotency_key env)) ns n m b ++ t
    /\ runs (submit_effect cfg env (as_u64 n) (namespaced "submit" (ts_idempotency_key env))) t r.
Proof.
  intros Hp Hrole [Hd Hv] Hk Hr HF. unfold handle_submit in Hr. rewrite Hp in Hr.
  apply runs_bind in Hr as [(a & t1 & t2 & -> & (ns & m & b & -> & [= ->])%eval_auth_runs & Hr)|[(? & ? & ? & _ & ?)%eval_auth_runs _]];
    [|done].
  cbn [app] in HF. do 2 (apply Forall_cons in HF as [? HF]).
  match goal with H : favourable env (Ev NowSecs ns) |- _ => cbn in H; unfold auth_passed in H; rewrite H in Hr end.
  unfold submit_admit in Hr. rewrite bool_decide_false in Hr by done.
  cbn [call bind runs] in Hr. destruct Hr as (dup & t3 & -> & Hr). apply Forall_cons in HF as [Hdup HF].
  cbn in Hdup. subst dup. cbn [call bind runs] in Hr. destruct Hr as (now & t4 & -> & Hr).
  apply Forall_cons in HF as [Hage HF]. cbn zeta in Hr. cbn in Hage. rewrite (proj2 (Z.ltb_ge _ _) Hage) in Hr.
  unfold submit_checks in Hr. rewrite Hd, Hv in Hr.
  assert (Hkey : negb (String.eqb (ts_key_id env) "platform_admin") && negb (str_is_empty (ts_key_id env)) = false)
    by (by destruct Hk as [-> | ->]).
  rewrite Hkey in Hr. unfold submit_dedup in Hr. cbn [call bind runs] in Hr. destruct Hr as (cl & t5 & -> & Hr).
  apply Forall_cons in HF as [Hcl HF]. cbn in Hcl. subst cl. by exists ns, now, m, b, t5.
Qed.

(** When a submit succeeds.  If a submit message parses, its role is known, its
    transaction decodes, passes the policy engine and is not one the pipeline
    panics on, and its key id is allowed, then every run in which the environment
    is favourable ends with a success reply that carries the signature under which
    the node accepted a submission of that very run, followed by the
    acknowledgement. *)
Theorem favourable_submit_succeeds payload env tx tr r :
  parse_submit payload = Ok env -> role_of (ts_service_identity env) <> Unknown ->
  authorised (ts_serialized_tx env) (ts_service_identity env) tx -> panics_on cfg tx = false ->
  (ts_key_id env = "platform_admin" \/ ts_key_id env = "") ->
  runs (handle_submit cfg auth_policy payload) tr r -> Forall (favourable env) tr ->
  r = Done tt /\ exists sig sent t y a,
    tr = t ++ reply_events (ts_reply_subject env)
               (ReplySubmit (mkTxResult (ts_correlation_id env) true (Some (signature_to_string sig)) None 0 false)) y
           ++ [Ev (AckMsg Ack) a]
    /\ Ev (SendTx sent) (Ok sig) ∈ t.
Proof.
  intros Hp Hrole Ha Hn Hk Hr HF.
  destruct (favourable_admitted payload env tx tr r Hp Hrole Ha Hk Hr HF) as (ns & now & m & b & t & -> & He).
  apply Forall_app in HF as [_ HF]. apply submit_effect_inv in He as (t0 & [[Hab ->]|(res & y & a & Hrun & -> & ->)]).
  { pose proof (under_runs _ _ _ _ _ (favourable_retry env tx _ _ _ _ (ts_correlation_id env) Ha Hk Hn) Hab HF). naive_solver. }
  apply Forall_app in HF as [HF _].
  destruct (under_runs _ _ _ _ _ (favourable_retry env tx _ _ _ _ (ts_correlation_id env) Ha Hk Hn) Hrun HF) as [sig [= ->]].
  split; [done|].
  destruct (obeys_runs _ _ _ _ _ _ (retry_sends _ _ _ _ _ _) Hrun) as ([n' o'] & Hm & Hend).
  cbn in Hend. assert (o' = Some sig) as -> by naive_solver.
  destruct (sends_accepted_in _ _ _ _ Hm) as [sent Hin].
  exists sig, sent. eexists (admitted _ _ _ _ _ _ ++ t0 ++ record_events _ _ _ _ ++ [Ev (Metric _ _) tt]), y, a.
  unfold effect_tail. cbn [submit_reply]. split; [rewrite <- !app_assoc; reflexivity|].
  rewrite !elem_of_app. auto.
Qed.

End liveness.

(** ** Examples *)

Section examples.
#[local] Existing Instances toy_sdk toy_core toy_x509 toy_b64.
#[local] Existing Instance consumer_serde.
#[local] Existing Instances toy_tokio toy_headers.

Definition demo_tr : list (event bans) :=
  fst (fst (demo_handle (handle_submit demo_cfg demo_policy [x01]) bridge_new)).

Lemma favourable_submit_succeeds_witness :
  exists sig sent t y a,
    demo_tr = t ++ reply_events "replies" (ReplySubmit (mkTxResult "c1" true (Some (signature_to_string sig)) None 0 false)) y
                ++ [Ev (AckMsg Ack) a]
    /\ Ev (SendTx sent) (Ok sig) ∈ t.
Proof.
  refine (proj2 (favourable_submit_succeeds demo_cfg demo_policy [x01] (demo_submit "c1" "k1") toy_tx demo_tr
    (snd (fst (demo_handle (handle_submit demo_cfg demo_policy [x01]) bridge_new))) _ _ _ _ _ _ _)).
  - reflexivity.
  - vm_compute. discriminate.
  - split; vm_compute; reflexivity.
  - vm_compute. reflexivity.
  - left. reflexivity.
  - apply run_trace.
  - assert (E : demo_tr = ltac:(let t := eval vm_compute in demo_tr in exact t)) by (vm_compute; reflexivity).
    rewrite E. repeat (apply Forall_cons; split; [first [exact I|reflexivity|vm_compute; discriminate]|]). apply Forall_nil_2.
Defined.

(** A gRPC request with a transaction without keys, while a submit is in flight. *)
Definition crash_tasks : list task :=
  [ServeRpc (caller "spiffe://gridtokenx/trading") (RpcSubmit [x02] "platform_admin"); Deliver "chain.tx.submit" [x01]].

Definition crash :=
  aschedule (with_env (fixed_env (node 2000))) (replicate 12 1%nat ++ replicate 20 0%nat ++ replicate 20 1%nat) (bridge_new, tt)
    (task_prog demo_cfg demo_policy (fun _ => Unknown) <$> crash_tasks).

(** The request takes the submit down with it: the node has accepted its
    transaction, and its message stays unacknowledged. *)
Lemma process_stops_witness :
  aborted (snd crash) = true
  /\ (exists i t, crash_tasks !! i = Some t /\ poison demo_cfg (fun _ => Unknown) t)
  /\ existsb (fun e => match e with Ev (SendTx _) (Ok _) => true | _ => false end) (thread_trace 1 (fst (fst crash))) = true
  /\ Forall no_ack (thread_trace 1 (fst (fst crash))).
Proof.
  assert (Hab : aborted (snd crash) = true) by (vm_compute; reflexivity).
  assert (Hret : match snd crash !! 1%nat with Some (Ret _) => false | _ => true end = true) by (vm_compute; reflexivity).
  destruct (process_stops (RL := toy_rbac) demo_cfg demo_policy (fun _ => Unknown) bridge_new crash_tasks
    (fst (fst crash)) (fst (snd (fst crash))) (snd crash)) as [[Hall _]|[(i & t & Hi & _ & Hp & _) Hd]].
  - exact (aschedule_bridge (fixed_env (node 2000)) (replicate 12 1%nat ++ replicate 20 0%nat ++ replicate 20 1%nat)
             bridge_new tt (task_prog demo_cfg demo_policy (fun _ => Unknown) <$> crash_tasks)).
  - intros l c. exact (aborted_still _ _ _ _ _ Hab).
  - apply aborted_elem in Hab as [i Hi]. rewrite Forall_lookup in Hall. discriminate (Hall i Panic Hi).
  - split; [exact Hab|]. split; [exists i, t; split; assumption|]. split; [vm_compute; reflexivity|].
    destruct (Hd 1%nat "chain.tx.submit" [x01] eq_refl) as [[_ Hr]|Hn]; [rewrite Hr in Hret; discriminate Hret|exact Hn].
Defined.

End examples.
