(* ===== verification/AuditTrail.v ===== *)
(** * What the tasks write to the audit trail

    Every entry a delivery or a request hands to the audit port is about itself:
    it carries the correlation id and the identity of the message or request, and
    it says that a transaction was submitted only when the node has just accepted
    one under that signature.  The converse, that every accepted submission gets
    its entry, is in [Execution]. *)

From S2P Require Import Prelude RustStd Effects Domain External BridgeOps Fixtures Identity Signing SigningSpec Consumer ConsumerSpec Refresh Grpc ConsumerProps Concurrency.
From Stdlib Require String.
Import String.StringSyntax.

Local Open Scope Z_scope.

Section trail.
Context {J : SerdeJson} {K : SolanaSdk} {C : BlockchainCore} {X : X509} {B : Base64} {R : TokioRetry}.
Context (cfg : Config) (auth_policy : NatsAuthPolicy).
Context {HT : HttpHeaders} (from_headers : gmap string (list HeaderValue) -> ServiceRole).

(** ** Whom a task speaks for *)

(** The correlation id and the identity in the payload of a message. *)
Definition delivery_origin (subject : string) (payload : bytes) : string * string :=
  if String.eqb subject "chain.tx.submit" then
    match parse_submit payload with
    | Ok env => (ts_correlation_id env, ts_service_identity env)
    | Err _ => ("", "")
    end
  else if String.eqb subject "chain.tx.cancel" then
    match parse_cancel payload with
    | Ok env => (tc_correlation_id env, tc_service_identity env)
    | Err _ => ("", "")
    end
  else if String.eqb subject "chain.tx.status" then
    match parse_status payload with
    | Ok env => (tq_correlation_id env, tq_service_identity env)
    | Err _ => ("", "")
    end
  else
    match parse_mint payload with
    | Ok env => (me_correlation_id env, me_service_identity env)
    | Err _ => ("", "")
    end.

(** A gRPC request has no correlation id; background tasks have neither. *)
Definition origin (t : task) : string * string :=
  match t with
  | Deliver subject payload => delivery_origin subject payload
  | ServeRpc headers _ => ("", request_identity headers)
  | Cleanup _ _ | RefreshBlockhash _ => ("", "")
  end.

(** ** The monitor *)

Definition attributed (who : string * string) (a : AuditEntry) : Prop :=
  (correlation_id a, identity a) = who /\ 0 <= created_at_ms a < u64_mod.

(** What the outcome of an entry claims, given the signatures accepted so far. *)
Definition outcome_true (accepted : list string) (o : AuditOutcome) : Prop :=
  match o with
  | Submitted sig _ => sig ∈ accepted
  | Rejected _ _ => True
  end.

#[local] Instance outcome_true_dec accepted o : Decision (outcome_true accepted o).
Proof. destruct o; unfold outcome_true; apply _. Defined.

(** Remembers the accepted signatures and checks every entry. *)
Definition ledger_step (who : string * string) (m : list string) (e : event bans) : option (list string) :=
  match e with
  | Ev (SendTx _) (Ok sig) => Some (signature_to_string sig :: m)
  | Ev (AuditAppend a) _ => if bool_decide (attributed who a /\ outcome_true m (audit_outcome a)) then Some m else None
  | _ => Some m
  end.

(** Events that neither submit nor claim a submission. *)
Definition calm (who : string * string) (e : event bans) : Prop :=
  match ev_op e with
  | SendTx _ => False
  | AuditAppend a => attributed who a /\ exists stage reason, audit_outcome a = Rejected stage reason
  | _ => True
  end.

Lemma calm_ledger {A : Type} who m (p : prog bans A) F :
  always (calm who) p F -> obeys (ledger_step who) m p (fun _ => F).
Proof.
  intros Hp. eapply obeys_mono; [eapply (always_obeys _ (fun m' => m' = m)); [|done|exact Hp]|by intros ? ? []].
  intros m' [o x] -> He. exists m. split; [|done]. destruct o; try done. destruct He as (Ha & st & re & Ho).
  cbn. by rewrite bool_decide_true by (rewrite Ho; done).
Qed.

Lemma stamped n : 0 <= as_u64 n < u64_mod.
Proof. apply Z.mod_pos_bound. unfold u64_mod. lia. Qed.

Section pieces.
Context (corr ident : string).

Lemma record_calm act stage reason :
  always (calm (corr, ident)) (record_audit corr ident act (Rejected stage reason)) (fun r => r = Done tt).
Proof. apply record_audit_always; [done| |done]. intros ms x. split; [split; [done|apply stamped]|]. cbn. eauto. Qed.

Lemma publish_calm subject rep kind : always (calm (corr, ident)) (do! publish_reply subject rep ;; ack_msg kind) (fun _ => True).
Proof. eapply always_bind; [by apply publish_reply_always| |done]. intros [] _. by cbn. Qed.

Lemma rejection_calm act stage reason subject rep kind :
  always (calm (corr, ident)) (do! audit_rejection corr ident act stage reason ;; do! publish_reply subject rep ;; ack_msg kind)
    (fun _ => True).
Proof. eapply always_bind; [apply record_calm| |done]. intros [] _. apply publish_calm. Qed.

Lemma finish_calm name b subject rep kind :
  always (calm (corr, ident)) (do! metric name b ;; do! publish_reply subject rep ;; ack_msg kind) (fun _ => True).
Proof. cbn [metric call bind always]. intros []. split; [done|]. apply publish_calm. Qed.

(** Envelope authentication in front of a handler. *)
Lemma auth_ledger m auth claimed canonical force (accept : prog bans unit) (reject : string -> prog bans unit) :
  (forall m', obeys (ledger_step (corr, ident)) m' accept (fun _ _ => True)) ->
  (forall reason, always (calm (corr, ident)) (reject reason) (fun _ => True)) ->
  obeys (ledger_step (corr, ident)) m
    (auth <~ evaluate_envelope_auth auth_policy auth claimed canonical force ;;
     match auth with
     | Err reason => do! metric "nats_auth_rejected" false ;; reject reason
     | Ok _ => accept
     end) (fun _ _ => True).
Proof.
  intros Ha Hj. eapply (obeys_bind _ _ _ _ (fun _ _ => True)); [| |done].
  - apply calm_ledger. unfold evaluate_envelope_auth. cbn. intros x. split; [done|].
    by destruct (check_envelope_auth _ _ _ _ _).
  - intros m' [u|reason] _; [apply Ha|]. apply calm_ledger. cbn [metric call bind always]. intros []. by split.
Qed.

(** The pipeline. *)
Lemma send_and_audit_ledger m tx : obeys (ledger_step (corr, ident)) m (send_and_audit tx ident corr) (fun _ _ => True).
Proof.
  cbn. intros [sig|e]; cbn; intros n y; rewrite bool_decide_true; try done;
    (split; [split; [done|apply stamped]|cbn; try done]). by left.
Qed.

Lemma presign_calm tx : always (calm (corr, ident)) (presign cfg tx ident corr) (fun r => r <> Aborted).
Proof.
  unfold presign. destruct (env_flag _ _); [done|]. cbn. intros x. split; [done|].
  destruct x as [sim|e]; [destruct (sim_err sim)|]; try done.
  cbn. intros n. split; [done|]. intros y. split; [|done]. split; [split; [done|apply stamped]|]. cbn. eauto.
Qed.

Lemma platform_admin_calm tx : always (calm (corr, ident)) (sign_platform_admin cfg tx ident corr) (fun _ => True).
Proof.
  unfold sign_platform_admin. eapply (always_bind _ _ _ (fun _ => True)); [|intros [tx'|e] _; [|done]|done].
  { eapply (always_mono (calm (corr, ident))); [by apply fill_blockhash_always|done|done]. }
  eapply (always_bind _ _ _ (fun _ => True)); [|intros [u|e] _; [|done]|done].
  { eapply always_mono; [apply presign_calm|done|done]. }
  eapply (always_bind _ _ _ (fun _ => True)); [rewrite log_signers_eq; by destruct (_ : bool)|intros [] _|done].
  cbn. intros [sig|e]; (split; [done|]); [|done].
  eapply (always_bind _ _ _ (fun _ => True)); [|done|done].
  destruct (attach_signature_cases sig tx') as [(-> & _)|(rest & -> & _)]; done.
Qed.

Lemma sign_and_submit_ledger m ser key :
  obeys (ledger_step (corr, ident)) m (sign_and_submit cfg ser key ident corr) (fun _ _ => True).
Proof.
  unfold sign_and_submit. destruct (deserialize_tx ser) as [tx|e]; [|done].
  assert (Hfail : forall st re s, obeys (ledger_step (corr, ident)) m
    (do! record_audit corr ident "sign_and_submit" (Rejected st re) ;; Ret (Err s : result (Signature * Z) SignSubmitStage))
    (fun _ _ => True)).
  { intros st re s. apply calm_ledger. by eapply always_bind; [apply record_calm|..]. }
  destruct (validate_transaction ident tx); [|apply Hfail].
  destruct (String.eqb key "platform_admin").
  - eapply (obeys_bind _ _ _ _ (fun _ _ => True)); [apply calm_ledger, platform_admin_calm| |done].
    intros m' [sent|e] _; [apply send_and_audit_ledger|done].
  - destruct (str_is_empty key); [apply send_and_audit_ledger|apply Hfail].
Qed.

End pieces.

(** ** The handlers *)

Lemma submit_effect_ledger m env now key :
  obeys (ledger_step (ts_correlation_id env, ts_service_identity env)) m (submit_effect cfg env now key) (fun _ _ => True).
Proof.
  unfold submit_effect. eapply (obeys_bind _ _ _ _ (fun _ _ => True)); [| |done].
  - apply (retry_obeys _ (fun _ _ => True)); [done| |done]. intros n m' _.
    eapply obeys_mono; [apply sign_and_submit_ledger|]. by intros ? [[]|].
  - intros m' res _. apply calm_ledger. eapply (always_bind _ _ _ (fun _ => True)); [|intros; apply finish_calm|done].
    destruct res as [[sig slot]|e], key; cbn; repeat (intros []; split; [done|]); done.
Qed.

Lemma handle_submit_ledger m payload :
  obeys (ledger_step (delivery_origin "chain.tx.submit" payload)) m (handle_submit cfg auth_policy payload) (fun _ _ => True).
Proof.
  unfold handle_submit, delivery_origin. cbn [String.eqb Ascii.eqb Bool.eqb].
  destruct (parse_submit payload) as [env|e]; [|by cbn].
  assert (Hrej : forall st re err kind, always (calm (ts_correlation_id env, ts_service_identity env))
    (submit_reject env (Some (st, re)) err kind) (fun _ => True)) by (intros; apply rejection_calm).
  apply auth_ledger; [|intros; apply Hrej]. intros m'. unfold submit_admit.
  case_bool_decide; [by apply calm_ledger|]. cbn [call bind obeys ledger_step]. intros []; [by cbn|].
  cbn [call bind obeys ledger_step]. intros now. cbn zeta. destruct (55000 <? _).
  { cbn [metric bind call obeys ledger_step]. intros []. by apply calm_ledger. }
  unfold submit_checks. destruct (deserialize_tx _); [|apply calm_ledger, publish_calm].
  destruct (validate_transaction _ _); [|by apply calm_ledger]. destruct (_ && _); [by apply calm_ledger|].
  unfold submit_dedup. cbn [call bind obeys ledger_step]. intros [rm|]; [apply calm_ledger, finish_calm|apply submit_effect_ledger].
Qed.

Lemma mint_effect_ledger m env now key :
  obeys (ledger_step (me_correlation_id env, me_service_identity env)) m (mint_effect cfg env now key) (fun _ _ => True).
Proof.
  unfold mint_effect. eapply (obeys_bind _ _ _ _ (fun _ _ => True)); [| |done].
  - unfold build_and_submit_generation_mint.
    destruct (energy_kwh_to_base_units _); [|done]. destruct (pubkey_from_str _); [|done].
    cbn [call bind obeys ledger_step]. intros [payer|e]; [|done].
    destruct (build_generation_mint_instructions _ _ _ _ _ _); [|done]. cbn zeta.
    destruct (serialize_tx _) as [ser|e]; [|done].
    eapply (obeys_bind _ _ _ _ (fun _ _ => True)); [apply sign_and_submit_ledger| |done].
    intros m' [[sig sl]|e] _; [|done].
    eapply (obeys_bind _ _ _ _ (fun _ _ => True)); [|by intros m2 [] _|done].
    apply calm_ledger. eapply (always_mono (calm _)); [by apply confirmation_always|done|done].
  - intros m' res _. apply calm_ledger. eapply (always_bind _ _ _ (fun _ => True)); [|intros; apply finish_calm|done].
    destruct res as [[sig slot]|e], key; cbn; repeat (intros []; split; [done|]); done.
Qed.

Lemma handle_mint_ledger m payload :
  obeys (ledger_step (delivery_origin "chain.tx.mint" payload)) m (handle_mint cfg auth_policy payload) (fun _ _ => True).
Proof.
  unfold handle_mint, delivery_origin. cbn [String.eqb Ascii.eqb Bool.eqb].
  destruct (parse_mint payload) as [env|e]; [|by cbn].
  assert (Hrej : forall st re err kind, always (calm (me_correlation_id env, me_service_identity env))
    (mint_reject env st re err kind) (fun _ => True)) by (intros; apply rejection_calm).
  apply auth_ledger; [|intros; apply Hrej]. intros m'. unfold mint_admit.
  destruct (is_err _); [by apply calm_ledger|]. cbn [call bind obeys ledger_step]. intros []; [by cbn|].
  cbn [call bind obeys ledger_step]. intros now. cbn zeta. destruct (55000 <? _).
  { cbn [metric bind call obeys ledger_step]. intros []. by apply calm_ledger. }
  unfold mint_dedup. cbn [call bind obeys ledger_step]. intros [rm|]; [apply calm_ledger, finish_calm|apply mint_effect_ledger].
Qed.

Lemma handle_cancel_ledger m payload :
  obeys (ledger_step (delivery_origin "chain.tx.cancel" payload)) m (handle_cancel auth_policy payload) (fun _ _ => True).
Proof.
  unfold handle_cancel, delivery_origin. cbn [String.eqb Ascii.eqb Bool.eqb].
  destruct (parse_cancel payload) as [env|e]; [|by cbn].
  assert (Hrej : forall st re err kind, always (calm (tc_correlation_id env, tc_service_identity env))
    (cancel_reject env st re err kind) (fun _ => True)) by (intros; apply rejection_calm).
  apply auth_ledger; [|intros; apply Hrej]. intros m'. unfold cancel_admit.
  case_bool_decide; [by apply calm_ledger|]. cbn [call bind obeys ledger_step]. intros []; [by cbn|].
  cbn [call bind obeys ledger_step]. intros now. cbn zeta. destruct (55000 <? _); [by apply calm_ledger|].
  cbn [call bind obeys ledger_step]. do 2 intros []. apply calm_ledger, finish_calm.
Qed.

Lemma handle_status_ledger m payload :
  obeys (ledger_step (delivery_origin "chain.tx.status" payload)) m (handle_status auth_policy payload) (fun _ _ => True).
Proof.
  unfold handle_status, delivery_origin. cbn [String.eqb Ascii.eqb Bool.eqb].
  destruct (parse_status payload) as [env|e]; [|by cbn].
  assert (Hrej : forall st re err, always (calm (tq_correlation_id env, tq_service_identity env))
    (status_reject env st re err) (fun _ => True)) by (intros; apply rejection_calm).
  apply auth_ledger; [|intros; apply Hrej]. intros m'. unfold status_query.
  destruct (is_err _); [by apply calm_ledger|]. apply calm_ledger.
  eapply (always_bind _ _ _ (fun _ => True)); [|intros; apply publish_calm|done].
  unfold signature_status. by destruct (signature_from_str _).
Qed.

Lemma task_ledger t m : obeys (ledger_step (origin t)) m (task_prog cfg auth_policy from_headers t) (fun _ _ => True).
Proof.
  destruct t as [subject payload|n snap|headers q|rounds]; cbn [origin task_prog].
  - unfold dispatch. destruct (String.eqb_spec subject "chain.tx.submit") as [->|]; [apply handle_submit_ledger|].
    destruct (String.eqb_spec subject "chain.tx.cancel") as [->|]; [apply handle_cancel_ledger|].
    destruct (String.eqb_spec subject "chain.tx.mint") as [->|]; [apply handle_mint_ledger|].
    destruct (String.eqb_spec subject "chain.tx.status") as [->|]; [apply handle_status_ledger|by cbn].
  - apply calm_ledger. eapply (always_bind _ _ _ (fun _ => True)); [by apply cleanup_rule|done|done].
  - eapply (obeys_bind _ _ _ _ (fun _ _ => True)); [|done|done]. destruct q.
    { unfold serve, erased, submit_transaction, require_role.
      eapply (obeys_bind _ _ _ _ (fun _ _ => True)); [|done|done].
      destruct (require_any _ _); [|done]. eapply (obeys_bind _ _ _ _ (fun _ _ => True)); [apply sign_and_submit_ledger|done|done]. }
    all: apply calm_ledger, serve_rule; [done|by intros [] ?].
  - apply calm_ledger. eapply (always_mono (calm _)); [by apply refresh_rule|done|done].
Qed.

(** ** The claim *)

(** The signatures a trace of one thread shows as accepted. *)
Definition accepted_signatures (tr : list (event bans)) : list string :=
  omap (fun e : event bans => match e with Ev (SendTx _) (Ok sig) => Some (signature_to_string sig) | _ => None end) tr.

Lemma ledger_entry who m tr m' t1 a x t2 :
  monitor (ledger_step who) m tr = Some m' -> tr = t1 ++ Ev (AuditAppend a) x :: t2 ->
  attributed who a /\ outcome_true (accepted_signatures t1 ++ m) (audit_outcome a).
Proof.
  intros Hm ->. revert m Hm. induction t1 as [|[o y] t1 IH]; intros m; cbn [app monitor].
  - cbn [ledger_step]. case_bool_decide as H; [done|done].
  - destruct (ledger_step who m (Ev o y)) as [m1|] eqn:E; [|done]. intros [Ha Ho]%IH. split; [done|].
    destruct (audit_outcome a) as [sig slot|]; [|done]. cbn [outcome_true] in *.
    assert (Hsame : accepted_signatures (Ev o y :: t1) = accepted_signatures [Ev o y] ++ accepted_signatures t1).
    { unfold accepted_signatures. cbn. destruct o; try done. by destruct y. }
    rewrite Hsame, <- app_assoc. rewrite elem_of_app in Ho. rewrite !elem_of_app.
    destruct o; cbn in E; simplify_eq; try (cbn; tauto).
    + destruct y; simplify_eq; cbn; rewrite ?elem_of_cons in *; set_solver.
    + case_bool_decide; simplify_eq. cbn. tauto.
Qed.

Lemma entry_true {S : Type} (sem : S -> forall o : bop, bans o -> S -> Prop) (tasks : list task) s tr s' ps' i t t1 a x t2 :
  pexec sem (s, task_prog cfg auth_policy from_headers <$> tasks) tr (s', ps') -> tasks !! i = Some t ->
  thread_trace i tr = t1 ++ Ev (AuditAppend a) x :: t2 ->
  attributed (origin t) a /\ outcome_true (accepted_signatures t1) (audit_outcome a).
Proof.
  intros Hx Hi Ht.
  destruct (pexec_reaches _ _ _ _ _ _ i (task_prog cfg auth_policy from_headers t) Hx) as (q & _ & Hr);
    [by rewrite list_lookup_fmap, Hi|].
  destruct (obeys_reaches _ _ _ _ _ _ (task_ledger t []) Hr) as (m & Hm & _).
  destruct (ledger_entry _ _ _ _ _ _ _ _ Hm Ht) as [Ha Ho]. by rewrite app_nil_r in Ho.
Qed.

(** C24: the trail tells the truth.  In every interleaving of deliveries, gRPC
    requests and background tasks, whatever the environment answers, an entry that
    a task hands to the audit port carries the correlation id and the identity of
    that task's own message or request; and if it says that a transaction was
    submitted under a signature, then the same task had before that asked the node
    to accept a transaction, and the node had accepted it under that signature. *)
Theorem audit_entries_true (tasks : list task) s tr s' ps' i t t1 a x t2 :
  pexec bridge_sem (s, task_prog cfg auth_policy from_headers <$> tasks) tr (s', ps') -> tasks !! i = Some t ->
  thread_trace i tr = t1 ++ Ev (AuditAppend a) x :: t2 ->
  (correlation_id a, identity a) = origin t
  /\ forall text slot, audit_outcome a = Submitted text slot ->
       exists sent sig, Ev (SendTx sent) (Ok sig) ∈ t1 /\ text = signature_to_string sig.
Proof.
  intros Hx Hi Ht. destruct (entry_true bridge_sem tasks s tr s' ps' i t t1 a x t2 Hx Hi Ht) as [[Hw _] Ho].
  split; [done|]. intros text slot E. rewrite E in Ho. cbn in Ho.
  apply list_elem_of_omap in Ho as ([o y] & Hin & Hs). destruct o; try done. destruct y as [sig|]; [|done].
  injection Hs as <-. eauto.
Qed.

End trail.

(** ** Examples *)

Section examples.
#[local] Existing Instances toy_sdk toy_core toy_x509 toy_b64.
#[local] Existing Instance consumer_serde.
#[local] Existing Instances toy_tokio toy_headers.

(** The first of the interleaved deliveries, and the entry it writes. *)
Definition first_thread : list (event bans) := thread_trace 0 (fst (fst demo_interleaving)).

Definition first_entry : AuditEntry :=
  audit_entry_new "c1" demo_ident "sign_and_submit" (Submitted (signature_to_string (sig_of_byte x09)) 0) 2000.

Lemma audit_entries_true_witness :
  exists x, first_thread = take 10 first_thread ++ Ev (AuditAppend first_entry) x :: drop 11 first_thread
    /\ (correlation_id first_entry, identity first_entry) = ("c1", demo_ident)
    /\ exists sent sig, Ev (SendTx sent) (Ok sig) ∈ take 10 first_thread
         /\ signature_to_string (sig_of_byte x09) = signature_to_string sig.
Proof.
  assert (E : exists x, first_thread = take 10 first_thread ++ Ev (AuditAppend first_entry) x :: drop 11 first_thread)
    by (eexists; vm_compute; reflexivity).
  destruct E as [x E]. exists x.
  destruct (audit_entries_true demo_cfg demo_policy unlisted demo_tasks bridge_new (fst (fst demo_interleaving))
    (fst (snd (fst demo_interleaving))) (snd demo_interleaving) 0 (Deliver "chain.tx.submit" [x01])
    (take 10 first_thread) first_entry x (drop 11 first_thread)) as [Hw Ho].
  - apply schedule_bridge.
  - reflexivity.
  - exact E.
  - split; [exact E|]. split; [vm_compute; reflexivity|]. exact (Ho _ 0 eq_refl).
Defined.

End examples.
