(* ===== verification/Execution.v ===== *)
(** * Whole executions over an audit store

    A pool of deliveries, gRPC requests and background tasks with the audit port
    connected: [AuditAppend] is answered by an audit store, and the trail an
    execution leaves is the hash chain of exactly the entries it appended. *)

From S2P Require Import Prelude RustStd Effects Domain External BridgeOps Fixtures AuditStore Identity Signing SigningSpec Consumer ConsumerSpec Refresh Grpc ConsumerProps Concurrency AuditTrail.
From Stdlib Require String.
Import String.StringSyntax.

Local Open Scope Z_scope.

(** ** The audit port, connected *)

Section trail.
Context {J : SerdeJson} {K : SolanaSdk} {C : BlockchainCore} {X : X509} {B : Base64} {R : TokioRetry}.
Context `{AuditHashing} {St : Type} {port : AuditPort St} {laws : AuditPortLaws St}.
Context (cfg : Config) (auth_policy : NatsAuthPolicy).
Context {HT : HttpHeaders} (from_headers : gmap string (list HeaderValue) -> ServiceRole).

(** The bridge's state beside an audit store that answers the appends. *)
Definition audited_sem (s : bridge_state * St) (o : bop) : bans o -> bridge_state * St -> Prop :=
  match o with
  | AuditAppend e => fun x s' =>
      x = map_err Errors.display (fst (audit_append e (snd s))) /\ s' = (fst s, snd (audit_append e (snd s)))
  | o => fun x s' => bridge_sem (fst s) o x (fst s') /\ snd s' = snd s
  end.

(** The entries whose append succeeded, in the order of the execution. *)
Definition recorded (tr : list (nat * event bans)) : list AuditEntry :=
  omap (fun l : nat * event bans => match snd l with Ev (AuditAppend e) (Ok _) => Some e | _ => None end) tr.

Lemma audited_bridge s o x s' : audited_sem s o x s' -> bridge_sem (fst s) o x (fst s').
Proof.
  destruct o; cbn [audited_sem]; try (by intros [Hs _]). by intros [_ ->].
Qed.

Lemma audited_pexec (ps ps' : list (prog bans unit)) s tr s' :
  pexec audited_sem (s, ps) tr (s', ps') -> pexec bridge_sem (fst s, ps) tr (fst s', ps').
Proof.
  intros Hx. remember (s, ps) as c eqn:Hc. remember (s', ps') as c' eqn:Hc'. revert s ps Hc.
  induction Hx as [c|s0 ps0 i o k x s1 tr c Hi Hsem _ IH]; intros s ps Hc; simplify_eq; [constructor|].
  econstructor; [done|by apply audited_bridge|]. by apply IH.
Qed.

Lemma recorded_cons i o x tr :
  recorded ((i, Ev o x) :: tr) = recorded [(i, Ev o x)] ++ recorded tr.
Proof. unfold recorded. cbn. destruct o; try done. by destruct x. Qed.

Lemma audited_tip s o x s' prev i :
  audited_sem s o x s' -> audit_latest_hash (snd s) = Ok prev ->
  audit_latest_hash (snd s') = Ok (chain_tip prev (recorded [(i, Ev o x)])).
Proof.
  destruct o; cbn; try (by intros [_ ->]). intros [-> ->]. cbn.
  destruct (audit_append e (snd s)) as [[id|err] st] eqn:Ha; cbn; intros Hp.
  - apply append_links in Ha as (prev' & Hp' & Ht). rewrite Hp in Hp'. injection Hp' as <-. exact Ht.
  - apply append_error_keeps in Ha. by rewrite Ha.
Qed.

(** Against the port's promise alone: the tip is the chain of what was recorded. *)
Lemma execution_tip (ps ps' : list (prog bans unit)) s tr s' prev :
  pexec audited_sem (s, ps) tr (s', ps') -> audit_latest_hash (snd s) = Ok prev ->
  audit_latest_hash (snd s') = Ok (chain_tip prev (recorded tr)).
Proof.
  intros Hx. remember (s, ps) as c eqn:Hc. remember (s', ps') as c' eqn:Hc'. revert s ps prev Hc.
  induction Hx as [c|s0 ps0 i o k x s1 tr c Hi Hsem _ IH]; intros s ps prev Hc Hp; simplify_eq; [done|].
  rewrite recorded_cons. unfold chain_tip. rewrite foldl_app.
  eapply IH; [done|done|]. by eapply audited_tip.
Qed.

(** The recorded entries carry [u64] timestamps. *)
Lemma recorded_stamped s (tasks : list task) tr s' ps' :
  pexec audited_sem (s, task_prog cfg auth_policy from_headers <$> tasks) tr (s', ps') ->
  Forall (fun e => is_u64 (created_at_ms e)) (recorded tr).
Proof.
  intros Hx. apply Forall_forall. intros a ([i [o x]] & Hin & Ho)%list_elem_of_omap.
  destruct o; try done. cbn in Ho. destruct x; simplify_eq.
  destruct (pexec_thread _ _ _ _ _ _ _ _ Hx Hin) as [p Hp]. rewrite list_lookup_fmap in Hp.
  destruct (tasks !! i) as [t|] eqn:Hi; [|done].
  apply thread_trace_elem, list_elem_of_split in Hin as (t1 & t2 & Ht).
  by destruct (entry_true cfg auth_policy from_headers _ _ _ _ _ _ _ _ _ _ _ _ Hx Hi Ht) as [[_ ?] _].
Qed.

End trail.

Section trail_claims.
Context {J : SerdeJson} {K : SolanaSdk} {C : BlockchainCore} {X : X509} {B : Base64} {R : TokioRetry}.
Context `{AuditHashing}.
Context (cfg : Config) (auth_policy : NatsAuthPolicy).
Context {HT : HttpHeaders} (from_headers : gmap string (list HeaderValue) -> ServiceRole).

(** C17: tamper evidence of whole executions.  Take any two executions of the
    bridge's tasks, each appending to an audit store of any kind that links a
    successful append to its tip, keeps its tip on a failed one, and was empty at
    the start.  If they recorded the same number of entries and end with the same
    tip hash, then they recorded the same trail (entry by entry the same hashed
    fields and timestamp); or else, at one and the same position of the two trails,
    the byte strings whose SHA-256 the code computed there differ and have the same
    digest. *)
Theorem executions_tamper_evident
    {St1 St2 : Type} {port1 : AuditPort St1} {port2 : AuditPort St2}
    {laws1 : AuditPortLaws St1} {laws2 : AuditPortLaws St2}
    (tasks1 tasks2 : list task) s1 s2 (st1 : St1) (st2 : St2) tr1 tr2 s1' s2' ps1 ps2 :
  audit_latest_hash st1 = Ok None -> audit_latest_hash st2 = Ok None ->
  pexec audited_sem ((s1, st1), task_prog cfg auth_policy from_headers <$> tasks1) tr1 (s1', ps1) ->
  pexec audited_sem ((s2, st2), task_prog cfg auth_policy from_headers <$> tasks2) tr2 (s2', ps2) ->
  length (recorded tr1) = length (recorded tr2) ->
  audit_latest_hash (snd s1') = audit_latest_hash (snd s2') ->
  collision (recorded tr1) (recorded tr2) \/
  Forall2 (fun e1 e2 => field_string e1 = field_string e2 /\ created_at_ms e1 = created_at_ms e2)
    (recorded tr1) (recorded tr2).
Proof.
  intros He1 He2 Hx1 Hx2 Hlen Htip.
  rewrite (execution_tip _ _ _ _ _ _ Hx1 He1), (execution_tip _ _ _ _ _ _ Hx2 He2) in Htip.
  injection Htip as Htip. apply trail_same_tip; [done|..|done].
  - by eapply (recorded_stamped cfg auth_policy from_headers (s1, st1)).
  - by eapply (recorded_stamped cfg auth_policy from_headers (s2, st2)).
Qed.

(** ** What an accepted submission owes the trail *)

(** Between an accepted submission and its audit entry only the clock is read. *)
Definition debt_step (corr ident : string) (m : option Signature) (e : event bans) : option (option Signature) :=
  match m, e with
  | None, Ev (SendTx _) (Ok sig) => Some (Some sig)
  | None, _ => Some None
  | Some sig, Ev NowMs _ => Some (Some sig)
  | Some sig, Ev (AuditAppend a) _ =>
      if bool_decide (audit_outcome a = Submitted (signature_to_string sig) 0
                      /\ correlation_id a = corr /\ identity a = ident) then Some None else None
  | Some _, _ => None
  end.

Definition no_send (e : event bans) : Prop :=
  match ev_op e with SendTx _ => False | _ => True end.

Lemma debt_no_send {A : Type} corr ident (p : prog bans A) F :
  always no_send p F -> obeys (debt_step corr ident) None p (fun m r => m = None /\ F r).
Proof.
  apply (always_obeys _ (fun m => m = None)); [|done].
  intros m [o x] -> He. destruct o; try done; by eexists.
Qed.

Lemma no_send_debt corr ident tr :
  Forall no_send tr -> monitor (debt_step corr ident) None tr = Some None.
Proof. induction 1 as [|[o x] tr Ho _ IH]; [done|]. by destruct o. Qed.

Lemma send_and_audit_debt tx ident corr :
  obeys (debt_step corr ident) None (send_and_audit tx ident corr) (fun m _ => m = None).
Proof.
  cbn. intros [sig|e]; cbn; [|done]. intros n y. by rewrite bool_decide_true.
Qed.

Lemma sign_and_submit_debt ser key ident corr :
  obeys (debt_step corr ident) None (sign_and_submit cfg ser key ident corr) (fun m _ => m = None).
Proof.
  unfold sign_and_submit. destruct (deserialize_tx ser) as [tx|e]; [|done].
  destruct (validate_transaction ident tx); [|done].
  destruct (String.eqb key "platform_admin").
  - eapply obeys_bind; [eapply debt_no_send, sign_platform_admin_always; done| |by intros m []].
    intros m [sent|e] [-> _]; [apply send_and_audit_debt|done].
  - destruct (str_is_empty key); [apply send_and_audit_debt|done].
Qed.

Lemma retry_debt ds ser key ident corr :
  obeys (debt_step corr ident) None (retry_spawn ds (sign_and_submit cfg ser key ident corr)) (fun m _ => m = None).
Proof.
  apply (retry_obeys _ (fun _ m => m = None)); [by intros ? ? ? ? ->| |done].
  intros n m ->. eapply obeys_mono; [apply sign_and_submit_debt|]. by intros m [[]|] ->.
Qed.

Lemma build_mint_debt wallet kwh meter window ident corr :
  obeys (debt_step corr ident) None (build_and_submit_generation_mint cfg wallet kwh meter window ident corr)
    (fun m _ => m = None).
Proof.
  unfold build_and_submit_generation_mint.
  destruct (energy_kwh_to_base_units kwh); [|done]. destruct (pubkey_from_str wallet); [|done].
  cbn [call bind obeys debt_step]. intros x. destruct x as [payer|e]; [|done].
  destruct (build_generation_mint_instructions _ _ _ _ _ _); [|done]. cbn zeta.
  destruct (serialize_tx _) as [ser|e]; [|done].
  eapply obeys_bind; [apply sign_and_submit_debt| |done]. intros m [[sig sl]|e] ->; [|done].
  eapply obeys_bind; [eapply debt_no_send, confirmation_always; done| |by intros m []].
  intros m c [-> _]. done.
Qed.

Lemma routine_no_send e : routine e -> no_send e.
Proof. by destruct e as [[] x]. Qed.

Lemma effect_rest_debt corr ident {A : Type} (p : prog bans A) (f : A -> prog bans unit) :
  always no_send p (fun _ => True) -> (forall a, always no_send (f a) (fun r => r = Aborted -> True)) ->
  obeys (debt_step corr ident) None (bind p f) (fun m _ => m = None).
Proof.
  intros Hp Hf. eapply obeys_bind; [by eapply debt_no_send| |by intros m []].
  intros m a [-> _]. eapply obeys_mono; [eapply debt_no_send, Hf|]. by intros ? ? [-> _].
Qed.

Lemma submit_effect_debt env now key :
  obeys (debt_step (ts_correlation_id env) (ts_service_identity env)) None (submit_effect cfg env now key)
    (fun m _ => m = None).
Proof.
  unfold submit_effect. eapply obeys_bind; [apply retry_debt| |done]. intros m res ->.
  apply effect_rest_debt; [|intros; apply finish_rule, routine_no_send].
  destruct res as [[sig slot]|e], key; cbn; repeat (intros []; split; [done|]); done.
Qed.

Lemma mint_effect_debt env now key :
  obeys (debt_step (me_correlation_id env) (me_service_identity env)) None (mint_effect cfg env now key)
    (fun m _ => m = None).
Proof.
  unfold mint_effect. eapply obeys_bind; [apply build_mint_debt| |done]. intros m res ->.
  apply effect_rest_debt; [|intros; apply finish_rule, routine_no_send].
  destruct res as [[sig slot]|e], key; cbn; repeat (intros []; split; [done|]); done.
Qed.

Lemma quiet_no_send e : quiet e -> no_send e.
Proof. destruct e as [[] x]; try done. Qed.

Lemma admitted_no_send corr key ns n m b : Forall no_send (admitted corr key ns n m b).
Proof. by repeat constructor. Qed.

Lemma dispatch_debt subject payload tr r :
  runs (dispatch cfg auth_policy subject payload) tr r ->
  monitor (debt_step (fst (delivery_origin subject payload)) (snd (delivery_origin subject payload))) None tr = Some None.
Proof.
  assert (Hrest : forall Q p, always no_send p (fun r => r = Aborted -> Q) -> runs p tr r ->
    monitor (debt_step (fst (delivery_origin subject payload)) (snd (delivery_origin subject payload))) None tr = Some None).
  { intros Q p Hp Hr. by apply no_send_debt, (always_runs _ _ _ _ _ Hp Hr). }
  unfold dispatch. destruct (String.eqb subject "chain.tx.submit") eqn:Es.
  { intros [HF|(env & ns & n & m & b & t & Hp & _ & -> & Hr)]%handle_submit_inv.
    - by apply no_send_debt, (Forall_impl _ _ _ HF), quiet_no_send.
    - unfold delivery_origin. rewrite Es, Hp. cbn [fst snd]. rewrite monitor_app, no_send_debt by apply admitted_no_send.
      by destruct (obeys_runs _ _ _ _ _ _ (submit_effect_debt _ _ _) Hr) as (? & ? & ->). }
  destruct (String.eqb subject "chain.tx.cancel") eqn:Ec; [by apply (Hrest True), handle_cancel_rule; [apply routine_no_send|]|].
  destruct (String.eqb_spec subject "chain.tx.mint") as [->|].
  { intros [HF|(env & ns & n & m & b & t & Hp & _ & -> & Hr)]%handle_mint_inv.
    - by apply no_send_debt, (Forall_impl _ _ _ HF), quiet_no_send.
    - cbn [delivery_origin String.eqb Ascii.eqb Bool.eqb]. rewrite Hp. cbn [fst snd]. rewrite monitor_app, no_send_debt by apply admitted_no_send.
      by destruct (obeys_runs _ _ _ _ _ _ (mint_effect_debt _ _ _) Hr) as (? & ? & ->). }
  destruct (String.eqb subject "chain.tx.status"); [by apply (Hrest True), handle_status_rule; [apply routine_no_send|]|].
  by apply (Hrest True), ack_rule, routine_no_send.
Qed.

Lemma serve_debt headers q :
  obeys (debt_step "" (request_identity headers)) None (serve cfg from_headers headers q) (fun m _ => m = None).
Proof.
  destruct q.
  { unfold serve, erased, submit_transaction, require_role.
    eapply (obeys_bind _ _ _ _ (fun m _ => m = None)); [|by intros m r ->|done].
    destruct (require_any _ _); [|done]. eapply obeys_bind; [apply sign_and_submit_debt|by intros m r ->|done]. }
  all: eapply obeys_mono; [apply (debt_no_send _ _ _ (fun _ => True)), serve_rule; [done|by intros [] ?]|by intros m r [-> _]].
Qed.

Lemma task_debt t tr r :
  runs (task_prog cfg auth_policy from_headers t) tr r ->
  monitor (debt_step (fst (origin t)) (snd (origin t))) None tr = Some None.
Proof.
  assert (Hrest : forall F, always no_send (task_prog cfg auth_policy from_headers t) F ->
    runs (task_prog cfg auth_policy from_headers t) tr r ->
    monitor (debt_step (fst (origin t)) (snd (origin t))) None tr = Some None).
  { intros F Hp Hr. by apply no_send_debt, (always_runs _ _ _ _ _ Hp Hr). }
  destruct t as [subject payload|n snap|headers q|rounds]; cbn [origin fst snd].
  - apply dispatch_debt.
  - apply (Hrest (fun _ => True)). cbn [task_prog].
    eapply (always_bind _ _ _ (fun _ => True)); [by apply cleanup_rule|done|done].
  - cbn [task_prog]. intros [(x & t1 & t2 & -> & H1 & -> & _)|[H1 _]]%runs_bind; rewrite ?app_nil_r;
      by destruct (obeys_runs _ _ _ _ _ _ (serve_debt headers q) H1) as (? & ? & ->).
  - by apply (Hrest (fun r => r <> Aborted)), refresh_rule.
Qed.

(** The entry that pays the debt. *)
Definition pays (corr ident : string) (sig : Signature) (a : AuditEntry) : Prop :=
  audit_outcome a = Submitted (signature_to_string sig) 0 /\ correlation_id a = corr /\ identity a = ident.

Definition accepted_as (e : event bans) : option Signature :=
  match e with Ev (SendTx _) (Ok sig) => Some sig | _ => None end.

Lemma debt_paid corr ident tr sig m :
  monitor (debt_step corr ident) m tr = Some None ->
  m = Some sig \/ (exists tx, Ev (SendTx tx) (Ok sig) ∈ tr) ->
  exists a x, Ev (AuditAppend a) x ∈ tr /\ pays corr ident sig a.
Proof.
  revert m. induction tr as [|[o x] tr IH]; intros m; cbn [monitor].
  { intros [= ->] [?|[tx ?%elem_of_nil]]; done. }
  destruct (debt_step corr ident m (Ev o x)) as [m'|] eqn:Hd; [|done]. intros Hm Hor.
  destruct (decide (m' = Some sig)) as [->|Hne].
  { destruct (IH _ Hm (or_introl eq_refl)) as (a & y & ? & ?). exists a, y. split; [by right|done]. }
  destruct Hor as [->|[tx Hin]].
  - destruct o; cbn in Hd; simplify_eq. case_bool_decide; [|done]. exists e, x. split; [by left|done].
  - apply elem_of_cons in Hin as [Heq|Hin].
    + exfalso. apply Hne. apply (f_equal accepted_as) in Heq. cbn in Heq.
      destruct o; try done. destruct x as [sg|err]; [|done]. cbn in Heq. simplify_eq.
      destruct m; [done|]. cbn in Hd. by simplify_eq.
    + destruct (IH _ Hm) as (a & y & ? & ?); [by right; exists tx|]. exists a, y. split; [by right|done].
Qed.

(** The in-memory store holds what was recorded, after what it held. *)
Lemma in_memory_trail (ps ps' : list (prog bans unit)) s tr s' :
  pexec (audited_sem (St := InMemory.store)) (s, ps) tr (s', ps') ->
  InMemory.entries (snd s') = InMemory.entries (snd s) ++ recorded tr.
Proof.
  intros Hx. remember (s, ps) as c eqn:Hc. remember (s', ps') as c' eqn:Hc'. revert s ps Hc.
  induction Hx as [c|s0 ps0 i o k x s1 tr c Hi Hsem _ IH]; intros s ps Hc; simplify_eq; [by rewrite app_nil_r|].
  rewrite (IH eq_refl _ _ eq_refl), recorded_cons, app_assoc. f_equal.
  destruct o; cbn in Hsem; try (destruct Hsem as [_ ->]; cbn; by rewrite app_nil_r).
  destruct Hsem as [-> ->]. cbn. unfold InMemory.entries. cbn. by rewrite fmap_app.
Qed.

Lemma in_memory_recorded (ps ps' : list (prog bans unit)) s tr s' i a x :
  pexec (audited_sem (St := InMemory.store)) (s, ps) tr (s', ps') -> (i, Ev (AuditAppend a) x) ∈ tr -> a ∈ recorded tr.
Proof.
  intros Hx. remember (s, ps) as c eqn:Hc. remember (s', ps') as c' eqn:Hc'. revert s ps Hc.
  induction Hx as [c|s0 ps0 j o k y s1 tr c Hj Hsem _ IH]; intros s ps Hc; simplify_eq; [by intros ?%elem_of_nil|].
  rewrite recorded_cons. intros [Heq|Hin]%elem_of_cons; apply elem_of_app; [left|right; eauto].
  apply (f_equal (fun l => ev_op (snd l))) in Heq. cbn in Heq. subst o. destruct Hsem as [-> _]. cbn. left.
Qed.

(** C7: an accepted submission is on the trail.  In every interleaving of
    deliveries, gRPC requests and background tasks over one in-memory audit store,
    once a delivery or a request has returned, each submission of it that the node
    accepted has an entry in the store with that signature as its outcome and the
    correlation id and the identity of the message or request. *)
Theorem accepted_submission_audited (tasks : list task) s (st : InMemory.store) tr s' ps' i t sent sig :
  pexec audited_sem ((s, st), task_prog cfg auth_policy from_headers <$> tasks) tr (s', ps') ->
  tasks !! i = Some t -> ps' !! i = Some (Ret tt) ->
  Ev (SendTx sent) (Ok sig) ∈ thread_trace i tr ->
  exists a, a ∈ InMemory.entries (snd s')
    /\ audit_outcome a = Submitted (signature_to_string sig) 0
    /\ (correlation_id a, identity a) = origin t.
Proof.
  intros Hx Hi Hret Hin.
  destruct (pexec_reaches _ _ _ _ _ _ i (task_prog cfg auth_policy from_headers t) Hx) as (q & Hq & Hr);
    [by rewrite list_lookup_fmap, Hi|].
  assert (q = Ret tt) as -> by congruence. destruct (reaches_runs _ _ _ Hr I) as (r & Hrun & _).
  apply task_debt in Hrun.
  destruct (debt_paid _ _ _ sig _ Hrun (or_intror (ex_intro _ sent Hin))) as (a & x & Ha & Ho & Hc & Hid).
  exists a. splits; [|done|by rewrite Hc, Hid; destruct (origin t)].
  rewrite (in_memory_trail _ _ _ _ _ Hx). apply elem_of_app. right.
  eapply in_memory_recorded; [exact Hx|]. unfold thread_trace in Ha.
  apply list_elem_of_fmap in Ha as ([j e] & -> & [Hj ?]%list_elem_of_filter). cbn in Hj. subst j. done.
Qed.

End trail_claims.

(** ** Examples *)

Section examples.
#[local] Existing Instances toy_sdk toy_core toy_x509 toy_b64 toy_hashing.
#[local] Existing Instance consumer_serde.
#[local] Existing Instances toy_tokio toy_headers.

(** The demo environment with an in-memory audit store. *)
Definition audited_env (o : bop) (s : bridge_state * InMemory.store) : bans o * (bridge_state * InMemory.store) :=
  match o with
  | AuditAppend e => let '(r, st) := InMemory.append e (snd s) in (map_err Errors.display r, (fst s, st))
  | o => let '(x, (b, _)) := with_env (fixed_env (node 2000)) o (fst s, tt) in (x, (b, snd s))
  end.

Lemma audited_env_sem o s x s' : audited_env o s = (x, s') -> audited_sem s o x s'.
Proof.
  destruct s as [b st]. destruct o; cbn [audited_env audited_sem]; try (intros [= <- <-]; by split).
  all: destruct (with_env _ _ _) as [y [b' []]] eqn:E; intros [= <- <-]; cbn [fst snd]; split; [|done];
    by eapply with_env_sem.
Qed.

Definition demo_execution :=
  schedule audited_env (alternate 20) (bridge_new, InMemory.new) (task_prog demo_cfg demo_policy unlisted <$> demo_tasks).

Lemma demo_execution_pexec :
  pexec audited_sem ((bridge_new, InMemory.new), task_prog demo_cfg demo_policy unlisted <$> demo_tasks)
    (fst (fst demo_execution)) (snd (fst demo_execution), snd demo_execution).
Proof.
  destruct demo_execution as [[tr s'] ps'] eqn:E. apply schedule_pexec in E. cbn [fst snd].
  eapply pexec_weaken; [|exact E]. intros s o x s1 Hs. by apply audited_env_sem.
Defined.

Lemma accepted_submission_audited_witness :
  exists a, a ∈ InMemory.entries (snd (snd (fst demo_execution)))
    /\ audit_outcome a = Submitted (signature_to_string (sig_of_byte x09)) 0
    /\ (correlation_id a, identity a) = ("c1", demo_ident).
Proof.
  eapply (accepted_submission_audited demo_cfg demo_policy unlisted demo_tasks bridge_new InMemory.new
    (fst (fst demo_execution)) (snd (fst demo_execution)) (snd demo_execution) 0 (Deliver "chain.tx.submit" [x01]) demo_signed).
  - apply demo_execution_pexec.
  - reflexivity.
  - vm_compute. reflexivity.
  - vm_compute. repeat (first [left|right]). 
Defined.

Lemma executions_tamper_evident_witness :
  length (recorded (fst (fst demo_execution))) = 2%nat
  /\ (collision (recorded (fst (fst demo_execution))) (recorded (fst (fst demo_execution)))
      \/ Forall2 (fun e1 e2 => field_string e1 = field_string e2 /\ created_at_ms e1 = created_at_ms e2)
           (recorded (fst (fst demo_execution))) (recorded (fst (fst demo_execution)))).
Proof.
  split; [vm_compute; reflexivity|].
  exact (executions_tamper_evident demo_cfg demo_policy unlisted demo_tasks demo_tasks bridge_new bridge_new
    InMemory.new InMemory.new _ _ _ _ _ _ eq_refl eq_refl
    demo_execution_pexec demo_execution_pexec eq_refl eq_refl).
Defined.

End examples.
