(* ===== verification/PostgresBridge.v ===== *)
(** * The bridge over the PostgreSQL audit store

    [Execution] answers an append at once, as the in-memory store does.  Here each
    [AuditAppend] of every task runs the code of [PostgresAuditStore::append], two
    SQL statements between which any other task may run its own.  Two appends can
    read the same tip, so the rows need not form one chain; what does hold in every
    interleaving is stated and proved below. *)

From S2P Require Import Prelude RustStd Effects Domain External BridgeOps Fixtures AuditStore Identity Signing SigningSpec Consumer ConsumerSpec Refresh Grpc ConsumerProps Concurrency AuditTrail Execution.
From Stdlib Require String.
Import String.StringSyntax.
Import Postgres.

Local Open Scope Z_scope.

(** ** Calls of the bridge and statements of the store *)

Section interface.
Context {J : SerdeJson} `{AuditHashing}.

Inductive pgop : Type :=
| Bridge (o : bop)
| Db (o : db_op).

Definition pgans (o : pgop) : Type :=
  match o with
  | Bridge o => bans o
  | Db o => db_ans o
  end.

Definition db_prog {A : Type} (p : prog db_ans A) : prog pgans A :=
  interp (fun o => call (Ans := pgans) (Db o)) p.

(** The port the service was built with: [Arc<dyn AuditPort>] over Postgres. *)
Definition pg_handler (o : bop) : prog pgans (bans o) :=
  match o with
  | AuditAppend e => r <~ db_prog (Postgres.append e) ;; Ret (map_err Errors.display r)
  | o => call (Ans := pgans) (Bridge o)
  end.

(** Statements act on the table, everything else on the bridge's own state. *)
Definition pg_sem (s : bridge_state * table) (o : pgop) : pgans o -> bridge_state * table -> Prop :=
  match o with
  | Bridge o => fun x s' => bridge_sem (fst s) o x (fst s') /\ snd s' = snd s
  | Db o => fun x s' => db_sem (snd s) o x (snd s') /\ fst s' = fst s
  end.

(** ** The shape of the table *)

(** The row of an entry, column by column: the digest covers the entry and the
    predecessor the row names. *)
Definition row_of (e : AuditEntry) (r : row) : Prop :=
  exists prev json,
    outcome_to_json (audit_outcome e) = Ok json
    /\ r = mkRow (hash_to_vec <$> prev) (hash_to_vec (entry_hash e prev))
              (correlation_id e) (identity e) (action e) json (as_i64 (created_at_ms e))
    /\ (forall h, prev = Some h -> hash_wf h).

(** In the order in which the rows became visible: each is the row of some entry,
    linked to nothing or to a row before it. *)
Fixpoint audit_tree (before : table) (t : table) : Prop :=
  match t with
  | [] => True
  | (id, r) :: t =>
      (exists e, row_of e r)
      /\ (forall v, row_prev_hash r = Some v -> exists x, x ∈ before /\ row_entry_hash (snd x) = v)
      /\ audit_tree (before ++ [(id, r)]) t
  end.

Lemma audit_tree_snoc before t id r :
  audit_tree before (t ++ [(id, r)]) <->
  audit_tree before t /\ (exists e, row_of e r)
  /\ (forall v, row_prev_hash r = Some v -> exists x, x ∈ before ++ t /\ row_entry_hash (snd x) = v).
Proof.
  revert before. induction t as [|[i q] t IH]; intros before; cbn [app audit_tree].
  - rewrite app_nil_r. tauto.
  - rewrite IH, <- app_assoc. cbn [app]. tauto.
Qed.

Lemma audit_tree_hashes before t x : audit_tree before t -> x ∈ t -> length (row_entry_hash (snd x)) = 32%nat.
Proof.
  revert before. induction t as [|[i q] t IH]; intros before; cbn; [by intros _ ?%elem_of_nil|].
  intros ((e & prev & json & _ & -> & _) & _ & Ht) [->|Hin]%elem_of_cons; [|by eapply IH].
  cbn. apply entry_hash_wf.
Qed.

Lemma newest_elem t x : newest t = Some x -> x ∈ t.
Proof.
  revert x. induction t as [|y t IH]; intros x; cbn; [done|]. destruct (newest t) as [z|]; [|intros [= ->]; left].
  destruct (fst z <? fst y); intros [= ->]; [left|right; by apply IH].
Qed.

(** ** What one append does *)

(** The tips a thread has been answered. *)
Definition tips_step (m : list bytes) (e : event pgans) : option (list bytes) :=
  match e with
  | Ev (Db SelectTip) (Ok (Some (Ok v))) => Some (v :: m)
  | Ev (Db (InsertRow r)) _ =>
      match row_prev_hash r with
      | None => Some m
      | Some v => if bool_decide (v ∈ m) then Some m else None
      end
  | _ => Some m
  end.

(** Every inserted row is the row of an entry of [who]. *)
Definition makes_rows (who : string * string) (e : event pgans) : Prop :=
  match e with
  | Ev (Db (InsertRow r)) _ => exists a, row_of a r /\ (correlation_id a, identity a) = who
  | _ => True
  end.

Lemma vec_to_hash_ok v h : vec_to_hash v = Ok h -> hash_to_vec h = v /\ hash_wf h.
Proof.
  unfold vec_to_hash. destruct (Nat.eqb_spec (length v) 32); [|done]. intros [= <-]. done.
Qed.

Lemma append_tips e m : obeys tips_step m (pg_handler (AuditAppend e)) (fun _ _ => True).
Proof.
  cbn. intros x. assert (Hgo : forall prev m',
    (forall h, prev = Some h -> hash_to_vec h ∈ m') ->
    obeys tips_step m' (bind (db_prog (match outcome_to_json (audit_outcome e) with
      | Err x => Ret (Err (Errors.Audit ("serialize outcome: " +:+ x)))
      | Ok json => r <~ call (InsertRow (make_row e prev json)) ;;
          Ret (match (r : result (result Z string) string) with
               | Err x => Err (Errors.Audit ("audit insert failed: " +:+ x))
               | Ok (Err x) => Err (Errors.Audit ("read inserted id: " +:+ x))
               | Ok (Ok id) => Ok id
               end)
      end)) (fun r => Ret (map_err Errors.display r))) (fun _ _ => True)).
  { intros prev m' Hp. destruct (outcome_to_json _) as [json|]; cbn; [|done]. intros y.
    destruct prev as [h|]; cbn; [|done]. by rewrite bool_decide_true by auto. }
  destruct x as [[[v|er]|]|er]; cbn; try done.
  - destruct (vec_to_hash v) as [h|er] eqn:E; cbn; [|done].
    apply (Hgo (Some h)). intros h' [= <-]. apply vec_to_hash_ok in E as [-> _]. by left.
  - by apply (Hgo None).
Qed.

(** Every call but an append is passed on as it is. *)
Lemma handler_cases o : pg_handler o = call (Ans := pgans) (Bridge o) \/ exists e, o = AuditAppend e.
Proof. destruct o; eauto. Qed.

Lemma handler_tips o m : obeys tips_step m (pg_handler o) (fun _ _ => True).
Proof. destruct (handler_cases o) as [->|[e ->]]; [done|apply append_tips]. Qed.

Lemma append_rows e : always (makes_rows (correlation_id e, identity e)) (pg_handler (AuditAppend e)) (fun r => r <> Aborted).
Proof.
  cbn. intros x. split; [done|]. destruct x as [[[v|er]|]|er]; cbn; try done.
  - destruct (vec_to_hash v) as [h|er] eqn:E; cbn; [|done].
    destruct (outcome_to_json _) as [json|] eqn:Ej; cbn; [|done]. intros y. split; [|done].
    exists e. split; [|done]. exists (Some h), json. splits; [done|done|]. intros h' [= <-]. exact (proj2 (vec_to_hash_ok _ _ E)).
  - destruct (outcome_to_json _) as [json|] eqn:Ej; cbn; [|done]. intros y. split; [|done].
    exists e. split; [|done]. by exists None, json.
Qed.

(** A call of a task about [who]. *)
Definition about (who : string * string) (o : bop) : Prop :=
  match o with AuditAppend a => (correlation_id a, identity a) = who | _ => True end.

Lemma handler_rows who o : about who o -> always (makes_rows who) (pg_handler o) (fun r => r <> Aborted).
Proof. intros Hw. destruct (handler_cases o) as [->|[e ->]]; [done|]. rewrite <- Hw. apply append_rows. Qed.

Lemma handler_no_panic o t : ~ runs (pg_handler o) t Aborted.
Proof.
  intros Hr. destruct (handler_cases o) as [E|[e ->]]; [rewrite E in Hr; cbn in Hr; naive_solver|].
  by destruct (always_runs _ _ _ _ _ (append_rows e) Hr).
Qed.

(** Answers under which an append gets its row inserted: both statements went
    through and the tip is a hash; the inserted id need not be readable. *)
Definition statement_ok (e : event pgans) : Prop :=
  match e with
  | Ev (Db SelectTip) (Ok None) => True
  | Ev (Db SelectTip) (Ok (Some (Ok v))) => length v = 32%nat
  | Ev (Db (InsertRow _)) (Ok _) => True
  | Ev (Db _) _ => False
  | Ev (Bridge _) _ => True
  end.

(** A statement that was answered with an error, or a tip that could not be read. *)
Definition statement_failed (e : event pgans) : Prop :=
  match e with
  | Ev (Db SelectTip) (Err _) => True
  | Ev (Db SelectTip) (Ok (Some (Err _))) => True
  | Ev (Db (InsertRow _)) (Err _) => True
  | _ => False
  end.

Lemma append_inserts e u x :
  is_ok (outcome_to_json (audit_outcome e)) = true -> Forall statement_ok u ->
  runs (pg_handler (AuditAppend e)) u (Done x) ->
  exists r y, Ev (Db (InsertRow r)) (Ok y) ∈ u /\ row_of e r.
Proof.
  intros Hj HF (y & t & -> & Hr). apply Forall_cons in HF as [Hy HF].
  destruct y as [[[v|er]|]|er]; cbn in Hr, Hy; try done.
  - destruct (vec_to_hash v) as [h|er] eqn:E; [|unfold vec_to_hash in E; by rewrite Hy in E]. cbn in Hr.
    destruct (outcome_to_json _) as [json|] eqn:Ej; [|done]. cbn in Hr.
    destruct Hr as ([id|er] & t' & -> & -> & _); [|by apply Forall_inv in HF].
    exists (make_row e (Some h) json), id. split; [right; by left|]. exists (Some h), json.
    splits; [done|done|]. intros h' [= <-]. exact (proj2 (vec_to_hash_ok _ _ E)).
  - destruct (outcome_to_json _) as [json|] eqn:Ej; [|done]. cbn in Hr.
    destruct Hr as ([id|er] & t' & -> & -> & _); [|by apply Forall_inv in HF].
    exists (make_row e None json), id. split; [right; by left|]. by exists None, json.
Qed.

(** The bridge's own event behind a lower one. *)
Definition unbridge (e : event pgans) : option (event bans) :=
  match e with
  | Ev (Bridge o) x => Some (Ev o x)
  | Ev (Db _) _ => None
  end.

Lemma append_statements e : always (fun ev => unbridge ev = None) (pg_handler (AuditAppend e)) (fun _ => True).
Proof.
  cbn. intros x. split; [done|]. destruct x as [[[v|er]|]|er]; cbn; try done.
  - destruct (vec_to_hash v); cbn; [|done]. by destruct (outcome_to_json _).
  - by destruct (outcome_to_json _).
Qed.

(** A call of the bridge that appears below is the call that appears above. *)
Lemma implements_bridge tr u o x :
  implements pg_handler tr u -> Ev (Bridge o) x ∈ u -> Ev o x ∈ tr.
Proof.
  intros Hi (u1 & u2 & ->)%list_elem_of_split.
  apply implements_split in Hi as (t1 & o' & x' & t2 & v1 & s1 & s2 & -> & _ & Hr & _).
  apply elem_of_app. right. destruct (handler_cases o') as [E|[e ->]].
  - rewrite E in Hr. destruct Hr as (y & t & Hs & -> & [= ->]).
    apply (f_equal (omap unbridge)) in Hs. rewrite omap_app in Hs. cbn in Hs.
    apply app_eq_unit in Hs as [[_ Hs]|[_ [=]]]. apply (f_equal head), (inj Some) in Hs. rewrite Hs. left.
  - destruct (always_runs _ _ _ _ _ (append_statements e) Hr) as [HF _].
    apply Forall_app in HF as [_ [HF _]%Forall_cons]. done.
Qed.

(** ** Every interleaving *)

(** A thread that inserts only rows of entries of [who], linked to tips it has
    read, all of them hashes of the table. *)
Definition thread_ok (who : string * string) (t : table) (p : prog pgans unit) : Prop :=
  always (makes_rows who) p (fun _ => True)
  /\ exists m, Forall (fun v => exists x, x ∈ t /\ row_entry_hash (snd x) = v) m
               /\ obeys tips_step m p (fun _ _ => True).

Lemma interp_thread_ok who t (p : prog bans unit) :
  always (fun e => about who (ev_op e)) p (fun _ => True) -> thread_ok who t (interp pg_handler p).
Proof.
  intros Hp. split.
  - eapply (interp_always_op _ quiet_answer); [exact Hp|]. intros o Ho. by eapply always_mono; [apply handler_rows, Ho|..].
  - exists []. split; [constructor|]. apply interp_obeys, handler_tips.
Qed.

Lemma thread_ok_grow who t t' p : thread_ok who t p -> thread_ok who (t ++ t') p.
Proof.
  intros [Ha (m & Hm & Ho)]. split; [done|]. exists m. split; [|done].
  eapply Forall_impl; [exact Hm|]. intros v (x & Hx & <-). exists x. rewrite elem_of_app. auto.
Qed.

(** The rows a statement may have added, and one it has added. *)
Definition adds (e : event pgans) (new : table) : Prop :=
  match e with
  | Ev (Db (InsertRow r)) (Ok _) => exists id, new = [(id, r)]
  | Ev (Db (InsertRow r)) (Err _) => new = [] \/ exists id, new = [(id, r)]
  | _ => new = []
  end.

(** One statement of a well-behaved thread. *)
Lemma db_step_tree who t o x t' k :
  thread_ok who t (Vis (Db o) k) -> audit_tree [] t -> db_sem t o x t' ->
  (exists new, t' = t ++ new /\ adds (Ev (Db o) x) new) /\ audit_tree [] t' /\ thread_ok who t' (k x)
  /\ (statement_ok (Ev (Db o) x) \/ statement_failed (Ev (Db o) x)).
Proof.
  intros [Ha (m & Hm & Ho)] Ht Hs. destruct (Ha x) as [Hmk Hak]. specialize (Ho x).
  destruct o as [|r]; cbn [db_sem] in Hs.
  - destruct Hs as [-> Hs].
    assert (Hsame : forall P : Prop, P -> (exists new, t = t ++ new /\ adds (Ev (Db SelectTip) x) new) /\ P)
      by (intros P HP; split; [|done]; exists []; by rewrite app_nil_r).
    apply Hsame. clear Hsame. destruct Hs as [[e ->]|Hs]; cbn in Ho.
    { splits; [done|split; [done|by exists m]|by right]. }
    destruct (newest t) as [[id r]|] eqn:El.
    + apply newest_elem in El. destruct Hs as [->|[e ->]]; cbn in Ho.
      * splits; [done|split; [done|]|left; by apply (audit_tree_hashes [] t (id, r))].
        exists (row_entry_hash r :: m). split; [|done]. constructor; [by exists (id, r)|done].
      * splits; [done|split; [done|by exists m]|by right].
    + subst x. splits; [done|split; [done|by exists m]|by left].
  - assert (Hv : forall v, row_prev_hash r = Some v -> v ∈ m).
    { intros v Ev. cbn in Ho. rewrite Ev in Ho. by case_bool_decide. }
    assert (Hk : thread_ok who t (k x)).
    { split; [done|]. exists m. split; [done|]. cbn in Ho. destruct (row_prev_hash r) as [v|]; [|done].
      by rewrite bool_decide_true in Ho by auto. }
    destruct Hs as [(-> & e & ->)|(id & _ & -> & Hx)].
    + splits; [exists []; rewrite app_nil_r; split; [done|by left]|done|done|by right].
    + splits; [|apply audit_tree_snoc; destruct Hmk as (a & Ha' & _); splits; [done|by exists a|]|by apply thread_ok_grow|].
      * exists [(id, r)]. split; [done|]. destruct Hx as [->|[[e ->]|[e ->]]]; cbn; eauto.
      * intros v Ev. rewrite Forall_forall in Hm. by apply Hm, Hv.
      * destruct Hx as [->|[[e ->]|[e ->]]]; cbn; auto.
Qed.

(** A thread none of whose statements failed. *)
Lemma thread_statements i (tr : list (nat * event pgans)) :
  Forall (fun l => statement_ok (snd l) \/ statement_failed (snd l)) tr ->
  Forall (fun e => ~ statement_failed e) (thread_trace i tr) ->
  Forall statement_ok (thread_trace i tr).
Proof.
  rewrite !Forall_forall. intros HF Hn e He. pose proof (Hn e He) as Hne.
  apply list_elem_of_fmap in He as (l & -> & [_ Hin]%list_elem_of_filter). by destruct (HF l Hin).
Qed.

(** What an execution did to the table: the rows of successful inserts are there,
    and a new row was inserted by the thread it is about. *)
Definition table_grown (who : nat -> string * string) (t : table) (tr : list (nat * event pgans)) (t' : table) : Prop :=
  (exists new, t' = t ++ new
     /\ Forall (fun x => exists i y, (i, Ev (Db (InsertRow (snd x))) y) ∈ tr
                            /\ (row_correlation_id (snd x), row_identity (snd x)) = who i) new)
  /\ forall i r y, (i, Ev (Db (InsertRow r)) (Ok y)) ∈ tr -> exists id, (id, r) ∈ t'.

Definition inserted_row (e : event pgans) : option row :=
  match e with Ev (Db (InsertRow r)) (Ok _) => Some r | _ => None end.

Lemma grown_step who t i o x new tr t' :
  adds (Ev (Db o) x) new -> makes_rows (who i) (Ev (Db o) x) ->
  table_grown who (t ++ new) tr t' -> table_grown who t ((i, Ev (Db o) x) :: tr) t'.
Proof.
  intros Hadd Hmk [(n2 & -> & HF) Hin]. split.
  - exists (new ++ n2). split; [by rewrite app_assoc|]. apply Forall_app. split.
    + destruct o as [|r]; [by rewrite Hadd|]. destruct Hmk as (a & (prev & json & _ & -> & _) & Hw).
      assert (Hn : new = [] \/ exists id, new = [(id, mkRow (hash_to_vec <$> prev) (hash_to_vec (entry_hash a prev))
        (correlation_id a) (identity a) (action a) json (as_i64 (created_at_ms a)))]) by (destruct x; cbn in Hadd; auto).
      destruct Hn as [->|[id ->]]; constructor; [|constructor]. exists i, x. split; [left|done].
    + eapply Forall_impl; [exact HF|]. intros y (j & z & Hj & Hw). exists j, z. split; [by right|done].
  - intros j r y [Heq|Hj]%elem_of_cons; [|by eapply Hin].
    apply (f_equal (fun l => inserted_row (snd l))) in Heq. cbn in Heq.
    destruct o as [|r']; [done|]. destruct x as [z|]; [|done]. cbn in Heq. simplify_eq.
    destruct Hadd as [id ->]. exists id. rewrite !elem_of_app. left. right. left.
Qed.

Lemma grown_bridge who t i o x tr t' :
  table_grown who t tr t' -> table_grown who t ((i, Ev (Bridge o) x) :: tr) t'.
Proof.
  intros [(new & -> & HF) Hin]. split.
  - exists new. split; [done|]. eapply Forall_impl; [exact HF|]. intros y (j & z & Hj & Hw). exists j, z. split; [by right|done].
  - intros j r y [Heq|Hj]%elem_of_cons; [|by eapply Hin]. by apply (f_equal (fun l => inserted_row (snd l))) in Heq.
Qed.

Lemma pg_pool who s t ps tr s' t' ps' :
  audit_tree [] t -> (forall i p, ps !! i = Some p -> thread_ok (who i) t p) ->
  pexec pg_sem ((s, t), ps) tr ((s', t'), ps') ->
  table_grown who t tr t' /\ audit_tree [] t'
  /\ Forall (fun l => statement_ok (snd l) \/ statement_failed (snd l)) tr.
Proof.
  intros Ht Hps Hx. remember ((s, t), ps) as c eqn:Hc. remember ((s', t'), ps') as c' eqn:Hc'.
  revert s t ps Ht Hps Hc. induction Hx as [c|[s0 t0] ps0 i o k x [s1 t1] tr c Hi Hsem _ IH];
    intros s t ps Ht Hps Hc; simplify_eq.
  { splits; [split; [exists []; by rewrite app_nil_r|by intros ? ? ? ?%elem_of_nil]|done|constructor]. }
  pose proof (Hps _ _ Hi) as Hok.
  assert (Hins : forall t2, (forall j p, ps !! j = Some p -> thread_ok (who j) t2 p) -> thread_ok (who i) t2 (k x) ->
    forall j p, <[i := k x]> ps !! j = Some p -> thread_ok (who j) t2 p).
  { intros t2 Hall Hk j p Hj. destruct (decide (j = i)) as [->|]; [|rewrite list_lookup_insert_ne in Hj by done; eauto].
    rewrite list_lookup_insert_eq in Hj by (by eapply lookup_lt_Some). by simplify_eq. }
  destruct o as [o|o].
  - destruct Hsem as [_ Heq]. cbn in Heq. subst t1.
    destruct (IH eq_refl s1 t (<[i:=k x]> ps)) as (Hg & Htr & HF); [done| |done|].
    + apply Hins; [done|]. destruct Hok as [Ha (m & Hm & Ho)]. split; [apply (Ha x)|]. exists m. split; [done|exact (Ho x)].
    + splits; [by apply grown_bridge|done|constructor; [by left|done]].
  - destruct Hsem as [Hsem Heq]. cbn in Hsem, Heq. subst s1.
    destruct (db_step_tree (who i) t o x t1 k Hok Ht Hsem) as ((new & -> & Hadd) & Htr & Hk & Hst).
    destruct (IH eq_refl s _ (<[i:=k x]> ps) Htr) as (Hg & Htr' & HF); [|done|].
    + apply Hins; [intros j p Hj; by apply thread_ok_grow, Hps|done].
    + splits; [|done|by constructor]. eapply grown_step; [exact Hadd|apply (proj1 Hok x)|exact Hg].
Qed.

End interface.

(** ** Claims *)

Section pg_claims.
Context {J : SerdeJson} {K : SolanaSdk} {C : BlockchainCore} {X : X509} {B : Base64} {R : TokioRetry}.
Context `{AuditHashing}.
Context (cfg : Config) (auth_policy : NatsAuthPolicy).
Context {HT : HttpHeaders} (from_headers : gmap string (list HeaderValue) -> ServiceRole).

(** A task whose audit port is the PostgreSQL store. *)
Definition pg_task (t : task) : prog pgans unit := interp pg_handler (task_prog cfg auth_policy from_headers t).

(** Whom the [i]-th task speaks for. *)
Definition speaks_for (tasks : list task) (i : nat) : string * string :=
  match tasks !! i with Some tk => origin tk | None => ("", "") end.

Lemma pg_tasks_ok t (tasks : list task) i p :
  (pg_task <$> tasks) !! i = Some p -> thread_ok (speaks_for tasks i) t p.
Proof.
  rewrite list_lookup_fmap. unfold speaks_for. destruct (tasks !! i) as [tk|]; [|done]. intros [= <-].
  apply interp_thread_ok. eapply obeys_always; [apply (task_ledger cfg auth_policy from_headers tk [])|].
  intros m [o x] m'. destruct o; try done. cbn. case_bool_decide as Hd; [|done]. intros _. by destruct Hd as [[? _] _].
Qed.

(** C19: the trail under concurrency.  In every interleaving of deliveries, gRPC
    requests and background tasks whose audit appends run as the two statements of
    the PostgreSQL store, statement by statement, with statements failing before
    or after they took effect and with ids in any order: rows are only ever added;
    each added row was inserted by a task and carries the correlation id and the
    identity of that task's own message or request; and every row is the row of an
    entry, whose stored digest is the hash of that entry together with the
    predecessor the row names, which is the digest of a row that was already
    visible, or none: links never dangle, though two rows may share a predecessor. *)
Theorem postgres_trail_tree (tasks : list task) s t tr s' t' ps' :
  audit_tree [] t ->
  pexec pg_sem ((s, t), pg_task <$> tasks) tr ((s', t'), ps') ->
  audit_tree [] t'
  /\ exists new, t' = t ++ new
      /\ Forall (fun x => exists i tk y, tasks !! i = Some tk /\ (i, Ev (Db (InsertRow (snd x))) y) ∈ tr
                             /\ (row_correlation_id (snd x), row_identity (snd x)) = origin tk) new.
Proof.
  intros Ht Hx. destruct (pg_pool _ _ _ _ _ _ _ _ Ht (pg_tasks_ok t tasks) Hx) as ([(new & -> & HF) _] & Htr & _).
  split; [done|]. exists new. split; [done|]. eapply Forall_impl; [exact HF|]. intros x (i & y & Hin & Hw).
  destruct (pexec_thread _ _ _ _ _ _ _ _ Hx Hin) as [p Hp]. rewrite list_lookup_fmap in Hp.
  unfold speaks_for in Hw. destruct (tasks !! i) as [tk|] eqn:Hi; [|done]. eauto 6.
Qed.

(** C8: no accepted submission without its row.  In every such interleaving, once a
    delivery or a request has returned and none of its own statements was answered
    with an error (an inserted id that cannot be read aside), each submission of it that the node accepted has a row in the
    table: its outcome column is the JSON of a submission with that signature, its
    other columns are the correlation id and the identity of the message or request. *)
Theorem accepted_submission_row (tasks : list task) s t tr s' t' ps' i tk sent sig :
  audit_tree [] t -> (forall o, is_ok (outcome_to_json o) = true) ->
  pexec pg_sem ((s, t), pg_task <$> tasks) tr ((s', t'), ps') ->
  tasks !! i = Some tk -> ps' !! i = Some (Ret tt) ->
  Forall (fun e => ~ statement_failed e) (thread_trace i tr) ->
  Ev (Bridge (SendTx sent)) (Ok sig) ∈ thread_trace i tr ->
  exists id r, (id, r) ∈ t'
    /\ Ok (row_outcome_json r) = outcome_to_json (Submitted (signature_to_string sig) 0)
    /\ (row_correlation_id r, row_identity r) = origin tk.
Proof.
  intros Ht Hj Hx Hi Hret Hnf Hin.
  destruct (pg_pool _ _ _ _ _ _ _ _ Ht (pg_tasks_ok t tasks) Hx) as ([_ Hrows] & _ & HF).
  destruct (pexec_reaches _ _ _ _ _ _ i (pg_task tk) Hx) as (q & Hq & Hr); [by rewrite list_lookup_fmap, Hi|].
  assert (q = Ret tt) as -> by congruence. destruct (reaches_runs _ _ _ Hr I) as (r & Hrun & _).
  apply interp_runs in Hrun as (u & Hrun & Himp); [|apply handler_no_panic].
  apply task_debt in Hrun.
  destruct (debt_paid _ _ _ sig None Hrun) as (a & x & Ha & Ho & Hc & Hid).
  { right. exists sent. by eapply implements_bridge. }
  destruct (implements_elem _ _ _ _ _ Himp Ha) as (v1 & w & v2 & Htr & Hw).
  assert (Hok : Forall statement_ok (thread_trace i tr)) by (by apply thread_statements).
  rewrite Htr, !Forall_app in Hok. destruct Hok as (_ & Hok & _).
  destruct (append_inserts a w x (Hj _) Hok Hw) as (rw & y & Hrw & Hrow).
  destruct (Hrows i rw y) as [id Hel].
  { apply thread_trace_elem. rewrite Htr, !elem_of_app. auto. }
  destruct Hrow as (prev & json & Hjson & -> & _). eexists id, _. split; [done|].
  cbn. by rewrite Hc, Hid, <- Ho, Hjson; destruct (origin tk).
Qed.

End pg_claims.

(** ** Examples *)

Section examples.
#[local] Existing Instances toy_sdk toy_core toy_x509 toy_b64 toy_hashing.
#[local] Existing Instance consumer_serde.
#[local] Existing Instances toy_tokio toy_headers.

(** The demo environment with a healthy database. *)
Definition pg_env (o : pgop) (s : bridge_state * table) : pgans o * (bridge_state * table) :=
  match o with
  | Bridge o => let '(x, (b, _)) := with_env (fixed_env (node 2000)) o (fst s, tt) in (x, (b, snd s))
  | Db SelectTip => (Ok (Ok ∘ row_entry_hash ∘ snd <$> newest (snd s)), s)
  | Db (InsertRow r) =>
      let id := foldr Z.max 0 (fst <$> snd s) + 1 in (Ok (Ok id), (fst s, snd s ++ [(id, r)]))
  end.

Lemma max_above (t : table) : Forall (fun x => fst x < foldr Z.max 0 (fst <$> t) + 1) t.
Proof.
  induction t as [|[i r] t IH]; constructor; cbn; [lia|].
  eapply Forall_impl; [exact IH|]. cbn. intros [j q]. cbn. lia.
Qed.

Lemma pg_env_sem o s x s' : pg_env o s = (x, s') -> pg_sem s o x s'.
Proof.
  destruct s as [b t]. destruct o as [o|[|r]]; cbn [pg_env pg_sem fst snd].
  - destruct (with_env _ _ _) as [y [b' []]] eqn:E; intros [= <- <-]; cbn [fst snd]; split; [|done].
    by eapply with_env_sem.
  - intros [= <- <-]. split; [|done]. split; [done|right]. cbn. destruct (newest t) as [[i q]|]; [by left|done].
  - intros [= <- <-]. split; [|done]. right. eexists. splits; [|done|by left].
    intros ([i q] & Heq & Hin)%list_elem_of_fmap. pose proof (max_above t) as HF. rewrite Forall_forall in HF.
    specialize (HF _ Hin). cbn in HF, Heq. lia.
Qed.

Definition demo_pg :=
  schedule pg_env (alternate 30) (bridge_new, []) (pg_task demo_cfg demo_policy unlisted <$> demo_tasks).

Lemma demo_pg_pexec :
  pexec pg_sem ((bridge_new, []), pg_task demo_cfg demo_policy unlisted <$> demo_tasks)
    (fst (fst demo_pg)) ((fst (snd (fst demo_pg)), snd (snd (fst demo_pg))), snd demo_pg).
Proof.
  destruct demo_pg as [[tr [s' t']] ps'] eqn:E. apply schedule_pexec in E. cbn [fst snd].
  eapply pexec_weaken; [|exact E]. intros s o x s1 Hs. by apply pg_env_sem.
Defined.

(** Two appends that ran statement by statement: two rows, one predecessor. *)
Lemma postgres_trail_tree_witness :
  audit_tree [] (snd (snd (fst demo_pg)))
  /\ (exists new, snd (snd (fst demo_pg)) = [] ++ new
      /\ Forall (fun x => exists i tk y, demo_tasks !! i = Some tk
                   /\ (i, Ev (Db (InsertRow (snd x))) y) ∈ fst (fst demo_pg)
                   /\ (row_correlation_id (snd x), row_identity (snd x)) = origin tk) new)
  /\ length (snd (snd (fst demo_pg))) = 2%nat.
Proof.
  destruct (postgres_trail_tree demo_cfg demo_policy unlisted demo_tasks bridge_new [] _ _ _ _ I demo_pg_pexec) as [H1 H2].
  split; [exact H1|]. split; [exact H2|]. vm_compute. reflexivity.
Defined.

Lemma accepted_submission_row_witness :
  exists id r, (id, r) ∈ snd (snd (fst demo_pg))
    /\ Ok (row_outcome_json r) = outcome_to_json (Submitted (signature_to_string (sig_of_byte x09)) 0)
    /\ (row_correlation_id r, row_identity r) = ("c1", demo_ident).
Proof.
  eapply (accepted_submission_row demo_cfg demo_policy unlisted demo_tasks bridge_new []
    (fst (fst demo_pg)) (fst (snd (fst demo_pg))) (snd (snd (fst demo_pg))) (snd demo_pg) 0
    (Deliver "chain.tx.submit" [x01]) demo_signed).
  - exact I.
  - intros o. by destruct o.
  - apply demo_pg_pexec.
  - reflexivity.
  - vm_compute. reflexivity.
  - vm_compute. repeat (constructor; [tauto|]). constructor.
  - vm_compute. repeat (first [left|right]).
Defined.

End examples.
