(* ===== verification/EndToEnd.v ===== *)
(** * From a caller's certificate to the effect

    The components composed along the two ways into the bridge.  A service that
    publishes over NATS: its leaf certificate and [EnvelopeSigner] ([Pki]), the
    enforcing policy ([Identity]), the submit handler ([Consumer]) and the signing
    pipeline.  A service that calls over gRPC: the TLS acceptor, the connection
    service and the certificate layer ([Identity]), the RPC surface ([Grpc]) and
    what the pipeline writes to the audit trail. *)

From S2P Require Import Prelude RustStd Effects Domain External BridgeOps Fixtures Identity Pki Signing SigningSpec Refresh Grpc Consumer ConsumerSpec ConsumerProps Liveness.
From Stdlib Require String.
Import String.StringSyntax.

Local Open Scope Z_scope.

(** ** NATS *)

(** An envelope with its auth attached. *)
Definition with_auth (a : EnvelopeAuth) (m : TxSubmitMessage) : TxSubmitMessage :=
  mkSubmit (ts_correlation_id m) (ts_idempotency_key m) (ts_reply_subject m) (ts_serialized_tx m)
    (ts_key_id m) (ts_skip_preflight m) (ts_retry_count m) (ts_service_identity m) (ts_created_at_ms m) (Some a).

(** The canonical bytes are what is signed, so they leave out the signature. *)
Class CanonicalLaws `{BlockchainCore} := {
  canonical_without_auth : forall m a, canonical_submit_bytes (with_auth a m) = canonical_submit_bytes m
}.

Section publisher.
Context {J : SerdeJson} {K : SolanaSdk} {T : TokioRetry}.
Context {X : X509} {R : Rcgen} {RL : RcgenLaws}.
Context {C : BlockchainCore} {CL : CanonicalLaws} {B : Base64} {ES : EnvelopeSigning} {SL : EnvelopeSigningLaws}.
Context (cfg : Config).

(** Nothing stands in the way of [env] from a publisher with certificate
    parameters [p]: the clock is within the certificate's validity, the message is
    fresh and not known yet, the simulation reports no error, and the Vault and the
    node answer.  Authentication is not among the assumptions. *)
Definition unobstructed (p : CertificateParams) (env : TxSubmitMessage) (e : event bans) : Prop :=
  match e with
  | Ev NowSecs n => within p n /\ 0 <= n < 253402300800
  | Ev NowMs n => saturating_sub (as_u64 n) (ts_created_at_ms env) <= 55000
  | Ev (IdemContains _) b => b = false
  | Ev (ClaimOrReplay _ _ _) x => x = None
  | Ev LatestBlockhash x => is_ok x = true
  | Ev (Simulate _) (Ok sim) => sim_err sim = None
  | Ev (VaultSign _ _) x => is_ok x = true
  | Ev (SendTx _) x => is_ok x = true
  | _ => True
  end.

Lemma unobstructed_favourable leaf p k ca cp ck jk sg env0 e :
  issued leaf p k ck -> issued ca cp ck jk -> representable p -> representable cp ->
  signer_from_pem (cert_pem leaf) (serialize_pem k) = Ok sg ->
  spiffe_of p = Some (ts_service_identity env0) ->
  let env := with_auth (signer_sign sg (canonical_submit_bytes env0)) env0 in
  unobstructed p env e -> favourable (policy_new true (Some (cert_der ca))) env e.
Proof.
  intros Hl Hc Rp Rc Hsg Hid env. destruct e as [o x]. destruct o; try done.
  intros [Hw Hn]. cbn. unfold auth_passed, env. rewrite canonical_without_auth. cbn [ca_der policy_new andb].
  rewrite (proj2 (check_signed leaf p k ca cp ck jk sg _ _ _ Hl Hc Rp Rc Hn Hsg) (conj Hw Hid)). done.
Qed.

(** C28: a publisher with a current certificate is served.  Under a policy that
    requires signatures and trusts the CA, a submit that a service signs with the
    key of a leaf certificate issued by that CA, under the SPIFFE identity the leaf
    was issued for, passes authentication by itself: if its role is known, the
    policy engine accepts its transaction and the pipeline does not panic on it,
    every run in which nothing else stands in the way ends with a success reply
    that carries the signature of a submission the node accepted in that run, and
    with the acknowledgement. *)
Theorem publisher_submit_succeeds leaf p k ca cp ck jk sg env0 payload tx tr r :
  issued leaf p k ck -> issued ca cp ck jk -> representable p -> representable cp ->
  signer_from_pem (cert_pem leaf) (serialize_pem k) = Ok sg ->
  spiffe_of p = Some (ts_service_identity env0) ->
  let env := with_auth (signer_sign sg (canonical_submit_bytes env0)) env0 in
  parse_submit payload = Ok env -> role_of (ts_service_identity env0) <> Unknown ->
  authorised (ts_serialized_tx env0) (ts_service_identity env0) tx -> panics_on cfg tx = false ->
  (ts_key_id env0 = "platform_admin" \/ ts_key_id env0 = "") ->
  runs (handle_submit cfg (policy_new true (Some (cert_der ca))) payload) tr r ->
  Forall (unobstructed p env) tr ->
  r = Done tt /\ exists sig sent t y a,
    tr = t ++ reply_events (ts_reply_subject env0)
               (ReplySubmit (mkTxResult (ts_correlation_id env0) true (Some (signature_to_string sig)) None 0 false)) y
           ++ [Ev (AckMsg Ack) a]
    /\ Ev (SendTx sent) (Ok sig) ∈ t.
Proof.
  intros Hl Hc Rp Rc Hsg Hid env Hp Hrole Ha Hn Hk Hr HF.
  apply (favourable_submit_succeeds cfg (policy_new true (Some (cert_der ca))) payload env tx tr r); try done.
  eapply Forall_impl; [exact HF|]. intros e. by apply (unobstructed_favourable leaf p k ca cp ck jk).
Qed.

End publisher.

(** ** gRPC *)

Section caller.
Context {J : SerdeJson} {K : SolanaSdk} {C : BlockchainCore} {RB : RbacLaws} {X : X509} {H : HttpHeaders} {HL : HttpHeadersLaws}.
Context (cfg : Config) (from_headers : gmap string (list HeaderValue) -> ServiceRole).

(** C23: a gRPC request answers for its certificate.  On a TLS connection whose leaf
    certificate carries a SPIFFE URI that is a readable header value (all visible
    ASCII), whatever headers the client sent and however the environment is
    configured: a request has an effect
    only if the role matrix admits the certificate's role for that RPC; and every
    call a submit makes is authorised for the certificate's identity, so that the
    policy engine judged the transaction for it and every audit entry names it,
    while any other RPC makes no call but its own query. *)
Theorem mtls_request_accountable certs kept service hs id hv q tr r :
  connection_spiffe certs = Some id ->
  header_from_str id = Some hv -> is_Some (header_to_str hv) ->
  mtls_accept (Ok certs) (layer (fun req => serve cfg from_headers (req_headers req) q)) = Ok (kept, service) ->
  runs (service (client_request hs)) tr r ->
  (tr = [] \/ rbac_matrix (role_of id) q = true)
  /\ match q with
     | RpcSubmit ser key => Forall (pipeline_event cfg ser key id "") tr
     | _ => Forall (rpc_call q) tr
     end.
Proof.
  intros Hc Hv Ht [= <- <-] Hr. change (runs (serve cfg from_headers (mtls_headers certs hs) q) tr r) in Hr.
  assert (Hrole : extract_role from_headers (getenv cfg) (mtls_headers certs hs) = role_of id)
    by (by eapply mtls_identity_authentic).
  destruct (mtls_identity_authentic from_headers certs hs id hv false false Hc Hv Ht) as (_ & Hid & _). split.
  - destruct (rbac_matrix (role_of id) q) eqn:Hm; [by right|left].
    destruct (serve_rbac cfg from_headers (mtls_headers certs hs) q) as [msg Hs]; [by rewrite Hrole|].
    rewrite Hs in Hr. by destruct Hr as [-> _].
  - destruct q; [|by apply read_rpc_single_call in Hr as (_ & ? & _)..].
    assert (Ha : always (pipeline_event cfg serialized_transaction key_id id "")
                   (serve cfg from_headers (mtls_headers certs hs) (RpcSubmit serialized_transaction key_id)) (fun _ => True)).
    { unfold serve, erased, submit_transaction, require_role. rewrite Hid.
      eapply (always_bind _ _ _ (fun _ => True)); [|done|done]. destruct (require_any _ _); [|done].
      eapply (always_bind _ _ _ (fun _ => True)); [apply sign_and_submit_always|done|done]. }
    by destruct (always_runs _ _ _ _ _ Ha Hr).
Qed.

End caller.

(** ** Examples *)

Section examples.
#[local] Existing Instances toy_sdk toy_headers toy_headers_laws.
#[local] Existing Instances pki_x509 pki_rcgen pki_signing pki_core hex_b64 pki_rcgen_laws pki_signing_laws.

#[local] Instance pki_canonical : CanonicalLaws.
Proof. by constructor. Defined.

#[local] Instance pki_rbac : RbacLaws.
Proof. constructor. intros r l. cbn. by case_bool_decide. Defined.

Definition settlement_params : CertificateParams :=
  mkParams ["leaf"] false ["spiffe://gridtokenx/settlement"] 157766400 67090118400.
Definition settlement_leaf : pki_cert := pki_issue settlement_params "leaf-key" "ca-key".
Definition trusted_ca : pki_cert := pki_issue ca_params "ca-key" "ca-key".
Definition settlement_signer : string * string := (cert_pem (Rcgen := pki_rcgen) settlement_leaf, "leaf-key"%string).

Definition settlement_submit : TxSubmitMessage :=
  mkSubmit "c1" "k1" "replies" [x01] "platform_admin" false 0 "spiffe://gridtokenx/settlement" 1750000000000 None.
Definition settlement_signed : TxSubmitMessage :=
  with_auth (signer_sign (EnvelopeSigning := pki_signing) settlement_signer (canonical_submit_bytes settlement_submit))
    settlement_submit.

#[local] Instance published_serde : SerdeJson := toy_serde (fun _ => Ok settlement_signed) no_parse no_parse no_parse.
#[local] Existing Instance toy_tokio.

Definition published_policy : NatsAuthPolicy := policy_new true (Some (cert_der (Rcgen := pki_rcgen) trusted_ca)).
Definition published_run :=
  run (with_env (fixed_env (healthy 1750000001000))) (handle_submit demo_cfg published_policy [x01]) (bridge_new, tt).
Definition published_trace : list (event bans) := fst (fst published_run).

Lemma publisher_submit_succeeds_witness :
  exists sig sent t y a,
    published_trace
    = t ++ reply_events "replies" (ReplySubmit (mkTxResult "c1" true (Some (signature_to_string sig)) None 0 false)) y
        ++ [Ev (AckMsg Ack) a]
    /\ Ev (SendTx sent) (Ok sig) ∈ t.
Proof.
  refine (proj2 (publisher_submit_succeeds (R := pki_rcgen) (ES := pki_signing) demo_cfg settlement_leaf
    settlement_params "leaf-key" trusted_ca ca_params "ca-key" "ca-key" settlement_signer settlement_submit [x01] toy_tx
    published_trace (snd (fst published_run)) _ _ _ _ _ _ _ _ _ _ _ _ _)).
  - by eapply (issued_by (H0 := pki_rcgen) _ _ _ _ trusted_ca).
  - by apply issued_self.
  - vm_compute. split; [discriminate|reflexivity].
  - vm_compute. split; [discriminate|reflexivity].
  - reflexivity.
  - reflexivity.
  - reflexivity.
  - vm_compute. discriminate.
  - split; vm_compute; reflexivity.
  - vm_compute. reflexivity.
  - left. reflexivity.
  - exact (run_trace (with_env (fixed_env (healthy 1750000001000))) (handle_submit demo_cfg published_policy [x01])
             (bridge_new, tt)).
  - assert (E : published_trace = ltac:(let t := eval vm_compute in published_trace in exact t)) by (vm_compute; reflexivity).
    rewrite E. repeat (apply Forall_cons; split; [vm_compute; first [exact I|reflexivity|discriminate|repeat split; discriminate]|]).
    apply Forall_nil_2.
Defined.

(** A settlement certificate, and a client that claims to be an administrator. *)
Definition accountable_run :=
  run (with_env (fixed_env (healthy 1750000001000)))
    (serve demo_cfg (fun _ => Unknown)
       (mtls_headers (Some [cert_der (Rcgen := pki_rcgen) settlement_leaf]) forged_headers) (RpcSubmit [x01] "platform_admin"))
    (bridge_new, tt).

Lemma mtls_request_accountable_witness :
  Forall (pipeline_event demo_cfg [x01] "platform_admin" "spiffe://gridtokenx/settlement" "") (fst (fst accountable_run))
  /\ existsb (fun e => match e with Ev (SendTx _) (Ok _) => true | _ => false end) (fst (fst accountable_run)) = true.
Proof.
  split.
  - refine (proj2 (mtls_request_accountable demo_cfg (fun _ => Unknown)
      (Some [cert_der (Rcgen := pki_rcgen) settlement_leaf]) _ _ forged_headers "spiffe://gridtokenx/settlement"
      "spiffe://gridtokenx/settlement" (RpcSubmit [x01] "platform_admin") _ (snd (fst accountable_run)) _ _ _ _ _)).
    + vm_compute. reflexivity.
    + reflexivity.
    + by eexists.
    + reflexivity.
    + unfold mtls_accept, layer, client_request, connection_call. fold (client_request forged_headers).
      change (runs (serve demo_cfg (fun _ => Unknown)
        (mtls_headers (Some [cert_der (Rcgen := pki_rcgen) settlement_leaf]) forged_headers)
        (RpcSubmit [x01] "platform_admin")) (fst (fst accountable_run)) (snd (fst accountable_run))).
      exact (run_trace (with_env (fixed_env (healthy 1750000001000))) (serve demo_cfg (fun _ => Unknown)
        (mtls_headers (Some [cert_der (Rcgen := pki_rcgen) settlement_leaf]) forged_headers)
        (RpcSubmit [x01] "platform_admin")) (bridge_new, tt)).
  - vm_compute. reflexivity.
Defined.

End examples.
