(* ===== verification/Providers.v ===== *)
(** * The Solana providers (crates/chain-bridge-api/src/api/provider.rs)

    [SurfpoolSolanaProvider], the in-memory provider of the simnet, over LiteSVM
    as a class of operations.  Each method is a function on the SVM behind the
    lock, one call at a time; SolanaClient.v has the methods with every acquisition
    of the lock, and shows that they agree.  [simnet] answers the provider calls of
    the effect signature with it, so that the theorems say what the bridge does
    when it runs on the simnet. *)

From S2P Require Import Prelude RustStd Effects Domain External BridgeOps Fixtures Signing SigningSpec.
From Stdlib Require String.
Import String.StringSyntax.
Import Errors.

Local Open Scope Z_scope.

(** ** LiteSVM *)

(** [solana_account::Account]. *)
Record SvmAccount := mkSvmAccount {
  sa_lamports : Z;
  sa_data : bytes;
  sa_owner : Pubkey;
  sa_executable : bool;
  sa_rent_epoch : Z
}.

(** The metadata of a simulation that succeeded. *)
Record SimMeta := mkSimMeta { meta_logs : list string; meta_units : Z }.

(** [to_versioned] is the bincode round trip to LiteSVM's own transaction type;
    errors are their text. *)
Class LiteSvm := {
  Svm : Type;
  VersionedTx : Type;
  to_versioned : Transaction -> result VersionedTx string;
  svm_new : Svm;
  svm_add_program : Pubkey -> bytes -> Svm -> Svm;
  svm_get_account : Svm -> Pubkey -> option SvmAccount;
  svm_set_account : Pubkey -> SvmAccount -> Svm -> result unit string * Svm;
  svm_get_balance : Svm -> Pubkey -> option Z;
  svm_airdrop : Pubkey -> Z -> Svm -> result unit string * Svm;
  svm_simulate : VersionedTx -> Svm -> result SimMeta string;
  svm_send : VersionedTx -> Svm -> result unit string * Svm;
  svm_latest_blockhash : Svm -> Hash
}.

(** The two account types have the same fields; the conversions go field by
    field, an address being its 32 bytes. *)
Definition to_svm_account (a : Account) : SvmAccount :=
  mkSvmAccount (lamports a) (account_data a) (account_owner a) (account_executable a) (account_rent_epoch a).

Definition of_svm_account (a : SvmAccount) : Account :=
  mkAccount (sa_lamports a) (sa_data a) (sa_owner a) (sa_executable a) (sa_rent_epoch a).

Module Surfpool.
Section surfpool.
Context {J : SerdeJson} {JM : JsonMacro} {L : LiteSvm}.

(** The optional RPC client: its [get_account]. *)
Context (rpc_client : option (Pubkey -> result Account string)).

Definition ensure_account (pk : Pubkey) (svm : Svm) : result unit string * Svm :=
  match svm_get_account svm pk with
  | Some _ => (Ok tt, svm)
  | None =>
      match rpc_client with
      | None => (Ok tt, svm)
      | Some get_account =>
          match get_account pk with
          | Err e => (Err e, svm)
          | Ok account => svm_set_account pk (to_svm_account account) svm
          end
      end
  end.

(** The loop over the accounts an instruction names; indices out of range are
    skipped. *)
Fixpoint ensure_accounts (pks : list Pubkey) (svm : Svm) : result unit string * Svm :=
  match pks with
  | [] => (Ok tt, svm)
  | pk :: pks =>
      let '(r, svm) := ensure_account pk svm in
      match r with
      | Err e => (Err e, svm)
      | Ok _ => ensure_accounts pks svm
      end
  end.

Definition touched_keys (tx : Transaction) : list Pubkey :=
  omap (fun i => account_keys (message tx) !! Z.to_nat i) (mjoin (ix_accounts <$> instructions (message tx))).

Definition simulate_transaction (tx : Transaction) (svm : Svm) : result SimResult string * Svm :=
  let '(r, svm) := ensure_accounts (touched_keys tx) svm in
  match r with
  | Err e => (Err e, svm)
  | Ok _ =>
      (match to_versioned tx with
       | Err e => Err e
       | Ok versioned_tx =>
           match svm_simulate versioned_tx svm with
           | Err e => Err e
           | Ok meta => Ok (mkSim None (Some (meta_units meta)) (Some (meta_logs meta)))
           end
       end, svm)
  end.

(** The payer is topped up to be able to pay. *)
Definition fund_payer (tx : Transaction) (svm : Svm) : result unit string * Svm :=
  match account_keys (message tx) with
  | [] => (Ok tt, svm)
  | payer :: _ =>
      if unwrap_or (svm_get_balance svm payer) 0 <? 1000000000
      then svm_airdrop payer 10000000000 svm
      else (Ok tt, svm)
  end.

Definition send_transaction (tx : Transaction) (svm : Svm) : result Signature string * Svm :=
  let '(funded, svm) := fund_payer tx svm in
  match funded with
  | Err e => (Err e, svm)
  | Ok _ =>
      let signature := unwrap_or (head (signatures tx)) signature_default in
      match to_versioned tx with
      | Err e => (Err e, svm)
      | Ok versioned_tx =>
          let '(r, svm) := svm_send versioned_tx svm in
          match r with
          | Err e => (Err e, svm)
          | Ok _ => (Ok signature, svm)
          end
      end
  end.

Definition get_latest_blockhash (svm : Svm) : result (Hash * Z) string * Svm :=
  (Ok (svm_latest_blockhash svm, 1000), svm).

Definition get_balance (pk : Pubkey) (svm : Svm) : result Z string * Svm :=
  let '(r, svm) := ensure_account pk svm in
  match r with
  | Err e => (Err e, svm)
  | Ok _ => (Ok (unwrap_or (svm_get_balance svm pk) 0), svm)
  end.

Definition get_account (pk : Pubkey) (svm : Svm) : result Account string * Svm :=
  let '(r, svm) := ensure_account pk svm in
  match r with
  | Err e => (Err e, svm)
  | Ok _ =>
      (match svm_get_account svm pk with
       | None => Err "Account not found"
       | Some a => Ok (of_svm_account a)
       end, svm)
  end.

Definition token_balance_value : Value :=
  json_obj [("amount", json_str "1000000000"); ("decimals", json_u64 9); ("uiAmount", json_f64 4607182418800017408)].

Definition signature_status_value : Value :=
  json_obj [("slot", json_u64 0); ("confirmations", json_u64 1); ("err", value_null);
            ("confirmationStatus", json_str "finalized")].

Definition get_signature_statuses (sigs : list Signature) : result (list (option Value)) string :=
  Ok ((fun _ => Some signature_status_value) <$> sigs).

Definition request_airdrop (pk : Pubkey) (n : Z) (svm : Svm) : result Signature string * Svm :=
  let '(r, svm) := svm_airdrop pk n svm in
  match r with
  | Err e => (Err e, svm)
  | Ok _ => (Ok signature_default, svm)
  end.

(** The provider calls of the bridge, answered by the simnet. *)
Definition surfpool (o : bop) : option (Svm -> bans o * Svm) :=
  match o with
  | Simulate tx => Some (simulate_transaction tx)
  | SendTx tx => Some (send_transaction tx)
  | LatestBlockhash => Some get_latest_blockhash
  | GetBalance pk => Some (get_balance pk)
  | GetAccount pk => Some (get_account pk)
  | GetFees _ => Some (fun svm => (Ok [], svm))
  | GetTokenBalance _ => Some (fun svm => (Ok token_balance_value, svm))
  | SigStatuses sigs => Some (fun svm => (get_signature_statuses sigs, svm))
  | GetSlot => Some (fun svm => (Ok 0, svm))
  | RequestAirdrop pk n => Some (request_airdrop pk n)
  | GetTransaction _ => Some (fun svm => (Ok (json_obj []), svm))
  | GetEpochInfo => Some (fun svm => (Ok (mkEpoch 100 100 1 432000 100 (Some 1000)), svm))
  | _ => None
  end.

(** The environment of a bridge on the simnet; [env] answers the rest. *)
Definition simnet {E : Type} (env : forall o, E -> bans o * E) (o : bop) (s : Svm * E) : bans o * (Svm * E) :=
  match surfpool o with
  | Some f => let '(x, svm) := f (fst s) in (x, (svm, snd s))
  | None => let '(x, e) := env o (snd s) in (x, (fst s, e))
  end.

End surfpool.

(** ** deploy_core_programs *)

(** [v[a..b].copy_from_slice(src)] and [v[i] = x]: panics out of range or when
    the lengths differ. *)
Definition copy_from_slice {Op : Type} {Ans : Op -> Type} (a b : nat) (src v : bytes) : prog Ans bytes :=
  if ((a <=? b) && (b <=? length v) && (length src =? b - a))%nat
  then Ret (take a v ++ src ++ drop b v) else Panic.

Definition store_byte {Op : Type} {Ans : Op -> Type} (i : nat) (x : byte) (v : bytes) : prog Ans bytes :=
  if (i <? length v)%nat then Ret (<[i := x]> v) else Panic.

Definition mint_data {Op : Type} {Ans : Op -> Type} (authority : Pubkey) (decimals : byte) : prog Ans bytes :=
  d <~ copy_from_slice 0 4 (le_bytes 4 1) (replicate 82 x00) ;;
  d <~ copy_from_slice 4 36 (pubkey_bytes authority) d ;;
  d <~ store_byte 44 decimals d ;;
  store_byte 45 x01 d.

Definition registry_data {Op : Type} {Ans : Op -> Type} (auth : Pubkey) : prog Ans bytes :=
  d <~ copy_from_slice 0 8 (byte_of_Z <$> [47; 174; 110; 246; 184; 182; 252; 218]) (replicate 104 x00) ;;
  copy_from_slice 8 40 (pubkey_bytes auth) d.

Definition shard_data {Op : Type} {Ans : Op -> Type} : prog Ans bytes :=
  copy_from_slice 0 8 (byte_of_Z <$> [98; 27; 121; 8; 54; 239; 169; 252]) (replicate 32 x00).

Definition token_info_data {Op : Type} {Ans : Op -> Type} (auth registry_pda registry_program mint : Pubkey)
  : prog Ans bytes :=
  d <~ copy_from_slice 0 8 (byte_of_Z <$> [109; 162; 52; 125; 77; 166; 37; 202]) (replicate 320 x00) ;;
  d <~ copy_from_slice 8 40 (pubkey_bytes auth) d ;;
  d <~ copy_from_slice 40 72 (pubkey_bytes registry_pda) d ;;
  d <~ copy_from_slice 72 104 (pubkey_bytes registry_program) d ;;
  copy_from_slice 104 136 (pubkey_bytes mint) d.

Section deploy.
Context {K : SolanaSdk} {L : LiteSvm}.
(** [Pubkey::find_program_address(seeds, program)], the address. *)
Context (find_program_address : list bytes -> Pubkey -> Pubkey).

(** [std::fs::read]: [None] on an error. *)
Inductive fop : Type := FsRead (path : string).
Definition fans (o : fop) : Type := match o with FsRead _ => option bytes end.

Definition programs : list (string * string) :=
  [("HZR6b8GhzhDowyL6dX58qBjdSDNtFyJHU5dPF3kXDcTS", "gridtokenx-anchor/target/deploy/registry.so");
   ("GjSjmPt8VSHr49ti4BijWZSu7rwb8o32pod7gNBnTY4U", "gridtokenx-anchor/target/deploy/energy_token.so");
   ("DXxHdUar3pUUKRnt4XAMA8rdYRpAsNY1xk3Zo4crShvY", "gridtokenx-anchor/target/deploy/trading.so");
   ("AiWcoPDEk3G4iKrDXj1wCN1ffWxQDEsgtJZKcjauoFJr", "gridtokenx-anchor/target/deploy/oracle.so");
   ("6FsfuFEg8LHjSiejc8om8Q6iSaAgfEWHCgz78PT8jocw", "gridtokenx-anchor/target/deploy/governance.so")].

(** [Pubkey::from_str(s)?] in front of the rest. *)
Definition with_key {A : Type} (s : string) (k : Pubkey -> prog fans (result A string))
  : prog fans (result A string) :=
  match pubkey_from_str s with
  | Err e => Ret (Err e)
  | Ok pk => k pk
  end.

Fixpoint deploy_programs (l : list (string * string)) (svm : Svm) : prog fans (result Svm string) :=
  match l with
  | [] => Ret (Ok svm)
  | (id_str, path) :: l =>
      with_key id_str (fun pk =>
        r <~ call (FsRead path) ;;
        deploy_programs l (match (r : option bytes) with
                           | Some program_data => svm_add_program pk program_data svm
                           | None => svm
                           end))
  end.

(** [let _ = svm.set_account(address, Account { lamports: 1_000_000_000, .. })]. *)
Definition put_account (address : Pubkey) (data : bytes) (owner : Pubkey) (svm : Svm) : Svm :=
  snd (svm_set_account address (mkSvmAccount 1000000000 data owner false 0) svm).

Definition deploy_core_programs (svm : Svm) : prog fans (result Svm string) :=
  r <~ deploy_programs programs svm ;;
  match r with
  | Err e => Ret (Err e)
  | Ok svm =>
  with_key "EzudwoHvNPAc4dpPi5ndU8MEZVHVzq3Pj3Thm9ooKmiJ" (fun auth =>
  with_key "HZR6b8GhzhDowyL6dX58qBjdSDNtFyJHU5dPF3kXDcTS" (fun registry_program =>
  with_key "GjSjmPt8VSHr49ti4BijWZSu7rwb8o32pod7gNBnTY4U" (fun energy_program =>
  let registry_pda := find_program_address [as_bytes "registry"] registry_program in
  let token_info_pda := find_program_address [as_bytes "token_info_2022"] energy_program in
  with_key "TokenkegQfeZyiNwAJbNbGKPFXCWuBvf9Ss623VQ5DA" (fun token_program =>
  with_key "GpGDVgksF2ivMv3XXR4VZDXRmW9G6agA2AGkKUBQRzk6" (fun mint =>
  data <~ mint_data token_info_pda x09 ;;
  let svm := put_account mint data token_program svm in
  with_key "8BGFtQLRaY9Nh5BGUwjJvdeXEsscCgJAi5zTgALk1Vg5" (fun currency =>
  data <~ mint_data auth x06 ;;
  let svm := put_account currency data token_program svm in
  data <~ registry_data auth ;;
  let svm := put_account registry_pda data registry_program svm in
  let shard_pda := find_program_address [as_bytes "registry_shard"; [x00]] registry_program in
  data <~ shard_data ;;
  let svm := put_account shard_pda data registry_program svm in
  data <~ token_info_data auth registry_pda registry_program mint ;;
  Ret (Ok (put_account token_info_pda data energy_program svm))))))))
  end.

(** [SurfpoolSolanaProvider::new]: a fresh SVM with the core programs, and the
    URL of the optional RPC client. *)
Definition new (rpc_url : option string) : prog fans (result (Svm * option string) string) :=
  r <~ deploy_core_programs svm_new ;;
  Ret (match r with
       | Err e => Err e
       | Ok svm => Ok (svm, rpc_url)
       end).

End deploy.

End Surfpool.

(** ** Lemmas *)

Section simulation.
Context {J : SerdeJson} {K : SolanaSdk} {C : BlockchainCore}.
Context (cfg : Config).

(** Watches a run of the pipeline: whether a simulation reported an error, and
    whether one failed to run with no signature requested since. *)
Definition sim_watch (m : bool * bool) (e : event bans) : option (bool * bool) :=
  match e with
  | Ev (Simulate _) (Ok sim) => Some (fst m || match sim_err sim with Some _ => true | None => false end, snd m)
  | Ev (Simulate _) (Err _) => Some (fst m, true)
  | Ev (VaultSign _ _) _ => Some (fst m, false)
  | _ => Some m
  end.

Definition sim_end (m : bool * bool) (r : outcome (result (Signature * Z) SignSubmitStage)) : Prop :=
  (forall reason, r = Done (Err (SimulationRejected reason)) -> fst m = true)
  /\ (r = Aborted \/ snd m = false).

(** [log_signers] makes no call. *)
Lemma log_signers_watch m tx F :
  (forall r, F m r) -> obeys sim_watch m (log_signers cfg tx) F.
Proof.
  intros HF. unfold log_signers. destruct (info_enabled cfg); [|apply HF].
  unfold index at 1. destruct (_ !! 0%nat); [|apply HF]. cbn [bind].
  destruct (1 <? _)%nat; [|apply HF].
  generalize (seq 0 (Z.to_nat (num_required_signatures (header (message tx))))).
  intros l. induction l as [|i l IH]; [apply HF|]. cbn. unfold index. destruct (_ !! i); [apply IH|apply HF].
Qed.

Lemma presign_watch tx ident corr :
  obeys sim_watch (false, false) (presign cfg tx ident corr)
    (fun m r => match r with
                | Done (Ok _) => fst m = false
                | Done (Err s) => fst m = true /\ snd m = false /\ exists e, s = SimulationRejected e
                | Aborted => False
                end).
Proof.
  unfold presign. destruct (env_flag _ _); cbn; [done|].
  intros [sim|e]; cbn; [|done]. destruct (sim_err sim); cbn; eauto.
Qed.

Lemma sign_platform_admin_watch tx ident corr :
  obeys sim_watch (false, false) (sign_platform_admin cfg tx ident corr)
    (fun m r => match r with
                | Done (Ok _) => m = (false, false)
                | Done (Err s) => snd m = false /\ forall e, s = SimulationRejected e -> fst m = true
                | Aborted => True
                end).
Proof.
  unfold sign_platform_admin.
  eapply (obeys_bind _ _ _ _ (fun m r => m = (false, false) /\ match r with
            | Done (Err s) => exists e, s = BlockhashRefreshFailed e | _ => True end)); [| |done].
  { unfold fill_blockhash. case_bool_decide; cbn; [|done].
    intros [[bh ?]|]; cbn; [done|]. intros [[bh ?]|e]; cbn; eauto. }
  intros m [tx'|e] [-> He]; cbn beta iota; [|cbn; naive_solver].
  eapply obeys_bind; [apply presign_watch| |done].
  intros [m1 m2] [[]|e]; cbn beta iota; [cbn; intros ->|cbn; naive_solver].
  eapply (obeys_bind _ _ _ _ (fun m _ => m = (false, m2))); [by apply log_signers_watch| |done].
  intros m [] ->. cbn. intros [sig|e]; cbn; [|naive_solver].
  destruct (attach_signature_cases sig tx') as [(-> & _ & _)|(rest & -> & _)]; cbn; done.
Qed.

Lemma sign_and_submit_watch ser key_id ident corr :
  obeys sim_watch (false, false) (sign_and_submit cfg ser key_id ident corr) sim_end.
Proof.
  assert (Hsend : forall tx, obeys sim_watch (false, false) (send_and_audit tx ident corr) sim_end).
  { intros tx. cbn. intros [sig|e]; cbn; unfold sim_end; naive_solver. }
  unfold sign_and_submit. destruct (deserialize_tx ser) as [tx|e]; [|cbn; unfold sim_end; naive_solver].
  destruct (validate_transaction ident tx); [|cbn; unfold sim_end; naive_solver].
  destruct (String.eqb key_id "platform_admin").
  - eapply obeys_bind; [apply sign_platform_admin_watch| |].
    + intros m [sent|e]; cbn beta iota; [intros ->; apply Hsend|]. cbn. unfold sim_end. naive_solver.
    + intros m _. unfold sim_end. naive_solver.
  - destruct (negb _); [cbn; unfold sim_end; naive_solver|apply Hsend].
Qed.

(** No simulation reported an error. *)
Definition sim_clean (e : event bans) : Prop :=
  match e with Ev (Simulate _) (Ok sim) => sim_err sim = None | _ => True end.

(** With no reported simulation error, the first component stays false. *)
Lemma sim_watch_clean tr m m' :
  Forall sim_clean tr ->
  monitor sim_watch m tr = Some m' -> fst m = false -> fst m' = false.
Proof.
  intros Hf. revert m. induction Hf as [|[o x] tr He Hf IH]; intros [a b]; cbn; [by intros [= <-]|].
  destruct o; try destruct x; cbn in *; try (intros Hm ?; by apply (IH _ Hm)).
  rewrite He, orb_false_r. intros Hm ?. by apply (IH _ Hm).
Qed.

(** A failed simulation that is still pending was not followed by a signature. *)
Lemma sim_watch_pending tr m m' :
  monitor sim_watch m tr = Some m' -> snd m = true -> snd m' = false ->
  exists k msg x, Ev (VaultSign k msg) x ∈ tr.
Proof.
  revert m. induction tr as [|[o x] tr IH]; intros m; cbn; [intros [= ->]; congruence|].
  intros Hm Hp Hq. destruct o; try destruct x; cbn in Hm.
  all: try (destruct (IH _ Hm) as (k1 & w1 & y1 & Hy1); [done..|]; exists k1, w1, y1; by right).
  all: eexists _, _, _; left.
Qed.

End simulation.

(** ** The seeded accounts *)

Section seeded.
Context {Op : Type} {Ans : Op -> Type}.

Lemma copy_from_slice_ret a b src v :
  (a <= b <= length v)%nat -> length src = (b - a)%nat ->
  @Surfpool.copy_from_slice Op Ans a b src v = Ret (take a v ++ src ++ drop b v)
  /\ length (take a v ++ src ++ drop b v) = length v.
Proof.
  intros Hab Hl. unfold Surfpool.copy_from_slice.
  destruct (Nat.leb_spec a b); [|lia]. destruct (Nat.leb_spec b (length v)); [|lia].
  rewrite Hl, Nat.eqb_refl. split; [done|]. rewrite !length_app, length_take, length_drop. lia.
Qed.

Lemma store_byte_ret i x v :
  (i < length v)%nat -> @Surfpool.store_byte Op Ans i x v = Ret (<[i := x]> v) /\ length (<[i := x]> v) = length v.
Proof.
  intros Hi. unfold Surfpool.store_byte. destruct (Nat.ltb_spec i (length v)); [|lia].
  by rewrite length_insert.
Qed.

(** A mint account names its authority at 4..36 and its decimals at 44. *)
Lemma mint_data_layout authority decimals :
  length (pubkey_bytes authority) = 32%nat ->
  exists d, @Surfpool.mint_data Op Ans authority decimals = Ret d /\ length d = 82%nat
    /\ of_le_bytes (take 4 d) = 1 /\ take 32 (drop 4 d) = pubkey_bytes authority
    /\ d !! 44%nat = Some decimals /\ d !! 45%nat = Some x01.
Proof.
  destruct authority as [l]. cbn [pubkey_bytes]. intros Hl.
  do 32 (destruct l as [|? l]; [done|]). destruct l; [|done].
  eexists. split; [unfold Surfpool.mint_data; cbn; reflexivity|]. cbn. done.
Qed.

(** The token-info account names the authority, the registry, its program and
    the mint at consecutive offsets. *)
Lemma token_info_layout auth registry_pda registry_program mint :
  length (pubkey_bytes auth) = 32%nat -> length (pubkey_bytes registry_pda) = 32%nat ->
  length (pubkey_bytes registry_program) = 32%nat -> length (pubkey_bytes mint) = 32%nat ->
  exists d, @Surfpool.token_info_data Op Ans auth registry_pda registry_program mint = Ret d
    /\ length d = 320%nat
    /\ take 128 (drop 8 d) = pubkey_bytes auth ++ pubkey_bytes registry_pda
                              ++ pubkey_bytes registry_program ++ pubkey_bytes mint.
Proof.
  destruct auth as [a], registry_pda as [b], registry_program as [c], mint as [d]. cbn [pubkey_bytes].
  intros Ha Hb Hc Hd. unfold Surfpool.token_info_data. cbn [pubkey_bytes].
  do 32 (destruct a as [|? a]; [done|]). do 32 (destruct b as [|? b]; [done|]).
  do 32 (destruct c as [|? c]; [done|]). do 32 (destruct d as [|? d]; [done|]).
  destruct a, b, c, d; try done.
  eexists. split; [cbn; reflexivity|]. cbn. done.
Qed.

Lemma registry_data_ret auth :
  length (pubkey_bytes auth) = 32%nat -> exists d, @Surfpool.registry_data Op Ans auth = Ret d.
Proof.
  intros Ha. unfold Surfpool.registry_data.
  destruct (copy_from_slice_ret 0 8 (byte_of_Z <$> [47; 174; 110; 246; 184; 182; 252; 218]) (replicate 104 x00))
    as [-> Hl]; [rewrite length_replicate; lia|done|].
  cbn [bind]. destruct (copy_from_slice_ret 8 40 (pubkey_bytes auth)
    (take 0 (replicate 104 x00) ++ (byte_of_Z <$> [47; 174; 110; 246; 184; 182; 252; 218]) ++ drop 8 (replicate 104 x00)))
    as [-> _]; [rewrite Hl, length_replicate; lia|done|by eexists].
Qed.

End seeded.

Section deploying.
Context {K : SolanaSdk} {L : LiteSvm} (find_program_address : list bytes -> Pubkey -> Pubkey).

(** Seeding the SVM never panics, whatever program files exist, because every
    key is 32 bytes long. *)
Lemma deploy_never_panics svm tr r :
  (forall s pk, pubkey_from_str s = Ok pk -> length (pubkey_bytes pk) = 32%nat) ->
  (forall seeds pk, length (pubkey_bytes (find_program_address seeds pk)) = 32%nat) ->
  runs (Surfpool.deploy_core_programs find_program_address svm) tr r -> r <> Aborted.
Proof.
  intros Hk Hp. unfold Surfpool.deploy_core_programs.
  assert (Hd : forall l svm, always (fun _ => True) (Surfpool.deploy_programs l svm) (fun r => r <> Aborted)).
  { induction l as [|[id_str path] l IH]; intros svm0; cbn; [done|]. unfold Surfpool.with_key.
    destruct (pubkey_from_str id_str); cbn; [|done]. intros x. split; [done|]. apply IH. }
  intros Hr. eapply (always_runs (fun _ => True) _ (fun r => r <> Aborted)) in Hr as [_ Hr]; [exact Hr|].
  eapply always_bind; [apply Hd| |done]. intros [svm1|e] _; [|done]. unfold Surfpool.with_key.
  destruct (pubkey_from_str _) as [auth|] eqn:E1; [|done].
  destruct (pubkey_from_str "HZR6b8GhzhDowyL6dX58qBjdSDNtFyJHU5dPF3kXDcTS") as [registry|] eqn:E2; [|done].
  destruct (pubkey_from_str "GjSjmPt8VSHr49ti4BijWZSu7rwb8o32pod7gNBnTY4U") as [energy|] eqn:E3; [|done].
  destruct (pubkey_from_str "TokenkegQfeZyiNwAJbNbGKPFXCWuBvf9Ss623VQ5DA") as [token|] eqn:E4; [|done].
  destruct (pubkey_from_str "GpGDVgksF2ivMv3XXR4VZDXRmW9G6agA2AGkKUBQRzk6") as [mint|] eqn:E5; [|done].
  destruct (mint_data_layout (Op := Surfpool.fop) (Ans := Surfpool.fans) _ x09 (Hp [as_bytes "token_info_2022"] energy)) as (d & -> & _).
  cbn [bind]. destruct (pubkey_from_str "8BGFtQLRaY9Nh5BGUwjJvdeXEsscCgJAi5zTgALk1Vg5") as [cur|] eqn:E6; [|done].
  destruct (mint_data_layout (Op := Surfpool.fop) (Ans := Surfpool.fans) auth x06 (Hk _ _ E1)) as (d2 & -> & _). cbn [bind].
  destruct (registry_data_ret (Op := Surfpool.fop) (Ans := Surfpool.fans) auth (Hk _ _ E1)) as (d3 & ->). cbn [bind].
  change (Surfpool.shard_data (Op := Surfpool.fop) (Ans := Surfpool.fans)) with
    (Ret (Ans := Surfpool.fans) ((byte_of_Z <$> [98; 27; 121; 8; 54; 239; 169; 252]) ++ replicate 24 x00)).
  cbn [bind].
  destruct (token_info_layout (Op := Surfpool.fop) (Ans := Surfpool.fans) auth (find_program_address [as_bytes "registry"] registry) registry mint
    (Hk _ _ E1) (Hp _ _) (Hk _ _ E2) (Hk _ _ E5)) as (d5 & -> & _).
  done.
Qed.

End deploying.

(** ** Claims *)

Section simnet_claims.
Context {J : SerdeJson} {JM : JsonMacro} {L : LiteSvm} {K : SolanaSdk} {C : BlockchainCore}.
Context (rpc_client : option (Pubkey -> result Account string)).
Context {E : Type} (env : forall o, E -> bans o * E) (cfg : Config).

Abbreviation on_simnet p s := (run (with_env (Surfpool.simnet rpc_client env)) p s).

Lemma simnet_simulations {A : Type} (p : prog bans A) s :
  Forall sim_clean (fst (fst (on_simnet p s))).
Proof.
  eapply Forall_impl; [apply run_answers|]. intros [o x] [[s1 [svm e]] Hx]. destruct o; try done. unfold sim_clean.
  destruct x as [sim|]; [|done]. unfold with_env, Surfpool.simnet in Hx. cbn in Hx.
  destruct (Surfpool.simulate_transaction rpc_client tx svm) as [x svm'] eqn:Es. cbn in Hx. subst x.
  unfold Surfpool.simulate_transaction in Es.
  destruct (Surfpool.ensure_accounts _ _ _) as [[u|e1] svm1]; [|done].
  destruct (to_versioned tx); simplify_eq. destruct (svm_simulate _ _); by simplify_eq.
Qed.

(** On the simnet the simulation gate is inert.  The Surfpool provider turns
    a transaction that fails simulation into a failed call, which the pipeline
    treats as an unavailable simulator: no run is rejected at the simulation
    stage, and a run that does not panic goes on to ask the Vault for a signature
    on the transaction whose simulation failed. *)
Theorem simnet_gate_inert ser key_id ident corr s :
  let t := on_simnet (sign_and_submit cfg ser key_id ident corr) s in
  (forall reason, snd (fst t) <> Done (Err (SimulationRejected reason)))
  /\ (forall t1 tx err t2, fst (fst t) = t1 ++ Ev (Simulate tx) (Err err) :: t2 ->
        snd (fst t) = Aborted \/ exists k msg x, Ev (VaultSign k msg) x ∈ t2).
Proof.
  cbv zeta. pose proof (run_trace (with_env (Surfpool.simnet rpc_client env))
    (sign_and_submit cfg ser key_id ident corr) s) as Hr.
  pose proof (simnet_simulations (sign_and_submit cfg ser key_id ident corr) s) as Hs.
  destruct (obeys_runs _ _ _ _ _ _ (sign_and_submit_watch _ _ _ _ _) Hr) as (m & Hm & H1 & H2).
  split.
  - intros reason Hreason. apply H1 in Hreason.
    eapply sim_watch_clean in Hm; [|done|done]. congruence.
  - intros t1 tx err t2 Ht. destruct H2 as [H2|H2]; [by left|]. right.
    rewrite Ht, monitor_app in Hm. destruct (monitor _ _ t1) as [m1|]; [|done]. cbn in Hm.
    by eapply sim_watch_pending.
Qed.

(** On the simnet every signature is confirmed.  A status query answers
    found and confirmed at slot 0 for any well-formed signature, sent or not, and
    the confirmation poll of a mint stops after its first query; the level it
    reports is [processed], because the bridge reads the key
    [confirmation_status] and the provider writes [confirmationStatus]. *)
Theorem simnet_confirms_all {JL : JsonMacroLaws} text sig attempts delay s :
  signature_from_str text = Ok sig ->
  snd (fst (on_simnet (signature_status text) s)) = Done (Ok (true, true, "processed", 0))
  /\ snd (fst (on_simnet (resolve_confirmation_bounded sig (S attempts) delay) s)) = Done (Confirmed 0)
  /\ length (fst (fst (on_simnet (resolve_confirmation_bounded sig (S attempts) delay) s))) = 1%nat.
Proof.
  intros Hsig. destruct s as [s [svm e]].
  assert (Hget : forall k, value_get Surfpool.signature_status_value k =
    (<["slot" := json_u64 0]> (<["confirmations" := json_u64 1]> (<["err" := value_null]>
      {[ "confirmationStatus" := json_str "finalized" ]})) : gmap string Value) !! k).
  { intros k. unfold Surfpool.signature_status_value. rewrite get_obj; [done|]. by apply (bool_decide_eq_true_1 _). }
  pose proof (Hget "err") as He. pose proof (Hget "slot") as Hs.
  pose proof (Hget "confirmation_status") as Hc. simplify_map_eq.
  split.
  - unfold signature_status. rewrite Hsig. cbn. unfold value_index.
    by rewrite He, Hs, Hc; cbn; rewrite null_is_null, null_as_str, as_u64_u64 by done.
  - cbn [resolve_confirmation_bounded call bind run].
    change (with_env (Surfpool.simnet rpc_client env) (SigStatuses [sig]) (s, (svm, e)))
      with (Surfpool.get_signature_statuses [sig], (s, (svm, e))).
    cbn. rewrite null_is_null, as_u64_u64 by done. done.
Qed.

End simnet_claims.

(** ** Examples *)

Section examples.
#[local] Existing Instances toy_sdk toy_core demo_serde.

#[local] Instance toy_json : JsonMacro := {|
  json_obj := JObj : list (string * @Value demo_serde) -> @Value demo_serde;
  json_str := JStr : string -> @Value demo_serde;
  json_u64 := JNum : Z -> @Value demo_serde;
  json_f64 := JNum : Z -> @Value demo_serde
|}.

Lemma toy_json_get (l : list (string * json)) k : assoc_get k l = list_to_map (M := gmap string json) l !! k.
Proof.
  induction l as [|[k' v] l IH]; cbn; [done|]. destruct (String.eqb_spec k k') as [->|Hk].
  - by rewrite lookup_insert_eq.
  - by rewrite lookup_insert_ne.
Qed.

#[local] Instance toy_json_laws : JsonMacroLaws.
Proof.
  split; cbn; try done.
  - intros l k _. apply toy_json_get.
  - intros n Hn. by rewrite bool_decide_true.
Qed.

(** An SVM whose simulator refuses everything. *)
#[local] Instance refusing_svm : LiteSvm := {|
  Svm := unit;
  VersionedTx := Transaction;
  to_versioned := Ok;
  svm_new := tt;
  svm_add_program := fun _ _ s => s;
  svm_get_account := fun _ _ => None;
  svm_set_account := fun _ _ s => (Ok tt, s);
  svm_get_balance := fun _ _ => None;
  svm_airdrop := fun _ _ s => (Ok tt, s);
  svm_simulate := fun _ _ => Err "InstructionError";
  svm_send := fun _ s => (Ok tt, s);
  svm_latest_blockhash := fun _ => mkHash (replicate 32 x05)
|}.

(** A refused transaction is signed and accepted all the same. *)
Example simnet_signs_refused :
  snd (fst (run (with_env (Surfpool.simnet None (fixed_env (healthy 1000))))
    (sign_and_submit demo_cfg [x01] "platform_admin" demo_ident "c1") (bridge_new, (tt, tt))))
  = Done (Ok (sig_of_byte x09, 0)).
Proof. vm_compute. reflexivity. Qed.

Lemma simnet_confirms_all_witness :
  exists sig, signature_from_str "sig" = Ok sig
  /\ snd (fst (run (with_env (Surfpool.simnet None (fixed_env (healthy 1000)))) (signature_status "sig")
       (bridge_new, (tt, tt)))) = Done (Ok (true, true, "processed", 0)).
Proof.
  eexists. split; [reflexivity|].
  refine (proj1 (simnet_confirms_all None (fixed_env (healthy 1000)) "sig" _ 0 0 (bridge_new, (tt, tt)) _)).
  reflexivity.
Defined.

End examples.
