(* ===== verification/Sha256.v ===== *)
(** * SHA-256 and the account discriminators (scratch/calc_disc.rs)

    The bridge hashes with the [sha2] crate and with the Solana SDK's [hashv];
    both are SHA-256 (FIPS 180-4), which is code outside the repository, so the
    components take the hash as a parameter ([Domain.AuditHashing]).  This file
    writes the standard out as an executable function, so that statements about
    the hash can be evaluated: it shows that the parameter's laws can hold, and it
    runs the repository's own calculation of the Anchor account discriminators
    that the simnet fixtures hard-code. *)

From S2P Require Import Prelude RustStd Effects Domain External BridgeOps Fixtures Providers.
From Stdlib Require String.
Import String.StringSyntax.

Local Open Scope Z_scope.

Module Sha256.

(** ** 32-bit words, as [Z] below 2^32 *)

Definition word (z : Z) : Z := z mod 2 ^ 32.

Definition add32 (x y : Z) : Z := word (x + y).

Definition rotr (n x : Z) : Z := Z.lor (Z.shiftr x n) (word (Z.shiftl x (32 - n))).

Definition Ch (x y z : Z) : Z := Z.lxor (Z.land x y) (Z.land (Z.lxor x (2 ^ 32 - 1)) z).

Definition Maj (x y z : Z) : Z := Z.lxor (Z.lxor (Z.land x y) (Z.land x z)) (Z.land y z).

Definition Sigma0 (x : Z) : Z := Z.lxor (Z.lxor (rotr 2 x) (rotr 13 x)) (rotr 22 x).

Definition Sigma1 (x : Z) : Z := Z.lxor (Z.lxor (rotr 6 x) (rotr 11 x)) (rotr 25 x).

Definition sigma0 (x : Z) : Z := Z.lxor (Z.lxor (rotr 7 x) (rotr 18 x)) (Z.shiftr x 3).

Definition sigma1 (x : Z) : Z := Z.lxor (Z.lxor (rotr 17 x) (rotr 19 x)) (Z.shiftr x 10).

(** ** The constants, computed from their definition

    The first 32 bits of the fractional parts of the square roots of the first 8
    primes, and of the cube roots of the first 64. *)

Definition is_prime (n : nat) : bool :=
  (2 <=? n)%nat && forallb (fun d => negb (n mod d =? 0)%nat) (seq 2 (n - 2)).

Definition primes64 : list Z := Z.of_nat <$> List.filter is_prime (seq 2 310).

(** Integer cube root, one binary digit at a time from digit [n - 1]. *)
Fixpoint cbrt_from (n : nat) (acc x : Z) : Z :=
  match n with
  | O => acc
  | S n =>
      let acc' := acc + 2 ^ Z.of_nat n in
      cbrt_from n (if acc' * acc' * acc' <=? x then acc' else acc) x
  end.

Definition H0 : list Z :=
  Eval vm_compute in (fun p => word (Z.sqrt (p * 2 ^ 64))) <$> take 8 primes64.

Definition K : list Z :=
  Eval vm_compute in (fun p => word (cbrt_from 36 0 (p * 2 ^ 96))) <$> primes64.

(** ** Padding and blocks *)

Fixpoint be_bytes (n : nat) (z : Z) : bytes :=
  match n with
  | O => []
  | S n => byte_of_Z (z / 256 ^ Z.of_nat n) :: be_bytes n z
  end.

(** A one bit, zeros, and the length in bits as a 64-bit big-endian number. *)
Definition pad (m : bytes) : bytes :=
  let n := Z.of_nat (length m) in
  m ++ [x80] ++ replicate (Z.to_nat ((55 - n) mod 64)) x00 ++ be_bytes 8 (8 * n).

(** Big-endian words of a byte string. *)
Fixpoint words (l : bytes) : list Z :=
  match l with
  | a :: b :: c :: d :: l =>
      (((byte_to_Z a * 256 + byte_to_Z b) * 256 + byte_to_Z c) * 256 + byte_to_Z d) :: words l
  | _ => []
  end.

(** Blocks of 16 words. *)
Fixpoint blocks (n : nat) (ws : list Z) : list (list Z) :=
  match n with
  | O => []
  | S n => take 16 ws :: blocks n (drop 16 ws)
  end.

(** ** Compression *)

(** The message schedule, newest word first, extended [n] times. *)
Fixpoint schedule (n : nat) (w : list Z) : list Z :=
  match n with
  | O => w
  | S n =>
      let at_ i := nth i w 0 in
      schedule n (add32 (add32 (sigma1 (at_ 1%nat)) (at_ 6%nat))
                        (add32 (sigma0 (at_ 14%nat)) (at_ 15%nat)) :: w)
  end.

Record regs := mkRegs { ra : Z; rb : Z; rc : Z; rd : Z; re : Z; rf : Z; rg : Z; rh : Z }.

Definition round (r : regs) (kw : Z * Z) : regs :=
  let t1 := add32 (add32 (add32 (rh r) (Sigma1 (re r))) (Ch (re r) (rf r) (rg r)))
                  (add32 (fst kw) (snd kw)) in
  let t2 := add32 (Sigma0 (ra r)) (Maj (ra r) (rb r) (rc r)) in
  mkRegs (add32 t1 t2) (ra r) (rb r) (rc r) (add32 (rd r) t1) (re r) (rf r) (rg r).

Definition compress (r : regs) (block : list Z) : regs :=
  let w := rev (schedule 48 (rev block)) in
  let r' := foldl round r (zip K w) in
  mkRegs (add32 (ra r) (ra r')) (add32 (rb r) (rb r')) (add32 (rc r) (rc r'))
         (add32 (rd r) (rd r')) (add32 (re r) (re r')) (add32 (rf r) (rf r'))
         (add32 (rg r) (rg r')) (add32 (rh r) (rh r')).

Definition initial : regs :=
  Eval vm_compute in
  match H0 with
  | [a; b; c; d; e; f; g; h] => mkRegs a b c d e f g h
  | _ => mkRegs 0 0 0 0 0 0 0 0
  end.

Definition digest (m : bytes) : bytes :=
  let p := pad m in
  let r := foldl compress initial (blocks (length p / 64) (words p)) in
  mjoin (be_bytes 4 <$> [ra r; rb r; rc r; rd r; re r; rf r; rg r; rh r]).

(** ** Facts *)

Lemma length_be_bytes n z : length (be_bytes n z) = n.
Proof. induction n; cbn; congruence. Qed.

(** A padded message is a whole number of 64-byte blocks. *)
Lemma length_pad m : (length (pad m) mod 64 = 0)%nat.
Proof.
  unfold pad. rewrite !length_app, length_replicate, length_be_bytes. cbn [length].
  apply Nat2Z.inj. rewrite Nat2Z.inj_mod, !Nat2Z.inj_add, Z2Nat.id
    by (apply Z.mod_pos_bound; lia).
  set (n := Z.of_nat (length m)). change (Z.of_nat 64) with 64. change (Z.of_nat 0) with 0.
  replace (n + (Z.of_nat 1 + ((55 - n) mod 64 + Z.of_nat 8))) with ((9 + n) + (55 - n) mod 64) by lia.
  rewrite Zplus_mod_idemp_r. replace (9 + n + (55 - n)) with 64 by lia. reflexivity.
Qed.

Lemma length_digest m : length (digest m) = 32%nat.
Proof. reflexivity. Qed.

(** The constants are the published ones. *)
Example constants :
  length K = 64%nat /\ head K = Some 0x428a2f98 /\ last K = Some 0xc67178f2
  /\ head H0 = Some 0x6a09e667 /\ last H0 = Some 0x5be0cd19.
Proof. vm_compute. repeat split; reflexivity. Qed.

Example digest_empty :
  hex_string (digest []) = "e3b0c44298fc1c149afbf4c8996fb92427ae41e4649b934ca495991b7852b855".
Proof. vm_compute. reflexivity. Qed.

Example digest_abc :
  hex_string (digest (as_bytes "abc")) = "ba7816bf8f01cfea414140de5dae2223b00361a396177a9cb410ff61f20015ad".
Proof. vm_compute. reflexivity. Qed.

(** Two blocks. *)
Example digest_two_blocks :
  hex_string (digest (as_bytes "abcdbcdecdefdefgefghfghighijhijkijkljklmklmnlmnomnopnopq"))
  = "248d6a61d20638b8e5c026930c3e6039a33ce45964ff2167f6ecedd419db06c1".
Proof. vm_compute. reflexivity. Qed.

End Sha256.

(** ** The hasher the source uses, with SHA-256 behind it *)

Section calc_disc.

(** [Sha256::new], [update] with each chunk, [finalize]. *)
Variable sha256 : bytes -> bytes.

(** [&result[..8]] of the hash of one name. *)
Definition discriminator (name : string) : bytes :=
  let hasher := [] in
  let hasher := hasher ++ as_bytes name in
  let result := sha256 hasher in
  take 8 result.

(** [{:?}] of a byte slice. *)
Definition debug_bytes (l : bytes) : string :=
  "[" +:+ String.concat ", " ((fun b => pretty (byte_to_Z b)) <$> l) +:+ "]".

(** The two lines the program prints. *)
Definition calc_disc_main : list string :=
  ["Registry Discriminator: " +:+ debug_bytes (discriminator "account:Registry");
   "RegistryShard Discriminator: " +:+ debug_bytes (discriminator "account:RegistryShard")].

End calc_disc.

(** ** SHA-256 behind the audit trail *)

(** [serde_json::to_string] of an outcome: an externally tagged enum, strings
    escaped. *)
Definition dq : string := String "034"%char EmptyString.

Definition escape_char (c : ascii) : string :=
  let n := nat_of_ascii c in
  if (n =? 34)%nat || (n =? 92)%nat then String "092"%char (String c EmptyString)
  else if (n <? 32)%nat then
    match n with
    | 8%nat => "\b" | 9%nat => "\t" | 10%nat => "\n" | 12%nat => "\f" | 13%nat => "\r"
    | _ => "\u00" +:+ hex_byte (byte_of_Z (Z.of_nat n))
    end
  else String c EmptyString.

Fixpoint escape (s : string) : string :=
  match s with
  | EmptyString => EmptyString
  | String c s => escape_char c +:+ escape s
  end.

Definition quoted (s : string) : string := dq +:+ escape s +:+ dq.

Definition outcome_serde_json (o : AuditOutcome) : string :=
  match o with
  | Submitted signature slot =>
      "{" +:+ quoted "Submitted" +:+ ":{" +:+ quoted "signature" +:+ ":" +:+ quoted signature
      +:+ "," +:+ quoted "slot" +:+ ":" +:+ pretty slot +:+ "}}"
  | Rejected stage reason =>
      "{" +:+ quoted "Rejected" +:+ ":{" +:+ quoted "stage" +:+ ":" +:+ quoted stage
      +:+ "," +:+ quoted "reason" +:+ ":" +:+ quoted reason +:+ "}}"
  end.

(** [hashv] hashes the concatenation of its slices. *)
Definition sha256_hashv (l : list bytes) : bytes := Sha256.digest (mjoin l).

Lemma sha256_hashv_concat l : sha256_hashv l = sha256_hashv [mjoin l].
Proof. unfold sha256_hashv. f_equal. symmetry. apply app_nil_r. Qed.

Definition sha256_hashing : AuditHashing := {|
  hashv := sha256_hashv;
  outcome_to_json := fun o => Ok (outcome_serde_json o);
  hashv_concat := sha256_hashv_concat;
  hashv_length := fun l => Sha256.length_digest (mjoin l)
|}.

(** ** The discriminators *)

Example calc_disc_prints :
  calc_disc_main Sha256.digest =
    ["Registry Discriminator: [47, 174, 110, 246, 184, 182, 252, 218]";
     "RegistryShard Discriminator: [98, 27, 121, 8, 54, 239, 169, 252]"].
Proof. vm_compute. reflexivity. Qed.

(** The accounts the simnet is seeded with start with the discriminators Anchor
    derives from their names. *)
Section seeded_accounts.
Context {Op : Type} {Ans : Op -> Type}.

Lemma registry_data_disc auth :
  length (pubkey_bytes auth) = 32%nat ->
  exists d, @Surfpool.registry_data Op Ans auth = Ret d /\ length d = 104%nat
    /\ take 8 d = discriminator Sha256.digest "account:Registry".
Proof.
  destruct auth as [l]. cbn [pubkey_bytes]. intros Hl.
  do 32 (destruct l as [|? l]; [done|]). destruct l; [|done].
  eexists. split; [cbn; reflexivity|]. split; [reflexivity|]. vm_compute. reflexivity.
Qed.

Lemma shard_data_disc :
  exists d, @Surfpool.shard_data Op Ans = Ret d /\ length d = 32%nat
    /\ take 8 d = discriminator Sha256.digest "account:RegistryShard".
Proof. eexists. split; [cbn; reflexivity|]. split; [reflexivity|]. vm_compute. reflexivity. Qed.

Lemma token_info_disc auth registry_pda registry_program mint :
  Forall (fun k => length (pubkey_bytes k) = 32%nat) [auth; registry_pda; registry_program; mint] ->
  exists d, @Surfpool.token_info_data Op Ans auth registry_pda registry_program mint = Ret d
    /\ length d = 320%nat /\ take 8 d = discriminator Sha256.digest "account:TokenInfo".
Proof.
  rewrite !Forall_cons. intros (Ha & Hb & Hc & Hd & _).
  destruct (token_info_layout (Ans := Ans) auth registry_pda registry_program mint Ha Hb Hc Hd)
    as (d & E & Hl & _).
  exists d. split; [exact E|]. split; [exact Hl|]. revert E Ha Hb Hc Hd. clear.
  destruct auth as [a], registry_pda as [b], registry_program as [c], mint as [e].
  unfold Surfpool.token_info_data. cbn [pubkey_bytes]. intros E Ha Hb Hc Hd.
  do 32 (destruct a as [|? a]; [done|]). do 32 (destruct b as [|? b]; [done|]).
  do 32 (destruct c as [|? c]; [done|]). do 32 (destruct e as [|? e]; [done|]).
  destruct a, b, c, e; try done. cbn in E. injection E as <-. vm_compute. reflexivity.
Qed.

End seeded_accounts.

(** The account data [deploy_core_programs] seeds the simnet with carries, in its
    first eight bytes, the discriminators of Anchor, the first eight bytes of the
    SHA-256 of [account:] and the type's name: the registry (104 bytes) and its
    shard (32 bytes), with exactly the two discriminators scratch/calc_disc.rs
    computes and prints, and the token info account (320 bytes), whose discriminator
    provider.rs only has as a constant.  The seeding does not panic. *)
Theorem seeded_discriminators {Op : Type} {Ans : Op -> Type} (auth registry_pda registry_program mint : Pubkey) :
  Forall (fun k => length (pubkey_bytes k) = 32%nat) [auth; registry_pda; registry_program; mint] ->
  exists d1 d2 d3,
    @Surfpool.registry_data Op Ans auth = Ret d1
    /\ @Surfpool.shard_data Op Ans = Ret d2
    /\ @Surfpool.token_info_data Op Ans auth registry_pda registry_program mint = Ret d3
    /\ length d1 = 104%nat /\ length d2 = 32%nat /\ length d3 = 320%nat
    /\ calc_disc_main Sha256.digest
       = ["Registry Discriminator: " +:+ debug_bytes (take 8 d1);
          "RegistryShard Discriminator: " +:+ debug_bytes (take 8 d2)]
    /\ take 8 d3 = discriminator Sha256.digest "account:TokenInfo".
Proof.
  intros Hk. destruct (registry_data_disc (Ans := Ans) auth) as (d1 & E1 & L1 & D1).
  { by apply Forall_inv in Hk. }
  destruct (shard_data_disc (Ans := Ans)) as (d2 & E2 & L2 & D2).
  destruct (token_info_disc (Ans := Ans) _ _ _ _ Hk) as (d3 & E3 & L3 & D3).
  exists d1, d2, d3. rewrite D1, D2. done.
Qed.

Lemma seeded_discriminators_witness :
  exists d1 d2 d3,
    @Surfpool.registry_data Surfpool.fop Surfpool.fans admin_key = Ret d1
    /\ @Surfpool.shard_data Surfpool.fop Surfpool.fans = Ret d2
    /\ @Surfpool.token_info_data Surfpool.fop Surfpool.fans admin_key admin_key admin_key admin_key = Ret d3
    /\ length d1 = 104%nat /\ length d2 = 32%nat /\ length d3 = 320%nat
    /\ calc_disc_main Sha256.digest
       = ["Registry Discriminator: " +:+ debug_bytes (take 8 d1);
          "RegistryShard Discriminator: " +:+ debug_bytes (take 8 d2)]
    /\ take 8 d3 = discriminator Sha256.digest "account:TokenInfo".
Proof. apply (seeded_discriminators admin_key admin_key admin_key admin_key). repeat constructor. Defined.
