(* ===== verification/RpcProvider.v ===== *)
(** * The RPC provider (crates/chain-bridge-api/src/api/provider.rs)

    [RealSolanaProvider]: the twelve methods of the [SolanaProvider] trait over the
    non-blocking RPC client.  The client is the environment; each call of it is
    recorded with the client it was made on, because the commitment level a read
    is answered at belongs to the client. *)

From S2P Require Import Prelude RustStd Effects Domain External BridgeOps Fixtures.
From Stdlib Require String.
Import String.StringSyntax.

Local Open Scope Z_scope.

(** ** The RPC client *)

Inductive CommitmentLevel : Type := AtProcessed | AtConfirmed | AtFinalized.

#[export] Instance CommitmentLevel_eq_dec : EqDecision CommitmentLevel.
Proof. solve_decision. Defined.

Record RpcClient := mkRpcClient { rpc_url : string; commitment : CommitmentLevel }.

Inductive UiTransactionEncoding : Type := EncodingJson | EncodingOther.

Record RpcTransactionConfig := mkTxConfig {
  encoding : option UiTransactionEncoding;
  config_commitment : option CommitmentLevel;
  max_supported_transaction_version : option Z
}.

(** The client's own response types and their [serde_json::to_value], and the
    level [RpcClient::new] reads at. *)
Class RpcTypes `{SerdeJson} := {
  UiTokenAmount : Type;
  TransactionStatus : Type;
  ConfirmedTransaction : Type;
  token_amount_to_value : UiTokenAmount -> result Value string;
  status_to_value : TransactionStatus -> result Value string;
  transaction_to_value : ConfirmedTransaction -> result Value string;
  default_commitment : CommitmentLevel
}.

(** Documented: a client made without a level reads finalized state. *)
Class RpcTypesLaws `{RpcTypes} := { default_is_finalized : default_commitment = AtFinalized }.

Inductive nop : Type :=
| NodeSimulate (c : RpcClient) (tx : Transaction)
| NodeSend (c : RpcClient) (tx : Transaction)
| NodeLatestBlockhash (c : RpcClient) (level : CommitmentLevel)
| NodeBalance (c : RpcClient) (pk : Pubkey)
| NodeAccount (c : RpcClient) (pk : Pubkey)
| NodeFees (c : RpcClient) (pks : list Pubkey)
| NodeTokenBalance (c : RpcClient) (pk : Pubkey)
| NodeStatuses (c : RpcClient) (sigs : list Signature)
| NodeSlot (c : RpcClient)
| NodeAirdrop (c : RpcClient) (pk : Pubkey) (amount : Z)
| NodeTransaction (c : RpcClient) (sig : Signature) (config : RpcTransactionConfig)
| NodeEpochInfo (c : RpcClient).

(** The client a call is made on. *)
Definition node_client (o : nop) : RpcClient :=
  match o with
  | NodeSimulate c _ | NodeSend c _ | NodeLatestBlockhash c _ | NodeBalance c _ | NodeAccount c _
  | NodeFees c _ | NodeTokenBalance c _ | NodeStatuses c _ | NodeSlot c | NodeAirdrop c _ _
  | NodeTransaction c _ _ | NodeEpochInfo c => c
  end.

Section client.
Context {J : SerdeJson} {T : RpcTypes}.

Definition nans (o : nop) : Type :=
  match o with
  | NodeSimulate _ _ => result SimResult string
  | NodeSend _ _ => result Signature string
  | NodeLatestBlockhash _ _ => result (Hash * Z) string
  | NodeBalance _ _ => result Z string
  | NodeAccount _ _ => result Account string
  | NodeFees _ _ => result (list PrioritizationFee) string
  | NodeTokenBalance _ _ => result UiTokenAmount string
  | NodeStatuses _ _ => result (list (option TransactionStatus)) string
  | NodeSlot _ => result Z string
  | NodeAirdrop _ _ _ => result Signature string
  | NodeTransaction _ _ _ => result ConfirmedTransaction string
  | NodeEpochInfo _ => result EpochInfo string
  end.

(** [RpcClient::new(url)] and [RpcClient::new_with_commitment(url, level)]. *)
Definition rpc_client_new (url : string) : RpcClient := mkRpcClient url default_commitment.
Definition rpc_client_new_with_commitment (url : string) (level : CommitmentLevel) : RpcClient :=
  mkRpcClient url level.

(** A call whose answer is converted with [f], errors as they are. *)
Definition node_call {A B : Type} (p : prog nans (result A string)) (f : A -> result B string)
  : prog nans (result B string) :=
  r <~ p ;;
  Ret (match r with
       | Ok a => f a
       | Err e => Err e
       end).

(** ** RealSolanaProvider *)

Record RealSolanaProvider := mkReal { client : RpcClient }.

Definition real_new (url : string) : RealSolanaProvider :=
  mkReal (rpc_client_new_with_commitment url AtConfirmed).

Section methods.
Context (self : RealSolanaProvider).

(** The lines it logs name the accounts of each instruction; an index out of
    range is skipped. *)
Definition real_simulate_transaction (tx : Transaction) : prog nans (result SimResult string) :=
  call (NodeSimulate (client self) tx).

Definition real_send_transaction (tx : Transaction) : prog nans (result Signature string) :=
  call (NodeSend (client self) tx).

Definition real_get_latest_blockhash : prog nans (result (Hash * Z) string) :=
  call (NodeLatestBlockhash (client self) (commitment (client self))).

Definition real_get_balance (pk : Pubkey) : prog nans (result Z string) :=
  call (NodeBalance (client self) pk).

Definition real_get_account (pk : Pubkey) : prog nans (result Account string) :=
  call (NodeAccount (client self) pk).

Definition real_get_recent_prioritization_fees (pks : list Pubkey) : prog nans (result (list PrioritizationFee) string) :=
  call (NodeFees (client self) pks).

Definition real_get_token_account_balance (pk : Pubkey) : prog nans (result Value string) :=
  node_call (call (NodeTokenBalance (client self) pk))
    (fun b => map_err (fun e => "serialize token balance: " +:+ e) (token_amount_to_value b)).

(** [opt.map(serde_json::to_value).transpose()]. *)
Definition transpose_status (o : option TransactionStatus) : result (option Value) string :=
  match o with
  | None => Ok None
  | Some t => match status_to_value t with Ok v => Ok (Some v) | Err e => Err e end
  end.

Definition real_get_signature_statuses (sigs : list Signature) : prog nans (result (list (option Value)) string) :=
  node_call (call (NodeStatuses (client self) sigs))
    (fun l => map_err (fun e => "serialize signature status: " +:+ e) (collect transpose_status l)).

Definition real_get_slot : prog nans (result Z string) :=
  call (NodeSlot (client self)).

Definition real_request_airdrop (pk : Pubkey) (amount : Z) : prog nans (result Signature string) :=
  call (NodeAirdrop (client self) pk amount).

Definition real_get_transaction (sig : Signature) : prog nans (result Value string) :=
  node_call (call (NodeTransaction (client self) sig
                     (mkTxConfig (Some EncodingJson) (Some (commitment (client self))) (Some 0))))
    (fun tx => map_err (fun e => "serialize transaction: " +:+ e) (transaction_to_value tx)).

Definition real_get_epoch_info : prog nans (result EpochInfo string) :=
  node_call (call (NodeEpochInfo (client self)))
    (fun info => Ok (mkEpoch (absolute_slot info) (block_height info) (epoch info) (slots_in_epoch info)
                       (slot_index info) (transaction_count info))).

(** [impl SolanaProvider for RealSolanaProvider]: the provider calls of the
    bridge, [None] for the others. *)
Definition real_provider (o : bop) : option (prog nans (bans o)) :=
  match o with
  | Simulate tx => Some (real_simulate_transaction tx)
  | SendTx tx => Some (real_send_transaction tx)
  | LatestBlockhash => Some real_get_latest_blockhash
  | GetBalance pk => Some (real_get_balance pk)
  | GetAccount pk => Some (real_get_account pk)
  | GetFees pks => Some (real_get_recent_prioritization_fees pks)
  | GetTokenBalance pk => Some (real_get_token_account_balance pk)
  | SigStatuses sigs => Some (real_get_signature_statuses sigs)
  | GetSlot => Some real_get_slot
  | RequestAirdrop pk amount => Some (real_request_airdrop pk amount)
  | GetTransaction sig => Some (real_get_transaction sig)
  | GetEpochInfo => Some real_get_epoch_info
  | _ => None
  end.

End methods.

(** ** Vocabulary *)

(** The calls of the trait. *)
Definition provider_call (o : bop) : bool :=
  match o with
  | Simulate _ | SendTx _ | LatestBlockhash | GetBalance _ | GetAccount _ | GetFees _ | GetTokenBalance _
  | SigStatuses _ | GetSlot | RequestAirdrop _ _ | GetTransaction _ | GetEpochInfo => true
  | _ => false
  end.

(** Which node call serves a provider call. *)
Definition serves (c : RpcClient) (o : bop) (n : nop) : Prop :=
  match o, n with
  | Simulate tx, NodeSimulate c' tx' => c' = c /\ tx' = tx
  | SendTx tx, NodeSend c' tx' => c' = c /\ tx' = tx
  | LatestBlockhash, NodeLatestBlockhash c' level => c' = c /\ level = commitment c
  | GetBalance pk, NodeBalance c' pk' | GetAccount pk, NodeAccount c' pk'
  | GetTokenBalance pk, NodeTokenBalance c' pk' => c' = c /\ pk' = pk
  | GetFees pks, NodeFees c' pks' => c' = c /\ pks' = pks
  | SigStatuses sigs, NodeStatuses c' sigs' => c' = c /\ sigs' = sigs
  | GetSlot, NodeSlot c' | GetEpochInfo, NodeEpochInfo c' => c' = c
  | RequestAirdrop pk amount, NodeAirdrop c' pk' amount' => c' = c /\ pk' = pk /\ amount' = amount
  | GetTransaction sig, NodeTransaction c' sig' config =>
      c' = c /\ sig' = sig /\ config_commitment config = Some (commitment c)
  | _, _ => False
  end.

Lemma real_provider_defined self o :
  provider_call o = true <-> is_Some (real_provider self o).
Proof. destruct o; cbn; split; intros H; try done; try (by eexists); by destruct H. Qed.

(** One node call per provider call, on the provider's client, with the caller's
    arguments and at the client's level. *)
Lemma real_provider_runs self o p tr r :
  real_provider self o = Some p -> runs p tr r ->
  (exists x, r = Done x) /\ exists n y, tr = [Ev n y] /\ serves (client self) o n.
Proof.
  destruct o; cbn; intros [= <-]; cbn; intros (x & t & -> & -> & ->); (split; [by eexists|]);
    (match goal with |- context [[Ev ?n ?y]] => exists n, y end); (split; [reflexivity|]); cbn; repeat split.
Qed.

Lemma real_provider_no_panic self o p tr : real_provider self o = Some p -> ~ runs p tr Aborted.
Proof. intros Hp Hr. by destruct (real_provider_runs _ _ _ _ _ Hp Hr) as [[x ?] _]. Qed.

(** A status list is converted element by element, in order; one status that does
    not serialise fails the call. *)
Lemma collect_statuses l :
  match collect transpose_status l with
  | Ok vs => Forall2 (fun o v => match o, v with
                                 | None, None => True
                                 | Some t, Some v => status_to_value t = Ok v
                                 | _, _ => False
                                 end) l vs
  | Err e => exists t, Some t ∈ l /\ status_to_value t = Err e
  end.
Proof.
  induction l as [|o l IH]; cbn; [constructor|]. destruct o as [t|]; cbn.
  - destruct (status_to_value t) as [v|e] eqn:Ht; cbn; [|exists t; split; [left|done]].
    destruct (collect transpose_status l); cbn; [by constructor|].
    destruct IH as (t' & ? & ?). exists t'. split; [by right|done].
  - destruct (collect transpose_status l); cbn; [by constructor|].
    destruct IH as (t' & ? & ?). exists t'. split; [by right|done].
Qed.

End client.
