(* ===== verification/Stack.v ===== *)
(** * The whole stack: pipeline, Vault client, RPC provider

    The signing pipeline speaks to a [VaultProvider] and a [SolanaProvider].  Here
    both are plugged in: [stack] answers each provider call with the code of
    RpcProvider.v and each Vault call with the code of Vault.v, and [interp] runs
    the pipeline over it, so that a trace is what goes over the wire: HTTP
    requests to the Vault and RPC requests to the node. *)

From S2P Require Import Prelude RustStd Effects Domain External BridgeOps Fixtures Signing SigningSpec Vault RpcProvider.
From Stdlib Require String.
Import String.StringSyntax.

Local Open Scope Z_scope.

(** ** The wire signature *)

Inductive wop : Type :=
| Node (o : nop)
| VaultHttp (o : vop)
| Own (o : bop).

Section stack.
Context {J : SerdeJson} {T : RpcTypes} {B : Base64}.

Definition wans (o : wop) : Type :=
  match o with
  | Node o => nans o
  | VaultHttp o => vans o
  | Own o => bans o
  end.

Definition node_ev (e : event nans) : event wans := match e with Ev o x => @Ev wop wans (Node o) x end.
Definition vault_ev (e : event vans) : event wans := match e with Ev o x => @Ev wop wans (VaultHttp o) x end.

Definition on_node {A : Type} (p : prog nans A) : prog wans A :=
  interp (fun o => call (Ans := wans) (Node o)) p.
Definition on_vault {A : Type} (p : prog vans A) : prog wans A :=
  interp (fun o => call (Ans := wans) (VaultHttp o)) p.

Lemma on_node_runs {A : Type} (p : prog nans A) u r :
  runs (on_node p) u r <-> exists t, u = node_ev <$> t /\ runs p t r.
Proof.
  revert u. induction p as [a| |o k IH]; intros u; cbn.
  - split; [intros [-> ->]; by exists []|intros (t & -> & -> & ->); done].
  - split; [intros [-> ->]; by exists []|intros (t & -> & -> & ->); done].
  - split.
    + intros (x & u' & -> & (t & -> & Hr)%IH). exists (Ev o x :: t). split; [done|]. cbn. eauto.
    + intros (t & -> & (x & t' & -> & Hr)). cbn. exists x, (node_ev <$> t'). split; [done|]. apply IH. eauto.
Qed.

Lemma on_vault_runs {A : Type} (p : prog vans A) u r :
  runs (on_vault p) u r <-> exists t, u = vault_ev <$> t /\ runs p t r.
Proof.
  revert u. induction p as [a| |o k IH]; intros u; cbn.
  - split; [intros [-> ->]; by exists []|intros (t & -> & -> & ->); done].
  - split; [intros [-> ->]; by exists []|intros (t & -> & -> & ->); done].
  - split.
    + intros (x & u' & -> & (t & -> & Hr)%IH). exists (Ev o x :: t). split; [done|]. cbn. eauto.
    + intros (t & -> & (x & t' & -> & Hr)). cbn. exists x, (vault_ev <$> t'). split; [done|]. apply IH. eauto.
Qed.

(** ** The handler *)

Context (self : RealSolanaProvider) (vault : VaultProvider).

(** What the Vault provider answers, with the error texts the pipeline sees: a
    failed signature by its outermost message, a failed key lookup by its chain. *)
Definition stack (o : bop) : prog wans (bans o) :=
  match o with
  | VaultSign k m => r <~ on_vault (provider_sign vault k m) ;; Ret (map_err any_to_string r)
  | VaultPubkey k => r <~ on_vault (provider_public_key vault k) ;; Ret (map_err any_display r)
  | o => match real_provider self o with
         | Some p => on_node p
         | None => call (Ans := wans) (Own o)
         end
  end.

(** A provider that does not panic. *)
Definition vault_safe : Prop :=
  (forall k m t, ~ runs (provider_sign vault k m) t Aborted)
  /\ (forall k t, ~ runs (provider_public_key vault k) t Aborted).

Lemma on_vault_map_runs {A B' : Type} (p : prog vans A) (f : A -> B') u x :
  runs (r <~ on_vault p ;; Ret (f r)) u (Done x) -> exists t a, u = vault_ev <$> t /\ runs p t (Done a) /\ x = f a.
Proof.
  intros [(a & t1 & t2 & -> & (t & -> & Hr)%on_vault_runs & [-> [= ->]])|[_ ?]]%runs_bind; [|done].
  rewrite app_nil_r. eauto.
Qed.

(** Node requests are made only for provider calls, by the code of the provider. *)
Lemma stack_node_ev o s x n y :
  runs (stack o) s (Done x) -> @Ev wop wans (Node n) y ∈ s -> serves (client self) o n.
Proof.
  assert (Hno : forall t : list (event vans), @Ev wop wans (Node n) y ∉ vault_ev <$> t).
  { intros t ([? ?] & Heq & _)%list_elem_of_fmap. apply (f_equal ev_op) in Heq. done. }
  intros Hr Hin. destruct o; cbn [stack] in Hr;
    try (apply on_vault_map_runs in Hr as (t & a & -> & _ & _); by destruct (Hno t));
    match type of Hr with context [real_provider self ?o] =>
      destruct (real_provider self o) as [p|] eqn:Hp end;
    try (destruct Hr as (z & t & -> & -> & _); apply list_elem_of_singleton in Hin;
         apply (f_equal ev_op) in Hin; discriminate Hin);
    apply on_node_runs in Hr as (t & -> & Hr); destruct (real_provider_runs _ _ _ _ _ Hp Hr) as (_ & n' & z & -> & Hs);
    apply list_elem_of_singleton in Hin; apply (f_equal ev_op) in Hin; cbn in Hin; injection Hin as ->; exact Hs.
Qed.

(** Vault requests are made only for Vault calls. *)
Lemma stack_vault_ev o s x n y :
  runs (stack o) s (Done x) -> @Ev wop wans (VaultHttp n) y ∈ s ->
  match o with VaultSign _ _ | VaultPubkey _ => True | _ => False end.
Proof.
  assert (Hno : forall t : list (event nans), @Ev wop wans (VaultHttp n) y ∉ node_ev <$> t).
  { intros t ([? ?] & Heq & _)%list_elem_of_fmap. apply (f_equal ev_op) in Heq. done. }
  intros Hr Hin. destruct o; try exact I; cbn [stack] in Hr;
    match type of Hr with context [real_provider self ?o] =>
      destruct (real_provider self o) as [p|] eqn:Hp end;
    try (apply on_node_runs in Hr as (t & -> & _); by destruct (Hno t));
    destruct Hr as (z & t & -> & -> & _); apply list_elem_of_singleton in Hin;
    apply (f_equal ev_op) in Hin; discriminate Hin.
Qed.

Lemma stack_no_panic : vault_safe -> forall o t, ~ runs (stack o) t Aborted.
Proof.
  intros [Hs Hk] o t Hr.
  assert (Hv : forall A (p : prog vans A) B' (f : A -> B'), (forall t, ~ runs p t Aborted) ->
    ~ runs (r <~ on_vault p ;; Ret (f r)) t Aborted).
  { intros A p B' f Hp [(a & t1 & t2 & _ & _ & _ & ?)|[(t' & _ & H)%on_vault_runs _]]%runs_bind; [done|by eapply Hp]. }
  destruct o; cbn [stack] in Hr; try (eapply Hv in Hr; [done|]; auto; fail);
    match type of Hr with context [real_provider self ?o] =>
      destruct (real_provider self o) as [p|] eqn:Hp end;
    try (destruct Hr as (z & t' & _ & _ & Hd); discriminate Hd);
    apply on_node_runs in Hr as (t' & _ & Hr); by apply (real_provider_no_panic _ _ _ _ Hp) in Hr.
Qed.

End stack.

(** ** What goes over the wire *)

Section wire.
Context {J : SerdeJson} {T : RpcTypes} {B : Base64} {K : SolanaSdk} {C : BlockchainCore}.
Context (cfg : Config) (self : RealSolanaProvider).

(** A submission on the wire is one of the pipeline. *)
Lemma wire_submission (vault : VaultProvider) ser key ident corr u r u1 c tx y u2 :
  vault_safe vault ->
  runs (interp (stack self vault) (sign_and_submit cfg ser key ident corr)) u r ->
  u = u1 ++ @Ev wop wans (Node (NodeSend c tx)) y :: u2 ->
  c = client self /\ exists t1 x t2 v s, runs (sign_and_submit cfg ser key ident corr) (t1 ++ Ev (SendTx tx) x :: t2) r
    /\ implements (stack self vault) t1 v /\ u1 = v ++ s
    /\ implements (stack self vault) (t1 ++ Ev (SendTx tx) x :: t2) u.
Proof.
  intros Hsafe Hr Hu. apply interp_runs in Hr as (tr & Hr & Hi); [|by apply stack_no_panic].
  pose proof Hi as Hi'. rewrite Hu in Hi'.
  apply implements_split in Hi' as (t1 & o & x & t2 & v1 & s1 & s2 & -> & Hi' & Ho & ->).
  apply stack_node_ev with (n := NodeSend c tx) (y := y) in Ho; [|apply elem_of_app; right; left].
  destruct o; try done. destruct Ho as [-> ->]. split; [done|]. by exists t1, x, t2, v1, s1.
Qed.

(** The pipeline's calls around one submission with the platform key. *)
Lemma wire_send (vault : VaultProvider) ser ident corr u r u1 c tx y u2 :
  vault_safe vault ->
  runs (interp (stack self vault) (sign_and_submit cfg ser "platform_admin" ident corr)) u r ->
  u = u1 ++ @Ev wop wans (Node (NodeSend c tx)) y :: u2 ->
  exists v1 t v2 sig, u1 = v1 ++ (vault_ev <$> t) ++ v2
    /\ runs (provider_sign vault (transit_key_name cfg) (message_data (message tx))) t (Done (Ok sig))
    /\ signatures tx !! 0%nat = Some sig.
Proof.
  intros Hsafe Hr Hu. destruct (wire_submission _ _ _ _ _ _ _ _ _ _ _ _ Hsafe Hr Hu) as (_ & t1 & x & t2 & v & s & Hr' & Hi & -> & _).
  destruct (always_runs _ _ _ _ _ (sign_and_submit_always cfg ser "platform_admin" ident corr) Hr') as [Hall _].
  rewrite Forall_forall in Hall.
  destruct (sent_after_signature _ _ _ _ _ _ _ _ _ _ Hr' eq_refl) as [(k & sig & Hv & Hsig) _].
  assert (k = transit_key_name cfg) as ->.
  { assert (Hm : may_sign cfg ser "platform_admin" ident k (message_data (message tx))); [|apply Hm].
    apply (Hall (Ev (VaultSign k _) (Ok sig))), elem_of_app. by left. }
  destruct (implements_elem _ _ _ _ _ Hi Hv) as (w1 & s' & w2 & -> & Hs).
  cbn [stack] in Hs. apply on_vault_map_runs in Hs as (t & [sig'|e] & -> & Hs & Heq); [|done]. injection Heq as <-.
  exists w1, t, (w2 ++ s), sig. by rewrite <- !app_assoc.
Qed.

(** Without a key the Vault is not asked. *)
Lemma wire_unsigned (vault : VaultProvider) ser ident corr t u r n x :
  runs (sign_and_submit cfg ser "" ident corr) t r -> implements (stack self vault) t u ->
  @Ev wop wans (VaultHttp n) x ∉ u.
Proof.
  intros Hr Hi (u1 & u2 & ->)%list_elem_of_split.
  apply implements_split in Hi as (t1 & o & y & t2 & v1 & s1 & s2 & -> & _ & Ho & _).
  apply stack_vault_ev with (n := n) (y := x) in Ho; [|apply elem_of_app; right; left].
  destruct (always_runs _ _ _ _ _ (sign_and_submit_always cfg ser "" ident corr) Hr) as [Hall _].
  apply Forall_app in Hall as [_ [He _]%Forall_cons]. destruct o; try done. by destruct He as (_ & ? & _).
Qed.

End wire.

(** ** With the Transit client *)

Section transit.
Context {J : SerdeJson} {T : RpcTypes} {B : Base64} {K : SolanaSdk} {C : BlockchainCore}.
Context (pubkey_try_from : bytes -> option Pubkey) (signature_try_from : bytes -> option Signature).
Context (cfg : Config) (self : RealSolanaProvider) (vc : VaultTransitClient).

Lemma transit_safe : vault_safe (transit_provider pubkey_try_from signature_try_from vc).
Proof.
  split.
  - intros k m t. cbn. naive_solver.
  - intros k t Hr. cbn in Hr. destruct Hr as ([pk|] & t1 & -> & Hr); [by destruct Hr|].
    destruct Hr as ([keys|f] & t2 & -> & Hr); [|by destruct Hr].
    destruct (decode_key _ _ _); [|by destruct Hr]. by destruct Hr as (? & ? & _ & _ & ?).
Qed.

(** C6: what reaches the node.  Run the signing pipeline over the Vault Transit
    client and the RPC provider, for any key id.  Whenever it asks the node to
    accept a transaction, on whatever the two servers answered, the transaction is
    the caller's, accepted by the policy engine.  With the key [platform_admin] it
    is so up to its blockhash and slot 0, and before that an HTTP request to the
    Transit sign endpoint of the configured key, with the client's token and the
    Base64 of exactly that transaction's message, was answered with a text that
    decodes to the signature in slot 0.  Otherwise the key id is empty, the
    transaction is exactly as the caller sent it, and the whole run makes no request
    to the Vault; with any other key id nothing is submitted. *)
Theorem wire_send_vault_signed ser key_id ident corr u r u1 c tx y u2 :
  runs (interp (stack self (transit_provider pubkey_try_from signature_try_from vc))
          (sign_and_submit cfg ser key_id ident corr)) u r ->
  u = u1 ++ @Ev wop wans (Node (NodeSend c tx)) y :: u2 ->
  c = client self /\ may_send ser key_id ident tx
  /\ ((key_id = "platform_admin" /\ exists resp sig,
         @Ev wop wans (VaultHttp (HttpPostSign (address vc +:+ "/v1/transit/sign/" +:+ transit_key_name cfg) (token vc)
                         (mkSignRequest (b64_encode (message_data (message tx)))))) (Ok resp) ∈ u1
         /\ parse_vault_signature signature_try_from (sign_signature (sign_data resp)) = Ok sig
         /\ signatures tx !! 0%nat = Some sig)
      \/ (key_id = "" /\ authorised ser ident tx /\ forall n x, @Ev wop wans (VaultHttp n) x ∉ u)).
Proof.
  intros Hr Hu. destruct (wire_submission _ _ _ _ _ _ _ _ _ _ _ _ _ _ transit_safe Hr Hu)
    as (-> & t1 & x & t2 & v & s & Hr' & _ & _ & Hi). split; [done|].
  destruct (always_runs _ _ _ _ _ (sign_and_submit_always cfg ser key_id ident corr) Hr') as [Hall _].
  apply Forall_app in Hall as [_ [Hm _]%Forall_cons]. split; [done|].
  destruct Hm as (tx0 & Ha & [[-> ->]|[-> _]]); [right|left]; (split; [done|]).
  - split; [done|]. intros n z. by eapply wire_unsigned.
  - destruct (wire_send _ _ _ _ _ _ _ _ _ _ _ _ _ transit_safe Hr Hu) as (v1 & t & v2 & sig & -> & Hs & Hsig).
    cbn in Hs. destruct Hs as ([resp|f] & t' & -> & -> & [= Hp]).
    exists resp, sig. split; [|done]. rewrite !elem_of_app. right. left. left.
Qed.

End transit.

(** ** With the development keypair *)

Section insecure.
Context {J : SerdeJson} {T : RpcTypes} {B : Base64} {K : SolanaSdk} {C : BlockchainCore}.
Context {Keypair : Type} (keypair_pubkey : Keypair -> Pubkey) (keypair_sign : Keypair -> bytes -> Signature).
Context (cfg : Config) (self : RealSolanaProvider) (keypair : Keypair).

Lemma insecure_safe : vault_safe (insecure_provider keypair_pubkey keypair_sign keypair).
Proof. split; cbn; naive_solver. Qed.

(** With the development keypair the signature of a submitted transaction is the
    keypair's own, and no request leaves for a Vault. *)
Lemma wire_send_dev_signed ser ident corr u r u1 c tx y u2 :
  runs (interp (stack self (insecure_provider keypair_pubkey keypair_sign keypair))
          (sign_and_submit cfg ser "platform_admin" ident corr)) u r ->
  u = u1 ++ @Ev wop wans (Node (NodeSend c tx)) y :: u2 ->
  signatures tx !! 0%nat = Some (keypair_sign keypair (message_data (message tx))).
Proof.
  intros Hr Hu. destruct (wire_send _ _ _ _ _ _ _ _ _ _ _ _ _ insecure_safe Hr Hu) as (v1 & t & v2 & sig & _ & Hs & ->).
  cbn in Hs. by destruct Hs as [_ [= ->]].
Qed.

End insecure.

(** ** Examples *)

Section examples.
#[local] Existing Instances toy_sdk toy_core hex_b64 demo_serde.

#[local] Instance toy_rpc : RpcTypes := {|
  UiTokenAmount := @Value demo_serde;
  TransactionStatus := @Value demo_serde;
  ConfirmedTransaction := @Value demo_serde;
  token_amount_to_value := Ok;
  status_to_value := Ok;
  transaction_to_value := Ok;
  default_commitment := AtFinalized
|}.

(** A node that accepts and a Vault that signs with [x09]. *)
Definition wire_env (o : wop) (u : unit) : wans o * unit :=
  (match o return wans o with
   | Node (NodeSimulate _ _) => Ok (mkSim None None None)
   | Node (NodeSend _ _) => Ok (sig_of_byte x09)
   | Node (NodeLatestBlockhash _ _) => Ok (mkHash (replicate 32 x05), 9)
   | Node (NodeBalance _ _) | Node (NodeAccount _ _) | Node (NodeFees _ _) | Node (NodeTokenBalance _ _)
   | Node (NodeStatuses _ _) | Node (NodeSlot _) | Node (NodeAirdrop _ _ _) | Node (NodeTransaction _ _ _)
   | Node (NodeEpochInfo _) => Err ""
   | VaultHttp (KeyCacheGet _) => None
   | VaultHttp (KeyCacheInsert _ _) => tt
   | VaultHttp (HttpGetKeys _ _) => Err (SendFailed "")
   | VaultHttp (HttpPostSign _ _ _) =>
       Ok (mkSignResponse (mkSignData ("vault:v1" +:+ String ":" (b64_encode (sig_bytes (sig_of_byte x09))))))
   | Own o => match healthy 1000 o with Some x => x | None => quiet_answer o end
   end, u).

Definition demo_self : RealSolanaProvider := real_new "http://localhost:8899".

Definition demo_wire :=
  run wire_env (interp (stack demo_self (transit_provider sized_pubkey sized_signature demo_vault))
    (sign_and_submit demo_cfg [x01] "platform_admin" demo_ident "c1")) tt.

Definition wire_sent : Transaction := with_signatures [sig_of_byte x09] (with_blockhash hash_default toy_tx).

Lemma wire_send_vault_signed_witness :
  exists u1 u2 resp, fst (fst demo_wire)
      = u1 ++ @Ev wop wans (Node (NodeSend (client demo_self) wire_sent)) (Ok (sig_of_byte x09)) :: u2
    /\ @Ev wop wans (VaultHttp (HttpPostSign ("http://vault:8200" +:+ "/v1/transit/sign/" +:+ "gridtokenx-bridge") "token"
          (mkSignRequest (b64_encode (message_data (message wire_sent)))))) (Ok resp) ∈ u1.
Proof.
  assert (E : fst (fst demo_wire) = take 3 (fst (fst demo_wire))
      ++ @Ev wop wans (Node (NodeSend (client demo_self) wire_sent)) (Ok (sig_of_byte x09)) :: drop 4 (fst (fst demo_wire)))
    by (vm_compute; reflexivity).
  exists (take 3 (fst (fst demo_wire))), (drop 4 (fst (fst demo_wire))).
  destruct (wire_send_vault_signed sized_pubkey sized_signature demo_cfg demo_self demo_vault [x01] "platform_admin" demo_ident "c1"
    (fst (fst demo_wire)) (snd (fst demo_wire)) (take 3 (fst (fst demo_wire))) (client demo_self) wire_sent
    (Ok (sig_of_byte x09)) (drop 4 (fst (fst demo_wire))))
    as (_ & _ & [(_ & resp & sig & H & _)|(H & _)]); [apply run_trace|exact E| |discriminate H].
  exists resp. split; [exact E|exact H].
Defined.

End examples.
