(* ===== verification/SolanaClient.v ===== *)
(** * The relocated providers (crates/chain-bridge-persistence/src/solana_client.rs)

    The copy of the providers in chain-bridge-persistence, with the ports it adds
    (and the simulator port of litesvm_sim.rs).  [Providers] has the simnet
    provider as functions on the SVM; here every method is a command tree with
    each acquisition and release of the lock around the SVM, so that methods can
    be interleaved.  The theorems: run alone, each method is the function of
    [Providers]; run together in any number, they never deadlock. *)

From S2P Require Import Prelude RustStd Effects Domain External BridgeOps Fixtures SigningSpec Providers RpcProvider Stack.
From Stdlib Require String.
Import String.StringSyntax.
Import Errors.

Local Open Scope Z_scope.

(** ** BlockhashCache *)

Module BlockhashCache.

Record cache := mkCache { current : option (Hash * Z) }.

Definition new : cache := mkCache None.
Definition update (hash : Hash) (last_valid_block_height : Z) (c : cache) : cache :=
  mkCache (Some (hash, last_valid_block_height)).
Definition get (c : cache) : option (Hash * Z) := current c.

End BlockhashCache.

(** ** The lock around the SVM *)

(** [tokio::sync::RwLock]: any number of readers, or one writer. *)
Inductive lock : Type :=
| Readers (n : nat)
| Writer.

Section locked.
Context {J : SerdeJson} {JM : JsonMacro} {L : LiteSvm}.

Inductive lop : Type :=
| WriteLock
| WriteUnlock (svm : Svm)
| ReadLock
| ReadUnlock
| CloneAccount (c : RpcClient) (pk : Pubkey).

Definition lans (o : lop) : Type :=
  match o with
  | WriteLock | ReadLock => Svm
  | WriteUnlock _ | ReadUnlock => unit
  | CloneAccount _ _ => result Account string
  end.

(** A scope that holds the write guard: it is released on every way out. *)
Definition with_write {A : Type} (body : Svm -> prog lans (A * Svm)) : prog lans A :=
  svm <~ call WriteLock ;;
  r <~ body svm ;;
  do! call (WriteUnlock (snd r)) ;;
  Ret (fst r).

(** The same for a read guard. *)
Definition with_read {A : Type} (f : Svm -> A) : prog lans A :=
  svm <~ call ReadLock ;;
  do! call ReadUnlock ;;
  Ret (f svm).

(** The provider has an RPC client when it was given a URL. *)
Context (rpc_client : option RpcClient).

Definition locked_ensure_account (pk : Pubkey) : prog lans (result unit string) :=
  with_write (fun svm =>
    match svm_get_account svm pk, rpc_client with
    | None, Some client =>
        r <~ call (CloneAccount client pk) ;;
        Ret (match (r : result Account string) with
             | Err e => (Err e, svm)
             | Ok account => svm_set_account pk (to_svm_account account) svm
             end)
    | _, _ => Ret (Ok tt, svm)
    end).

(** The two nested loops of [simulate_transaction]: the accounts of one instruction,
    indices out of range passed over, and the instructions of the message. *)
Fixpoint locked_ensure_indices (keys : list Pubkey) (indices : list Z) : prog lans (result unit string) :=
  match indices with
  | [] => Ret (Ok tt)
  | key_idx :: indices =>
      match keys !! Z.to_nat key_idx with
      | Some key =>
          r <~ locked_ensure_account key ;;
          match r with
          | Err e => Ret (Err e)
          | Ok _ => locked_ensure_indices keys indices
          end
      | None => locked_ensure_indices keys indices
      end
  end.

Fixpoint locked_ensure_accounts (keys : list Pubkey) (ixs : list CompiledInstruction) : prog lans (result unit string) :=
  match ixs with
  | [] => Ret (Ok tt)
  | ix :: ixs =>
      r <~ locked_ensure_indices keys (ix_accounts ix) ;;
      match r with
      | Err e => Ret (Err e)
      | Ok _ => locked_ensure_accounts keys ixs
      end
  end.

Definition locked_simulate_transaction (tx : Transaction) : prog lans (result SimResult string) :=
  r <~ locked_ensure_accounts (account_keys (message tx)) (instructions (message tx)) ;;
  match r with
  | Err e => Ret (Err e)
  | Ok _ =>
      with_write (fun svm =>
        Ret (match to_versioned tx with
             | Err e => Err e
             | Ok versioned_tx =>
                 match svm_simulate versioned_tx svm with
                 | Err e => Err e
                 | Ok meta => Ok (mkSim None (Some (meta_units meta)) (Some (meta_logs meta)))
                 end
             end, svm))
  end.

(** The first block of [send_transaction]. *)
Definition locked_fund_payer (tx : Transaction) : prog lans (result unit string) :=
  match account_keys (message tx) with
  | [] => Ret (Ok tt)
  | payer :: _ =>
      with_write (fun svm =>
        Ret (if unwrap_or (svm_get_balance svm payer) 0 <? 1000000000
             then svm_airdrop payer 10000000000 svm
             else (Ok tt, svm)))
  end.

Definition locked_send_transaction (tx : Transaction) : prog lans (result Signature string) :=
  funded <~ locked_fund_payer tx ;;
  match funded with
  | Err e => Ret (Err e)
  | Ok _ =>
      with_write (fun svm =>
        let signature := unwrap_or (head (signatures tx)) signature_default in
        Ret (match to_versioned tx with
             | Err e => (Err e, svm)
             | Ok versioned_tx =>
                 let '(r, svm) := svm_send versioned_tx svm in
                 (match r with Err e => Err e | Ok _ => Ok signature end, svm)
             end))
  end.

Definition locked_get_latest_blockhash : prog lans (result (Hash * Z) string) :=
  with_read (fun svm => Ok (svm_latest_blockhash svm, 1000)).

Definition locked_get_balance (pk : Pubkey) : prog lans (result Z string) :=
  r <~ locked_ensure_account pk ;;
  match r with
  | Err e => Ret (Err e)
  | Ok _ => with_read (fun svm => Ok (unwrap_or (svm_get_balance svm pk) 0))
  end.

Definition locked_get_account (pk : Pubkey) : prog lans (result Account string) :=
  r <~ locked_ensure_account pk ;;
  match r with
  | Err e => Ret (Err e)
  | Ok _ => with_read (fun svm => match svm_get_account svm pk with
                                  | None => Err "Account not found"
                                  | Some a => Ok (of_svm_account a)
                                  end)
  end.

Definition locked_get_token_account_balance : result Value string :=
  Ok (json_obj [("amount", json_str "1000000000"); ("decimals", json_u64 9);
                ("uiAmount", json_f64 4607182418800017408)]).

Definition locked_get_signature_statuses (sigs : list Signature) : result (list (option Value)) string :=
  Ok ((fun _ => Some (json_obj [("slot", json_u64 0); ("confirmations", json_u64 1); ("err", value_null);
                                ("confirmationStatus", json_str "finalized")])) <$> sigs).

Definition locked_request_airdrop (pk : Pubkey) (amount : Z) : prog lans (result Signature string) :=
  with_write (fun svm =>
    Ret (let '(r, svm) := svm_airdrop pk amount svm in
         (match r with Err e => Err e | Ok _ => Ok signature_default end, svm))).

(** [impl SolanaProvider for SurfpoolSolanaProvider]. *)
Definition locked_surfpool (o : bop) : option (prog lans (bans o)) :=
  match o with
  | Simulate tx => Some (locked_simulate_transaction tx)
  | SendTx tx => Some (locked_send_transaction tx)
  | LatestBlockhash => Some locked_get_latest_blockhash
  | GetBalance pk => Some (locked_get_balance pk)
  | GetAccount pk => Some (locked_get_account pk)
  | GetFees _ => Some (Ret (Ok []))
  | GetTokenBalance _ => Some (Ret locked_get_token_account_balance)
  | SigStatuses sigs => Some (Ret (locked_get_signature_statuses sigs))
  | GetSlot => Some (Ret (Ok 0))
  | RequestAirdrop pk amount => Some (locked_request_airdrop pk amount)
  | GetTransaction _ => Some (Ret (Ok (json_obj [])))
  | GetEpochInfo => Some (Ret (Ok (mkEpoch 100 100 1 432000 100 (Some 1000))))
  | _ => None
  end.

(** ** The meaning of the lock

    A writer waits for a free lock, a reader for the absence of a writer. *)

Definition lock_sem (s : Svm * lock) (o : lop) : lans o -> Svm * lock -> Prop :=
  match o with
  | WriteLock => fun x s' => snd s = Readers 0 /\ x = fst s /\ s' = (fst s, Writer)
  | WriteUnlock svm => fun _ s' => snd s = Writer /\ s' = (svm, Readers 0)
  | ReadLock => fun x s' => exists n, snd s = Readers n /\ x = fst s /\ s' = (fst s, Readers (S n))
  | ReadUnlock => fun _ s' => exists n, snd s = Readers (S n) /\ s' = (fst s, Readers n)
  | CloneAccount _ _ => fun _ s' => s' = s
  end.

(** The same with the RPC client answering from [get_account]. *)
Definition clone_sem (get_account : Pubkey -> result Account string) (s : Svm * lock) (o : lop) (x : lans o)
    (s' : Svm * lock) : Prop :=
  lock_sem s o x s' /\ match o return lans o -> Prop with
                       | CloneAccount _ pk => fun x => x = get_account pk
                       | _ => fun _ => True
                       end x.

End locked.

(** ** Alone: the functions of [Providers] *)

Section alone.
Context {J : SerdeJson} {JM : JsonMacro} {L : LiteSvm}.
Context (get_account : Pubkey -> result Account string).

(** Run uninterrupted from a free lock, [p] returns what [f] returns, leaves the
    SVM as [f] does and the lock free; it does so, and nothing else. *)
Definition computes {A : Type} (p : prog lans A) (f : Svm -> A * Svm) : Prop :=
  forall svm,
    (exists tr, exec (clone_sem get_account) p (svm, Readers 0) tr (Done (fst (f svm))) (snd (f svm), Readers 0))
    /\ (forall tr r s', exec (clone_sem get_account) p (svm, Readers 0) tr r s' ->
          r = Done (fst (f svm)) /\ s' = (snd (f svm), Readers 0)).

Lemma computes_ret {A : Type} (a : A) : computes (Ret a) (fun svm => (a, svm)).
Proof. intros svm. split; [by exists []|]. intros tr r s' (_ & -> & ->). done. Qed.

Lemma computes_bind {A B : Type} (p : prog lans A) (k : A -> prog lans B) f g :
  computes p f -> (forall a, computes (k a) (g a)) ->
  computes (bind p k) (fun svm => let '(a, svm) := f svm in g a svm).
Proof.
  intros Hp Hk svm. destruct (Hp svm) as [[t1 H1] Hu]. destruct (f svm) as [a svm1] eqn:Hf. cbn [fst snd] in *.
  destruct (Hk a svm1) as [[t2 H2] Hu2]. split.
  - exists (t1 ++ t2). apply exec_bind. left. by exists a, t1, t2, (svm1, Readers 0).
  - intros tr r s' [(a' & u1 & u2 & s1 & -> & [[= ->] ->]%Hu & Hx)|[[? _]%Hu _]]%exec_bind; [|done]. by eapply Hu2.
Qed.

(** The body of a write scope that makes no call. *)
Lemma computes_write {A : Type} (f : Svm -> A * Svm) : computes (with_write (fun svm => Ret (f svm))) f.
Proof.
  intros svm. split.
  - exists [Ev WriteLock svm; Ev (WriteUnlock (snd (f svm))) tt]. cbn.
    exists svm, (svm, Writer), [Ev (WriteUnlock (snd (f svm))) tt]. splits; [done|done|].
    exists tt, (snd (f svm), Readers 0), []. done.
  - intros tr r s'. cbn. intros (x & s1 & t & [(_ & -> & ->) _] & -> & (u & s2 & t2 & [[_ ->] _] & -> & _ & -> & ->)).
    done.
Qed.

Lemma computes_read {A : Type} (f : Svm -> A) : computes (with_read f) (fun svm => (f svm, svm)).
Proof.
  intros svm. split.
  - exists [Ev ReadLock svm; Ev ReadUnlock tt]. cbn.
    exists svm, (svm, Readers 1), [Ev ReadUnlock tt]. splits; [split; [by exists 0%nat|done]|done|].
    exists tt, (svm, Readers 0), []. splits; [split; [by exists 0%nat|done]|done|done|done|done].
  - intros tr r s'. cbn. intros (x & s1 & t & [(n & [= <-] & -> & ->) _] & -> & (u & s2 & t2 & [(n' & [= <-] & ->) _] & -> & _ & -> & ->)).
    done.
Qed.

Context (rpc_client : option RpcClient).

Lemma computes_ext {A : Type} (p : prog lans A) f g : computes p f -> (forall svm, f svm = g svm) -> computes p g.
Proof. intros Hp Hfg svm. rewrite <- Hfg. apply Hp. Qed.

Abbreviation fetch := (match rpc_client with Some _ => Some get_account | None => None end).

Lemma computes_ensure pk : computes (locked_ensure_account rpc_client pk) (Surfpool.ensure_account fetch pk).
Proof.
  intros svm. unfold locked_ensure_account, Surfpool.ensure_account, with_write.
  destruct (svm_get_account svm pk) as [a|] eqn:Ha; [|destruct rpc_client as [c|] eqn:Hc].
  2:{ split.
    - exists [Ev WriteLock svm; Ev (CloneAccount c pk) (get_account pk);
        Ev (WriteUnlock (snd (match get_account pk with Err e => (Err e, svm)
                              | Ok a => svm_set_account pk (to_svm_account a) svm end))) tt].
      cbn. exists svm, (svm, Writer). eexists. splits; [done|done|]. rewrite Ha. cbn.
      exists (get_account pk), (svm, Writer). eexists. splits; [done|done|].
      destruct (get_account pk) as [acc|e]; cbn; exists tt; eexists; exists []; done.
    - cbn. intros tr r s' (x & s1 & t & [(_ & -> & ->) _] & -> & Hx). cbn [fst] in Hx. rewrite Ha in Hx. cbn in Hx.
      destruct Hx as (y & s2 & t2 & [-> Hy] & -> & Hx). cbn in Hy. subst y.
      destruct Hx as (u & s3 & t3 & [[_ ->] _] & -> & _ & -> & ->). by destruct (get_account pk). }
  all: split; [exists [Ev WriteLock svm; Ev (WriteUnlock svm) tt]; cbn; exists svm, (svm, Writer); eexists;
         (splits; [done|done|]); rewrite Ha; cbn; exists tt; eexists; exists []; done
       |cbn; intros tr r s' (x & s1 & t & [(_ & -> & ->) _] & -> & Hx); cbn [fst] in Hx; rewrite Ha in Hx; cbn in Hx;
        destruct Hx as (u & s3 & t3 & [[_ ->] _] & -> & _ & -> & ->); done].
Qed.

(** A scope after a fallible step. *)
Lemma computes_then {A B : Type} (p : prog lans (result A string)) (k : prog lans (result B string)) f g :
  computes p f -> computes k g ->
  computes (r <~ p ;; match r with Err e => Ret (Err e) | Ok _ => k end)
    (fun svm => let '(r, svm) := f svm in match r with Err e => (Err e, svm) | Ok _ => g svm end).
Proof.
  intros Hp Hk. apply (computes_bind p _ f (fun r svm => match r with Err e => (Err e, svm) | Ok _ => g svm end));
    [done|]. intros [a|e]; [done|apply computes_ret].
Qed.

Lemma ensure_accounts_app l1 l2 svm :
  Surfpool.ensure_accounts fetch (l1 ++ l2) svm =
  let '(r, svm) := Surfpool.ensure_accounts fetch l1 svm in
  match r with Err e => (Err e, svm) | Ok _ => Surfpool.ensure_accounts fetch l2 svm end.
Proof.
  revert svm. induction l1 as [|pk l1 IH]; intros svm; [done|]. cbn [app Surfpool.ensure_accounts].
  by destruct (Surfpool.ensure_account fetch pk svm) as [[] svm'].
Qed.

Lemma computes_indices keys indices :
  computes (locked_ensure_indices rpc_client keys indices)
    (Surfpool.ensure_accounts fetch (omap (fun i => keys !! Z.to_nat i) indices)).
Proof.
  induction indices as [|i indices IH]; [apply computes_ret|]. cbn [locked_ensure_indices omap list_omap].
  destruct (keys !! Z.to_nat i) as [pk|]; [|done]. apply (computes_then _ _ _ _ (computes_ensure pk) IH).
Qed.

(** The nested loops touch the keys the other copy collects, in the same order. *)
Lemma computes_ensures tx :
  computes (locked_ensure_accounts rpc_client (account_keys (message tx)) (instructions (message tx)))
    (Surfpool.ensure_accounts fetch (Surfpool.touched_keys tx)).
Proof.
  unfold Surfpool.touched_keys. induction (instructions (message tx)) as [|ix ixs IH]; [apply computes_ret|].
  eapply computes_ext; [apply (computes_then _ _ _ _ (computes_indices _ (ix_accounts ix)) IH)|].
  intros svm. change (mjoin (ix_accounts <$> ix :: ixs)) with (ix_accounts ix ++ mjoin (ix_accounts <$> ixs)).
  by rewrite omap_app, ensure_accounts_app.
Qed.

(** C36: the relocated simnet provider is the one the service runs on.  For every
    method of the trait, the lock-level code run without interference on a free
    lock returns exactly what the function of the service's copy returns on the
    same SVM, with the same SVM afterwards and the lock free again. *)
Theorem relocated_surfpool_agrees o p f :
  locked_surfpool rpc_client o = Some p -> Surfpool.surfpool fetch o = Some f -> computes p f.
Proof.
  destruct o; cbn; intros [= <-] [= <-]; try apply computes_ret.
  - apply computes_read.
  - eapply computes_ext; [apply (computes_then _ _ _ _ (computes_ensures _) (computes_write _))|].
    intros svm. unfold Surfpool.simulate_transaction. by destruct (Surfpool.ensure_accounts _ _ _) as [[] ?].
  - assert (Hf : computes (locked_fund_payer tx) (Surfpool.fund_payer tx)).
    { unfold locked_fund_payer, Surfpool.fund_payer. destruct (account_keys (message tx)); [apply computes_ret|].
      apply computes_write. }
    eapply computes_ext; [apply (computes_then _ _ _ _ Hf (computes_write _))|].
    intros svm. unfold Surfpool.send_transaction. destruct (Surfpool.fund_payer tx svm) as [[] ?]; [|done].
    destruct (to_versioned tx); [|done]. by destruct (svm_send _ _) as [[] ?].
  - eapply computes_ext; [apply (computes_then _ _ _ _ (computes_ensure _) (computes_read _))|].
    intros svm. unfold Surfpool.get_balance. by destruct (Surfpool.ensure_account _ _ _) as [[] ?].
  - eapply computes_ext; [apply (computes_then _ _ _ _ (computes_ensure _) (computes_read _))|].
    intros svm. unfold Surfpool.get_account. by destruct (Surfpool.ensure_account _ _ _) as [[] ?].
  - eapply computes_ext; [apply computes_write|].
    intros svm. unfold Surfpool.request_airdrop. by destruct (svm_airdrop _ _ _) as [[] ?].
Qed.

End alone.

(** ** Together: no deadlock *)

Section together.
Context {J : SerdeJson} {JM : JsonMacro} {L : LiteSvm}.
Context (rpc_client : option RpcClient).

(** The guard a method holds. *)
Inductive guard : Type := NoGuard | WriteGuard | ReadGuard.

#[export] Instance guard_eq_dec : EqDecision guard.
Proof. solve_decision. Defined.

(** A method never acquires the lock while it holds a guard, clones accounts only
    under the write guard, and releases what it holds. *)
Definition guard_step (m : guard) (e : event lans) : option guard :=
  match m, ev_op e with
  | NoGuard, WriteLock => Some WriteGuard
  | NoGuard, ReadLock => Some ReadGuard
  | WriteGuard, WriteUnlock _ => Some NoGuard
  | WriteGuard, CloneAccount _ _ => Some WriteGuard
  | ReadGuard, ReadUnlock => Some NoGuard
  | _, _ => None
  end.

Definition released {A : Type} (m : guard) (r : outcome A) : Prop := m = NoGuard /\ r <> Aborted.

Lemma with_write_guard {A : Type} (body : Svm -> prog lans (A * Svm)) :
  (forall svm, obeys guard_step WriteGuard (body svm) (fun m r => m = WriteGuard /\ r <> Aborted)) ->
  obeys guard_step NoGuard (with_write body) released.
Proof.
  intros Hb. cbn. intros svm. eapply obeys_bind; [apply Hb| |by intros m [-> ?]].
  intros m [a svm'] [-> _]. by cbn.
Qed.

Lemma with_read_guard {A : Type} (f : Svm -> A) : obeys guard_step NoGuard (with_read f) released.
Proof. by cbn. Qed.

Lemma ensure_guard pk : obeys guard_step NoGuard (locked_ensure_account rpc_client pk) released.
Proof.
  apply with_write_guard. intros svm. destruct (svm_get_account svm pk), rpc_client; by cbn.
Qed.

Lemma then_guard {A B : Type} (p : prog lans (result A string)) (k : prog lans (result B string)) :
  obeys guard_step NoGuard p released -> obeys guard_step NoGuard k released ->
  obeys guard_step NoGuard (r <~ p ;; match r with Err e => Ret (Err e) | Ok _ => k end) released.
Proof.
  intros Hp Hk. eapply obeys_bind; [exact Hp| |by intros m []]. intros m [a|e] [-> _]; [done|by cbn].
Qed.

Lemma locked_surfpool_guard o p :
  locked_surfpool rpc_client o = Some p -> obeys guard_step NoGuard p released.
Proof.
  assert (Hidx : forall keys l, obeys guard_step NoGuard (locked_ensure_indices rpc_client keys l) released).
  { induction l as [|i l IH]; [by cbn|]. cbn [locked_ensure_indices].
    destruct (keys !! Z.to_nat i) as [pk|]; [|done]. apply (then_guard _ _ (ensure_guard pk) IH). }
  assert (Hens : forall keys ixs, obeys guard_step NoGuard (locked_ensure_accounts rpc_client keys ixs) released).
  { induction ixs as [|ix ixs IH]; [by cbn|]. apply (then_guard _ _ (Hidx _ _) IH). }
  destruct o; cbn [locked_surfpool]; intros [= <-]; try (by cbn).
  - apply then_guard; [apply Hens|]. apply with_write_guard. by cbn.
  - apply then_guard; [|apply with_write_guard; by cbn].
    unfold locked_fund_payer. destruct (account_keys (message tx)); [by cbn|]. apply with_write_guard. by cbn.
  - apply then_guard; [apply ensure_guard|apply with_read_guard].
  - apply then_guard; [apply ensure_guard|apply with_read_guard].
Qed.

(** A task that makes one provider call. *)
Definition provider_task (o : bop) : prog lans unit :=
  match locked_surfpool rpc_client o with
  | Some p => do! p ;; Ret tt
  | None => Ret tt
  end.

Lemma provider_task_guard o : obeys guard_step NoGuard (provider_task o) released.
Proof.
  unfold provider_task. destruct (locked_surfpool rpc_client o) as [p|] eqn:Hp; [|by cbn].
  eapply obeys_bind; [by eapply locked_surfpool_guard| |by intros m []]. intros m a [-> _]. by cbn.
Qed.

(** The lock agrees with the guards. *)
Definition lock_inv (s : Svm * lock) (ms : list guard) : Prop :=
  match snd s with
  | Writer => exists i, ms !! i = Some WriteGuard /\ forall j m, ms !! j = Some m -> j <> i -> m = NoGuard
  | Readers n => length (filter (fun m => m = ReadGuard) ms) = n /\ WriteGuard ∉ ms
  end.

Lemma readers_insert (ms : list guard) i m m' :
  ms !! i = Some m ->
  (length (filter (fun m => m = ReadGuard) (<[i := m']> ms)) + (if decide (m = ReadGuard) then 1 else 0)
   = length (filter (fun m => m = ReadGuard) ms) + (if decide (m' = ReadGuard) then 1 else 0))%nat.
Proof.
  intros Hi. rewrite insert_take_drop by (by eapply lookup_lt_Some).
  rewrite <- (take_drop_middle ms i m Hi) at 3. rewrite !filter_app, !filter_cons, !length_app.
  repeat case_decide; cbn; lia.
Qed.

Lemma no_readers (ms : list guard) i :
  length (filter (fun m => m = ReadGuard) ms) = 0%nat -> WriteGuard ∉ ms -> forall m, ms !! i = Some m -> m = NoGuard.
Proof.
  intros Hl Hw m Hi. apply length_zero_iff_nil in Hl. apply list_elem_of_lookup_2 in Hi.
  destruct m; [done|done|]. assert (ReadGuard ∈ filter (fun m => m = ReadGuard) ms) as Hin by by apply list_elem_of_filter.
  rewrite Hl in Hin. by apply elem_of_nil in Hin.
Qed.

Lemma readers_none (ms : list guard) :
  (forall j y, ms !! j = Some y -> y = NoGuard) ->
  length (filter (fun m => m = ReadGuard) ms) = 0%nat /\ WriteGuard ∉ ms.
Proof.
  intros Hno. split.
  - destruct (filter (fun m => m = ReadGuard) ms) as [|m l] eqn:E; [done|exfalso].
    assert (Hin : m ∈ filter (fun m => m = ReadGuard) ms) by (rewrite E; left).
    apply list_elem_of_filter in Hin as [-> [j Hj]%list_elem_of_lookup]. by apply Hno in Hj.
  - intros [j Hj]%list_elem_of_lookup. by apply Hno in Hj.
Qed.

(** The only writer is thread [i]. *)
Lemma sole_writer (ms : list guard) i k :
  ms !! i = Some WriteGuard -> (forall j m, ms !! j = Some m -> j <> k -> m = NoGuard) -> i = k.
Proof. intros Hi Hall. destruct (decide (i = k)) as [|Hne]; [done|]. by specialize (Hall i _ Hi Hne). Qed.

Lemma not_writer (ms : list guard) i m : WriteGuard ∉ ms -> m <> WriteGuard -> WriteGuard ∉ <[i := m]> ms.
Proof.
  intros Hw Hm [j Hj]%list_elem_of_lookup. apply list_lookup_insert_Some in Hj as [(-> & -> & _)|[_ Hj]]; [done|].
  by apply list_elem_of_lookup_2 in Hj.
Qed.

Lemma lock_inv_step s ms i m o x s' m' :
  lock_inv s ms -> ms !! i = Some m -> guard_step m (Ev o x) = Some m' -> lock_sem s o x s' ->
  lock_inv s' (<[i := m']> ms).
Proof.
  destruct s as [svm l]. intros HI Hi Hd Hs. unfold lock_inv in *. cbn [snd] in HI.
  destruct o, m; cbn in Hd; simplify_eq; cbn in Hs.
  - destruct Hs as (-> & _ & ->). cbn. destruct HI as [Hl Hw]. exists i. split.
    + apply list_lookup_insert_eq. by eapply lookup_lt_Some.
    + intros j y Hj Hne. rewrite list_lookup_insert_ne in Hj by done. by eapply no_readers.
  - destruct Hs as [-> ->]. cbn. destruct HI as (k & Hk & Hall). apply readers_none.
    assert (i = k) as -> by by eapply sole_writer.
    intros j y [(-> & -> & _)|[Hne Hj]]%list_lookup_insert_Some; [done|]. by eapply Hall.
  - destruct Hs as (n & -> & _ & ->). cbn. destruct HI as [Hl Hw]. split; [|by apply not_writer].
    pose proof (readers_insert ms i NoGuard ReadGuard Hi) as Hc. repeat case_decide; try done; lia.
  - destruct Hs as (n & -> & ->). cbn. destruct HI as [Hl Hw]. split; [|by apply not_writer].
    pose proof (readers_insert ms i ReadGuard NoGuard Hi) as Hc. repeat case_decide; try done; lia.
  - subst s'. cbn. destruct l; [by destruct HI as [_ []]; apply list_elem_of_lookup_2 in Hi|].
    rewrite list_insert_id by done. done.
Qed.

(** Some thread can always move. *)
Definition pool_inv (c : (Svm * lock) * list (prog lans unit)) : Prop :=
  exists ms, lock_inv (fst c) ms /\ Forall2 (fun m p => obeys guard_step m p released) ms (snd c).

Lemma pool_inv_step c c' : pool_inv c -> pstep lock_sem c c' -> pool_inv c'.
Proof.
  intros (ms & HI & HF) Hst. inversion Hst as [s ps i o k x s' Hi Hs]; subst. cbn in *.
  destruct (Forall2_lookup_r _ _ _ _ _ HF Hi) as (m & Hm & Hob). cbn in Hob. specialize (Hob x).
  destruct (guard_step m (Ev o x)) as [m'|] eqn:Hd; [|done].
  exists (<[i := m']> ms). cbn. split; [by eapply lock_inv_step|by apply Forall2_insert].
Qed.

(** The next call of a thread that holds a guard is enabled. *)
Lemma holder_moves svm l ms (ps : list (prog lans unit)) i m :
  lock_inv (svm, l) ms -> Forall2 (fun m p => obeys guard_step m p released) ms ps ->
  ms !! i = Some m -> m <> NoGuard -> exists c, pstep lock_sem ((svm, l), ps) c.
Proof.
  intros HI HF Hi Hm. destruct (Forall2_lookup_l _ _ _ _ _ HF Hi) as (p & Hp & Hob).
  destruct p as [a| |o k]; [by destruct Hob as [-> _]|by destruct Hob|]. cbn in Hob. unfold lock_inv in HI. cbn in HI.
  destruct l as [n|].
  - destruct HI as [Hl Hw]. destruct m; [done|by destruct Hw; eapply list_elem_of_lookup_2|].
    destruct o; cbn in Hob; try (by destruct (Hob svm)); try (by destruct (Hob tt)); [|by destruct (Hob (Err ""))].
    assert (exists n', n = S n') as [n' ->].
    { destruct n; [|eauto]. exfalso. assert (ReadGuard ∈ filter (fun m => m = ReadGuard) ms) as Hin.
      { apply list_elem_of_filter. split; [done|]. by eapply list_elem_of_lookup_2. }
      apply length_zero_iff_nil in Hl. rewrite Hl in Hin. by apply elem_of_nil in Hin. }
    eexists. eapply (pstep_intro _ _ _ i ReadUnlock k tt); [done|]. cbn. eauto.
  - destruct HI as (w & Hw & Hall). destruct (decide (i = w)) as [->|Hne]; [|by specialize (Hall _ _ Hi Hne)].
    assert (m = WriteGuard) as -> by congruence.
    destruct o; cbn in Hob; try (by destruct (Hob svm)); try (by destruct (Hob tt)).
    + eexists. eapply (pstep_intro _ _ _ w (WriteUnlock svm0) k tt); [done|]. by cbn.
    + eexists. eapply (pstep_intro _ _ _ w (CloneAccount c pk) k (Err "")); [done|]. by cbn.
Qed.

Lemma pool_progress s ps : pool_inv (s, ps) -> Forall halted ps \/ exists c, pstep lock_sem (s, ps) c.
Proof.
  intros (ms & HI & HF). cbn in HI, HF. destruct s as [svm l].
  destruct (decide (Forall (fun m => m = NoGuard) ms)) as [Hno|Hex].
  2:{ right. apply not_Forall_Exists, Exists_exists in Hex as (m & [i Hi]%list_elem_of_lookup & Hm); [|apply _].
      by eapply holder_moves. }
  destruct (decide (Forall halted ps)) as [|Hh]; [by left|right].
  apply not_Forall_Exists, Exists_exists in Hh as (p & [i Hi]%list_elem_of_lookup & Hp); [|apply _].
  destruct p as [a| |o k]; [by destruct Hp..|].
  destruct (Forall2_lookup_r _ _ _ _ _ HF Hi) as (m & Hm & Hob). rewrite Forall_lookup in Hno.
  assert (m = NoGuard) as -> by by eapply Hno.
  assert (l = Readers 0) as ->.
  { unfold lock_inv in HI. cbn in HI. destruct l as [n|].
    - destruct (readers_none ms) as [H0 _]; [exact Hno|]. f_equal. lia.
    - destruct HI as (j & Hj & _). by apply Hno in Hj. }
  cbn in Hob. destruct o; try (by destruct (Hob tt)); try (by destruct (Hob (Err ""))).
  - eexists. eapply (pstep_intro _ _ _ i WriteLock k svm); [done|]. by cbn.
  - eexists. eapply (pstep_intro _ _ _ i ReadLock k svm); [done|]. cbn. eauto.
Qed.

Lemma pool_inv_halted s ps : pool_inv (s, ps) -> Forall halted ps -> snd s = Readers 0 /\ Forall (fun p => p = Ret tt) ps.
Proof.
  intros (ms & HI & HF) Hh. cbn in HI, HF. rewrite Forall_lookup in Hh.
  assert (Hall : forall i p, ps !! i = Some p -> exists m, ms !! i = Some m /\ m = NoGuard /\ p = Ret tt).
  { intros i p Hp. destruct (Forall2_lookup_r _ _ _ _ _ HF Hp) as (m & Hm & Hob). exists m. specialize (Hh _ _ Hp).
    destruct p as [[]| |]; [|by destruct Hob|done]. by destruct Hob as [-> _]. }
  split; [|apply Forall_lookup; intros i p Hp; by destruct (Hall i p Hp) as (? & _ & _ & ->)].
  assert (Hno : forall j y, ms !! j = Some y -> y = NoGuard).
  { intros j y Hj. destruct (Forall2_lookup_l _ _ _ _ _ HF Hj) as (p & Hp & _).
    destruct (Hall j p Hp) as (m & Hm & -> & _). congruence. }
  unfold lock_inv in HI. destruct (snd s) as [n|].
  - destruct (readers_none ms Hno) as [H0 _]. f_equal. lia.
  - destruct HI as (j & Hj & _). by apply Hno in Hj.
Qed.

Lemma pool_inv_pexec c tr c' : pool_inv c -> pexec lock_sem c tr c' -> pool_inv c'.
Proof. intros HI Hx. induction Hx as [|]; [done|]. apply IHHx. eapply pool_inv_step; [done|]. by econstructor. Qed.

(** C35: the lock around the SVM cannot deadlock.  Start any number of provider
    calls on a free lock and interleave them in any order, whatever the RPC client
    answers when an account is cloned (which happens under the write guard).  From
    every configuration they reach, all of them can be run to their end, with the
    lock free again; a configuration in which nothing can move is one in which all
    have returned; and no schedule goes on for ever. *)
Theorem provider_lock_live svm (ops : list bop) tr s' ps' :
  pexec lock_sem ((svm, Readers 0), provider_task <$> ops) tr (s', ps') ->
  (exists tr2 svm2 ps2, pexec lock_sem (s', ps') tr2 ((svm2, Readers 0), ps2) /\ Forall (fun p => p = Ret tt) ps2)
  /\ ((forall c, ~ pstep lock_sem (s', ps') c) -> snd s' = Readers 0 /\ Forall (fun p => p = Ret tt) ps')
  /\ Acc (flip (pstep lock_sem)) (s', ps').
Proof.
  intros Hx. assert (HI : pool_inv (s', ps')).
  { eapply pool_inv_pexec; [|exact Hx]. exists (replicate (length ops) NoGuard). cbn. split.
    - apply readers_none. intros j y Hj. by apply lookup_replicate_1 in Hj as [-> _].
    - apply Forall2_fmap_r, Forall2_replicate_l; [|by apply Forall_true, provider_task_guard]. done. }
  splits.
  - destruct (pexec_completes_inv lock_sem pool_inv pool_inv_step pool_progress _ HI)
      as (tr2 & [[svm2 l2] ps2] & Hx2 & Hh & HI2).
    destruct (pool_inv_halted _ _ HI2 Hh) as [Hl HF]. cbn in Hl. subst l2. by exists tr2, svm2, ps2.
  - intros Hstuck. destruct (pool_progress _ _ HI) as [Hh|[c Hc]]; [by apply pool_inv_halted|by destruct (Hstuck c)].
  - apply pstep_acc.
Qed.

End together.

(** ** RealSolanaProvider, relocated *)

Module Relocated.
Section relocated.
Context {J : SerdeJson} {T : RpcTypes}.

(** Here the client is made without a commitment level. *)
Definition real_new (url : string) : RealSolanaProvider := mkReal (rpc_client_new url).

(** The twelve methods are, line for line, those of the service's copy. *)
Definition real_provider (self : RealSolanaProvider) (o : bop) : option (prog nans (bans o)) :=
  RpcProvider.real_provider self o.

End relocated.

Section simnet.
Context {K : SolanaSdk} {L : LiteSvm} (find_program_address : list bytes -> Pubkey -> Pubkey).

(** So are the seeding of the SVM and the constructor around it. *)
Definition deploy_core_programs (svm : Svm) : prog Surfpool.fans (result Svm string) :=
  Surfpool.deploy_core_programs find_program_address svm.

Definition surfpool_new (url : option string) : prog Surfpool.fans (result (Svm * option string) string) :=
  r <~ deploy_core_programs svm_new ;;
  Ret (match r with
       | Err e => Err e
       | Ok svm => Ok (svm, url)
       end).

End simnet.
End Relocated.

(** ** The ports *)

Section ports.
Context {J : SerdeJson}.

Record SubmitOutcome := mkSubmitOutcome { so_signature : Signature; so_slot : Z }.

Record SimulationOutcome := mkSimOutcome {
  sim_success : bool;
  sim_compute_units : Z;
  sim_outcome_logs : list string;
  sim_error : option string
}.

Definition port_latest_blockhash : prog bans (result (Hash * Z) ChainBridgeError) :=
  r <~ call LatestBlockhash ;;
  Ret (map_err ChainClient (r : result (Hash * Z) string)).

Definition port_send_transaction (tx : Transaction) : prog bans (result SubmitOutcome ChainBridgeError) :=
  r <~ call (SendTx tx) ;;
  Ret (match (r : result Signature string) with
       | Err e => Err (ChainClient e)
       | Ok signature => Ok (mkSubmitOutcome signature 0)
       end).

Definition port_simulate (tx : Transaction) : prog bans (result SimulationOutcome ChainBridgeError) :=
  r <~ call (Simulate tx) ;;
  Ret (match (r : result SimResult string) with
       | Ok value => Ok (mkSimOutcome (match sim_err value with None => true | Some _ => false end)
                           (unwrap_or (sim_units_consumed value) 0)
                           (unwrap_or (sim_logs value) []) (sim_err value))
       | Err e => Err (Simulation e)
       end).

(** The traits [ChainClientPort] and [PreSignSimulatorPort] over a provider's calls. *)
Record ChainClientPort {Op : Type} (Ans : Op -> Type) := mkChainClient {
  cc_latest_blockhash : prog Ans (result (Hash * Z) ChainBridgeError);
  cc_send_transaction : Transaction -> prog Ans (result SubmitOutcome ChainBridgeError)
}.

Record PreSignSimulatorPort {Op : Type} (Ans : Op -> Type) := mkSimulatorPort {
  ps_simulate : Transaction -> prog Ans (result SimulationOutcome ChainBridgeError)
}.

#[global] Arguments mkChainClient {Op Ans} _ _.
#[global] Arguments cc_latest_blockhash {Op Ans} _.
#[global] Arguments cc_send_transaction {Op Ans} _ _.
#[global] Arguments mkSimulatorPort {Op Ans} _.
#[global] Arguments ps_simulate {Op Ans} _ _.

(** The three port functions with a provider's methods behind their one call. *)
Section port_of.
Context {Op : Type} {Ans : Op -> Type}.
Context (latest : prog Ans (result (Hash * Z) string)) (send : Transaction -> prog Ans (result Signature string)).
Context (simulate : Transaction -> prog Ans (result SimResult string)).

Definition chain_client_of : ChainClientPort Ans :=
  mkChainClient
    (r <~ latest ;; Ret (map_err ChainClient r))
    (fun tx => r <~ send tx ;;
               Ret (match r with Err e => Err (ChainClient e) | Ok signature => Ok (mkSubmitOutcome signature 0) end)).

Definition simulator_of : PreSignSimulatorPort Ans :=
  mkSimulatorPort (fun tx =>
    r <~ simulate tx ;;
    Ret (match r with
         | Ok value => Ok (mkSimOutcome (match sim_err value with None => true | Some _ => false end)
                             (unwrap_or (sim_units_consumed value) 0)
                             (unwrap_or (sim_logs value) []) (sim_err value))
         | Err e => Err (Simulation e)
         end)).

End port_of.

Definition real_chain_client {T : RpcTypes} (self : RealSolanaProvider) : ChainClientPort nans :=
  chain_client_of (real_get_latest_blockhash self) (real_send_transaction self).

Definition surfpool_chain_client {L : LiteSvm} : ChainClientPort lans :=
  chain_client_of locked_get_latest_blockhash locked_send_transaction.

Definition real_simulator {T : RpcTypes} (self : RealSolanaProvider) : PreSignSimulatorPort nans :=
  simulator_of (real_simulate_transaction self).

Definition surfpool_simulator {JM : JsonMacro} {L : LiteSvm} (rpc_client : option RpcClient) : PreSignSimulatorPort lans :=
  simulator_of (locked_simulate_transaction rpc_client).

(** Behind the ports: each forwards one call, and every failure of the provider is
    one a caller may retry. *)
Lemma port_send_transaction_spec tx tr r :
  runs (port_send_transaction tx) tr r ->
  exists x, tr = [Ev (SendTx tx) x]
    /\ match (x : result Signature string) with
       | Ok sig => r = Done (Ok (mkSubmitOutcome sig 0))
       | Err e => r = Done (Err (ChainClient e)) /\ is_transient (ChainClient e) = true
       end.
Proof. cbn. intros (x & t & -> & -> & ->). exists x. split; [done|]. by destruct x. Qed.

End ports.

(** ** Commitment levels *)

Section levels.
Context {J : SerdeJson} {T : RpcTypes} {TL : RpcTypesLaws}.

(** The level reads are answered at.  Every request of the service's provider
    goes out on a client at [confirmed], with [confirmed] where the request itself
    names a level, as the constructor's comment asks for; every request of the
    relocated provider goes out at [finalized]. *)
Theorem provider_read_levels url o p tr r :
  (RpcProvider.real_provider (RpcProvider.real_new url) o = Some p -> runs p tr r ->
     exists n y, tr = [Ev n y] /\ serves (mkRpcClient url AtConfirmed) o n /\ commitment (node_client n) = AtConfirmed)
  /\ (Relocated.real_provider (Relocated.real_new url) o = Some p -> runs p tr r ->
     exists n y, tr = [Ev n y] /\ serves (mkRpcClient url AtFinalized) o n /\ commitment (node_client n) = AtFinalized).
Proof.
  assert (Hc : forall c n, serves c o n -> node_client n = c).
  { intros c n. destruct o, n; cbn; naive_solver. }
  split; intros Hp Hr; destruct (real_provider_runs _ _ _ _ _ Hp Hr) as (_ & n & y & -> & Hs); exists n, y.
  - split; [done|]. split; [done|]. by rewrite (Hc _ _ Hs).
  - cbn in Hs. unfold rpc_client_new in Hs. rewrite default_is_finalized in Hs.
    split; [done|]. split; [done|]. by rewrite (Hc _ _ Hs).
Qed.

End levels.

(** ** Examples *)

Section examples.
#[local] Existing Instances toy_sdk toy_core demo_serde toy_json refusing_svm.

Definition demo_client : RpcClient := mkRpcClient "http://localhost:8899" AtFinalized.

Lemma relocated_surfpool_agrees_witness :
  computes (fun _ => Err "AccountNotFound") (locked_send_transaction toy_tx) (Surfpool.send_transaction toy_tx)
  /\ fst (Surfpool.send_transaction toy_tx tt) = Ok signature_default.
Proof.
  split; [|reflexivity].
  exact (relocated_surfpool_agrees (fun _ => Err "AccountNotFound") (Some demo_client) (SendTx toy_tx) _ _ eq_refl eq_refl).
Defined.

(** A balance query holds the write guard while another call waits. *)
Lemma provider_lock_live_witness :
  let ps := provider_task (Some demo_client) <$> [GetBalance admin_key; SendTx toy_tx] in
  exists s' ps' tr2 svm2 ps2,
    pexec lock_sem ((tt, Readers 0), ps) [(0%nat, Ev WriteLock tt)] (s', ps')
    /\ pexec lock_sem (s', ps') tr2 ((svm2, Readers 0), ps2) /\ Forall (fun p => p = Ret tt) ps2.
Proof.
  cbn zeta.
  assert (Hx : exists s' ps', pexec lock_sem ((tt, Readers 0), provider_task (Some demo_client) <$> [GetBalance admin_key; SendTx toy_tx])
    [(0%nat, Ev WriteLock tt)] (s', ps')).
  { do 2 eexists. refine (pexec_step lock_sem (tt, Readers 0) _ 0 WriteLock _ (tt : lans WriteLock) _ [] _ _ _ (pexec_nil _ _)).
    - reflexivity.
    - repeat split. }
  destruct Hx as (s' & ps' & Hx). exists s', ps'.
  destruct (proj1 (provider_lock_live (L := refusing_svm) (Some demo_client) tt [GetBalance admin_key; SendTx toy_tx] _ _ _ Hx))
    as (tr2 & svm2 & ps2 & H1 & H2).
  exists tr2, svm2, ps2. split; [exact Hx|]. split; [exact H1|exact H2].
Defined.

#[local] Existing Instance toy_rpc.

Lemma provider_read_levels_witness :
  exists n y, [Ev (NodeSlot (mkRpcClient "url" AtConfirmed)) (Ok 7)] = [@Ev nop nans n y]
    /\ commitment (node_client n) = AtConfirmed.
Proof.
  destruct (proj1 (@provider_read_levels demo_serde toy_rpc (@Build_RpcTypesLaws demo_serde toy_rpc eq_refl) "url" GetSlot
    (call (NodeSlot (mkRpcClient "url" AtConfirmed))) [Ev (NodeSlot (mkRpcClient "url" AtConfirmed)) (Ok 7)] (Done (Ok 7))) eq_refl)
    as (n & y & E & _ & Hl).
  - exists (Ok 7), []. repeat split.
  - exists n, y. split; [exact E|exact Hl].
Defined.

End examples.
