(* ===== verification/Startup.v ===== *)
(** * Process start-up (crates/chain-bridge-api/src/main.rs)

    [main] from the first line to the server: which provider, signer and audit
    store the service is built from, what is spawned in the background, and how
    the gRPC port is served.  The process environment is a function, because the
    program never changes it; files, the database, the spawned tasks and the
    server are calls.  rustls, the PEM parser and the socket address parser are
    parameters.  What the spawned tasks do is in Refresh.v, Supervision.v and Consumer.v. *)

From S2P Require Import Prelude RustStd Effects Domain External BridgeOps Fixtures Identity Signing SigningSpec Vault Providers RpcProvider Stack.
From Stdlib Require String.
Import String.StringSyntax.

Local Open Scope Z_scope.

(** ** What the service is built from *)

(** A private key as PEM bytes decode to it; [None] is a file without one. *)
Class Rustls := {
  SocketAddr : Type;
  parse_socket_addr : string -> result SocketAddr string;
  pem_certs : bytes -> result (list bytes) string;
  pem_private_key : bytes -> result (option bytes) string;
  root_store_add : bytes -> result unit string;
  ClientVerifier : Type;
  build_client_verifier : list bytes -> result ClientVerifier string;
  check_single_cert : list bytes -> bytes -> result unit string
}.

Section startup.
Context {X : X509} {K : SolanaSdk} {L : LiteSvm} {RL : Rustls}.
Context (find_program_address : list bytes -> Pubkey -> Pubkey).
Context {Keypair : Type} (keypair_try_from : bytes -> option Keypair).

Inductive AnyProvider : Type :=
| SimnetProvider (svm : Svm) (url : option string)
| RpcNodeProvider (p : RealSolanaProvider).

Inductive AnySigner : Type :=
| DevKeypair (keypair : Keypair)
| Transit (client : VaultTransitClient).

Inductive AnyAudit : Type :=
| PostgresAudit (url : string)
| InMemoryAudit.

(** [ChainBridgeGrpcService::new(..).with_audit(..)]. *)
Record GrpcService := mkService {
  svc_provider : AnyProvider;
  svc_signer : AnySigner;
  svc_audit : AnyAudit;
  svc_config : Config
}.

(** [rustls::ServerConfig]. *)
Record ServerConfig := mkServerConfig {
  client_cert_verifier : ClientVerifier;
  cert_chain : list bytes;
  private_key : bytes;
  alpn_protocols : list string
}.

Inductive BackgroundTask : Type :=
| BlockhashRefresh (p : AnyProvider)
| NatsSupervisor (nats_url : string) (svc : GrpcService) (policy : NatsAuthPolicy).

Inductive Server : Type :=
| Plaintext (addr : SocketAddr) (svc : GrpcService)
| MutualTls (addr : SocketAddr) (svc : GrpcService) (config : ServerConfig).

Definition server_service (s : Server) : GrpcService :=
  match s with Plaintext _ svc | MutualTls _ svc _ => svc end.

Definition server_addr (s : Server) : SocketAddr :=
  match s with Plaintext a _ | MutualTls a _ _ => a end.

(** ** The calls of [main] *)

Inductive mop : Type :=
| InstallCryptoProvider
| InitTelemetry (name : string)
| InitClock
| ReadFile (path : string)
| ConnectPostgres (url : string)
| SpawnTask (t : BackgroundTask)
| ServeOn (s : Server).

Definition mans (o : mop) : Type :=
  match o with
  | InstallCryptoProvider => result unit string
  | InitTelemetry _ | InitClock => unit
  | ReadFile _ => result bytes string
  | ConnectPostgres _ => result unit string
  | SpawnTask _ => unit
  | ServeOn _ => result unit string
  end.

Context (getenv : string -> option string) (info_enabled : bool).

Definition env_or (name default : string) : string := unwrap_or (getenv name) default.

Definition insecure_mode : bool := env_flag getenv "CHAIN_BRIDGE_INSECURE".

(** ** The steps of [main] *)

(** The program files of the simnet are read with [std::fs::read(path)]. *)
Definition program_file (o : Surfpool.fop) : prog mans (Surfpool.fans o) :=
  match o with
  | Surfpool.FsRead path => r <~ call (ReadFile path) ;;
                            Ret (match (r : result bytes string) with Ok b => Some b | Err _ => None end)
  end.

Definition main_provider : prog mans (result AnyProvider string) :=
  let solana_network := env_or "SOLANA_NETWORK" "mainnet" in
  let solana_rpc_url := env_or "SOLANA_RPC_URL" "http://localhost:8899" in
  if String.eqb solana_network "simnet" then
    r <~ interp program_file (Surfpool.new find_program_address (Some solana_rpc_url)) ;;
    Ret (match r with
         | Err e => Err e
         | Ok (svm, url) => Ok (SimnetProvider svm url)
         end)
  else Ret (Ok (RpcNodeProvider (real_new solana_rpc_url))).

Definition main_signer : prog mans AnySigner :=
  if insecure_mode then
    match keypair_try_from (byte_of_Z <$> dev_keypair_bytes) with
    | Some keypair => Ret (DevKeypair keypair)
    | None => Panic
    end
  else
    Ret (Transit (vault_client_new (env_or "VAULT_ADDR" "http://localhost:8200") (env_or "VAULT_TOKEN" "root"))).

(** [PostgresAuditStore::connect]: a pool over [url], or the audit error. *)
Definition postgres_connect (url : string) : prog mans (result AnyAudit Errors.ChainBridgeError) :=
  r <~ call (ConnectPostgres url) ;;
  Ret (match (r : result unit string) with
       | Ok _ => Ok (PostgresAudit url)
       | Err e => Err (Errors.Audit ("audit DB connect failed: " +:+ e))
       end).

Definition main_audit : prog mans AnyAudit :=
  match getenv "DATABASE_URL" with
  | Some url =>
      if negb (str_is_empty url) then
        r <~ postgres_connect url ;;
        Ret (match r with Ok store => store | Err _ => InMemoryAudit end)
      else Ret InMemoryAudit
  | None => Ret InMemoryAudit
  end.

(** [ChainBridgeGrpcService::new]: the audit sink starts in memory; and
    [with_audit], which replaces it. *)
Definition grpc_service_new (provider : AnyProvider) (signer : AnySigner) : GrpcService :=
  mkService provider signer InMemoryAudit (service_new getenv info_enabled).

Definition with_audit (audit : AnyAudit) (svc : GrpcService) : GrpcService :=
  mkService (svc_provider svc) (svc_signer svc) audit (svc_config svc).

(** [NatsAuthPolicy::from_env]: it reads the CA file. *)
Definition main_policy : prog mans NatsAuthPolicy :=
  r <~ call (ReadFile (env_or "CHAIN_BRIDGE_TLS_CA" "infra/certs/ca.crt")) ;;
  Ret (policy_from_env getenv (fun _ => r)).

(** [for cert in certs { root_store.add(cert)?; }]. *)
Fixpoint add_roots (roots certs : list bytes) : result (list bytes) string :=
  match certs with
  | [] => Ok roots
  | cert :: certs =>
      match root_store_add cert with
      | Err e => Err e
      | Ok _ => add_roots (roots ++ [cert]) certs
      end
  end.

(** The verifier, from the bytes of the CA file. *)
Definition ca_verifier (ca : bytes) : result ClientVerifier string :=
  certs <-? pem_certs ca;
  roots <-? add_roots [] certs;
  build_client_verifier roots.

Definition main_tls : prog mans (result ServerConfig string) :=
  cert_file <~ call (ReadFile (env_or "CHAIN_BRIDGE_TLS_CERT" "infra/certs/server.crt")) ;;
  match (chain <-? (cert_file : result bytes string); pem_certs chain) with
  | Err e => Ret (Err e)
  | Ok chain =>
  key_file <~ call (ReadFile (env_or "CHAIN_BRIDGE_TLS_KEY" "infra/certs/server.key")) ;;
  match (k <-? (key_file : result bytes string); k <-? pem_private_key k; ok_or k "Missing private key") with
  | Err e => Ret (Err e)
  | Ok key =>
  ca_file <~ call (ReadFile (env_or "CHAIN_BRIDGE_TLS_CA" "infra/certs/ca.crt")) ;;
  match (ca_file : result bytes string) with
  | Err _ => Ret (Err "Failed to read CA certificate")
  | Ok ca =>
  Ret (verifier <-? ca_verifier ca;
       _ <-? check_single_cert chain key;
       Ok (mkServerConfig verifier chain key ["h2"; "http/1.1"]))
  end end end.

Definition main_serve (svc : GrpcService) : prog mans (result unit string) :=
  match parse_socket_addr ("0.0.0.0:" +:+ env_or "CHAIN_BRIDGE_GRPC_PORT" "5040") with
  | Err e => Ret (Err e)
  | Ok addr =>
      if insecure_mode then call (ServeOn (Plaintext addr svc))
      else
        c <~ main_tls ;;
        match c with
        | Err e => Ret (Err e)
        | Ok config => call (ServeOn (MutualTls addr svc config))
        end
  end.

(** After the provider: background tasks, signer, audit store, service, server. *)
Definition main_service (provider : AnyProvider) : prog mans (result unit string) :=
  do! call (SpawnTask (BlockhashRefresh provider)) ;;
  signer <~ main_signer ;;
  audit <~ main_audit ;;
  let svc := with_audit audit (grpc_service_new provider signer) in
  policy <~ main_policy ;;
  do! call (SpawnTask (NatsSupervisor (env_or "NATS_URL" "nats://localhost:4222") svc policy)) ;;
  main_serve svc.

Definition main : prog mans (result unit string) :=
  installed <~ call InstallCryptoProvider ;;
  match (installed : result unit string) with
  | Err _ => Panic
  | Ok _ =>
      do! call (InitTelemetry "gridtokenx-chain-bridge") ;;
      do! call InitClock ;;
      p <~ main_provider ;;
      match p with
      | Err e => Ret (Err e)
      | Ok provider => main_service provider
      end
  end.

(** ** Inversion *)

Definition is_serve (e : event mans) : Prop := match ev_op e with ServeOn _ => True | _ => False end.
Definition is_spawn (e : event mans) : Prop := match ev_op e with SpawnTask _ => True | _ => False end.

(** Calls that neither spawn nor serve. *)
Definition passive (e : event mans) : Prop := ~ is_serve e /\ ~ is_spawn e.

(** The background tasks of a trace, in order. *)
Definition spawned (tr : list (event mans)) : list BackgroundTask :=
  omap (fun e : event mans => match ev_op e with SpawnTask t => Some t | _ => None end) tr.

Lemma passive_spawned tr : Forall passive tr -> spawned tr = [].
Proof. induction 1 as [|[o x] tr [_ Ho] _ IH]; [done|]. by destruct o; cbn; try done; destruct Ho. Qed.

Lemma spawned_app t1 t2 : spawned (t1 ++ t2) = spawned t1 ++ spawned t2.
Proof. apply omap_app. Qed.

Lemma spawned_cons o x tr :
  spawned (Ev o x :: tr) = match o with SpawnTask t => t :: spawned tr | _ => spawned tr end.
Proof. by destruct o. Qed.

Lemma passive_no_serve tr s x : Forall passive tr -> Ev (ServeOn s) x ∉ tr.
Proof. rewrite Forall_forall. intros HF Hin. by apply HF in Hin as [[] _]. Qed.

(** What the TLS set-up read, when it succeeded. *)
Definition tls_from (chain_pem key_pem ca_pem : bytes) (config : ServerConfig) : Prop :=
  exists key verifier,
    pem_certs chain_pem = Ok (cert_chain config)
    /\ pem_private_key key_pem = Ok (Some key) /\ private_key config = key
    /\ ca_verifier ca_pem = Ok verifier /\ client_cert_verifier config = verifier
    /\ check_single_cert (cert_chain config) key = Ok tt
    /\ alpn_protocols config = ["h2"; "http/1.1"].

Definition tls_reads (chain_pem key_pem ca_pem : bytes) : list (event mans) :=
  [ Ev (ReadFile (env_or "CHAIN_BRIDGE_TLS_CERT" "infra/certs/server.crt")) (Ok chain_pem);
    Ev (ReadFile (env_or "CHAIN_BRIDGE_TLS_KEY" "infra/certs/server.key")) (Ok key_pem);
    Ev (ReadFile (env_or "CHAIN_BRIDGE_TLS_CA" "infra/certs/ca.crt")) (Ok ca_pem) ].

Lemma read_passive path x : passive (Ev (ReadFile path) x).
Proof. split; by intros []. Qed.

Lemma main_tls_runs tr r :
  runs main_tls tr r ->
  Forall passive tr /\
  ((exists e, r = Done (Err e))
   \/ exists config a b c, r = Done (Ok config) /\ tr = tls_reads a b c /\ tls_from a b c config).
Proof.
  unfold main_tls. cbn [call bind runs]. intros ([a|e] & t & -> & Hr); cbn in Hr.
  2:{ destruct Hr as [-> ->]. split; [|by left; eexists]. constructor; [apply read_passive|constructor]. }
  destruct (pem_certs a) as [chain|e] eqn:Hc; cbn in Hr.
  2:{ destruct Hr as [-> ->]. split; [|by left; eexists]. constructor; [apply read_passive|constructor]. }
  destruct Hr as ([b|e] & t2 & -> & Hr); cbn in Hr.
  2:{ destruct Hr as [-> ->]. split; [|by left; eexists]. repeat (constructor; [apply read_passive|]). constructor. }
  destruct (pem_private_key b) as [[key|]|e] eqn:Hk; cbn in Hr.
  2,3: destruct Hr as [-> ->]; (split; [|by left; eexists]); repeat (constructor; [apply read_passive|]); constructor.
  destruct Hr as ([ca|e] & t3 & -> & Hr); cbn in Hr; destruct Hr as [-> ->];
    (split; [repeat (constructor; [apply read_passive|]); constructor|]); [|by left; eexists].
  destruct (ca_verifier ca) as [v|e] eqn:Hv; cbn; [|by left; eexists].
  destruct (check_single_cert chain key) as [[]|e] eqn:Hs; cbn; [|by left; eexists].
  right. exists (mkServerConfig v chain key ["h2"; "http/1.1"]), a, b, ca. splits; [done|done|]. exists key, v. done.
Qed.

(** The server a run ends in, or a failure before serving. *)
Lemma main_serve_runs svc tr r :
  runs (main_serve svc) tr r ->
  (Forall passive tr /\ exists e, r = Done (Err e))
  \/ exists addr s x t, parse_socket_addr ("0.0.0.0:" +:+ env_or "CHAIN_BRIDGE_GRPC_PORT" "5040") = Ok addr
       /\ tr = t ++ [Ev (ServeOn s) x] /\ Forall passive t /\ r = Done x
       /\ match s with
          | Plaintext addr' svc' => insecure_mode = true /\ addr' = addr /\ svc' = svc
          | MutualTls addr' svc' config => insecure_mode = false /\ addr' = addr /\ svc' = svc
              /\ exists a b c, t = tls_reads a b c /\ tls_from a b c config
          end.
Proof.
  unfold main_serve. destruct (parse_socket_addr _) as [addr|e].
  2:{ intros [-> ->]. left. split; [constructor|eauto]. }
  destruct insecure_mode eqn:Hm.
  - cbn [call runs]. intros (x & t & -> & -> & ->). right. exists addr, (Plaintext addr svc), x, [].
    by splits.
  - intros [(c & t1 & t2 & -> & H1 & H2)|[H1 ->]]%runs_bind;
      destruct (main_tls_runs _ _ H1) as [Hp Hc]; [|naive_solver].
    destruct Hc as [[e [= ->]]|(config & a & b & ca & [= ->] & -> & Htls)].
    + destruct H2 as [-> ->]. left. rewrite app_nil_r. split; [done|eauto].
    + cbn [call runs] in H2. destruct H2 as (x & t & -> & -> & ->). right.
      exists addr, (MutualTls addr svc config), x, (tls_reads a b ca). splits; [done..|]. splits; [done..|]. by exists a, b, ca.
Qed.

(** What the audit sink is, given the calls made to choose it. *)
Definition audit_chosen (t : list (event mans)) (audit : AnyAudit) : Prop :=
  match getenv "DATABASE_URL" with
  | Some url =>
      if str_is_empty url then t = [] /\ audit = InMemoryAudit
      else exists x : result unit string, t = [Ev (ConnectPostgres url) x]
           /\ audit = match x with Ok _ => PostgresAudit url | Err _ => InMemoryAudit end
  | None => t = [] /\ audit = InMemoryAudit
  end.

Lemma main_audit_runs tr r :
  runs main_audit tr r -> Forall passive tr /\ exists audit, r = Done audit /\ audit_chosen tr audit.
Proof.
  unfold main_audit, audit_chosen. destruct (getenv "DATABASE_URL") as [url|].
  - destruct (str_is_empty url); cbn [negb].
    + intros [-> ->]. split; [constructor|eauto].
    + cbn [postgres_connect call bind runs]. intros (x & t & -> & -> & ->). split; [repeat constructor; by intros []|].
      exists (match x with Ok _ => PostgresAudit url | Err _ => InMemoryAudit end). destruct x; eauto.
  - intros [-> ->]. split; [constructor|eauto].
Qed.

Definition signer_chosen (signer : AnySigner) : Prop :=
  if insecure_mode
  then exists keypair, keypair_try_from (byte_of_Z <$> dev_keypair_bytes) = Some keypair /\ signer = DevKeypair keypair
  else signer = Transit (vault_client_new (env_or "VAULT_ADDR" "http://localhost:8200") (env_or "VAULT_TOKEN" "root")).

Lemma main_signer_runs tr r :
  runs main_signer tr r -> tr = [] /\ (r = Aborted \/ exists signer, r = Done signer /\ signer_chosen signer).
Proof.
  unfold main_signer, signer_chosen. destruct insecure_mode.
  - destruct (keypair_try_from _) as [kp|]; intros [-> ->]; (split; [done|]); eauto 6.
  - intros [-> ->]. eauto.
Qed.

Definition provider_chosen (provider : AnyProvider) : Prop :=
  let url := env_or "SOLANA_RPC_URL" "http://localhost:8899" in
  if String.eqb (env_or "SOLANA_NETWORK" "mainnet") "simnet"
  then exists svm, provider = SimnetProvider svm (Some url)
  else provider = RpcNodeProvider (real_new url).

Lemma surfpool_new_url url tr svm url' :
  runs (Surfpool.new find_program_address url) tr (Done (Ok (svm, url'))) -> url' = url.
Proof. intros [([svm'|e] & t1 & t2 & _ & _ & [_ Heq])|[_ ?]]%runs_bind; [|done|done]. by injection Heq. Qed.

Lemma main_provider_runs tr r :
  runs main_provider tr r ->
  Forall passive tr /\ (r = Aborted \/ (exists e, r = Done (Err e)) \/ exists p, r = Done (Ok p) /\ provider_chosen p).
Proof.
  unfold main_provider, provider_chosen. cbn zeta. destruct (String.eqb _ "simnet").
  2:{ intros [-> ->]. split; [constructor|]. eauto 6. }
  assert (Hfile : forall o, always passive (program_file o) (fun _ => True)).
  { intros [path]. cbn. intros x. split; [apply read_passive|done]. }
  assert (Hnp : forall o t, ~ runs (program_file o) t Aborted).
  { intros [path] t. cbn. naive_solver. }
  intros [(x & t1 & t2 & -> & H1 & [-> ->])|[H1 ->]]%runs_bind;
    destruct (always_runs _ _ _ _ _ (interp_always _ _ _ Hfile) H1) as [HF _]; rewrite ?app_nil_r; (split; [done|]).
  - destruct x as [[svm url]|e]; [|eauto]. right. right.
    apply interp_runs in H1 as (u & Hu & _); [|done]. apply surfpool_new_url in Hu as ->. eauto.
  - by left.
Qed.

(** How [s] came to be served. *)
Definition served_by (svc : GrpcService) (t : list (event mans)) (s : Server) : Prop :=
  exists addr, parse_socket_addr ("0.0.0.0:" +:+ env_or "CHAIN_BRIDGE_GRPC_PORT" "5040") = Ok addr
  /\ match s with
     | Plaintext addr' svc' => insecure_mode = true /\ addr' = addr /\ svc' = svc
     | MutualTls addr' svc' config => insecure_mode = false /\ addr' = addr /\ svc' = svc
         /\ exists a b c, t = tls_reads a b c /\ tls_from a b c config
     end.

Definition ca_path : string := env_or "CHAIN_BRIDGE_TLS_CA" "infra/certs/ca.crt".

(** The trace of a start-up that reached its server. *)
Definition startup_trace (t0 t1 t2 : list (event mans)) (svc : GrpcService) (ca : result bytes string)
    (s : Server) (x : result unit string) : list (event mans) :=
  t0 ++ Ev (SpawnTask (BlockhashRefresh (svc_provider svc))) tt :: t1
  ++ Ev (ReadFile ca_path) ca
  :: Ev (SpawnTask (NatsSupervisor (env_or "NATS_URL" "nats://localhost:4222") svc
                      (policy_from_env getenv (fun _ => ca)))) tt
  :: t2 ++ [Ev (ServeOn s) x].

Definition service_wired (svc : GrpcService) (t1 : list (event mans)) : Prop :=
  provider_chosen (svc_provider svc) /\ signer_chosen (svc_signer svc) /\ audit_chosen t1 (svc_audit svc)
  /\ svc_config svc = service_new getenv info_enabled.

Lemma main_service_runs provider tr r :
  provider_chosen provider -> runs (main_service provider) tr r ->
  (forall s x, Ev (ServeOn s) x ∉ tr)
  \/ exists t1 t2 svc ca s x, tr = startup_trace [] t1 t2 svc ca s x /\ service_wired svc t1
       /\ Forall passive t1 /\ Forall passive t2 /\ served_by svc t2 s /\ r = Done x.
Proof.
  intros Hp. unfold main_service. cbn [call bind runs]. intros ([] & t & -> & Hr).
  assert (Hno : forall t, Forall (fun e => ~ is_serve e) t -> forall s x, Ev (ServeOn s) x ∉ t).
  { intros u Hu s x Hin. rewrite Forall_forall in Hu. by apply Hu in Hin. }
  assert (Hpas : forall t, Forall passive t -> Forall (fun e => ~ is_serve e) t).
  { intros u Hu. eapply Forall_impl; [exact Hu|]. by intros e [? _]. }
  apply runs_bind in Hr as [(signer & u1 & u2 & -> & H1 & Hr)|[H1 ->]];
    destruct (main_signer_runs _ _ H1) as [-> Hs]; [|left; apply Hno; repeat constructor; by intros []].
  destruct Hs as [?|(signer' & [= <-] & Hs)]; [done|]. cbn [app] in *.
  apply runs_bind in Hr as [(audit & t1 & u3 & -> & H2 & Hr)|[H2 ->]];
    destruct (main_audit_runs _ _ H2) as (Ha & audit' & Heq & Hch); [|done]. injection Heq as <-.
  unfold main_policy in Hr. cbn [call bind runs] in Hr. destruct Hr as (ca & u4 & -> & ([] & u5 & -> & Hr)).
  apply main_serve_runs in Hr as [[HF (e & ->)]|(addr & s & x & t2 & Haddr & -> & HF & -> & Hserve)].
  - left. apply Hno. constructor; [by intros []|]. apply Forall_app. split; [by apply Hpas|].
    constructor; [by intros []|]. constructor; [by intros []|]. by apply Hpas.
  - right. exists t1, t2, (mkService provider signer audit (service_new getenv info_enabled)), ca, s, x.
    splits; [done|done|done|done|by exists addr|done].
Qed.

Lemma main_runs tr r :
  runs main tr r ->
  (forall s x, Ev (ServeOn s) x ∉ tr)
  \/ exists t0 t1 t2 svc ca s x, tr = startup_trace t0 t1 t2 svc ca s x /\ service_wired svc t1
       /\ Forall passive t0 /\ Forall passive t1 /\ Forall passive t2 /\ served_by svc t2 s /\ r = Done x.
Proof.
  unfold main. cbn [call bind runs]. intros ([u|e] & t & -> & Hr).
  2:{ destruct Hr as [-> ->]. left. intros s x Hin%list_elem_of_singleton. by apply (f_equal ev_op) in Hin. }
  cbn [call bind runs] in Hr. destruct Hr as ([] & t' & -> & ([] & t'' & -> & Hr)).
  pose (h := [@Ev mop mans InstallCryptoProvider (Ok u);
              @Ev mop mans (InitTelemetry "gridtokenx-chain-bridge") tt; @Ev mop mans InitClock tt]).
  match goal with |- (forall s x, _ ∉ ?l) \/ _ => change l with (h ++ t'') end.
  assert (Hh : Forall passive h) by (repeat constructor; by intros []).
  apply runs_bind in Hr as [(p & u1 & u2 & -> & H1 & Hr)|[H1 ->]]; destruct (main_provider_runs _ _ H1) as [Hpas Hc].
  2:{ left. intros s x [Hin|Hin]%elem_of_app; revert Hin; by apply passive_no_serve. }
  destruct Hc as [?|[(e & [= ->])|(provider & [= ->] & Hch)]]; [done| |].
  { destruct Hr as [-> ->]. left. intros s x. rewrite !elem_of_app. intros [Hin|[Hin|Hin]]; revert Hin;
      [by apply passive_no_serve|by apply passive_no_serve|by intros ?%elem_of_nil]. }
  apply (main_service_runs provider) in Hr as [Hno|(t1 & t2 & svc & ca & s & x & -> & Hw & Ht1 & Ht2 & Hs & ->)]; [| |done].
  - left. intros s x. rewrite !elem_of_app. intros [Hin|[Hin|Hin]]; revert Hin;
      [by apply passive_no_serve|by apply passive_no_serve|apply Hno].
  - right. exists (h ++ u1), t1, t2, svc, ca, s, x. unfold startup_trace. rewrite <- app_assoc.
    splits; [done|done|by apply Forall_app|done|done|done|done].
Qed.

Lemma add_roots_ok roots certs l :
  add_roots roots certs = Ok l -> l = roots ++ certs /\ Forall (fun cert => root_store_add cert = Ok tt) certs.
Proof.
  revert roots. induction certs as [|cert certs IH]; intros roots; cbn.
  - intros [= <-]. by rewrite app_nil_r.
  - destruct (root_store_add cert) as [[]|e] eqn:Hc; [|done]. intros [-> HF]%IH.
    rewrite <- app_assoc. split; [done|by constructor].
Qed.

(** The verifier trusts every certificate of the CA file and nothing else. *)
Lemma ca_verifier_ok ca v :
  ca_verifier ca = Ok v ->
  exists certs, pem_certs ca = Ok certs /\ Forall (fun cert => root_store_add cert = Ok tt) certs
    /\ build_client_verifier certs = Ok v.
Proof.
  unfold ca_verifier. destruct (pem_certs ca) as [certs|e] eqn:Hc; cbn; [|done].
  destruct (add_roots [] certs) as [roots|e] eqn:Hr; cbn; [|done].
  apply add_roots_ok in Hr as [-> HF]. eauto.
Qed.

Lemma startup_trace_serve t0 t1 t2 svc ca s x s' x' :
  Forall passive t0 -> Forall passive t1 -> Forall passive t2 ->
  Ev (ServeOn s') x' ∈ startup_trace t0 t1 t2 svc ca s x -> s' = s.
Proof.
  intros H0 H1 H2 Hin.
  assert (Hpas : forall t, Forall passive t -> Forall (fun e => forall s', ev_op e = ServeOn s' -> s' = s) t).
  { intros t Ht. eapply Forall_impl; [exact Ht|]. intros [o y] [Hns _] s1 Ho. cbn in Ho. subst o. by destruct Hns. }
  assert (HF : Forall (fun e => forall s', ev_op e = ServeOn s' -> s' = s) (startup_trace t0 t1 t2 svc ca s x)).
  { unfold startup_trace. apply Forall_app. split; [auto|]. constructor; [done|]. apply Forall_app. split; [auto|].
    constructor; [done|]. constructor; [done|]. apply Forall_app. split; [auto|].
    constructor; [|constructor]. cbn. by intros s1 [= ->]. }
  rewrite Forall_forall in HF. by apply (HF _ Hin).
Qed.

(** C20: how the bridge may come up.  Whatever the environment, the files and the
    database say, a run of [main] serves plaintext only in insecure mode, and then
    with the development keypair as its signer; it serves mutual TLS only outside
    insecure mode, and then with the Vault of [VAULT_ADDR] as its signer, with the
    certificate chain and key of the configured files, and with a client verifier
    built from exactly the certificates of the configured CA file, all of which the
    root store accepted: in mutual TLS mode a certificate, key or CA file that cannot
    be read or parsed stops the start-up before anything is served.  In insecure
    mode no file has to be readable (a missing CA only makes the NATS envelope
    policy log-only). *)
Theorem startup_fails_closed tr r s x :
  runs main tr r -> Ev (ServeOn s) x ∈ tr ->
  match s with
  | Plaintext _ svc =>
      insecure_mode = true
      /\ exists keypair, keypair_try_from (byte_of_Z <$> dev_keypair_bytes) = Some keypair
                         /\ svc_signer svc = DevKeypair keypair
  | MutualTls _ svc config =>
      insecure_mode = false
      /\ svc_signer svc = Transit (vault_client_new (env_or "VAULT_ADDR" "http://localhost:8200") (env_or "VAULT_TOKEN" "root"))
      /\ exists chain_pem key_pem ca_pem certs,
           Ev (ReadFile (env_or "CHAIN_BRIDGE_TLS_CERT" "infra/certs/server.crt")) (Ok chain_pem) ∈ tr
           /\ Ev (ReadFile (env_or "CHAIN_BRIDGE_TLS_KEY" "infra/certs/server.key")) (Ok key_pem) ∈ tr
           /\ Ev (ReadFile ca_path) (Ok ca_pem) ∈ tr
           /\ pem_certs chain_pem = Ok (cert_chain config)
           /\ pem_private_key key_pem = Ok (Some (private_key config))
           /\ pem_certs ca_pem = Ok certs /\ Forall (fun cert => root_store_add cert = Ok tt) certs
           /\ build_client_verifier certs = Ok (client_cert_verifier config)
  end.
Proof.
  intros Hr Hin. apply main_runs in Hr as [Hno|(t0 & t1 & t2 & svc & ca & s' & y & -> & (_ & Hsig & _) & H0 & H1 & H2 & (addr & _ & Hs) & _)];
    [by apply Hno in Hin|].
  apply startup_trace_serve in Hin as ->; [|done..]. unfold signer_chosen in Hsig.
  destruct s' as [addr' svc'|addr' svc' config].
  - destruct Hs as (Hm & _ & ->). rewrite Hm in Hsig. done.
  - destruct Hs as (Hm & _ & -> & a & b & c & -> & (key & v & Hchain & Hkey & <- & Hv & <- & _)). rewrite Hm in Hsig.
    split; [done|]. split; [done|]. apply ca_verifier_ok in Hv as (certs & Hc & HF & Hb).
    exists a, b, c, certs.
    assert (Hreads : forall e, e ∈ tls_reads a b c -> e ∈ startup_trace t0 t1 (tls_reads a b c) svc ca (MutualTls addr' svc config) y).
    { intros e He. unfold startup_trace. apply elem_of_app. right. right. apply elem_of_app. right. do 2 right.
      apply elem_of_app. by left. }
    splits; try done; apply Hreads; unfold tls_reads; [left|right; left|right; right; left].
Qed.

(** C30: what is wired together.  A start-up that serves has spawned exactly the
    blockhash refresh and the NATS supervisor, in this order and before serving,
    and serving is its last call, on the address of [CHAIN_BRIDGE_GRPC_PORT].  The
    NATS consumer and the gRPC server share one service, so one provider (the
    simnet exactly when [SOLANA_NETWORK] says so), one signer and one audit trail,
    which is Postgres exactly when [DATABASE_URL] is set and the connection
    succeeded, and in memory otherwise. *)
Theorem startup_wiring tr r s x :
  runs main tr r -> Ev (ServeOn s) x ∈ tr ->
  let svc := server_service s in
  exists t ca y, tr = t ++ [Ev (ServeOn s) y] /\ r = Done y
    /\ spawned tr = [BlockhashRefresh (svc_provider svc);
                     NatsSupervisor (env_or "NATS_URL" "nats://localhost:4222") svc (policy_from_env getenv (fun _ => ca))]
    /\ Ev (ReadFile ca_path) ca ∈ tr
    /\ parse_socket_addr ("0.0.0.0:" +:+ env_or "CHAIN_BRIDGE_GRPC_PORT" "5040") = Ok (server_addr s)
    /\ provider_chosen (svc_provider svc)
    /\ (exists t1, sublist t1 tr /\ audit_chosen t1 (svc_audit svc))
    /\ svc_config svc = service_new getenv info_enabled.
Proof.
  intros Hr Hin. apply main_runs in Hr as [Hno|(t0 & t1 & t2 & svc & ca & s' & y & -> & (Hp & _ & Ha & Hc) & H0 & H1 & H2 & (addr & Haddr & Hs) & ->)];
    [by apply Hno in Hin|].
  pose proof (startup_trace_serve _ _ _ _ _ _ _ _ _ H0 H1 H2 Hin) as ->. cbn zeta.
  assert (server_service s' = svc /\ server_addr s' = addr) as [-> ->] by (destruct s'; naive_solver).
  eexists _, ca, y. split; [unfold startup_trace; rewrite app_comm_cons, app_assoc, !app_comm_cons, app_assoc; reflexivity|].
  split; [done|]. splits; try done.
  - unfold startup_trace. by rewrite spawned_app, spawned_cons, spawned_app, !spawned_cons, spawned_app,
      (passive_spawned t0), (passive_spawned t1), (passive_spawned t2).
  - unfold startup_trace. apply elem_of_app. right. right. apply elem_of_app. right. left.
  - exists t1. split; [|done]. unfold startup_trace. apply sublist_inserts_l. apply sublist_cons. by apply sublist_inserts_r.
Qed.

End startup.

(** ** Examples *)

Section examples.
#[local] Existing Instances toy_sdk toy_x509 refusing_svm.

#[local] Instance toy_rustls : Rustls := {|
  SocketAddr := string;
  parse_socket_addr := Ok;
  pem_certs := fun b => Ok [b];
  pem_private_key := fun b => Ok (Some b);
  root_store_add := fun _ => Ok tt;
  ClientVerifier := list bytes;
  build_client_verifier := fun l => match l with [] => Err "no root certificates" | _ => Ok l end;
  check_single_cert := fun _ _ => Ok tt
|}.

(** Every file exists, the database does not answer, the server stops cleanly. *)
Definition machine (o : mop (Keypair := unit)) (u : unit) : mans o * unit :=
  (match o return mans o with
   | InstallCryptoProvider => Ok tt
   | InitTelemetry _ | InitClock | SpawnTask _ => tt
   | ReadFile path => Ok (as_bytes path)
   | ConnectPostgres _ => Err "connection refused"
   | ServeOn _ => Ok tt
   end, u).

Definition demo_program_address (seeds : list bytes) (pk : Pubkey) : Pubkey := pk.

Definition demo_main (env : string -> option string) :=
  run machine (main demo_program_address (fun _ => Some tt) env true) tt.

Definition with_database (name : string) : option string :=
  if String.eqb name "DATABASE_URL" then Some "postgres://audit" else None.

Definition demo_server : Server (Keypair := unit) :=
  MutualTls "0.0.0.0:5040"
    (mkService (RpcNodeProvider (real_new "http://localhost:8899"))
       (Transit (vault_client_new "http://localhost:8200" "root")) InMemoryAudit (service_new with_database true))
    (mkServerConfig [as_bytes "infra/certs/ca.crt"] [as_bytes "infra/certs/server.crt"]
       (as_bytes "infra/certs/server.key") ["h2"; "http/1.1"]).

Lemma demo_serves : Ev (ServeOn demo_server) (Ok tt) ∈ fst (fst (demo_main with_database)).
Proof.
  apply list_elem_of_lookup. exists 10%nat. vm_compute. reflexivity.
Defined.

Lemma startup_fails_closed_witness :
  exists chain_pem, @Ev mop (@mans _ _ unit) (ReadFile "infra/certs/server.crt") (Ok chain_pem) ∈ fst (fst (demo_main with_database))
    /\ pem_certs chain_pem = Ok [as_bytes "infra/certs/server.crt"].
Proof.
  destruct (startup_fails_closed demo_program_address (fun _ => Some tt) with_database true
    (fst (fst (demo_main with_database))) (snd (fst (demo_main with_database))) demo_server (Ok tt))
    as (_ & _ & c & k & ca & certs & H1 & _ & _ & H2 & _).
  - apply run_trace.
  - apply demo_serves.
  - exists c. split; [exact H1|exact H2].
Defined.

Lemma startup_wiring_witness :
  exists t1, sublist t1 (fst (fst (demo_main with_database)))
    /\ audit_chosen with_database t1 (svc_audit (server_service demo_server)).
Proof.
  destruct (startup_wiring demo_program_address (fun _ => Some tt) with_database true
    (fst (fst (demo_main with_database))) (snd (fst (demo_main with_database))) demo_server (Ok tt)
    (run_trace _ _ _) demo_serves)
    as (t & ca & y & _ & _ & _ & _ & _ & _ & H & _).
  exact H.
Defined.

End examples.
