(* ===== verification/F32.v ===== *)
(** * Single-precision floats and stable sorting

    [f32] as the IEEE binary32 instance of the Standard Library's executable
    float specification, the comparison operators Rust derives from
    [partial_cmp], and [slice::sort_by] as a stable insertion sort: on a total
    preorder every stable sort computes this list. *)

From S2P Require Import Prelude.
From Stdlib Require Import Floats.SpecFloat.
From Stdlib Require Import Sorting.Sorted.

Local Open Scope Z_scope.

(** ** binary32 *)

Abbreviation f32 := spec_float.

Definition f32_zero : f32 := S754_zero false.
Definition f32_one : f32 := S754_finite false 8388608 (-23).

Definition f32_add : f32 -> f32 -> f32 := SFadd 24 128.
Definition f32_mul : f32 -> f32 -> f32 := SFmul 24 128.
Definition f32_div : f32 -> f32 -> f32 := SFdiv 24 128.
Definition f32_sqrt : f32 -> f32 := SFsqrt 24 128.

(** [a.partial_cmp(&b)], and [==], [>], [>=] from it. *)
Definition partial_cmp (a b : f32) : option comparison := SFcompare a b.
Definition f32_eq (a b : f32) : bool := match partial_cmp a b with Some Eq => true | _ => false end.
Definition f32_gt (a b : f32) : bool := match partial_cmp a b with Some Gt => true | _ => false end.
Definition f32_ge (a b : f32) : bool :=
  match partial_cmp a b with Some (Gt | Eq) => true | _ => false end.

Definition is_nan (a : f32) : bool := match a with S754_nan => true | _ => false end.

(** A double by its bit pattern, and [x as f32] (round to nearest even). *)
Definition f64_of_bits (z : Z) : spec_float :=
  let s := Z.testbit z 63 in
  let e := Z.land (Z.shiftr z 52) 2047 in
  let m := Z.land z (2 ^ 52 - 1) in
  if e =? 2047 then (if m =? 0 then S754_infinity s else S754_nan)
  else match (if e =? 0 then m else m + 2 ^ 52) with
       | Zpos p => S754_finite s p (Z.max e 1 - 1075)
       | _ => S754_zero s
       end.

Definition f64_as_f32 (x : spec_float) : f32 :=
  match x with
  | S754_finite s m e => binary_round 24 128 s m e
  | x => x
  end.

(** ** slice::sort_by *)

Section sort.
Context {A : Type} (cmp : A -> A -> comparison).

Fixpoint insert_by (x : A) (l : list A) : list A :=
  match l with
  | [] => [x]
  | y :: l' => match cmp x y with Gt => y :: insert_by x l' | _ => x :: l end
  end.

Fixpoint sort_by (l : list A) : list A :=
  match l with
  | [] => []
  | x :: l => insert_by x (sort_by l)
  end.

(** A comparison that is total and transitive on the elements satisfying [P]. *)
Record total_preorder (P : A -> Prop) : Prop := {
  cmp_refl : forall x, P x -> cmp x x = Eq;
  cmp_antisym : forall x y, P x -> P y -> cmp y x = CompOpp (cmp x y);
  cmp_trans : forall x y z, P x -> P y -> P z -> cmp x y <> Gt -> cmp y z <> Gt -> cmp x z <> Gt
}.

Context (P : A -> Prop) (HP : total_preorder P).

Lemma insert_by_perm x l : Permutation (insert_by x l) (x :: l).
Proof.
  induction l as [|y l IH]; cbn; [done|]. destruct (cmp x y); try done.
  rewrite IH. apply Permutation_swap.
Qed.

Lemma sort_by_perm l : Permutation (sort_by l) l.
Proof. induction l as [|x l IH]; cbn; [done|]. by rewrite insert_by_perm, IH. Qed.

Lemma insert_by_sorted x l :
  P x -> Forall P l -> StronglySorted (fun a b => cmp a b <> Gt) l ->
  StronglySorted (fun a b => cmp a b <> Gt) (insert_by x l).
Proof.
  intros Hx Hl Hs. induction Hs as [|y l Hs IH Hy]; cbn; [by repeat constructor|].
  inversion Hl as [|? ? Py Hl']; subst. destruct (cmp x y) eqn:E.
  3:{ constructor; [by apply IH|]. rewrite insert_by_perm. constructor; [|done].
      rewrite (cmp_antisym P HP) by done. by rewrite E. }
  all: constructor; [by constructor|]; constructor; [by rewrite E|].
  all: rewrite Forall_forall in *; intros z Hz.
  all: apply (cmp_trans P HP x y z); auto; by rewrite E.
Qed.

Lemma sort_by_sorted l : Forall P l -> StronglySorted (fun a b => cmp a b <> Gt) (sort_by l).
Proof.
  induction 1 as [|x l Hx Hl IH]; cbn; [constructor|].
  apply insert_by_sorted; [done| |done]. by rewrite sort_by_perm.
Qed.

(** Elements that compare equal keep their order. *)
Lemma insert_by_stable x l z :
  P x -> P z -> Forall P l ->
  filter (fun y => cmp z y = Eq) (insert_by x l) = filter (fun y => cmp z y = Eq) (x :: l).
Proof.
  intros Hx Hz. induction 1 as [|y l Hy Hl IH]; cbn [insert_by]; [done|].
  destruct (cmp x y) eqn:E; try done.
  rewrite (filter_cons _ y (insert_by x l)), IH, !filter_cons.
  destruct (decide (cmp z y = Eq)) as [Ey|], (decide (cmp z x = Eq)) as [Ex|]; try done.
  exfalso. apply (cmp_trans P HP x z y); [done..| | |done].
  - rewrite (cmp_antisym P HP) by done. by rewrite Ex.
  - by rewrite Ey.
Qed.

Lemma sort_by_stable l z :
  P z -> Forall P l -> filter (fun y => cmp z y = Eq) (sort_by l) = filter (fun y => cmp z y = Eq) l.
Proof.
  intros Hz. induction 1 as [|x l Hx Hl IH]; cbn [sort_by]; [done|].
  rewrite insert_by_stable by (try done; by rewrite sort_by_perm).
  rewrite !filter_cons, IH. done.
Qed.

End sort.

(** ** The order on floats that are numbers *)

(** The position of a float: sign class, exponent and mantissa, compared
    lexicographically. *)
Definition rank (f : f32) : Z * Z * Z :=
  match f with
  | S754_nan => (0, 0, 0)
  | S754_infinity s => ((if s then -2 else 2), 0, 0)
  | S754_zero _ => (0, 0, 0)
  | S754_finite true m e => (-1, - e, - Zpos m)
  | S754_finite false m e => (1, e, Zpos m)
  end.

Definition lex (a b : Z * Z * Z) : comparison :=
  let '(a1, a2, a3) := a in let '(b1, b2, b3) := b in
  match a1 ?= b1 with
  | Eq => match a2 ?= b2 with Eq => a3 ?= b3 | c => c end
  | c => c
  end.

Lemma lex_spec a1 a2 a3 b1 b2 b3 :
  lex (a1, a2, a3) (b1, b2, b3) <> Gt <->
  a1 < b1 \/ a1 = b1 /\ (a2 < b2 \/ a2 = b2 /\ a3 <= b3).
Proof.
  unfold lex. destruct (Z.compare_spec a1 b1), (Z.compare_spec a2 b2), (Z.compare_spec a3 b3);
    split; intros; try done; lia.
Qed.

Lemma lex_antisym a b : lex b a = CompOpp (lex a b).
Proof.
  destruct a as [[a1 a2] a3], b as [[b1 b2] b3]. unfold lex.
  rewrite (Z.compare_antisym a1 b1), (Z.compare_antisym a2 b2), (Z.compare_antisym a3 b3).
  by destruct (a1 ?= b1), (a2 ?= b2), (a3 ?= b3).
Qed.

Lemma lex_refl a : lex a a = Eq.
Proof. destruct a as [[a1 a2] a3]. unfold lex. by rewrite !Z.compare_refl. Qed.

Lemma lex_trans a b c : lex a b <> Gt -> lex b c <> Gt -> lex a c <> Gt.
Proof.
  destruct a as [[a1 a2] a3], b as [[b1 b2] b3], c as [[c1 c2] c3].
  rewrite !lex_spec. lia.
Qed.

Lemma partial_cmp_rank a b :
  partial_cmp a b = if is_nan a || is_nan b then None else Some (lex (rank a) (rank b)).
Proof.
  unfold partial_cmp.
  destruct a as [[]|[]| |[] m e], b as [[]|[]| |[] m' e']; cbn -[Z.opp Z.compare]; try done; f_equal.
  rewrite (Z.compare_antisym e' e), <- Z.compare_opp. by destruct (- e ?= - e').
Qed.

(** Descending order of the floats carried by [f], as the comparison closure
    [|a, b| b.1.partial_cmp(&a.1).unwrap_or(Equal)] has it. *)
Definition descending {A : Type} (f : A -> f32) (a b : A) : comparison :=
  unwrap_or (partial_cmp (f b) (f a)) Eq.

Lemma descending_preorder {A : Type} (f : A -> f32) :
  total_preorder (descending f) (fun x => is_nan (f x) = false).
Proof.
  split; unfold descending.
  - intros x Hx. rewrite partial_cmp_rank, Hx. cbn. by rewrite lex_refl.
  - intros x y Hx Hy. rewrite !partial_cmp_rank, Hx, Hy. cbn. apply lex_antisym.
  - intros x y z Hx Hy Hz. rewrite !partial_cmp_rank, Hx, Hy, Hz. cbn. intros. by eapply lex_trans.
Qed.

(** A comparison with NaN is false: what passes a threshold is a number. *)
Lemma f32_ge_number a b : f32_ge a b = true -> is_nan a = false.
Proof. unfold f32_ge. rewrite partial_cmp_rank. by destruct (is_nan a). Qed.

Lemma descending_ge {A : Type} (f : A -> f32) (a b : A) :
  is_nan (f a) = false -> is_nan (f b) = false -> descending f a b <> Gt -> f32_ge (f a) (f b) = true.
Proof.
  unfold descending, f32_ge. intros Ha Hb. rewrite !partial_cmp_rank, Ha, Hb. cbn.
  rewrite (lex_antisym (rank (f b))). by destruct (lex (rank (f b)) (rank (f a))).
Qed.
