(* ===== verification/AgentMemory.v ===== *)
(** * The agent memory (crates/chain-bridge-api/src/agent_memory.rs)

    Three memories behind locks: the short-term message buffer, the long-term
    vector store with its cosine-similarity query, and the episodic log, with the
    two embedding providers.  Each method of [AgentMemorySystem] is a command tree
    over the clock and the embedding service that threads the memories it locks;
    every method holds the lock of each memory it changes from its first access to
    its last, so one call is one transition of that memory. *)

From S2P Require Import Prelude RustStd Effects External Fixtures F32.
From Stdlib Require Import Sorting.Sorted.
From Stdlib Require String.
Import String.StringSyntax.

Local Open Scope Z_scope.

Inductive MemoryError : Type :=
| EmbeddingFailed (s : string)
| Serialization (s : string)
| HttpError (s : string)
| InternalMemory (s : string).

(** ** Cosine similarity *)

(** The accumulators of the loop: dot product and the two squared norms. *)
Fixpoint cosine_loop (a b : list f32) (acc : f32 * f32 * f32) : f32 * f32 * f32 :=
  match a, b with
  | x :: a, y :: b =>
      let '(dot_product, norm_a, norm_b) := acc in
      cosine_loop a b (f32_add dot_product (f32_mul x y),
                       f32_add norm_a (f32_mul x x), f32_add norm_b (f32_mul y y))
  | _, _ => acc
  end.

Definition cosine_similarity (a b : list f32) : f32 :=
  if negb (Nat.eqb (length a) (length b)) || Nat.eqb (length a) 0 then f32_zero
  else
    let '(dot_product, norm_a, norm_b) := cosine_loop a b (f32_zero, f32_zero, f32_zero) in
    if f32_eq norm_a f32_zero || f32_eq norm_b f32_zero then f32_zero
    else f32_div dot_product (f32_mul (f32_sqrt norm_a) (f32_sqrt norm_b)).

(** ** Short-term memory *)

Module ShortTerm.

Inductive MessageRole : Type := System | User | Assistant | Tool.

Record Message := mkMessage {
  role : MessageRole;
  content : string;
  timestamp_ms : Z;
  metadata : gmap string string
}.

Record memory := mkMemory { messages : list Message; max_messages : nat }.

Definition new (max : nat) : memory := mkMemory [] max.

Definition add_message (r : MessageRole) (c : string) (m : gmap string string) (now : Z) (s : memory) : memory :=
  mkMemory (messages s ++ [mkMessage r c now m]) (max_messages s).

Definition get_messages (s : memory) : list Message := messages s.

Definition clear (s : memory) : memory := mkMemory [] (max_messages s).

Definition len (s : memory) : nat := length (messages s).

Definition is_empty (s : memory) : bool := Nat.eqb (length (messages s)) 0.

Definition needs_consolidation (s : memory) : bool := (max_messages s <=? length (messages s))%nat.

(** [drain(0..split_idx)]: the drained messages and the rest. *)
Definition truncate_older (keep : nat) (s : memory) : list Message * memory :=
  if (length (messages s) <=? keep)%nat then ([], s)
  else
    let split_idx := (length (messages s) - keep)%nat in
    (take split_idx (messages s), mkMemory (drop split_idx (messages s)) (max_messages s)).

End ShortTerm.

(** ** Long-term memory *)

Module LongTerm.

Record MemoryEntry := mkEntry {
  id : string;
  content : string;
  embedding : list f32;
  created_at_ms : Z;
  last_accessed_at_ms : Z;
  access_count : Z;
  tags : list string;
  metadata : gmap string string
}.

Record memory := mkMemory { entries : list MemoryEntry }.

Definition new : memory := mkMemory [].

Definition insert (e : MemoryEntry) (s : memory) : memory := mkMemory (entries s ++ [e]).

Definition size (s : memory) : nat := length (entries s).

(** The loop of [query]: the entries that reach the threshold, scored. *)
Definition hits (query_embedding : list f32) (min_score : f32) (l : list MemoryEntry)
  : list (MemoryEntry * f32) :=
  omap (fun e => let score := cosine_similarity query_embedding (embedding e) in
                 if f32_ge score min_score then Some (e, score) else None) l.

Definition query (query_embedding : list f32) (limit : nat) (min_score : f32) (s : memory)
  : list (MemoryEntry * f32) :=
  take limit (sort_by (descending snd) (hits query_embedding min_score (entries s))).

Definition touched (now : Z) (e : MemoryEntry) : MemoryEntry :=
  mkEntry (id e) (content e) (embedding e) (created_at_ms e) now (u64_add (access_count e) 1)
    (tags e) (metadata e).

(** [iter_mut().find(|e| e.id == id)]: the first entry with that id. *)
Fixpoint touch_first (key : string) (now : Z) (l : list MemoryEntry) : list MemoryEntry :=
  match l with
  | [] => []
  | e :: l => if String.eqb (id e) key then touched now e :: l else e :: touch_first key now l
  end.

Definition touch_entry (key : string) (now : Z) (s : memory) : memory :=
  mkMemory (touch_first key now (entries s)).

End LongTerm.

(** ** Episodic memory *)

Module Episodic.

Record EpisodeStep := mkStep {
  action : string;
  observation : string;
  step_timestamp_ms : Z;
  step_metadata : gmap string string
}.

Record Episode := mkEpisode {
  id : string;
  task : string;
  steps : list EpisodeStep;
  success : bool;
  reward : option f32;
  timestamp_ms : Z
}.

Record memory := mkMemory { episodes : list Episode }.

Definition new : memory := mkMemory [].
Definition add_episode (e : Episode) (s : memory) : memory := mkMemory (episodes s ++ [e]).

Definition get_episodes (s : memory) : list Episode := episodes s.

(** [&self.episodes[len - n..]]. *)
Definition get_last_n_episodes (n : nat) (s : memory) : list Episode :=
  let len := length (episodes s) in
  if (len <=? n)%nat then episodes s else drop (len - n) (episodes s).

End Episodic.

(** ** The calls: the clock and the embedding endpoint *)

Section system.
Context {J : SerdeJson}.

(** What the HTTP exchange of [RemoteEmbeddingProvider] ends in. *)
Inductive EmbedReply : Type :=
| SendError (e : string)
| ErrorStatus (status body : string)
| BodyError (e : string)
| Body (v : Value).

(** [SystemNow]: nanoseconds since the epoch, negative before it. *)
Inductive mop : Type :=
| SystemNow
| PostEmbeddings (endpoint authorization model : string) (input : list string).

Definition mans (o : mop) : Type :=
  match o with
  | SystemNow => Z
  | PostEmbeddings _ _ _ _ => EmbedReply
  end.

Definition current_time_ms : prog mans Z :=
  n <~ call SystemNow ;;
  Ret (as_u64 (Z.max 0 n / 1000000)).

(** [uuid_v4_placeholder] as a function of the nanoseconds it reads. *)
Definition uuid_bytes (nanos : Z) : list Z :=
  let b i := Z.land (Z.shiftr nanos (i * 8)) 255 in
  [b 0; b 1; b 2; b 3; b 4; b 5; Z.lor (Z.land (b 6) 15) 64; b 7;
   Z.lor (Z.land (b 8) 63) 128; b 9; b 10; b 11; b 12; b 13; b 14; b 15].

Definition uuid_string (l : list Z) : string :=
  let h a b := hex_string (byte_of_Z <$> take b (drop a l)) in
  h 0%nat 4%nat +:+ "-" +:+ h 4%nat 2%nat +:+ "-" +:+ h 6%nat 2%nat +:+ "-" +:+ h 8%nat 2%nat
    +:+ "-" +:+ h 10%nat 6%nat.

Definition uuid_v4_placeholder : prog mans string :=
  n <~ call SystemNow ;;
  Ret (uuid_string (uuid_bytes (Z.max 0 n))).

(** ** Embedding providers *)

(** The trait. *)
Record EmbeddingProvider := mkProvider {
  get_embedding : string -> prog mans (result (list f32) MemoryError);
  get_embeddings : list string -> prog mans (result (list (list f32)) MemoryError);
  dimension : nat
}.

(** [vector[idx] += 1.0] for each character. *)
Definition bump (dim : nat) (i : nat) (c : Z) (v : list f32) : list f32 :=
  alter (fun x => f32_add x f32_one) (Z.to_nat ((c + Z.of_nat i * 31) mod Z.of_nat dim)) v.

Fixpoint bump_all (dim : nat) (i : nat) (cs : list Z) (v : list f32) : list f32 :=
  match cs with
  | [] => v
  | c :: cs => bump_all dim (S i) cs (bump dim i c v)
  end.

Definition normalize (v : list f32) : list f32 :=
  let norm := f32_sqrt (foldl f32_add f32_zero ((fun x => f32_mul x x) <$> v)) in
  if f32_gt norm f32_zero then (fun x => f32_div x norm) <$> v else v.

(** [LocalEmbeddingProvider::get_embedding]; [% 0] panics. *)
Definition local_get_embedding (dim : nat) (text : string) : prog mans (result (list f32) MemoryError) :=
  let vector := replicate dim f32_zero in
  if str_is_empty text then Ret (Ok vector)
  else match dim, chars text with
       | O, _ :: _ => Panic
       | _, cs => Ret (Ok (normalize (bump_all dim 0 cs vector)))
       end.

Fixpoint local_get_embeddings (dim : nat) (texts : list string)
  : prog mans (result (list (list f32)) MemoryError) :=
  match texts with
  | [] => Ret (Ok [])
  | t :: ts =>
      r <~ local_get_embedding dim t ;;
      match r with
      | Err e => Ret (Err e)
      | Ok v =>
          rs <~ local_get_embeddings dim ts ;;
          Ret (match rs with Err e => Err e | Ok vs => Ok (v :: vs) end)
      end
  end.

Definition LocalEmbeddingProvider (dim : nat) : EmbeddingProvider :=
  mkProvider (local_get_embedding dim) (local_get_embeddings dim) dim.

(** The embedding of one item of the response, if it has one. *)
Definition item_embedding (item : Value) : option (result (list f32) MemoryError) :=
  match value_get item "embedding" with
  | None => None
  | Some e =>
      match value_as_array e with
      | None => None
      | Some vals =>
          Some (collect (fun v => match value_as_f64 v with
                                  | Some bits => Ok (f64_as_f32 (f64_of_bits bits))
                                  | None => Err (EmbeddingFailed "Invalid float in embedding")
                                  end) vals)
      end
  end.

(** The parsed body: the items of ["data"] that have an embedding, or the first
    bad float; no embedding at all is an error too. *)
Definition extract_embeddings (parsed : Value) : result (list (list f32)) MemoryError :=
  let data := match value_get parsed "data" with
              | Some d => unwrap_or (value_as_array d) []
              | None => []
              end in
  match collect (fun x => x) (omap item_embedding data) with
  | Err e => Err e
  | Ok [] => Err (EmbeddingFailed "No embedding data extracted from response")
  | Ok results => Ok results
  end.

Definition remote_get_embeddings (api_key model endpoint : string) (texts : list string)
  : prog mans (result (list (list f32)) MemoryError) :=
  r <~ call (PostEmbeddings endpoint ("Bearer " +:+ api_key) model texts) ;;
  Ret (match (r : EmbedReply) with
       | SendError e | BodyError e => Err (HttpError e)
       | ErrorStatus status body =>
           Err (EmbeddingFailed ("API returned error status: " +:+ status +:+ ". Body: " +:+ body))
       | Body parsed => extract_embeddings parsed
       end).

Definition remote_get_embedding (api_key model endpoint : string) (text : string)
  : prog mans (result (list f32) MemoryError) :=
  r <~ remote_get_embeddings api_key model endpoint [text] ;;
  Ret (match r with
       | Err e => Err e
       | Ok [] => Err (EmbeddingFailed "API returned an empty embeddings array")
       | Ok (v :: _) => Ok v
       end).

Definition RemoteEmbeddingProvider (api_key model endpoint : string) (dim : nat) : EmbeddingProvider :=
  mkProvider (remote_get_embedding api_key model endpoint)
    (remote_get_embeddings api_key model endpoint) dim.

(** ** The coordinator *)

Record AgentMemorySystem := mkSystem {
  short_term : ShortTerm.memory;
  long_term : LongTerm.memory;
  episodic : Episodic.memory
}.

Definition system_new (max_short_term_messages : nat) : AgentMemorySystem :=
  mkSystem (ShortTerm.new max_short_term_messages) LongTerm.new Episodic.new.

Definition set_long (lt : LongTerm.memory) (s : AgentMemorySystem) : AgentMemorySystem :=
  mkSystem (short_term s) lt (episodic s).

Definition system_add_message (r : ShortTerm.MessageRole) (c : string) (m : gmap string string)
    (s : AgentMemorySystem) : prog mans AgentMemorySystem :=
  now <~ current_time_ms ;;
  Ret (mkSystem (ShortTerm.add_message r c m now (short_term s)) (long_term s) (episodic s)).

Context (embedding_provider : EmbeddingProvider).

Definition remember_fact (fact : string) (tags : list string) (metadata : gmap string string)
    (s : AgentMemorySystem) : prog mans (result string MemoryError * AgentMemorySystem) :=
  r <~ get_embedding embedding_provider fact ;;
  match r with
  | Err e => Ret (Err e, s)
  | Ok embedding =>
      id <~ uuid_v4_placeholder ;;
      now <~ current_time_ms ;;
      let entry := LongTerm.mkEntry id fact embedding now now 1 tags metadata in
      Ret (Ok id, set_long (LongTerm.insert entry (long_term s)) s)
  end.

(** The touch loop of [recall]. *)
Fixpoint touch_results (l : list (LongTerm.MemoryEntry * f32)) (lt : LongTerm.memory)
  : prog mans LongTerm.memory :=
  match l with
  | [] => Ret lt
  | (e, _) :: l =>
      match find (fun x => String.eqb (LongTerm.id x) (LongTerm.id e)) (LongTerm.entries lt) with
      | Some _ =>
          now <~ current_time_ms ;;
          touch_results l (LongTerm.touch_entry (LongTerm.id e) now lt)
      | None => touch_results l lt
      end
  end.

Definition recall (query : string) (limit : nat) (min_score : f32) (s : AgentMemorySystem)
  : prog mans (result (list (LongTerm.MemoryEntry * f32)) MemoryError * AgentMemorySystem) :=
  r <~ get_embedding embedding_provider query ;;
  match r with
  | Err e => Ret (Err e, s)
  | Ok query_embedding =>
      let results := LongTerm.query query_embedding limit min_score (long_term s) in
      lt <~ touch_results results (long_term s) ;;
      Ret (Ok results, set_long lt s)
  end.

Definition role_str (r : ShortTerm.MessageRole) : string :=
  match r with
  | ShortTerm.System => "System"
  | ShortTerm.User => "User"
  | ShortTerm.Assistant => "Assistant"
  | ShortTerm.Tool => "Tool"
  end.

Definition newline : string := String (ascii_of_nat 10) EmptyString.

Definition digest_of (truncated : list ShortTerm.Message) : string :=
  foldl (fun d m => d +:+ "- " +:+ role_str (ShortTerm.role m) +:+ ": " +:+ ShortTerm.content m +:+ newline)
    ("Summary of past conversation steps:" +:+ newline) truncated.

Definition consolidate (keep_recent : nat) (s : AgentMemorySystem)
  : prog mans (result (option string) MemoryError * AgentMemorySystem) :=
  if negb (ShortTerm.needs_consolidation (short_term s)) then Ret (Ok None, s)
  else
    let '(truncated, st) := ShortTerm.truncate_older keep_recent (short_term s) in
    match truncated with
    | [] => Ret (Ok None, s)
    | _ :: _ =>
        let digest := digest_of truncated in
        r <~ get_embedding embedding_provider digest ;;
        match r with
        | Err e => Ret (Err e, mkSystem st (long_term s) (episodic s))
        | Ok embedding =>
            id <~ uuid_v4_placeholder ;;
            now <~ current_time_ms ;;
            let entry := LongTerm.mkEntry id digest embedding now now 1 ["consolidation_summary"]
                           {[ "source" := "consolidation" ]} in
            Ret (Ok (Some id), mkSystem st (LongTerm.insert entry (long_term s)) (episodic s))
        end
    end.

Definition record_episode (task : string) (steps : list Episodic.EpisodeStep) (success : bool)
    (reward : option f32) (s : AgentMemorySystem) : prog mans (string * AgentMemorySystem) :=
  id <~ uuid_v4_placeholder ;;
  now <~ current_time_ms ;;
  let episode := Episodic.mkEpisode id task steps success reward now in
  Ret (id, mkSystem (short_term s) (long_term s) (Episodic.add_episode episode (episodic s))).

End system.

(** ** Lemmas *)

Section lemmas.
Context {J : SerdeJson}.

Lemma hits_elem q min_score l e sc :
  (e, sc) ∈ LongTerm.hits q min_score l <->
  e ∈ l /\ sc = cosine_similarity q (LongTerm.embedding e) /\ f32_ge sc min_score = true.
Proof.
  unfold LongTerm.hits. rewrite list_elem_of_omap. cbn. split.
  - intros (x & Hx & He). destruct (f32_ge _ _) eqn:E; simplify_eq. done.
  - intros (He & -> & Hs). exists e. by rewrite Hs.
Qed.

Lemma hits_numbers q min_score l :
  Forall (fun x : LongTerm.MemoryEntry * f32 => is_nan (snd x) = false) (LongTerm.hits q min_score l).
Proof.
  apply Forall_forall. intros [e sc] (_ & _ & H)%hits_elem. by eapply f32_ge_number.
Qed.

Lemma sorted_ge (l : list (LongTerm.MemoryEntry * f32)) :
  Forall (fun x => is_nan (snd x) = false) l ->
  StronglySorted (fun a b => descending snd a b <> Gt) l ->
  StronglySorted (fun a b => f32_ge (snd a) (snd b) = true) l.
Proof.
  intros Hn Hs. induction Hs as [|x l Hs IH Hx]; [constructor|].
  inversion Hn as [|? ? Nx Nl]; subst. constructor; [by apply IH|].
  rewrite Forall_forall in *. intros y Hy. apply descending_ge; auto.
Qed.

(** What a lookup by id changes: nothing but the access statistics. *)
Definition same_memory (a b : LongTerm.MemoryEntry) : Prop :=
  LongTerm.id a = LongTerm.id b /\ LongTerm.content a = LongTerm.content b
  /\ LongTerm.embedding a = LongTerm.embedding b /\ LongTerm.created_at_ms a = LongTerm.created_at_ms b
  /\ LongTerm.tags a = LongTerm.tags b /\ LongTerm.metadata a = LongTerm.metadata b.

#[local] Instance same_memory_preorder : PreOrder same_memory.
Proof. split; [done|]. unfold same_memory. intros a b c. naive_solver congruence. Qed.

Lemma touch_first_same key now l : Forall2 same_memory l (LongTerm.touch_first key now l).
Proof.
  induction l as [|e l IH]; cbn; [constructor|].
  destruct (String.eqb _ _); constructor; done.
Qed.

Lemma touch_results_same l lt tr r :
  runs (touch_results l lt) tr r ->
  exists lt', r = Done lt' /\ Forall2 same_memory (LongTerm.entries lt) (LongTerm.entries lt').
Proof.
  revert lt tr. induction l as [|[e sc] l IH]; intros lt tr; cbn [touch_results].
  - intros [_ ->]. by exists lt.
  - destruct (find _ _); [|apply IH]. intros Hr. cbn in Hr. destruct Hr as (n & t & _ & Hr).
    apply IH in Hr as (lt' & -> & Hl). exists lt'. split; [done|].
    etransitivity; [|exact Hl]. cbn. apply touch_first_same.
Qed.

Lemma bump_all_length dim i cs v : length (bump_all dim i cs v) = length v.
Proof.
  revert i v. induction cs as [|c cs IH]; intros i v; cbn; [done|].
  rewrite IH. unfold bump. by rewrite length_alter.
Qed.

Lemma normalize_length v : length (normalize v) = length v.
Proof. unfold normalize. destruct (f32_gt _ _); [|done]. by rewrite length_fmap. Qed.

(** The local provider answers a vector of its dimension without any call, and
    panics exactly on dimension 0 and a text with a character. *)
Lemma local_embedding_spec dim text tr r :
  runs (local_get_embedding dim text) tr r ->
  tr = [] /\ (r = Aborted <-> dim = 0%nat /\ text <> "" /\ chars text <> [])
  /\ forall x, r = Done x -> exists v, x = Ok v /\ length v = dim.
Proof.
  unfold local_get_embedding. destruct text as [|c text]; cbn [str_is_empty].
  { intros [-> ->]. splits; [done|naive_solver|]. intros x [= <-]. eexists. by rewrite length_replicate. }
  generalize (chars (String c text)). intros cs.
  assert (Hlen : length (normalize (bump_all dim 0 cs (replicate dim f32_zero))) = dim)
    by (by rewrite normalize_length, bump_all_length, length_replicate).
  destruct dim as [|dim], cs as [|z cs]; intros [-> ->]; splits; try done; try naive_solver.
Qed.

(** ** Identifiers *)

(** The id is a function of the clock reading, and the version and variant bits
    overwrite bits 52 to 55, 70 and 71 of it: readings that differ only there,
    2^52 ns (52 days) apart for instance, give the same id. *)
Lemma uuid_overwritten_bits n m :
  (forall i, 0 <= i < 128 -> ~ (52 <= i < 56) -> ~ (70 <= i < 72) -> Z.testbit n i = Z.testbit m i) ->
  uuid_bytes n = uuid_bytes m.
Proof.
  intros H.
  assert (Hb : forall k w, 0 <= k < 16 -> (forall j, 0 <= j < 8 -> Z.testbit w j = true ->
                ~ (52 <= j + k * 8 < 56) /\ ~ (70 <= j + k * 8 < 72)) ->
               Z.land w 255 = w ->
               Z.land (Z.land (Z.shiftr n (k * 8)) 255) w = Z.land (Z.land (Z.shiftr m (k * 8)) 255) w).
  { intros k w Hk Hw Hw8. apply Z.bits_inj'. intros j Hj. rewrite !Z.land_spec.
    destruct (Z.testbit w j) eqn:E; [|by rewrite !andb_false_r].
    assert (j < 8).
    { destruct (Z_lt_dec j 8); [done|]. rewrite <- Hw8, Z.land_spec in E.
      change 255 with (Z.ones 8) in E. rewrite Z.ones_spec_high, andb_false_r in E by lia. done. }
    destruct (Hw j ltac:(lia) E). rewrite !Z.shiftr_spec by lia. rewrite H by lia. done. }
  assert (Hf : forall k, 0 <= k < 16 -> k <> 6 -> k <> 8 ->
               Z.land (Z.shiftr n (k * 8)) 255 = Z.land (Z.shiftr m (k * 8)) 255).
  { intros k Hk H6 H8. pose proof (Hb k 255 Hk) as Hx.
    rewrite <- !Z.land_assoc in Hx. change (Z.land 255 255) with 255 in Hx.
    apply Hx; [|done]. intros; lia. }
  assert (H6 : forall j, 0 <= j < 8 -> Z.testbit 15 j = true -> j < 4).
  { intros j Hj Ej. destruct (Z_lt_dec j 4); [done|].
    change 15 with (Z.ones 4) in Ej. by rewrite Z.ones_spec_high in Ej by lia. }
  assert (H8 : forall j, 0 <= j < 8 -> Z.testbit 63 j = true -> j < 6).
  { intros j Hj Ej. destruct (Z_lt_dec j 6); [done|].
    change 63 with (Z.ones 6) in Ej. by rewrite Z.ones_spec_high in Ej by lia. }
  unfold uuid_bytes. cbv beta zeta.
  rewrite (Hf 0), (Hf 1), (Hf 2), (Hf 3), (Hf 4), (Hf 5), (Hf 7), (Hf 9), (Hf 10), (Hf 11), (Hf 12),
    (Hf 13), (Hf 14), (Hf 15), (Hb 6 15), (Hb 8 63); try done; try lia.
  - intros j Hj Ej. specialize (H8 j Hj Ej). lia.
  - intros j Hj Ej. specialize (H6 j Hj Ej). lia.
Qed.

End lemmas.

(** ** Claims *)

Section memory_claims.
Context {J : SerdeJson} (embedding_provider : EmbeddingProvider).


(** What [recall] does.  It answers the query of the long-term memory for
    the embedding of its text, or the embedding's error and changes nothing; the
    memories keep every entry with its content, embedding and tags, in place. *)
Theorem recall_effect text limit min_score s tr r :
  runs (recall embedding_provider text limit min_score s) tr r ->
  match r with
  | Done (Ok res, s') =>
      (exists q t1 t2, tr = t1 ++ t2 /\ runs (get_embedding embedding_provider text) t1 (Done (Ok q))
                       /\ res = LongTerm.query q limit min_score (long_term s))
      /\ Forall2 same_memory (LongTerm.entries (long_term s)) (LongTerm.entries (long_term s'))
      /\ short_term s' = short_term s /\ episodic s' = episodic s
  | Done (Err _, s') => s' = s
  | Aborted => runs (get_embedding embedding_provider text) tr Aborted
  end.
Proof.
  unfold recall. intros [([q|e] & t1 & t2 & -> & H1 & H2)|[H1 ->]]%runs_bind; [| |done].
  2:{ by destruct H2 as [-> ->]. }
  apply runs_bind in H2 as [(lt & t3 & t4 & -> & H3 & [-> ->])|[H3 ->]].
  - apply touch_results_same in H3 as (lt' & [= ->] & Hl). splits; try done. rewrite app_nil_r. eauto 10.
  - by apply touch_results_same in H3 as (? & ? & _).
Qed.

(** What [consolidate] does.  It does nothing unless the buffer is full and
    longer than what is to be kept; otherwise the older messages leave the buffer,
    the recent ones stay, and on success exactly one long-term entry is added, the
    digest of the removed messages.  When the embedding fails the removed messages
    are in no memory. *)
Theorem consolidate_effect keep s tr r :
  runs (consolidate embedding_provider keep s) tr r ->
  let msgs := ShortTerm.messages (short_term s) in
  let n := (length msgs - keep)%nat in
  if ShortTerm.needs_consolidation (short_term s) && (0 <? n)%nat then
    match r with
    | Done (res, s') =>
        ShortTerm.messages (short_term s') = drop n msgs
        /\ ShortTerm.max_messages (short_term s') = ShortTerm.max_messages (short_term s)
        /\ episodic s' = episodic s
        /\ match res with
           | Ok None => False
           | Ok (Some id) => exists v now, long_term s' =
               LongTerm.insert (LongTerm.mkEntry id (digest_of (take n msgs)) v now now 1
                 ["consolidation_summary"] {[ "source" := "consolidation" ]}) (long_term s)
           | Err _ => long_term s' = long_term s
           end
    | Aborted => runs (get_embedding embedding_provider (digest_of (take n msgs))) tr Aborted
    end
  else tr = [] /\ r = Done (Ok None, s).
Proof.
  unfold consolidate, ShortTerm.truncate_older. cbv zeta.
  set (msgs := ShortTerm.messages (short_term s)).
  destruct (ShortTerm.needs_consolidation _); cbn [negb andb]; [|by intros [-> ->]].
  destruct (Nat.leb_spec (length msgs) keep) as [Hle|Hlt].
  { replace (length msgs - keep)%nat with 0%nat by lia. by intros [-> ->]. }
  destruct (Nat.ltb_spec 0 (length msgs - keep)) as [Hpos|]; [|lia].
  set (n := (length msgs - keep)%nat) in *.
  destruct (take n msgs) as [|m old] eqn:Ht.
  { apply (f_equal length) in Ht. rewrite length_take in Ht. cbn in Ht. lia. }
  cbv iota beta. rewrite <- Ht.
  intros [([v|e] & t1 & t2 & -> & H1 & H2)|[H1 ->]]%runs_bind; [| |done].
  - cbn in H2. destruct H2 as (u & t3 & -> & w & t4 & -> & -> & ->). cbn. splits; eauto.
  - destruct H2 as [-> ->]. by splits.
Qed.

End memory_claims.

(** ** Examples *)

Section examples.
#[local] Instance memory_serde : SerdeJson := toy_serde no_parse no_parse no_parse no_parse.

(** A fixed clock; the endpoint refuses. *)
Definition memory_env (o : mop) (u : unit) : mans o * unit :=
  (match o return mans o with
   | SystemNow => 1700000000000000000
   | PostEmbeddings _ _ _ _ => SendError "refused"
   end, u).

Definition demo_message (c : string) : ShortTerm.Message :=
  ShortTerm.mkMessage ShortTerm.User c 1700000000000 ∅.

Definition demo_memory : AgentMemorySystem :=
  mkSystem (ShortTerm.mkMemory [demo_message "Hello"; demo_message "Analyze Solana state"; demo_message "Go"] 3)
    LongTerm.new Episodic.new.

Lemma consolidate_effect_witness :
  let p := LocalEmbeddingProvider 16 in
  let t := run memory_env (consolidate p 1 demo_memory) tt in
  exists res s', snd (fst t) = Done (res, s')
    /\ ShortTerm.messages (short_term s') = [demo_message "Go"] /\ LongTerm.size (long_term s') = 1%nat.
Proof.
  cbn zeta.
  pose proof (consolidate_effect (LocalEmbeddingProvider 16) 1 demo_memory _ _
                (run_trace memory_env _ tt)) as H.
  change (ShortTerm.needs_consolidation (short_term demo_memory)
    && (0 <? length (ShortTerm.messages (short_term demo_memory)) - 1)%nat) with true in H. cbv iota in H.
  set (o := snd (fst (run memory_env (consolidate (LocalEmbeddingProvider 16) 1 demo_memory) tt))) in *.
  destruct o as [[res s']|] eqn:E; [|vm_compute in E; discriminate].
  exists res, s'. splits; [done|exact (proj1 H)|].
  destruct H as (_ & _ & _ & H). destruct res as [[id|]|e]; [|done|vm_compute in E; discriminate].
  destruct H as (v & now & ->). reflexivity.
Defined.

(** The system after remembering one fact. *)
Definition demo_recalling : AgentMemorySystem :=
  match snd (fst (run memory_env (remember_fact (LocalEmbeddingProvider 16) "Solana" [] ∅ demo_memory) tt)) with
  | Done (_, s) => s
  | Aborted => demo_memory
  end.

Definition demo_recall :=
  fst (run memory_env (recall (LocalEmbeddingProvider 16) "Solana" 10 f32_zero demo_recalling) tt).

Lemma recall_effect_witness :
  exists res s', snd demo_recall = Done (Ok res, s') /\ length res = 1%nat
    /\ Forall2 same_memory (LongTerm.entries (long_term demo_recalling)) (LongTerm.entries (long_term s')).
Proof.
  pose proof (recall_effect (LocalEmbeddingProvider 16) "Solana" 10 f32_zero demo_recalling _ _
                (run_trace memory_env _ tt)) as H.
  change (snd (fst (run memory_env (recall (LocalEmbeddingProvider 16) "Solana" 10 f32_zero demo_recalling) tt)))
    with (snd demo_recall) in H.
  destruct (snd demo_recall) as [[[res|e] s']|] eqn:E; [|vm_compute in E; discriminate..].
  exists res, s'. splits; [done| |exact (proj1 (proj2 H))].
  vm_compute in E. injection E as <- <-. reflexivity.
Defined.

(** Rounding takes the similarity of a vector with itself above one. *)
Example self_similarity_above_one :
  match snd (fst (run memory_env (local_get_embedding 10 "hello") tt)) with
  | Done (Ok v) => f32_gt (cosine_similarity v v) f32_one
  | _ => false
  end = true.
Proof. vm_compute. reflexivity. Qed.

End examples.
