(* ===== verification/MemoryLocks.v ===== *)
(** * The agent memory under concurrency

    [AgentMemory] runs one method at a time.  Here every method of
    [AgentMemorySystem] is the sequence of its lock operations: [write().await] on
    one of the three locks, the accesses to the memory behind it, and the drop of
    the guard, which happens at the end of its scope on return, on [?] and on a
    panic alike.  Any number of calls interleave at these points.  All guards the
    methods take are write guards, so a lock has at most one holder; [consolidate]
    keeps the short-term lock over its embedding request and takes the long-term
    lock while it holds it, and no method takes locks in another order. *)

From S2P Require Import Prelude RustStd Effects External Fixtures F32 AgentMemory.
From Stdlib Require String.
Import String.StringSyntax.

Local Open Scope Z_scope.

Inductive mem : Type := ShortMem | LongMem | EpisodicMem.

#[export] Instance mem_eq_dec : EqDecision mem.
Proof. solve_decision. Defined.

(** The order in which locks may be taken. *)
Definition lock_rank (m : mem) : nat :=
  match m with ShortMem => 0 | LongMem => 1 | EpisodicMem => 2 end.

(** [drop] of a guard at the end of [p]'s scope, however [p] ends. *)
Fixpoint finally {Op : Type} {Ans : Op -> Type} {A : Type} (p : prog Ans A) (drop : prog Ans unit) : prog Ans A :=
  match p with
  | Ret a => bind drop (fun _ => Ret a)
  | Panic => bind drop (fun _ => Panic)
  | Vis o k => Vis o (fun x => finally (k x) drop)
  end.

#[export] Instance role_eq_dec : EqDecision ShortTerm.MessageRole.
Proof. solve_decision. Defined.

#[export] Instance message_eq_dec : EqDecision ShortTerm.Message.
Proof. solve_decision. Defined.

Section methods.
Context {J : SerdeJson}.

Definition contents (m : mem) : Type :=
  match m with
  | ShortMem => ShortTerm.memory
  | LongMem => LongTerm.memory
  | EpisodicMem => Episodic.memory
  end.

(** [Lock m] answers what the guard gives access to; the others act on the memory
    in place. *)
Inductive mlop : Type :=
| Mem (o : mop)
| Lock (m : mem)
| Unlock (m : mem)
| PushMessage (msg : ShortTerm.Message)
| TruncateOlder (keep : nat)
| InsertEntry (e : LongTerm.MemoryEntry)
| TouchEntry (id : string) (now : Z)
| PushEpisode (e : Episodic.Episode).

Definition mlans (o : mlop) : Type :=
  match o with
  | Mem o => mans o
  | Lock m => contents m
  | TruncateOlder _ => list ShortTerm.Message
  | _ => unit
  end.

Definition lift {A : Type} (p : prog mans A) : prog mlans A := interp (fun o => call (Ans := mlans) (Mem o)) p.

Definition locked_add_message (r : ShortTerm.MessageRole) (c : string) (md : gmap string string) : prog mlans unit :=
  do! call (Ans := mlans) (Lock ShortMem) ;;
  finally
    (now <~ lift current_time_ms ;;
     call (Ans := mlans) (PushMessage (ShortTerm.mkMessage r c now md)))
    (call (Ans := mlans) (Unlock ShortMem)).

Context (embedding_provider : EmbeddingProvider).

Definition locked_remember_fact (fact : string) (tags : list string) (md : gmap string string)
  : prog mlans (result string MemoryError) :=
  r <~ lift (get_embedding embedding_provider fact) ;;
  match r with
  | Err e => Ret (Err e)
  | Ok embedding =>
      id <~ lift uuid_v4_placeholder ;;
      now <~ lift current_time_ms ;;
      let entry := LongTerm.mkEntry id fact embedding now now 1 tags md in
      do! call (Ans := mlans) (Lock LongMem) ;;
      finally (do! call (Ans := mlans) (InsertEntry entry) ;; Ret (Ok id)) (call (Ans := mlans) (Unlock LongMem))
  end.

(** The touch loop; no touch changes which ids are present. *)
Fixpoint locked_touches (l : list (LongTerm.MemoryEntry * f32)) (lt : LongTerm.memory) : prog mlans unit :=
  match l with
  | [] => Ret tt
  | (e, _) :: l =>
      match find (fun x => String.eqb (LongTerm.id x) (LongTerm.id e)) (LongTerm.entries lt) with
      | Some _ =>
          now <~ lift current_time_ms ;;
          do! call (Ans := mlans) (TouchEntry (LongTerm.id e) now) ;;
          locked_touches l lt
      | None => locked_touches l lt
      end
  end.

Definition locked_recall (query : string) (limit : nat) (min_score : f32)
  : prog mlans (result (list (LongTerm.MemoryEntry * f32)) MemoryError) :=
  r <~ lift (get_embedding embedding_provider query) ;;
  match r with
  | Err e => Ret (Err e)
  | Ok query_embedding =>
      lt <~ call (Ans := mlans) (Lock LongMem) ;;
      finally
        (let results := LongTerm.query query_embedding limit min_score lt in
         do! locked_touches results lt ;;
         Ret (Ok results))
        (call (Ans := mlans) (Unlock LongMem))
  end.

Definition locked_consolidate (keep_recent : nat) : prog mlans (result (option string) MemoryError) :=
  st <~ call (Ans := mlans) (Lock ShortMem) ;;
  finally
    (if negb (ShortTerm.needs_consolidation st) then Ret (Ok None)
     else
       truncated <~ call (Ans := mlans) (TruncateOlder keep_recent) ;;
       match (truncated : list ShortTerm.Message) with
       | [] => Ret (Ok None)
       | _ :: _ =>
           let digest := digest_of truncated in
           r <~ lift (get_embedding embedding_provider digest) ;;
           match r with
           | Err e => Ret (Err e)
           | Ok embedding =>
               id <~ lift uuid_v4_placeholder ;;
               now <~ lift current_time_ms ;;
               do! call (Ans := mlans) (Lock LongMem) ;;
               finally
                 (do! call (Ans := mlans) (InsertEntry (LongTerm.mkEntry id digest embedding now now 1
                        ["consolidation_summary"] {[ "source" := "consolidation" ]})) ;;
                  Ret (Ok (Some id)))
                 (call (Ans := mlans) (Unlock LongMem))
           end
       end)
    (call (Ans := mlans) (Unlock ShortMem)).

Definition locked_record_episode (task : string) (steps : list Episodic.EpisodeStep) (success : bool)
    (reward : option f32) : prog mlans string :=
  id <~ lift uuid_v4_placeholder ;;
  now <~ lift current_time_ms ;;
  let episode := Episodic.mkEpisode id task steps success reward now in
  do! call (Ans := mlans) (Lock EpisodicMem) ;;
  do! finally (call (Ans := mlans) (PushEpisode episode)) (call (Ans := mlans) (Unlock EpisodicMem)) ;;
  Ret id.

(** ** A pool of calls *)

Inductive mcall : Type :=
| AddMessage (r : ShortTerm.MessageRole) (c : string) (md : gmap string string)
| RememberFact (fact : string) (tags : list string) (md : gmap string string)
| Recall (query : string) (limit : nat) (min_score : f32)
| Consolidate (keep_recent : nat)
| RecordEpisode (task : string) (steps : list Episodic.EpisodeStep) (success : bool) (reward : option f32).

Inductive mreply : Type :=
| Added
| Remembered (r : result string MemoryError)
| Recalled (r : result (list (LongTerm.MemoryEntry * f32)) MemoryError)
| Consolidated (r : result (option string) MemoryError)
| Recorded (id : string).

Definition mcall_prog (c : mcall) : prog mlans mreply :=
  match c with
  | AddMessage r c md => do! locked_add_message r c md ;; Ret Added
  | RememberFact fact tags md => r <~ locked_remember_fact fact tags md ;; Ret (Remembered r)
  | Recall query limit min_score => r <~ locked_recall query limit min_score ;; Ret (Recalled r)
  | Consolidate keep => r <~ locked_consolidate keep ;; Ret (Consolidated r)
  | RecordEpisode task steps success reward => id <~ locked_record_episode task steps success reward ;; Ret (Recorded id)
  end.

(** The memories and which locks are taken. *)
Record mstate := mkMState { memories : AgentMemorySystem; locked : mem -> bool }.

Definition set_lock (m : mem) (b : bool) (f : mem -> bool) : mem -> bool :=
  fun m' => if decide (m' = m) then b else f m'.

Definition content_of (s : AgentMemorySystem) (m : mem) : contents m :=
  match m with
  | ShortMem => short_term s
  | LongMem => long_term s
  | EpisodicMem => episodic s
  end.

Definition mlock_sem (s : mstate) (o : mlop) : mlans o -> mstate -> Prop :=
  let y := memories s in
  match o with
  | Mem _ => fun _ s' => s' = s
  | Lock m => fun x s' => locked s m = false /\ x = content_of y m /\ s' = mkMState y (set_lock m true (locked s))
  | Unlock m => fun _ s' => s' = mkMState y (set_lock m false (locked s))
  | PushMessage msg => fun _ s' =>
      s' = mkMState (mkSystem (ShortTerm.mkMemory (ShortTerm.messages (short_term y) ++ [msg])
                                 (ShortTerm.max_messages (short_term y))) (long_term y) (episodic y)) (locked s)
  | TruncateOlder keep => fun x s' =>
      x = fst (ShortTerm.truncate_older keep (short_term y))
      /\ s' = mkMState (mkSystem (snd (ShortTerm.truncate_older keep (short_term y))) (long_term y) (episodic y)) (locked s)
  | InsertEntry e => fun _ s' => s' = mkMState (set_long (LongTerm.insert e (long_term y)) y) (locked s)
  | TouchEntry id now => fun _ s' => s' = mkMState (set_long (LongTerm.touch_entry id now (long_term y)) y) (locked s)
  | PushEpisode e => fun _ s' =>
      s' = mkMState (mkSystem (short_term y) (long_term y) (Episodic.add_episode e (episodic y))) (locked s)
  end.

(** ** Guards *)

(** The locks a call holds, the last one taken first, and what it knows the
    short-term memory to be while it holds its lock. *)
Record guards := mkGuards { held : list mem; view : option ShortTerm.memory }.

Definition no_guards : guards := mkGuards [] None.

Definition push_view (msg : ShortTerm.Message) (c : ShortTerm.memory) : ShortTerm.memory :=
  ShortTerm.mkMemory (ShortTerm.messages c ++ [msg]) (ShortTerm.max_messages c).

Definition lock_view (m : mem) : contents m -> option ShortTerm.memory -> option ShortTerm.memory :=
  match m with
  | ShortMem => fun c _ => Some c
  | _ => fun _ v => v
  end.

(** The discipline of the methods: locks are taken in increasing rank, dropped
    last taken first, and a memory is accessed only under its lock. *)
Definition guards_step (g : guards) (e : event mlans) : option guards :=
  match e with
  | Ev (Mem _) _ => Some g
  | Ev (Lock m) c =>
      if forallb (fun m' => (lock_rank m' <? lock_rank m)%nat) (held g) then
        Some (mkGuards (m :: held g) (lock_view m c (view g)))
      else None
  | Ev (Unlock m) _ =>
      match held g with
      | m' :: l => if decide (m = m') then Some (mkGuards l (if decide (m = ShortMem) then None else view g)) else None
      | [] => None
      end
  | Ev (PushMessage msg) _ => c ← view g; Some (mkGuards (held g) (Some (push_view msg c)))
  | Ev (TruncateOlder keep) _ => c ← view g; Some (mkGuards (held g) (Some (snd (ShortTerm.truncate_older keep c))))
  | Ev (InsertEntry _) _ | Ev (TouchEntry _ _) _ => if bool_decide (LongMem ∈ held g) then Some g else None
  | Ev (PushEpisode _) _ => if bool_decide (EpisodicMem ∈ held g) then Some g else None
  end.

(** All guards are dropped, also on a panic. *)
Definition dropped {A : Type} (g : guards) (r : outcome A) : Prop := g = no_guards.

Lemma obeys_finally {M A : Type} (d : M -> event mlans -> option M) m (p : prog mlans A) (drop : prog mlans unit)
    (G F : M -> outcome A -> Prop) :
  obeys d m p G ->
  (forall m' r, G m' r -> obeys d m' drop (fun m'' r' => r' = Done tt /\ F m'' r)) ->
  obeys d m (finally p drop) F.
Proof.
  intros Hp Hd. revert m Hp. induction p as [a| |o k IH]; intros m; cbn.
  - intros HG. eapply obeys_bind; [by apply (Hd m (Done a))|by intros m' [] [_ ?]|by intros m' [? _]].
  - intros HG. eapply obeys_bind; [by apply (Hd m Aborted)|by intros m' [] [_ ?]|by intros m' [? _]].
  - intros Ho x. specialize (Ho x). destruct (d m (Ev o x)); [|done]. by apply IH.
Qed.

(** Clock readings and embedding requests leave the guards alone. *)
Lemma lift_guards {A : Type} g (p : prog mans A) : obeys guards_step g (lift p) (fun g' _ => g' = g).
Proof. unfold lift. induction p as [a| |o k IH]; cbn; [done|done|]. exact IH. Qed.

(** A scope that holds [m] on top of [g] and drops it. *)
Lemma drop_guards {A : Type} m l v (p : prog mlans A) :
  m <> ShortMem ->
  obeys guards_step (mkGuards (m :: l) v) p (fun g _ => g = mkGuards (m :: l) v) ->
  obeys guards_step (mkGuards (m :: l) v) (finally p (call (Ans := mlans) (Unlock m))) (fun g _ => g = mkGuards l v).
Proof.
  intros Hm Hp. eapply obeys_finally; [exact Hp|]. intros g r ->. cbn. intros [].
  rewrite decide_True, decide_False by done. done.
Qed.

Lemma drop_short {A : Type} c (p : prog mlans A) :
  obeys guards_step (mkGuards [ShortMem] (Some c)) p (fun g _ => held g = [ShortMem]) ->
  obeys guards_step (mkGuards [ShortMem] (Some c)) (finally p (call (Ans := mlans) (Unlock ShortMem))) dropped.
Proof.
  intros Hp. eapply obeys_finally; [exact Hp|]. intros [h v] r. cbn. intros ->. intros []. cbn. done.
Qed.

Lemma touches_guards l lt g :
  LongMem ∈ held g -> obeys guards_step g (locked_touches l lt) (fun g' _ => g' = g).
Proof.
  intros Hl. induction l as [|[e sc] l IH]; cbn [locked_touches]; [done|].
  destruct (find _ _); [|exact IH]. eapply obeys_bind; [apply lift_guards| |by intros ? ->].
  intros g' now ->. cbn. intros []. by rewrite bool_decide_true.
Qed.

Lemma insert_guards {A : Type} e (a : A) l v :
  obeys guards_step (mkGuards (LongMem :: l) v) (do! call (Ans := mlans) (InsertEntry e) ;; Ret a)
    (fun g _ => g = mkGuards (LongMem :: l) v).
Proof. cbn. intros []. rewrite bool_decide_true by (by left). done. Qed.

Lemma consolidate_guards keep : obeys guards_step no_guards (locked_consolidate keep) dropped.
Proof.
  cbn [locked_consolidate call bind obeys]. intros c. cbn [guards_step no_guards held forallb view].
  apply drop_short. destruct (ShortTerm.needs_consolidation c); cbn [negb]; [|done].
  cbn [call bind obeys]. intros l. cbn [guards_step view mbind option_bind held]. destruct l as [|m l]; [done|].
  eapply obeys_bind; [apply lift_guards| |by intros ? ->]. intros ? [v|e] ->; [|done].
  eapply obeys_bind; [apply lift_guards| |by intros ? ->]. intros ? id ->.
  eapply obeys_bind; [apply lift_guards| |by intros ? ->]. intros ? now ->.
  cbn [call bind obeys]. intros lt. cbn [guards_step held forallb lock_rank Nat.ltb Nat.leb andb].
  eapply obeys_mono; [apply drop_guards; [done|apply insert_guards]|]. by intros ? ? ->.
Qed.

Lemma mcall_guards c : obeys guards_step no_guards (mcall_prog c) dropped.
Proof.
  destruct c; cbn [mcall_prog]; (eapply (obeys_bind _ _ _ _ dropped); [|by intros ? ? ->|done]).
  - cbn [locked_add_message call bind obeys]. intros c0. cbn [guards_step no_guards held forallb view].
    apply drop_short. eapply obeys_bind; [apply lift_guards| |by intros ? ->]. intros ? now ->. cbn. by intros [].
  - eapply obeys_bind; [apply lift_guards| |by intros ? ->]. intros ? [v|e] ->; [|done].
    eapply obeys_bind; [apply lift_guards| |by intros ? ->]. intros ? id ->.
    eapply obeys_bind; [apply lift_guards| |by intros ? ->]. intros ? now ->.
    cbn [call bind obeys]. intros lt. cbn [guards_step no_guards held view forallb]. apply drop_guards; [done|apply insert_guards].
  - eapply obeys_bind; [apply lift_guards| |by intros ? ->]. intros ? [v|e] ->; [|done].
    cbn [call bind obeys]. intros lt. cbn [guards_step no_guards held view forallb]. apply drop_guards; [done|].
    cbn zeta. eapply obeys_bind; [apply touches_guards; by left|by intros ? ? ->|by intros ? ->].
  - apply consolidate_guards.
  - eapply obeys_bind; [apply lift_guards| |by intros ? ->]. intros ? id ->.
    eapply obeys_bind; [apply lift_guards| |by intros ? ->]. intros ? now ->.
    cbn [call bind obeys]. intros ep. cbn [guards_step no_guards held view forallb].
    eapply obeys_bind; [apply drop_guards; [done|]|by intros ? ? ->|by intros ? ->].
    cbn. intros []. rewrite bool_decide_true by (by left). done.
Qed.

(** ** The invariant of the pool *)

(** A taken lock has exactly one holder, and a holder of the short-term lock knows
    what is behind it. *)
Record lock_inv (s : mstate) (gs : list guards) : Prop := {
  li_locked : forall m, locked s m = true <-> exists i g, gs !! i = Some g /\ m ∈ held g;
  li_unique : forall i j g g' m, gs !! i = Some g -> gs !! j = Some g' -> m ∈ held g -> m ∈ held g' -> i = j;
  li_nodup : forall i g, gs !! i = Some g -> NoDup (held g);
  li_view : forall i g, gs !! i = Some g ->
    view g = if decide (ShortMem ∈ held g) then Some (short_term (memories s)) else None
}.

Lemma insert_cases {A : Type} (l : list A) i (x : A) j y :
  <[i := x]> l !! j = Some y -> (j = i /\ y = x) \/ (j <> i /\ l !! j = Some y).
Proof. intros [(-> & -> & _)|[? ?]]%list_lookup_insert_Some; auto. Qed.

Lemma mem_inv_keep s s' gs :
  lock_inv s gs -> locked s' = locked s -> short_term (memories s') = short_term (memories s) -> lock_inv s' gs.
Proof. intros [H1 H2 H3 H4] El Es. split; rewrite ?El, ?Es; done. Qed.

(** The holder changes what is behind the short-term lock. *)
Lemma inv_update s s' gs i g g' :
  lock_inv s gs -> gs !! i = Some g -> ShortMem ∈ held g -> locked s' = locked s -> held g' = held g ->
  view g' = Some (short_term (memories s')) -> lock_inv s' (<[i := g']> gs).
Proof.
  intros [H1 H2 H3 H4] Hi Hs El Eh Ev.
  assert (Hex : forall j x, <[i := g']> gs !! j = Some x -> exists y, gs !! j = Some y /\ held x = held y).
  { intros j x [[-> ->]|[_ ?]]%insert_cases; eauto. }
  split.
  - intros m. rewrite El, H1. split; intros (j & x & Hj & Hm).
    + destruct (decide (j = i)) as [->|Hne].
      * exists i, g'. rewrite list_lookup_insert_eq by (by eapply lookup_lt_Some). rewrite Eh. simplify_eq. done.
      * exists j, x. by rewrite list_lookup_insert_ne.
    + destruct (Hex j x Hj) as (y & Hy & E). rewrite E in Hm. eauto.
  - intros j k x y m Hj Hk Hm Hm'. destruct (Hex j x Hj) as (x' & Hx & E). destruct (Hex k y Hk) as (y' & Hy & E').
    rewrite E in Hm. rewrite E' in Hm'. by eapply H2.
  - intros j x Hj. destruct (Hex j x Hj) as (y & Hy & ->). eauto.
  - intros j x [[-> ->]|[Hne Hj]]%insert_cases; [by rewrite Eh, decide_True|].
    assert (ShortMem ∉ held x) by (intros Hx; by destruct Hne; eapply H2).
    rewrite (H4 _ _ Hj), !decide_False by done. done.
Qed.

Lemma inv_lock s gs i g m :
  lock_inv s gs -> gs !! i = Some g -> locked s m = false -> m ∉ held g ->
  lock_inv (mkMState (memories s) (set_lock m true (locked s)))
    (<[i := mkGuards (m :: held g) (lock_view m (content_of (memories s) m) (view g))]> gs).
Proof.
  intros [H1 H2 H3 H4] Hi Hfree Hm. pose proof (lookup_lt_Some _ _ _ Hi) as Hlt.
  assert (Hno : forall j x, gs !! j = Some x -> m ∉ held x).
  { intros j x Hj Hx. assert (locked s m = true) by (apply H1; eauto). congruence. }
  split; cbn [locked memories].
  - intros m'. unfold set_lock. case_decide as E.
    + subst m'. split; [intros _|done]. eexists i, _. rewrite list_lookup_insert_eq by done. split; [done|]. by left.
    + rewrite H1. split; intros (j & x & Hj & Hx).
      * destruct (decide (j = i)) as [->|Hne].
        -- simplify_eq. eexists i, _. rewrite list_lookup_insert_eq by done. split; [done|]. by right.
        -- exists j, x. by rewrite list_lookup_insert_ne.
      * apply insert_cases in Hj as [[-> ->]|[_ Hj]]; [|eauto]. apply elem_of_cons in Hx as [?|Hx]; [done|eauto].
  - intros j k x y m' [[-> ->]|[Hj Hx]]%insert_cases [[-> ->]|[Hk Hy]]%insert_cases; cbn;
      [done| | |exact (H2 j k x y m' Hx Hy)].
    + intros [->|Ha]%elem_of_cons Hb; [by destruct (Hno k y Hy)|exact (H2 i k g y m' Hi Hy Ha Hb)].
    + intros Ha [->|Hb]%elem_of_cons; [by destruct (Hno j x Hx)|exact (H2 j i x g m' Hx Hi Ha Hb)].
  - intros j x [[-> ->]|[_ Hj]]%insert_cases; [|eauto]. cbn. constructor; [done|eauto].
  - intros j x [[-> ->]|[Hne Hj]]%insert_cases; [|exact (H4 _ _ Hj)]. cbn. rewrite (H4 _ _ Hi).
    destruct m; cbn; [by rewrite decide_True by (by left)|..]; apply decide_ext; rewrite elem_of_cons; naive_solver.
Qed.

Lemma inv_unlock s gs i g m l :
  lock_inv s gs -> gs !! i = Some g -> held g = m :: l ->
  lock_inv (mkMState (memories s) (set_lock m false (locked s)))
    (<[i := mkGuards l (if decide (m = ShortMem) then None else view g)]> gs).
Proof.
  intros [H1 H2 H3 H4] Hi Hh. pose proof (lookup_lt_Some _ _ _ Hi) as Hlt.
  assert (Hm : m ∈ held g) by (rewrite Hh; by left).
  pose proof (H3 _ _ Hi) as Hnd. rewrite Hh, NoDup_cons in Hnd. destruct Hnd as [Hml Hnd].
  assert (Hsub : forall x, x ∈ l -> x ∈ held g) by (intros x; rewrite Hh; by right).
  split; cbn [locked memories].
  - intros m'. unfold set_lock. case_decide as E.
    + subst m'. split; [done|]. intros (j & x & [[-> ->]|[Hne Hj]]%insert_cases & Hx); [done|].
      by destruct Hne; eapply H2.
    + rewrite H1. split; intros (j & x & Hj & Hx).
      * destruct (decide (j = i)) as [->|Hne].
        -- simplify_eq. eexists i, _. rewrite list_lookup_insert_eq by done. split; [done|]. cbn.
           rewrite Hh in Hx. by apply elem_of_cons in Hx as [?|?].
        -- exists j, x. by rewrite list_lookup_insert_ne.
      * apply insert_cases in Hj as [[-> ->]|[_ Hj]]; eauto.
  - intros j k x y m' [[-> ->]|[Hj Hx]]%insert_cases [[-> ->]|[Hk Hy]]%insert_cases Ha Hb; cbn in Ha, Hb; try done.
    + exact (H2 i k g y m' Hi Hy (Hsub _ Ha) Hb).
    + exact (H2 j i x g m' Hx Hi Ha (Hsub _ Hb)).
    + exact (H2 j k x y m' Hx Hy Ha Hb).
  - intros j x [[-> ->]|[_ Hj]]%insert_cases; eauto.
  - intros j x [[-> ->]|[Hne Hj]]%insert_cases; [|exact (H4 _ _ Hj)]. cbn. rewrite (H4 _ _ Hi).
    destruct (decide (m = ShortMem)) as [->|Hne]; [by rewrite decide_False|].
    apply decide_ext. rewrite Hh, elem_of_cons. naive_solver.
Qed.

(** What a thread is told agrees with what it knows. *)
Definition checked_step (g : guards) (e : event mlans) : option guards :=
  match e with
  | Ev (TruncateOlder keep) l =>
      c ← view g;
      if bool_decide (l = fst (ShortTerm.truncate_older keep c)) then guards_step g e else None
  | e => guards_step g e
  end.

Lemma view_short s gs i g c :
  lock_inv s gs -> gs !! i = Some g -> view g = Some c ->
  ShortMem ∈ held g /\ c = short_term (memories s).
Proof. intros HI Hi Hv. rewrite (li_view _ _ HI _ _ Hi) in Hv. case_decide; [|done]. by injection Hv as <-. Qed.

(** Locks taken in increasing rank are new. *)
Lemma ranks_above l m :
  forallb (fun m' => (lock_rank m' <? lock_rank m)%nat) l = true -> forall m', m' ∈ l -> (lock_rank m' < lock_rank m)%nat.
Proof.
  intros Hf m' Hm'. rewrite forallb_forall in Hf. apply list_elem_of_In, Hf, Nat.ltb_lt in Hm'. done.
Qed.

Lemma mem_lock_inv_step s gs i g o x s' g' :
  lock_inv s gs -> gs !! i = Some g -> guards_step g (Ev o x) = Some g' -> mlock_sem s o x s' ->
  lock_inv s' (<[i := g']> gs) /\ checked_step g (Ev o x) = Some g'.
Proof.
  intros HI Hi Hd Hs.
  destruct o as [o|m|m|msg|keep|e|id now|e]; cbn in Hd, Hs |- *.
  - simplify_eq. by rewrite list_insert_id.
  - destruct (forallb _ _) eqn:Hf; [|done]. destruct Hs as (Hfree & -> & ->). simplify_eq. split; [|done].
    apply inv_lock; [done..|]. intros Hm. pose proof (ranks_above _ _ Hf _ Hm). lia.
  - destruct (held g) as [|m' l] eqn:Hh; [done|]. destruct (decide (m = m')) as [<-|]; [|done]. simplify_eq.
    split; [|done]. by apply inv_unlock.
  - destruct (view g) as [c|] eqn:Hv; [|done]. cbn in Hd. simplify_eq.
    destruct (view_short _ _ _ _ _ HI Hi Hv) as [Hm ->]. split; [|done]. by eapply inv_update.
  - destruct (view g) as [c|] eqn:Hv; [|done]. cbn in Hd. simplify_eq.
    destruct (view_short _ _ _ _ _ HI Hi Hv) as [Hm ->]. destruct Hs as [-> ->].
    split; [by eapply inv_update|]. cbn. by rewrite bool_decide_true.
  - case_bool_decide; [|done]. simplify_eq. rewrite list_insert_id by done. split; [by eapply mem_inv_keep|done].
  - case_bool_decide; [|done]. simplify_eq. rewrite list_insert_id by done. split; [by eapply mem_inv_keep|done].
  - case_bool_decide; [|done]. simplify_eq. rewrite list_insert_id by done. split; [by eapply mem_inv_keep|done].
Qed.

Definition pool_ok (s : mstate) (gs : list guards) (ps : list (prog mlans mreply)) : Prop :=
  lock_inv s gs /\ Forall2 (fun g p => obeys guards_step g p dropped) gs ps.

Lemma pool_ok_step s gs ps i o k x s' :
  pool_ok s gs ps -> ps !! i = Some (Vis o k) -> mlock_sem s o x s' ->
  exists g g', gs !! i = Some g /\ checked_step g (Ev o x) = Some g' /\ pool_ok s' (<[i := g']> gs) (<[i := k x]> ps).
Proof.
  intros [HI HF] Hi Hs. destruct (Forall2_lookup_r _ _ _ _ _ HF Hi) as (g & Hg & Hob). specialize (Hob x). cbn [obeys] in Hob.
  destruct (guards_step g (Ev o x)) as [g'|] eqn:Hd; [|done].
  destruct (mem_lock_inv_step _ _ _ _ _ _ _ _ HI Hg Hd Hs) as [HI' Hc].
  exists g, g'. splits; [done|done|]. split; [done|]. by apply Forall2_insert.
Qed.

(** A thread whose next lock, if that is what it waits for, nobody holds. *)
Lemma thread_moves s gs ps i o k :
  pool_ok s gs ps -> ps !! i = Some (Vis o k) ->
  (forall m, o = Lock m -> locked s m = false) -> exists c, pstep mlock_sem (s, ps) c.
Proof.
  intros _ Hi Hfree.
  assert (exists x s', mlock_sem s o x s') as (x & s' & Hs).
  { destruct o as [[|]|m|m|msg|keep|e|id now|e]; cbn; try (by eexists tt, _).
    - by exists 0, s.
    - by exists (SendError ""), s.
    - eexists (content_of (memories s) m), _. split; [by apply Hfree|by split].
    - eexists _, _. by split. }
  eexists. by econstructor.
Qed.

(** The holder of a lock above which no lock is taken can move. *)
Lemma mem_holder_moves s gs ps i g m :
  pool_ok s gs ps -> gs !! i = Some g -> m ∈ held g ->
  (forall m', (lock_rank m < lock_rank m')%nat -> locked s m' = false) -> exists c, pstep mlock_sem (s, ps) c.
Proof.
  intros HP Hi Hm Hup. pose proof HP as [HI HF]. destruct (Forall2_lookup_l _ _ _ _ _ HF Hi) as (p & Hp & Hob).
  destruct p as [a| |o k]; [by rewrite Hob in Hm; apply elem_of_nil in Hm..|].
  eapply thread_moves; [done|done|]. intros m' ->. apply Hup.
  specialize (Hob (content_of (memories s) m')). cbn in Hob. destruct (forallb _ _) eqn:Hf; [|done].
  by eapply ranks_above.
Qed.

Lemma free_or_held s gs m : lock_inv s gs -> locked s m = false \/ exists i g, gs !! i = Some g /\ m ∈ held g.
Proof. intros HI. destruct (locked s m) eqn:E; [right|by left]. by apply (li_locked _ _ HI). Qed.

Lemma mem_pool_progress s gs ps : pool_ok s gs ps -> Forall halted ps \/ exists c, pstep mlock_sem (s, ps) c.
Proof.
  intros HP. pose proof HP as [HI HF].
  destruct (free_or_held s gs EpisodicMem HI) as [He|(i & g & Hi & Hm)].
  2:{ right. eapply mem_holder_moves; [done|done|done|]. intros []; cbn; lia. }
  destruct (free_or_held s gs LongMem HI) as [Hl|(i & g & Hi & Hm)].
  2:{ right. eapply mem_holder_moves; [done|done|done|]. intros []; cbn; [lia|lia|done]. }
  destruct (free_or_held s gs ShortMem HI) as [Hs|(i & g & Hi & Hm)].
  2:{ right. eapply mem_holder_moves; [done|done|done|]. intros []; cbn; [lia|done|done]. }
  destruct (decide (Forall halted ps)) as [|Hh]; [by left|right].
  apply not_Forall_Exists, Exists_exists in Hh as (p & [i Hi]%list_elem_of_lookup & Hp); [|apply _].
  destruct p as [a| |o k]; [by destruct Hp..|]. eapply thread_moves; [done|done|]. by intros [].
Qed.

(** What a whole execution keeps, and each thread's own trace. *)
Lemma pool_pexec s gs ps tr s' ps' :
  pool_ok s gs ps -> pexec mlock_sem (s, ps) tr (s', ps') ->
  exists gs', pool_ok s' gs' ps'
    /\ forall i g, gs !! i = Some g -> is_Some (monitor checked_step g (thread_trace i tr)).
Proof.
  intros HP Hx. remember (s, ps) as c eqn:Hc. remember (s', ps') as c' eqn:Hc'. revert s gs ps HP Hc.
  induction Hx as [c|s0 ps0 j o k x s1 tr c Hj Hsem _ IH]; intros s gs ps HP Hc; simplify_eq.
  - exists gs. split; [done|]. intros i g _. by eexists.
  - destruct (pool_ok_step _ _ _ _ _ _ _ _ HP Hj Hsem) as (g0 & g1 & Hg0 & Hck & HP').
    destruct (IH eq_refl _ _ _ HP' eq_refl) as (gs' & HP'' & Hmon). exists gs'. split; [done|].
    intros i g Hi. unfold thread_trace. rewrite filter_cons. case_decide as E; cbn in E.
    + subst j. simplify_eq. cbn [fmap list_fmap monitor snd]. rewrite Hck. apply Hmon.
      apply list_lookup_insert_eq. by eapply lookup_lt_Some.
    + apply Hmon. by rewrite list_lookup_insert_ne.
Qed.

Lemma pool_halted s gs ps : pool_ok s gs ps -> Forall halted ps -> forall m, locked s m = false.
Proof.
  intros [HI HF] Hh m. destruct (free_or_held s gs m HI) as [?|(i & g & Hi & Hm)]; [done|exfalso].
  destruct (Forall2_lookup_l _ _ _ _ _ HF Hi) as (p & Hp & Hob). rewrite Forall_lookup in Hh. specialize (Hh _ _ Hp).
  destruct p as [a| |]; [..|done]; cbn in Hob; rewrite Hob in Hm; by apply elem_of_nil in Hm.
Qed.

(** A pool of calls on free locks. *)
Definition unlocked (s : AgentMemorySystem) : mstate := mkMState s (fun _ => false).

Lemma pool_start y (calls : list mcall) :
  pool_ok (unlocked y) (replicate (length calls) no_guards) (mcall_prog <$> calls).
Proof.
  split.
  - assert (Hr : forall i g, replicate (length calls) no_guards !! i = Some g -> g = no_guards)
      by (intros i g Hi; by apply lookup_replicate_1 in Hi as [-> _]).
    split; cbn.
    + intros m. split; [done|]. intros (i & g & ->%Hr & Hm). by apply elem_of_nil in Hm.
    + intros i j g g' m ->%Hr _ Hm. by apply elem_of_nil in Hm.
    + intros i g ->%Hr. constructor.
    + by intros i g ->%Hr.
  - apply Forall2_fmap_r, Forall2_replicate_l; [done|]. apply Forall_true. intros c. apply mcall_guards.
Qed.

(** C38: the memory's locks cannot deadlock.  Start any number of calls of the agent
    memory's methods on free locks and interleave them in any order, whatever the
    clock and the embedding service answer, failures and panics of the provider
    included.  From every configuration they reach all of them can be run to their
    end, with the three locks free again; a configuration in which nothing can move
    is one in which all have ended; and no schedule goes on for ever. *)
Theorem memory_locks_live y (calls : list mcall) tr s' ps' :
  pexec mlock_sem (unlocked y, mcall_prog <$> calls) tr (s', ps') ->
  (exists tr2 s2 ps2, pexec mlock_sem (s', ps') tr2 (s2, ps2) /\ Forall halted ps2 /\ forall m, locked s2 m = false)
  /\ ((forall c, ~ pstep mlock_sem (s', ps') c) -> Forall halted ps' /\ forall m, locked s' m = false)
  /\ Acc (flip (pstep mlock_sem)) (s', ps').
Proof.
  intros Hx. destruct (pool_pexec _ _ _ _ _ _ (pool_start y calls) Hx) as (gs & HP & _). splits.
  - destruct (pexec_completes_inv mlock_sem (fun c => exists gs, pool_ok (fst c) gs (snd c))) with (c := (s', ps'))
      as (tr2 & [s2 ps2] & Hx2 & Hh & gs2 & HP2).
    + intros c c' [gs0 HP0] Hst. inversion Hst as [s0 ps0 i o k x s1 Hi Hs]; subst.
      destruct (pool_ok_step _ _ _ _ _ _ _ _ HP0 Hi Hs) as (g & g' & _ & _ & HP1). eauto.
    + intros s0 ps0 [gs0 HP0]. by eapply mem_pool_progress.
    + eauto.
    + exists tr2, s2, ps2. splits; [done|done|]. by eapply pool_halted.
  - intros Hstuck. destruct (mem_pool_progress _ _ _ HP) as [Hh|[c Hc]]; [|by destruct (Hstuck c)].
    split; [done|]. by eapply pool_halted.
  - apply pstep_acc.
Qed.

(** ** Where messages go *)

(** The messages a trace adds to the buffer and drains from it, and the entries it
    puts into the long-term memory. *)
Definition added (u : list (event mlans)) : list ShortTerm.Message :=
  omap (fun e : event mlans => match e with Ev (PushMessage m) _ => Some m | _ => None end) u.

Definition drained (u : list (event mlans)) : list ShortTerm.Message :=
  u ≫= fun e : event mlans => match e with Ev (TruncateOlder _) l => l | _ => [] end.

Definition inserts (u : list (event mlans)) : list LongTerm.MemoryEntry :=
  omap (fun e : event mlans => match e with Ev (InsertEntry e) _ => Some e | _ => None end) u.

Lemma truncate_older_split keep c :
  let n := (length (ShortTerm.messages c) - keep)%nat in
  fst (ShortTerm.truncate_older keep c) = take n (ShortTerm.messages c)
  /\ ShortTerm.messages (snd (ShortTerm.truncate_older keep c)) = drop n (ShortTerm.messages c).
Proof.
  unfold ShortTerm.truncate_older. cbn zeta. destruct (Nat.leb_spec (length (ShortTerm.messages c)) keep); [|done].
  by replace (length (ShortTerm.messages c) - keep)%nat with 0%nat by lia.
Qed.

Lemma messages_conserved s ps tr s' ps' :
  pexec (A := mreply) mlock_sem (s, ps) tr (s', ps') ->
  ShortTerm.messages (short_term (memories s)) ++ added tr.*2
  = drained tr.*2 ++ ShortTerm.messages (short_term (memories s')).
Proof.
  intros Hx. remember (s, ps) as c eqn:Hc. remember (s', ps') as c' eqn:Hc'. revert s ps Hc.
  induction Hx as [c|s0 ps0 i o k x s1 tr c Hi Hsem _ IH]; intros s ps Hc; simplify_eq.
  { cbn. by rewrite app_nil_r. }
  specialize (IH eq_refl _ _ eq_refl).
  destruct o as [o|m|m|msg|keep|e|id now|e]; cbn in Hsem; try (subst s1; exact IH).
  - destruct Hsem as (_ & _ & ->). exact IH.
  - subst s1. cbn [memories short_term ShortTerm.messages] in IH. by rewrite <- app_assoc in IH.
  - change (drained (((i, Ev (TruncateOlder keep) x) :: tr).*2)) with (x ++ drained tr.*2).
    destruct Hsem as [-> ->]. cbn [memories short_term] in IH. destruct (truncate_older_split keep (short_term (memories s))) as [E1 E2].
    rewrite E2 in IH. rewrite E1, <- app_assoc, <- IH, app_assoc, take_drop. done.
Qed.

(** Entries keep their content. *)
Lemma entries_persist s ps tr s' ps' e :
  pexec (A := mreply) mlock_sem (s, ps) tr (s', ps') ->
  e ∈ LongTerm.entries (long_term (memories s)) \/ e ∈ inserts tr.*2 ->
  exists e', e' ∈ LongTerm.entries (long_term (memories s')) /\ same_memory e e'.
Proof.
  intros Hx. remember (s, ps) as c eqn:Hc. remember (s', ps') as c' eqn:Hc'. revert s ps e Hc.
  induction Hx as [c|s0 ps0 i o k x s1 tr c Hi Hsem _ IH]; intros s ps e Hc He; simplify_eq.
  { destruct He as [He|He%elem_of_nil]; [|done]. by exists e. }
  specialize (IH eq_refl s1 (<[i := k x]> ps)).
  assert (Hgo : (exists e1, same_memory e e1 /\ (e1 ∈ LongTerm.entries (long_term (memories s1)) \/ e1 ∈ inserts tr.*2)) ->
                exists e', e' ∈ LongTerm.entries (long_term (memories s')) /\ same_memory e e').
  { intros (e1 & Hs1 & He1). destruct (IH e1 eq_refl He1) as (e' & He' & Hs'). exists e'. split; [done|].
    unfold same_memory in *. naive_solver congruence. }
  apply Hgo. clear Hgo IH.
  destruct o as [o|m|m|msg|keep|e0|id now|e0]; cbn in Hsem, He; try (subst s1; by exists e).
  - destruct Hsem as (_ & _ & ->). by exists e.
  - destruct Hsem as [_ ->]. by exists e.
  - subst s1. exists e. split; [done|]. cbn. rewrite elem_of_app, elem_of_cons in *. naive_solver.
  - subst s1. cbn. destruct He as [He|He]; [|exists e; split; [done|by right]].
    apply list_elem_of_lookup in He as [j Hj].
    destruct (Forall2_lookup_l _ _ _ _ _ (touch_first_same id now _) Hj) as (e1 & He1 & Hs).
    exists e1. split; [done|]. left. by eapply list_elem_of_lookup_2.
Qed.

(** ** A consolidation *)

Lemma runs_finally {A : Type} (p : prog mlans A) m u r :
  runs (finally p (call (Ans := mlans) (Unlock m))) u r -> exists t, u = t ++ [Ev (Unlock m) tt] /\ runs p t r.
Proof.
  revert u. induction p as [a| |o k IH]; intros u; cbn.
  - intros ([] & t & -> & -> & ->). by exists [].
  - intros ([] & t & -> & -> & ->). by exists [].
  - intros (x & t & -> & (t' & -> & Hr)%IH). exists (Ev o x :: t'). split; [done|]. eauto.
Qed.

Lemma lift_runs {A : Type} (p : prog mans A) u r : runs (lift p) u r -> drained u = [] /\ inserts u = [].
Proof.
  unfold lift. revert u. induction p as [a| |o k IH]; intros u; cbn; [by intros [-> _]..|].
  intros (x & t & -> & Hr). cbn. exact (IH x t Hr).
Qed.

Lemma drained_app u v : drained (u ++ v) = drained u ++ drained v.
Proof. apply bind_app. Qed.

Lemma inserts_app u v : inserts (u ++ v) = inserts u ++ inserts v.
Proof. apply omap_app. Qed.

(** What follows the drain of a non-empty batch. *)
Definition store_digest (truncated : list ShortTerm.Message) : prog mlans (result (option string) MemoryError) :=
  r <~ lift (get_embedding embedding_provider (digest_of truncated)) ;;
  match r with
  | Err e => Ret (Err e)
  | Ok embedding =>
      id <~ lift uuid_v4_placeholder ;;
      now <~ lift current_time_ms ;;
      do! call (Ans := mlans) (Lock LongMem) ;;
      finally
        (do! call (Ans := mlans) (InsertEntry (LongTerm.mkEntry id (digest_of truncated) embedding now now 1
               ["consolidation_summary"] {[ "source" := "consolidation" ]})) ;;
         Ret (Ok (Some id)))
        (call (Ans := mlans) (Unlock LongMem))
  end.

Lemma store_digest_runs truncated u r :
  runs (store_digest truncated) u r ->
  drained u = [] /\
  match r with
  | Done (Ok (Some id)) => exists e, inserts u = [e] /\ LongTerm.content e = digest_of truncated /\ LongTerm.id e = id
  | Done (Ok None) => False
  | _ => inserts u = []
  end.
Proof.
  unfold store_digest. intros [([v|e] & t1 & t2 & -> & H1%lift_runs & H2)|[H1%lift_runs ->]]%runs_bind; [| |done].
  2:{ destruct H2 as [-> ->]. rewrite app_nil_r. done. }
  destruct H1 as [D1 I1]. rewrite drained_app, inserts_app, D1, I1. cbn in H2.
  destruct H2 as (n1 & t3 & -> & n2 & t4 & -> & lt & t5 & -> & [] & t6 & -> & [] & t7 & -> & -> & ->). cbn.
  split; [done|]. eauto.
Qed.

Lemma consolidate_runs keep u r :
  runs (locked_consolidate keep) u r -> is_Some (monitor checked_step no_guards u) ->
  exists c u', u = Ev (Lock ShortMem) c :: u' /\
    let msgs := ShortTerm.messages c in
    let n := (length msgs - keep)%nat in
    if ShortTerm.needs_consolidation c && (0 <? n)%nat then
      drained u = take n msgs /\
      match r with
      | Done (Ok (Some id)) => exists e, inserts u = [e] /\ LongTerm.content e = digest_of (take n msgs) /\ LongTerm.id e = id
      | Done (Ok None) => False
      | _ => inserts u = []
      end
    else r = Done (Ok None) /\ drained u = [] /\ inserts u = [].
Proof.
  cbn [locked_consolidate call bind runs]. intros (c & u' & -> & (t & -> & Hr)%runs_finally) Hmon. exists c. eexists.
  split; [done|]. cbn zeta.
  change (drained (Ev (Lock ShortMem) c :: t ++ [Ev (Unlock ShortMem) tt])) with (drained (t ++ [Ev (Unlock ShortMem) tt])).
  change (inserts (Ev (Lock ShortMem) c :: t ++ [Ev (Unlock ShortMem) tt])) with (inserts (t ++ [Ev (Unlock ShortMem) tt])).
  rewrite drained_app, inserts_app. change (drained [Ev (Unlock ShortMem) tt]) with (@nil ShortTerm.Message).
  change (inserts [Ev (Unlock ShortMem) tt]) with (@nil LongTerm.MemoryEntry).
  rewrite !app_nil_r. destruct (ShortTerm.needs_consolidation c) eqn:Hn; cbn [negb andb] in Hr |- *.
  2:{ by destruct Hr as [-> ->]. }
  cbn [call bind runs] in Hr. destruct Hr as (l & t' & -> & Hr).
  cbn in Hmon. destruct (truncate_older_split keep c) as [E1 _]. rewrite E1 in Hmon.
  case_bool_decide as Hl; [|by destruct Hmon]. subst l. clear Hmon E1.
  set (n := (length (ShortTerm.messages c) - keep)%nat) in *.
  destruct (take n (ShortTerm.messages c)) as [|m l] eqn:Et.
  - destruct Hr as [-> ->]. assert (n = 0%nat) as ->; [|done].
    destruct (take_nil_inv _ _ Et) as [?|E]; [done|]. subst n. by rewrite E.
  - destruct (Nat.ltb_spec 0 n) as [_|Hz]; [|by replace n with 0%nat in Et by lia].
    apply (store_digest_runs (m :: l)) in Hr as [D I]. 
    change (drained (Ev (TruncateOlder keep) (m :: l) :: t')) with ((m :: l) ++ drained t').
    change (inserts (Ev (TruncateOlder keep) (m :: l) :: t')) with (inserts t'). rewrite D, app_nil_r. done.
Qed.

Lemma inserts_thread i (tr : list (nat * event mlans)) e : e ∈ inserts (thread_trace i tr) -> e ∈ inserts tr.*2.
Proof.
  unfold inserts. rewrite !list_elem_of_omap. intros (ev & Hev & E). exists ev. split; [|done].
  unfold thread_trace in Hev. apply list_elem_of_fmap in Hev as (l & -> & [_ Hl]%list_elem_of_filter).
  by apply list_elem_of_fmap_2.
Qed.

(** C37: consolidation under concurrency.  In every interleaving of calls of the
    agent memory's methods no message is lost or reordered between the buffer and
    its consolidations: what the buffer held and what was added since is, in order,
    what was drained followed by what it holds now.  And each consolidation acts on
    the buffer as it was when it took the lock, whatever other calls do meanwhile:
    it drains nothing and answers [None] unless that buffer was full and longer than
    what is to be kept; otherwise it drained exactly the older messages, and if it
    answers an id, the long-term memory holds an entry with that id and the digest
    of those messages, while on an error it has stored nothing. *)
Theorem consolidation_atomic y (calls : list mcall) tr s' ps' :
  pexec mlock_sem (unlocked y, mcall_prog <$> calls) tr (s', ps') ->
  ShortTerm.messages (short_term y) ++ added tr.*2 = drained tr.*2 ++ ShortTerm.messages (short_term (memories s'))
  /\ forall i keep res, calls !! i = Some (Consolidate keep) -> ps' !! i = Some (Ret (Consolidated res)) ->
     exists c u, thread_trace i tr = Ev (Lock ShortMem) c :: u /\
       let msgs := ShortTerm.messages c in
       let n := (length msgs - keep)%nat in
       if ShortTerm.needs_consolidation c && (0 <? n)%nat then
         drained (thread_trace i tr) = take n msgs /\
         match res with
         | Ok (Some id) => exists e, e ∈ LongTerm.entries (long_term (memories s'))
             /\ LongTerm.content e = digest_of (take n msgs) /\ LongTerm.id e = id
         | Ok None => False
         | Err _ => inserts (thread_trace i tr) = []
         end
       else res = Ok None /\ drained (thread_trace i tr) = [].
Proof.
  intros Hx. split; [exact (messages_conserved _ _ _ _ _ Hx)|]. intros i keep res Hi Hret.
  destruct (pool_pexec _ _ _ _ _ _ (pool_start y calls) Hx) as (gs & _ & Hmon).
  specialize (Hmon i no_guards (proj2 (lookup_replicate _ _ _ _) (conj eq_refl (lookup_lt_Some _ _ _ Hi)))).
  destruct (pexec_reaches _ _ _ _ _ _ i (mcall_prog (Consolidate keep)) Hx) as (q & Hq & Hr);
    [by rewrite list_lookup_fmap, Hi|].
  assert (q = Ret (Consolidated res)) as -> by congruence.
  destruct (reaches_runs _ _ _ Hr I) as ([a|] & Hrun & Hq'); [injection Hq' as <-|done].
  apply runs_bind in Hrun as [(res' & t1 & t2 & Ht & Hrun & -> & [= <-])|[_ [=]]]. rewrite app_nil_r in Ht. subst t1.
  apply consolidate_runs in Hrun as (c & u & Hu & Hspec); [|done]. exists c, u. split; [done|]. cbn zeta in Hspec |- *.
  destruct (ShortTerm.needs_consolidation c && _); [|by destruct Hspec as ([= ->] & ? & _)].
  destruct Hspec as [Hd Hspec]. split; [done|]. destruct res as [[id|]|e]; [|done|done].
  destruct Hspec as (e & He & Hc & Hid).
  destruct (entries_persist _ _ _ _ _ e Hx) as (e' & He' & E1 & E2 & _); [right|by exists e'; rewrite <- E1, <- E2].
  apply (inserts_thread i). rewrite He. by left.
Qed.

End methods.

(** ** Examples *)

Section examples.
#[local] Existing Instance memory_serde.

(** The lock operations, computed; a taken lock would not be granted again. *)
Definition mlock_env (o : mlop) (s : mstate) : mlans o * mstate :=
  let y := memories s in
  match o with
  | Mem o => (fst (memory_env o tt), s)
  | Lock m => (content_of y m, mkMState y (set_lock m true (locked s)))
  | Unlock m => (tt, mkMState y (set_lock m false (locked s)))
  | PushMessage msg =>
      (tt, mkMState (mkSystem (push_view msg (short_term y)) (long_term y) (episodic y)) (locked s))
  | TruncateOlder keep =>
      (fst (ShortTerm.truncate_older keep (short_term y)),
       mkMState (mkSystem (snd (ShortTerm.truncate_older keep (short_term y))) (long_term y) (episodic y)) (locked s))
  | InsertEntry e => (tt, mkMState (set_long (LongTerm.insert e (long_term y)) y) (locked s))
  | TouchEntry id now => (tt, mkMState (set_long (LongTerm.touch_entry id now (long_term y)) y) (locked s))
  | PushEpisode e => (tt, mkMState (mkSystem (short_term y) (long_term y) (Episodic.add_episode e (episodic y))) (locked s))
  end.

Definition demo_calls : list mcall := [Consolidate 1; RememberFact "Solana" [] ∅; AddMessage ShortTerm.User "Next" ∅].

(** The second call stores its fact while the first holds the short-term lock; the
    third waits for it. *)
Definition demo_schedule : list nat :=
  [0; 0; 1; 1; 1; 1; 1; 0; 0; 0; 0; 0; 0; 2; 2; 2; 2]%nat.

(** Whether a schedule takes only free locks. *)
Fixpoint grants (sched : list nat) (s : mstate) (ps : list (prog mlans mreply)) : bool :=
  match sched with
  | [] => true
  | i :: sched =>
      match ps !! i with
      | Some (Vis o k) =>
          match o with Lock m => negb (locked s m) | _ => true end
          && (let '(x, s') := mlock_env o s in grants sched s' (<[i := k x]> ps))
      | _ => grants sched s ps
      end
  end.

Lemma mlock_env_sem o s :
  match o with Lock m => negb (locked s m) | _ => true end = true ->
  mlock_sem s o (fst (mlock_env o s)) (snd (mlock_env o s)).
Proof. destruct o; cbn; try done. by intros ->%negb_true_iff. Qed.

Lemma grants_pexec sched s ps :
  grants sched s ps = true ->
  let d := schedule mlock_env sched s ps in pexec mlock_sem (s, ps) (fst (fst d)) (snd (fst d), snd d).
Proof.
  revert s ps. induction sched as [|i sched IH]; intros s ps; cbn; [intros _; constructor|].
  destruct (ps !! i) as [[a| |o k]|] eqn:Hi; [by apply IH..| |by apply IH].
  intros [Hg Hgo]%andb_prop. pose proof (mlock_env_sem o s Hg) as Hs.
  destruct (mlock_env o s) as [x s'] eqn:E. cbn in Hs. specialize (IH s' (<[i := k x]> ps) Hgo). cbn in IH.
  destruct (schedule mlock_env sched s' (<[i := k x]> ps)) as [[tr s''] ps']. cbn in *. by econstructor.
Qed.

Definition demo_pool :=
  schedule mlock_env demo_schedule (unlocked demo_memory) (mcall_prog (LocalEmbeddingProvider 16) <$> demo_calls).

Lemma demo_pool_pexec :
  pexec mlock_sem (unlocked demo_memory, mcall_prog (LocalEmbeddingProvider 16) <$> demo_calls)
    (fst (fst demo_pool)) (snd (fst demo_pool), snd demo_pool).
Proof. unfold demo_pool. refine (grants_pexec _ _ _ _). vm_compute. reflexivity. Qed.

Lemma demo_halted : Forall halted (snd demo_pool).
Proof.
  assert (H : forallb (fun p => match p with Vis _ _ => false | _ => true end) (snd demo_pool) = true)
    by (vm_compute; reflexivity).
  apply Forall_forall. intros p Hp. rewrite forallb_forall in H. apply list_elem_of_In in Hp. apply H in Hp.
  by destruct p.
Qed.

(** The id the consolidation answered. *)
Definition demo_id : string :=
  match snd demo_pool !! 0%nat with
  | Some (Ret (Consolidated (Ok (Some id)))) => id
  | _ => ""
  end.

Lemma demo_consolidated : snd demo_pool !! 0%nat = Some (Ret (Consolidated (Ok (Some demo_id)))).
Proof.
  assert (H : match snd demo_pool !! 0%nat with Some (Ret (Consolidated (Ok (Some _)))) => true | _ => false end = true)
    by (vm_compute; reflexivity).
  unfold demo_id. destruct (snd demo_pool !! 0%nat) as [[[| | |[[id|]|]|]| |]|]; done.
Qed.

(** Its buffer was full. *)
Lemma demo_locked :
  match thread_trace 0 (fst (fst demo_pool)) with
  | Ev (Lock ShortMem) c :: _ => ShortTerm.needs_consolidation c && (0 <? length (ShortTerm.messages c) - 1)%nat
  | _ => false
  end = true.
Proof. vm_compute. reflexivity. Qed.

Lemma memory_locks_live_witness :
  Forall halted (snd demo_pool) /\ (forall m, locked (snd (fst demo_pool)) m = false)
  /\ Acc (flip (pstep mlock_sem)) (snd (fst demo_pool), snd demo_pool).
Proof.
  destruct (memory_locks_live (LocalEmbeddingProvider 16) demo_memory demo_calls
    (fst (fst demo_pool)) (snd (fst demo_pool)) (snd demo_pool) demo_pool_pexec) as (_ & Hstuck & Hacc).
  destruct Hstuck as [_ Hfree].
  { intros c Hc. inversion Hc as [s ps i o k x s' Hi Hs]; subst.
    exact (proj1 (Forall_lookup _ _) demo_halted i _ Hi). }
  exact (conj demo_halted (conj Hfree Hacc)).
Defined.

Lemma consolidation_atomic_witness :
  exists c u, thread_trace 0 (fst (fst demo_pool)) = Ev (Lock ShortMem) c :: u
    /\ ShortTerm.needs_consolidation c && (0 <? length (ShortTerm.messages c) - 1)%nat = true
    /\ exists e, e ∈ LongTerm.entries (long_term (memories (snd (fst demo_pool))))
       /\ LongTerm.content e = digest_of (take (length (ShortTerm.messages c) - 1) (ShortTerm.messages c)).
Proof.
  destruct (consolidation_atomic (LocalEmbeddingProvider 16) demo_memory demo_calls
    (fst (fst demo_pool)) (snd (fst demo_pool)) (snd demo_pool) demo_pool_pexec) as [_ H].
  destruct (H 0%nat 1%nat (Ok (Some demo_id)) eq_refl demo_consolidated) as (c & u & Hu & Hspec).
  exists c, u. split; [exact Hu|].
  pose proof demo_locked as Hc. rewrite Hu in Hc. split; [exact Hc|]. cbv zeta in Hspec. rewrite Hc in Hspec.
  destruct Hspec as [_ (e & He & Hce & _)]. exists e. split; [exact He|exact Hce].
Defined.

End examples.
