(* ===== verification/Conformance.v ===== *)
(** * The repository's unit tests

    The test modules of chain-bridge-core, chain-bridge-persistence and
    chain-bridge-api as definitions over the model, each a function of the outside
    code it exercises that says whether all its assertions hold, or panics where an
    [unwrap] does.  Tests of deterministic code are evaluated; tests that rely on a
    hash or a signature scheme are proved for every instance, up to an explicit
    collision, and evaluated with SHA-256.  (The tests of auth.rs and middleware.rs
    are in [Pki].) *)

From S2P Require Import Prelude RustStd Effects Domain External BridgeOps Fixtures AuditStore Identity Pki.
From S2P Require Import Signing Vault Providers Sha256 F32 AgentMemory.
From Stdlib Require String.
Import String.StringSyntax.
Import Errors.

Local Open Scope Z_scope.

(** ** chain-bridge-core/src/error.rs *)

Module ErrorTests.

Definition transient_variants_may_retry : bool :=
  is_transient (ChainClient "rpc timeout") && is_transient (Simulation "blockhash not found")
  && is_transient (Signer "vault 503") && is_transient (Nonce "pool exhausted").

Definition terminal_variants_must_not_retry : bool :=
  negb (is_transient (PolicyRejected "program not allowed"))
  && negb (is_transient (Unauthorized "role denied"))
  && negb (is_transient (InvalidTransaction "bad base64"))
  && negb (is_transient (Audit "hash-chain break")).

Definition display_carries_variant_prefix_and_message : bool :=
  String.eqb (display (PolicyRejected "program X")) "policy rejected: program X"
  && String.eqb (display (Unauthorized "role Y")) "unauthorized: role Y".

Example error_tests_pass :
  transient_variants_may_retry = true /\ terminal_variants_must_not_retry = true
  /\ display_carries_variant_prefix_and_message = true.
Proof. done. Qed.

End ErrorTests.

(** ** chain-bridge-core/src/audit.rs *)

Module AuditTests.

Definition audit_entry : AuditEntry :=
  audit_entry_new "corr-1" "spiffe://gridtokenx.th/prod/trading-service/matcher" "submit"
    (Submitted "sig" 7) 1700000000000.

Section audit_tests.
Context {AH : AuditHashing}.

Definition hash_is_deterministic : bool :=
  let e := audit_entry in
  bool_decide (entry_hash e None = entry_hash e None).

Definition prev_hash_changes_digest : bool :=
  let e := audit_entry in
  let h0 := entry_hash e None in
  let h1 := entry_hash e (Some (mkAuditHash (replicate 32 x01))) in
  bool_decide (h0 <> h1).

Definition field_change_changes_digest : bool :=
  let a := audit_entry in
  let b := mkAuditEntry (prev_hash a) "corr-2" (identity a) (action a) (audit_outcome a) (created_at_ms a) in
  bool_decide (entry_hash a None <> entry_hash b None).

Definition hex_is_64_chars : bool :=
  Nat.eqb (String.length (to_hex (mkAuditHash (replicate 32 xab)))) 64.

End audit_tests.
End AuditTests.

(** ** chain-bridge-persistence/src/postgres_audit.rs *)

Module AuditStoreTests.

Definition store_entry (corr : string) : AuditEntry :=
  audit_entry_new corr "spiffe://gridtokenx.th/prod/trading-service/matcher" "submit"
    (Submitted "s" 1) 1700000000000.

Section audit_store_tests.
Context {AH : AuditHashing}.

Definition in_memory_chains_entries : option bool :=
  let store := InMemory.new in
  t0 ← unwrap (InMemory.latest_hash store);
  let '(r1, store) := InMemory.append (store_entry "c1") store in
  id1 ← unwrap r1;
  l1 ← unwrap (InMemory.latest_hash store);
  tip1 ← l1;
  let '(r2, store) := InMemory.append (store_entry "c2") store in
  id2 ← unwrap r2;
  l2 ← unwrap (InMemory.latest_hash store);
  tip2 ← l2;
  Some (bool_decide (t0 = None) && (id1 =? 1) && (id2 =? 2) && bool_decide (tip1 <> tip2)
        && Nat.eqb (InMemory.len store) 2).

Definition second_entry_links_to_first : option bool :=
  let store := InMemory.new in
  let '(r1, store) := InMemory.append (store_entry "c1") store in
  _ ← unwrap r1;
  tip1 ← unwrap (InMemory.latest_hash store);
  let e2 := store_entry "c2" in
  let expected := entry_hash e2 tip1 in
  let '(r2, store) := InMemory.append e2 store in
  _ ← unwrap r2;
  l ← unwrap (InMemory.latest_hash store);
  Some (bool_decide (l = Some expected)).

End audit_store_tests.
End AuditStoreTests.

Section audit_passes.
Context {AH : AuditHashing}.

(** Two different inputs with one digest. *)
Definition hash_collision : Prop := exists x y, x <> y /\ hashv [x] = hashv [y].

(** Entries whose hashes agree were hashed from the same bytes, or the hash has
    a collision. *)
Lemma entry_hash_input e1 p1 e2 p2 :
  entry_hash e1 p1 = entry_hash e2 p2 ->
  mjoin (hash_input e1 p1) = mjoin (hash_input e2 p2) \/ hash_collision.
Proof.
  unfold entry_hash. intros [= Hh]. rewrite hashv_concat, (hashv_concat (hash_input e2 p2)) in Hh.
  destruct (decide (mjoin (hash_input e1 p1) = mjoin (hash_input e2 p2))) as [E|E]; [by left|right].
  by eexists _, _.
Qed.

(** Digests that differ because the inputs do, within their first 38 bytes. *)
Lemma digests_differ e1 p1 e2 p2 :
  take 38 (mjoin (hash_input e1 p1)) <> take 38 (mjoin (hash_input e2 p2)) ->
  bool_decide (entry_hash e1 p1 <> entry_hash e2 p2) = true \/ hash_collision.
Proof.
  intros Hn. destruct (decide (entry_hash e1 p1 = entry_hash e2 p2)) as [E|E].
  - right. apply entry_hash_input in E as [E|E]; [by rewrite E in Hn|done].
  - left. by apply bool_decide_true.
Qed.

(** The audit tests, for every hash function: those that assert equalities
    hold, those that assert that digests differ hold unless there is a collision. *)
Lemma audit_tests_pass :
  AuditTests.hash_is_deterministic = true
  /\ (AuditTests.prev_hash_changes_digest = true \/ hash_collision)
  /\ (AuditTests.field_change_changes_digest = true \/ hash_collision)
  /\ AuditTests.hex_is_64_chars = true
  /\ AuditStoreTests.second_entry_links_to_first = Some true.
Proof.
  splits.
  - unfold AuditTests.hash_is_deterministic. by rewrite bool_decide_true.
  - apply digests_differ. discriminate.
  - apply digests_differ. discriminate.
  - reflexivity.
  - cbn. by rewrite bool_decide_true.
Qed.

End audit_passes.

(** With SHA-256 all of them hold. *)
Section audit_sha256.
#[local] Existing Instance sha256_hashing.

Example audit_tests_sha256 :
  AuditTests.prev_hash_changes_digest = true /\ AuditTests.field_change_changes_digest = true
  /\ AuditStoreTests.in_memory_chains_entries = Some true.
Proof. vm_compute. splits; reflexivity. Qed.

End audit_sha256.

(** ** chain-bridge-api/src/vault.rs and chain-bridge-persistence/src/vault_signer.rs *)

(** [unwrap] and [expect] in a test that makes calls. *)
Definition unwrapped {Op : Type} {Ans : Op -> Type} {A E : Type} (m : result A E) : prog Ans A :=
  match m with
  | Ok a => Ret a
  | Err _ => Panic
  end.

Definition expected {Op : Type} {Ans : Op -> Type} {A : Type} (m : option A) : prog Ans A :=
  match m with
  | Some a => Ret a
  | None => Panic
  end.

Module VaultTests.
Section vault_tests.
Context {B : Base64}.
Context (pubkey_try_from : bytes -> option Pubkey) (signature_try_from : bytes -> option Signature).
Context {Keypair : Type} (keypair_try_from : bytes -> option Keypair).
Context (keypair_pubkey : Keypair -> Pubkey) (keypair_sign : Keypair -> bytes -> Signature).
(** [Signature::verify(&self, pubkey_bytes, message)]. *)
Context (signature_verify : Signature -> bytes -> bytes -> bool).

Definition test_insecure_pubkey_is_deterministic : prog vans bool :=
  provider <~ Vault.insecure_new keypair_try_from ;;
  let provider := Vault.insecure_provider keypair_pubkey keypair_sign provider in
  r1 <~ provider_public_key provider "any-key" ;;
  pk1 <~ unwrapped r1 ;;
  r2 <~ provider_public_key provider "other-key" ;;
  pk2 <~ unwrapped r2 ;;
  Ret (bool_decide (pk1 = pk2)).

Definition test_insecure_sign_and_verify_roundtrip : prog vans bool :=
  provider <~ Vault.insecure_new keypair_try_from ;;
  let provider := Vault.insecure_provider keypair_pubkey keypair_sign provider in
  let message := as_bytes "test message for signing" in
  r1 <~ provider_sign provider "key" message ;;
  signature <~ unwrapped r1 ;;
  r2 <~ provider_public_key provider "key" ;;
  pubkey <~ unwrapped r2 ;;
  Ret (signature_verify signature (pubkey_bytes pubkey) message).

Definition test_insecure_signature_differs_for_different_messages : prog vans bool :=
  provider <~ Vault.insecure_new keypair_try_from ;;
  let provider := Vault.insecure_provider keypair_pubkey keypair_sign provider in
  r1 <~ provider_sign provider "key" (as_bytes "message A") ;;
  sig_a <~ unwrapped r1 ;;
  r2 <~ provider_sign provider "key" (as_bytes "message B") ;;
  sig_b <~ unwrapped r2 ;;
  Ret (bool_decide (sig_a <> sig_b)).

(** [keypair] is [Keypair::new()]. *)
Definition test_vault_signature_parsing_valid (keypair : Keypair) : option bool :=
  let message := as_bytes "test" in
  let real_sig := keypair_sign keypair message in
  let sig_b64 := b64_encode (sig_bytes real_sig) in
  let vault_format := "vault:v1:" +:+ sig_b64 in
  let parts := split_on ":" vault_format in
  sig_b64_parsed ← last parts;
  sig_bytes ← unwrap (b64_decode sig_b64_parsed);
  recovered ← signature_try_from sig_bytes;
  Some (bool_decide (recovered = real_sig)).

Definition test_vault_signature_parsing_malformed_no_colon : bool :=
  let bad := b64_encode (replicate 64 x00) in
  let parts := split_on ":" bad in
  Nat.eqb (length parts) 1.

(** [test_pk] is [Pubkey::new_unique()]; the test writes the cache itself. *)
Definition test_vault_key_cache_hit_avoids_fetch (test_pk : Pubkey) : prog vans bool :=
  let client := vault_client_new "http://localhost:0" "token" in
  do! call (KeyCacheInsert "test-key" test_pk) ;;
  r <~ Vault.get_public_key pubkey_try_from client "test-key" ;;
  result <~ unwrapped r ;;
  Ret (bool_decide (result = test_pk)).

Definition test_vault_key_cache_miss_would_fetch : prog vans bool :=
  let client := vault_client_new "http://localhost:0" "token" in
  result <~ Vault.get_public_key pubkey_try_from client "nonexistent-key" ;;
  Ret (is_err result).

(** vault_signer.rs: the same two through [VaultProvider], and the port. *)
Definition signer_pubkey_is_deterministic : prog vans bool :=
  provider <~ VaultSigner.insecure_new keypair_try_from ;;
  let provider := VaultSigner.insecure_provider keypair_pubkey keypair_sign provider in
  r1 <~ provider_public_key provider "any-key" ;;
  pk1 <~ unwrapped r1 ;;
  r2 <~ provider_public_key provider "other-key" ;;
  pk2 <~ unwrapped r2 ;;
  Ret (bool_decide (pk1 = pk2)).

Definition signer_sign_and_verify_roundtrip : prog vans bool :=
  provider <~ VaultSigner.insecure_new keypair_try_from ;;
  let provider := VaultSigner.insecure_provider keypair_pubkey keypair_sign provider in
  let message := as_bytes "test message for signing" in
  r1 <~ provider_sign provider "key" message ;;
  signature <~ unwrapped r1 ;;
  r2 <~ provider_public_key provider "key" ;;
  pubkey <~ unwrapped r2 ;;
  Ret (signature_verify signature (pubkey_bytes pubkey) message).

Definition test_signer_port_forwards_to_vault_provider : prog vans bool :=
  provider <~ VaultSigner.insecure_new keypair_try_from ;;
  let provider := VaultSigner.insecure_provider keypair_pubkey keypair_sign provider in
  r1 <~ port_public_key provider "k" ;;
  via_port <~ unwrapped r1 ;;
  r2 <~ provider_public_key provider "k" ;;
  via_legacy <~ unwrapped r2 ;;
  Ret (bool_decide (via_port = via_legacy)).

(** The test vault_signer.rs has of the same parsing. *)
Definition signer_signature_parsing_valid (keypair : Keypair) : option bool :=
  test_vault_signature_parsing_valid keypair.

Definition signer_cache_hit_avoids_fetch (test_pk : Pubkey) : prog vans bool :=
  let client := vault_client_new "http://localhost:0" "token" in
  do! call (KeyCacheInsert "test-key" test_pk) ;;
  r <~ VaultSigner.get_public_key pubkey_try_from client "test-key" ;;
  result <~ unwrapped r ;;
  Ret (bool_decide (result = test_pk)).

End vault_tests.
End VaultTests.

Section vault_passes.
Context {B : Base64} {BL : Base64Laws}.
Context (pubkey_try_from : bytes -> option Pubkey) (signature_try_from : bytes -> option Signature).
Context {Keypair : Type} (keypair_try_from : bytes -> option Keypair).
Context (keypair_pubkey : Keypair -> Pubkey) (keypair_sign : Keypair -> bytes -> Signature).
Context (signature_verify : Signature -> bytes -> bytes -> bool).

(** The development key: the 64 bytes are a keypair, and a keypair's signature
    verifies under its public key. *)
Context (dev : Keypair) (dev_valid : keypair_try_from (byte_of_Z <$> dev_keypair_bytes) = Some dev).
Context (sign_ok : forall k m, signature_verify (keypair_sign k m) (pubkey_bytes (keypair_pubkey k)) m = true).

(** The tests of the development keypair make no call and hold. *)
Lemma insecure_tests_pass :
  VaultTests.test_insecure_pubkey_is_deterministic keypair_try_from keypair_pubkey keypair_sign = Ret true
  /\ VaultTests.test_insecure_sign_and_verify_roundtrip keypair_try_from keypair_pubkey keypair_sign signature_verify = Ret true
  /\ (VaultTests.test_insecure_signature_differs_for_different_messages keypair_try_from keypair_pubkey keypair_sign = Ret true
      \/ keypair_sign dev (as_bytes "message A") = keypair_sign dev (as_bytes "message B"))
  /\ VaultTests.signer_pubkey_is_deterministic keypair_try_from keypair_pubkey keypair_sign = Ret true
  /\ VaultTests.signer_sign_and_verify_roundtrip keypair_try_from keypair_pubkey keypair_sign signature_verify = Ret true
  /\ VaultTests.test_signer_port_forwards_to_vault_provider keypair_try_from keypair_pubkey keypair_sign = Ret true.
Proof.
  unfold VaultTests.test_insecure_pubkey_is_deterministic, VaultTests.test_insecure_sign_and_verify_roundtrip,
    VaultTests.test_insecure_signature_differs_for_different_messages, VaultTests.signer_pubkey_is_deterministic,
    VaultTests.signer_sign_and_verify_roundtrip, VaultTests.test_signer_port_forwards_to_vault_provider,
    VaultSigner.insecure_new, Vault.insecure_new.
  rewrite dev_valid. cbn -[as_bytes]. rewrite !bool_decide_true, !sign_ok by done. splits; try done.
  destruct (decide (keypair_sign dev (as_bytes "message A") = keypair_sign dev (as_bytes "message B"))) as [E|E];
    [by right|left]. by rewrite bool_decide_true.
Qed.

(** The parsing tests hold for every keypair; the fixed prefix is the one Vault
    writes. *)
Lemma parsing_tests_pass k :
  signature_try_from (sig_bytes (keypair_sign k (as_bytes "test"))) = Some (keypair_sign k (as_bytes "test")) ->
  VaultTests.test_vault_signature_parsing_valid signature_try_from keypair_sign k = Some true
  /\ VaultTests.test_vault_signature_parsing_malformed_no_colon = true.
Proof.
  intros Hs. unfold VaultTests.test_vault_signature_parsing_valid, VaultTests.test_vault_signature_parsing_malformed_no_colon.
  set (sb := sig_bytes _) in *. split; [|by rewrite split_on_none by apply b64_no_colon].
  destruct (split_on_app ":" "vault:v1" (b64_encode sb)) as (w & E & _ & _). change ("vault:v1:" +:+ b64_encode sb)%string
    with ("vault:v1" +:+ String ":" (b64_encode sb))%string. rewrite E.
  rewrite split_on_none by apply b64_no_colon. cbn. rewrite b64_decode_encode. cbn. rewrite Hs. cbn.
  by rewrite bool_decide_true.
Qed.

(** The cache tests: with the key in the cache no request is made, whatever HTTP
    would answer; without it a request that fails makes the call fail. *)
Lemma cache_tests_pass test_pk cache tr r cache' :
  (exec vault_sem (VaultTests.test_vault_key_cache_hit_avoids_fetch pubkey_try_from test_pk) cache tr r cache'
   \/ exec vault_sem (VaultTests.signer_cache_hit_avoids_fetch pubkey_try_from test_pk) cache tr r cache' ->
   r = Done true /\ Forall (fun e => match e with Ev (HttpGetKeys _ _) _ => False | _ => True end) tr)
  /\ (exec vault_sem (VaultTests.test_vault_key_cache_miss_would_fetch pubkey_try_from) ∅ tr r cache' ->
      Forall (fun e => match e with Ev (HttpGetKeys _ _) x => is_err x = true | _ => True end) tr -> r = Done true).
Proof.
  split.
  - intros Hx. assert (exec vault_sem (VaultTests.test_vault_key_cache_hit_avoids_fetch pubkey_try_from test_pk) cache tr r cache')
      as (u & s1 & t1 & -> & -> & x & s2 & t2 & [-> ->] & -> & H) by (destruct Hx; done).
    rewrite lookup_insert_eq in H. cbn in H. destruct H as (-> & -> & ->).
    rewrite bool_decide_true by done. split; [done|]. repeat constructor.
  - intros (x & s1 & t1 & [-> ->] & -> & H) HF. rewrite lookup_empty in H. cbn in H.
    destruct H as ([keys|f] & s2 & t2 & -> & -> & H);
      [by inversion HF as [|? ? _ HF']; inversion HF'|]. by destruct H as (-> & -> & ->).
Qed.

End vault_passes.

(** ** chain-bridge-api/src/agent_memory.rs *)

Module MemoryTests.

(** The literals [1e-6] and [0.1], and the operations of the assertions. *)
Definition f32_1e_6 : f32 := SpecFloat.S754_finite false 8796093 (-43).
Definition f32_0_1 : f32 := SpecFloat.S754_finite false 13421773 (-27).
Definition f32_sub : f32 -> f32 -> f32 := SpecFloat.SFsub 24 128.
Definition f32_abs : f32 -> f32 := SpecFloat.SFabs.
Definition f32_neg : f32 -> f32 := SpecFloat.SFopp.

(** [x.abs() < 1e-6]. *)
Definition near_zero (x : f32) : bool := f32_gt f32_1e_6 (f32_abs x).

Definition test_cosine_similarity : bool :=
  let a := [f32_one; f32_zero; f32_zero] in
  let b := [f32_one; f32_zero; f32_zero] in
  let c := [f32_zero; f32_one; f32_zero] in
  let d := [f32_neg f32_one; f32_zero; f32_zero] in
  near_zero (f32_sub (cosine_similarity a b) f32_one)
  && near_zero (f32_sub (cosine_similarity a c) f32_zero)
  && near_zero (f32_add (cosine_similarity a d) f32_one).

(** [==] of two vectors of floats. *)
Definition vec_eq (a b : list f32) : bool :=
  Nat.eqb (length a) (length b) && forallb (fun x => f32_eq (fst x) (snd x)) (zip a b).

Section memory_tests.
Context {J : SerdeJson}.

Definition test_local_embedding_provider : prog mans bool :=
  let provider := LocalEmbeddingProvider 10 in
  r1 <~ get_embedding provider "hello" ;;
  emb1 <~ unwrapped r1 ;;
  r2 <~ get_embedding provider "hello" ;;
  emb2 <~ unwrapped r2 ;;
  r3 <~ get_embedding provider "world" ;;
  emb3 <~ unwrapped r3 ;;
  Ret (Nat.eqb (length emb1) 10 && vec_eq emb1 emb2
       && near_zero (f32_sub (cosine_similarity emb1 emb2) f32_one)
       && negb (vec_eq emb1 emb3)).

Definition test_agent_memory_system : prog mans bool :=
  let provider := LocalEmbeddingProvider 16 in
  let system := system_new 3 in
  system <~ system_add_message ShortTerm.User "Hello world" ∅ system ;;
  system <~ system_add_message ShortTerm.Assistant "Greetings! How can I help you?" ∅ system ;;
  let a1 := Nat.eqb (ShortTerm.len (short_term system)) 2
            && negb (ShortTerm.needs_consolidation (short_term system)) in
  system <~ system_add_message ShortTerm.User "Analyze Solana state" ∅ system ;;
  let a2 := ShortTerm.needs_consolidation (short_term system) in
  x <~ consolidate provider 1 system ;;
  let '(r, system) := x in
  summary_id <~ unwrapped r ;;
  let a3 := bool_decide (is_Some summary_id) in
  msg <~ expected (ShortTerm.get_messages (short_term system) !! 0%nat) ;;
  let a4 := Nat.eqb (ShortTerm.len (short_term system)) 1
            && String.eqb (ShortTerm.content msg) "Analyze Solana state" in
  let a5 := Nat.eqb (LongTerm.size (long_term system)) 1 in
  x <~ recall provider "Solana" 10 f32_0_1 system ;;
  let '(r, system) := x in
  recall_results <~ unwrapped r ;;
  first <~ expected (recall_results !! 0%nat) ;;
  id <~ expected summary_id ;;
  Ret (a1 && a2 && a3 && a4 && a5 && String.eqb (LongTerm.id (fst first)) id).

Definition test_episodic_memory : prog mans bool :=
  let system := system_new 10 in
  now <~ current_time_ms ;;
  let step1 := Episodic.mkStep "Call get_balance for Pubkey1" "Balance: 15.5 SOL" now ∅ in
  x <~ record_episode "Check user account balance and format response" [step1] true (Some f32_one) system ;;
  let '(_, system) := x in
  let episodes := Episodic.get_episodes (episodic system) in
  ep <~ expected (episodes !! 0%nat) ;;
  Ret (Nat.eqb (length episodes) 1 && Bool.eqb (Episodic.success ep) true
       && match Episodic.reward ep with Some x => f32_eq x f32_one | None => false end).

End memory_tests.
End MemoryTests.

Section memory_passes.
Context {J : SerdeJson}.

Example memory_tests_pure :
  MemoryTests.test_cosine_similarity = true /\ MemoryTests.test_local_embedding_provider = Ret true.
Proof. split; vm_compute; reflexivity. Qed.

(** The episode test makes clock readings only and holds for every clock. *)
Lemma episodic_test_passes tr r :
  runs MemoryTests.test_episodic_memory tr r -> r = Done true.
Proof. cbn. intros (n1 & t1 & -> & n2 & t2 & -> & n3 & t3 & -> & -> & ->). done. Qed.

End memory_passes.

(** The whole-system test, on a fixed clock. *)
Example memory_system_test_passes :
  snd (fst (run memory_env (@MemoryTests.test_agent_memory_system memory_serde) tt)) = Done true.
Proof. vm_compute. reflexivity. Qed.
